(* ===== verification/_CoqProject ===== *)
-Q . S2P
Prelude.v
Interleave.v
Platform.v
GoLib.v
GoPath.v
GoOS.v
GoOSFacts.v
GoOSRun.v
GoEncoding.v
AtomicFile.v
Codec.v
Config.v
Store.v
Migrations.v
StoreFacts.v
StoreSpec.v
MigrationsSpec.v
Bus.v
BusSpec.v
Filesystem.v
FilesystemFacts.v
FilesystemSpec.v
Runtime.v
Resource.v
World.v
Tunnel.v
TunnelFacts.v
TunnelSpec.v
ProcessSpec.v
Orchestrator.v
Requests.v
RequestsSpec.v
OrchestratorSpec.v
Healer.v
ObserverSpec.v
HealerSpec.v
Update.v
UpdateFacts.v
UpdateSpec.v
RollbackSpec.v
Backup.v
BackupFacts.v
BackupSpec.v
BackupRoundtrip.v
Plugin.v
PluginHost.v
PluginSpec.v
PluginRegistry.v
PluginRegistrySpec.v
Security.v
Sftp.v
SftpSpec.v
Agent.v
AgentSpec.v
Observability.v
ObservabilitySpec.v
Api.v
ApiSpec.v
Command.v
CommandSpec.v
Doctor.v
Daemon.v
DoctorSpec.v
DaemonSpec.v
