(* ===== verification/Prelude.v ===== *)
(** * Oikos: a verification library for the node daemon

    Oikos runs game servers on a node.  Its orchestrator creates, starts and stops the
    containers of the servers and recovers those that crash; the tunnel manager gives their
    ports a public address through frpc; the file manager and the SFTP handlers give access
    to their files; backups save and restore those files; the daemon updates itself through
    versioned slots; plugins get the events of the bus.  SQLite holds what must outlive the
    process.  This library models these parts function by function and proves what makes
    each correct.

    ** How the program is modelled

    A method is a computation of the monad [M S]: it takes the state [S] and returns a
    result or a Go error, with the new state, also after an error.  [wp] and [keeps] are
    its total-correctness and its invariance rules.  What the repository calls and does not
    contain (Docker, YAML, JSON, SHA-256, tar, gRPC, the Panel's HTTP answers) is an
    argument, and every call that can fail takes its outcome from a list of injected faults
    in the state: a theorem about all states is a theorem about every failure at every
    step.  Integers are [Z], with the wrap-around of [int64] written out where the code can
    reach it.  A method that holds its mutex throughout is one step.  Those that release their
    lock early or take none, and can overlap, are sequences of steps that a step relation
    interleaves: [Publish] of the bus, the requests of the lifecycle, the crash observer and
    the handlers of the healer, [Stop] and [Reload] of the frpc controller ([Proc] of
    [Interleave]), [DispatchEvent] of the plugins, an upload and its pipe.  The methods of a
    plugin host are one step each; see the end.

    ** The parts, and where they are

    - This file: errors, the monad, its rules, sorting and list lemmas, automation.
      [GoLib]: Go's strings, numbers and regular expressions.  [GoPath]:
      [path/filepath].  [GoOS], [GoOSFacts], [GoOSRun]: a file system with directories,
      links, working directory and faulty system calls, behind the calls of [os].
      [AtomicFile]: files replaced through a temporary file.  [GoEncoding]: hexadecimal
      and base64.  [Codec]: a concrete codec for the examples.  [Interleave]: computations
      whose calls interleave, and the rule that proves one of them from the part of the
      state it owns.
    - Operating system ([internal/platform]): [Platform], a table of processes with their
      groups and signals, with what processes do meanwhile.
    - Store ([internal/store], [migrations]): [Store], [Migrations], [StoreFacts],
      [StoreSpec], [MigrationsSpec].  Tables are lists of rows, with the constraints of
      the migrations.
    - Event bus ([internal/orchestrator/eventbus.go], [eventrecorder.go]): [Bus],
      [BusSpec].  The bus is a transition system, since [Publish] sends after it has
      released the lock.
    - Files ([internal/filesystem]): [Filesystem], [FilesystemFacts], [FilesystemSpec];
      the SFTP server and its host key: [Sftp], [SftpSpec].
    - Engines and limits ([internal/runtime], [internal/resource]): [Runtime],
      [Resource].  Configuration and eggs ([internal/config], [internal/egg]): [Config].
    - Tunnels ([internal/tunnel]): [Tunnel], [TunnelFacts], [TunnelSpec]; what becomes of the
      frpc processes when calls overlap and requests end: [ProcessSpec].
    - Orchestrator ([internal/orchestrator]): [World] is the state it shares with the
      tunnel manager and the backups; [Orchestrator], [OrchestratorSpec]; the concurrent
      requests of the lifecycle: [Requests], [RequestsSpec]; the goroutines of the crash
      observer and the healer: [Healer], [ObserverSpec], [HealerSpec].
    - Self-update ([internal/update]): [Update], [UpdateFacts], [UpdateSpec],
      [RollbackSpec].
    - Backups ([internal/backup]): [Backup], [BackupFacts], [BackupSpec],
      [BackupRoundtrip].
    - Plugins ([internal/plugin]): [Plugin] (manifests, proxy), [PluginHost],
      [PluginRegistry], [PluginSpec], [PluginRegistrySpec].
    - Security ([internal/security]): [Security]: pairing tokens, keys, certificates, TLS
      configurations, sandbox profiles.
    - Agent ([internal/agent]): [Agent], [AgentSpec]: pairing with the Panel, heartbeats,
      the command stream and the loop that reconnects.
    - Observability ([internal/observability]): [Observability], [ObservabilitySpec].
    - API ([internal/api]): [Api], [ApiSpec]: the handlers of the gRPC services over the
      lifecycle, the file manager and the store.
    - Command line ([cmd/oikos]): [Command], [CommandSpec] (flags, subcommands, the update);
      [Doctor] (reports), [DoctorSpec]; [Daemon] (how the parts are put together),
      [DaemonSpec].

    The interfaces of the program are classes ([Runtime], [ProcessController],
    [HostLifecycle], [PluginService]); where a client's theorem relies on a law of an
    implementation, the law is a class too ([HostLifecycleOk] for the registry), and the
    implementation is an instance.

    ** What is proved

    - Store: every sequence of operations, whatever statements fail, keeps keys, unique
      ports and references; replacement of members is atomic; deletion cascades; plugins
      round-trip; listing of events is exact; migrations are idempotent.  What a deletion does
      on a connection without the foreign-key pragma is stated too.
    - Bus: capacities and subscriptions in every reachable state, delivery, cancellation,
      what the recorder stores and loses.
    - Platform: ending a process group signals what was started and those of its descendants
      that have not left the group, and nothing else.
    - Files: a client of one server reaches the files of no other and nothing outside,
      reads stay inside, writes are atomic, directory listings by pages are complete.  Over
      SFTP a file changes only for a client that logged in with a key the store held for
      that server; what a put leaves of the old file is stated exactly.
    - Engines and limits: bounds of the statistics, round trip of the limits, the
      startup template against a reference.
    - Tunnels: the configuration is canonical, and is what frpc reads after an operation
      that succeeds, but for a registration that answers with a recorded tunnel; registration
      is idempotent, release complete; how many frpc processes there can be, whatever calls
      overlap; they die with the requests that started them; the supervision and the healer
      end.
    - Orchestrator: requests of different servers, interleaved call by call, keep the store in
      agreement with the engine, and a start and a stop of one server can break it; what a tick
      of the crash observer reports, with anything between its calls; the back-off is exponential and bounded; the handlers of the healer, in any
      interleaving, restart a server a bounded number of times; what the observer takes for
      a crash and what it misses is shown on runs; deletion can be repeated.
    - Self-update: an update is atomic at every fault, rollback swaps the slots, retention
      removes no slot in use.
    - Backups: extraction is confined, a restoration is safe at every fault, an archive
      brings back what it saved.
    - Plugins: only verified plugins within their manifest run; start is all or nothing,
      for one plugin and for all; three failures in a row disable a plugin, and only they,
      however the calls overlap; routes are isolated.
    - Agent: what a pairing leaves when it succeeds and at every failure; the back-off for
      every attempt, the overflowing shifts included; a command is the lifecycle's request.
    - Observability: the health report as a function of the probes that fail; what a scrape
      sees; redaction and rotation of logs.
    - API: an upload is all or nothing and within its limit, and a download sends what was
      uploaded; the handlers that answer wrongly or hang are shown on concrete runs.
    - Command line: flags are read back as written; [server create] is the lifecycle's
      operation; [doctor] reports every line and fails exactly for required checks; the
      endpoints a started daemon serves and the tunnels it forgets; an update never passes
      its own health check.

    ** Bounds and fuel

    [walk] of [GoOS] resolves symbolic links with the limit of the kernel, 40; the walk of a
    directory tree has the number of its nodes as fuel, which no walk exceeds
    ([BackupRoundtrip] proves that the result is complete); polls and retries that the code
    bounds by a clock take the number of turns the clock allows as an argument, and the
    theorems hold for every number.  Other recursions are structural.
    The tunnel healer needs six turns and is proved to end within them.

    ** Not modelled

    Generated code ([gen]); the bytes of HTTP, gRPC, TLS and SSH and the goroutines that only
    move them; the bodies of the libraries, which are parameters.  A file put over SFTP and a write at an
    offset are one step each: two clients that put the same file at once are not interleaved.
    The methods of a plugin host, and those of the registry that start, stop or ask all of
    them, are one step each, although not all hold their lock while they wait for a process;
    the theorem on the dispatch of events holds for every outcome
    they can have.  The store is one connection: [db_fk] says whether the pragma of foreign
    keys is on for it, which is so for the connection that [Open] used, and not for the others
    that [database/sql] opens when statements overlap; the theorems on the store assume the
    first, and [StoreSpec] states what a deletion does on the others.  The number of a process
    is not given to another while its group is signalled.  The Windows variants have the same
    text as the [_unsupported] ones. *)

From stdpp Require Export base list strings gmap sets option numbers sorting.
From Stdlib Require Export ZArith.
From Stdlib Require Import Ascii.

#[global] Open Scope Z_scope.
#[global] Arguments String.append !_ _ : simpl nomatch.

(** Go's [==] on strings. *)
Notation "a =s b" := (String.eqb a b) (at level 70, no associativity).

(** ** Go errors

    [Errorf fmt args] is [errors.New fmt] or [fmt.Errorf(fmt, args...)] without
    a [%w] verb, [Errorw fmt args e] is [fmt.Errorf] with one [%w] operand [e];
    the format string and its operands are kept apart, unrendered.  [EExt]
    is an error value made outside the repository (the SQLite driver, the
    kernel, Docker, the Panel).  Sentinels are the package-level error
    variables that the code compares with [errors.Is]. *)
Inductive sentinel :=
| sql_ErrNoRows | os_ErrNotExist | context_Canceled | io_EOF
| fs_ErrPathOutsideRoot | fs_ErrNotFound | fs_ErrPermission
| fs_ErrServerNotFound | fs_ErrQuotaExceeded
| backup_ErrServerRunning | backup_ErrChecksumMismatch
| resource_ErrNotSupported | security_ErrNotSupported
| security_ErrSandboxUnavailable.

Inductive error :=
| ESentinel (s : sentinel)
| Errorf (fmt : string) (args : list string)
| Errorw (fmt : string) (args : list string) (e : error)
| EExt (what : string).

#[global] Instance sentinel_eq_dec : EqDecision sentinel.
Proof. solve_decision. Defined.

#[global] Instance error_eq_dec : EqDecision error.
Proof. solve_decision. Defined.

(** [errors.Is(err, target)] for a sentinel [target]. *)
Fixpoint errors_Is (e : error) (t : sentinel) : bool :=
  match e with
  | ESentinel s => bool_decide (s = t)
  | Errorw _ _ e' => errors_Is e' t
  | _ => false
  end.

(** ** Results and the state-error monad

    A Go function [func (...) (A, error)] over a mutable state [S] is a
    function of type [M S A]: the state it leaves is returned with the error
    as well, because Go keeps the side effects made before a failing call. *)
Inductive res (A : Type) :=
| Ok (a : A)
| Err (e : error).
Arguments Ok {A} a.
Arguments Err {A} e.

#[global] Instance res_eq_dec {A} `{EqDecision A} : EqDecision (res A).
Proof. solve_decision. Defined.

Definition is_ok {A} (r : res A) : bool :=
  match r with Ok _ => true | Err _ => false end.

Definition M (S A : Type) : Type := S → res A * S.

#[global] Instance M_ret S : MRet (M S) := λ A a s, (Ok a, s).
#[global] Instance M_bind S : MBind (M S) := λ A B k m s,
  match m s with
  | (Ok a, s') => k a s'
  | (Err e, s') => (Err e, s')
  end.

(** [return err] *)
Definition fail {S A} (e : error) : M S A := λ s, (Err e, s).

(** [if b { return err }] *)
Definition fail_if {S} (b : bool) (e : error) : M S unit :=
  if b then fail e else mret tt.

(** [a, err := m()]: the error becomes an ordinary value. *)
Definition try {S A} (m : M S A) : M S (res A) := λ s,
  let '(r, s') := m s in (Ok r, s').

(** [_ = m()] *)
Definition ignore {S A} (m : M S A) : M S unit := λ s,
  let '(_, s') := m s in (Ok tt, s').

(** [if err := m(); err != nil { return fmt.Errorf(fmt + ": %w", err) }] *)
Definition wrap {S A} (fmt : string) (args : list string) (m : M S A) : M S A :=
  λ s, match m s with
       | (Ok a, s') => (Ok a, s')
       | (Err e, s') => (Err (Errorw fmt args e), s')
       end.

(** A [res] that is already known, as a computation. *)
Definition lift_res {S A} (r : res A) : M S A := λ s, (r, s).

Definition gets {S A} (f : S → A) : M S A := λ s, (Ok (f s), s).
Definition modify {S} (f : S → S) : M S unit := λ s, (Ok tt, f s).

(** A computation over a part [T] of a bigger state [S]. *)
Definition zoom {S T A} (get : S → T) (put : T → S → S) (m : M T A) : M S A :=
  λ s, let '(r, t) := m (get s) in (r, put t s).

(** [for _, x := range xs { if err := f(x); err != nil { return err } }] *)
Fixpoint for_each {S A} (f : A → M S unit) (xs : list A) : M S unit :=
  match xs with
  | [] => mret tt
  | x :: xs => f x ;; for_each f xs
  end.

(** ** Faults of the outside world

    Calls that leave the process can fail for reasons that are not in the
    source.  A state that makes such calls carries a list of outcomes:
    each call takes the first one, [Some e] makes it fail with [e], [None]
    (or an exhausted list) lets it proceed. *)
Definition faults : Type := list (option error).

Definition next_fault {A} (fs : list (option A)) : option A * list (option A) :=
  match fs with
  | [] => (None, [])
  | f :: fs => (f, fs)
  end.

(** ** 64-bit integers

    Go's [int], [int64] and [time.Duration] on linux/amd64. *)
Definition wrap64 (z : Z) : Z := (z + 2^63) mod 2^64 - 2^63.

Definition in_int64 (z : Z) : Prop := - 2^63 ≤ z < 2^63.

Definition time_Second : Z := 1000000000.

(** ** Weakest preconditions

    [wp m Q s]: running [m] from [s] ends in a result and a state that
    satisfy [Q].  Computations of [M] always return, so this is total
    correctness. *)
Definition wp {S A} (m : M S A) (Q : res A → S → Prop) (s : S) : Prop :=
  Q (fst (m s)) (snd (m s)).

(** [keeps P m]: [m] preserves [P], whether it fails or not. *)
Definition keeps {S A} (P : S → Prop) (m : M S A) : Prop :=
  ∀ s, P s → P (snd (m s)).

Section WP.
Context {S : Type}.

Lemma wp_eq {A} (m : M S A) Q s r s' :
  m s = (r, s') → wp m Q s ↔ Q r s'.
Proof. unfold wp. intros ->. done. Qed.

Lemma wp_run {A} (m : M S A) (Q : res A → S → Prop) s r s' :
  wp m Q s → m s = (r, s') → Q r s'.
Proof. unfold wp. intros HQ E. rewrite E in HQ. done. Qed.

Lemma bind_Ok {A B} (m : M S A) (k : A → M S B) s a s' :
  m s = (Ok a, s') → (m ≫= k) s = k a s'.
Proof. unfold mbind, M_bind. by intros ->. Qed.

Lemma bind_Err {A B} (m : M S A) (k : A → M S B) s e s' :
  m s = (Err e, s') → (m ≫= k) s = (Err e, s').
Proof. unfold mbind, M_bind. by intros ->. Qed.

Lemma wrap_Ok {A} fmt args (m : M S A) s a s' :
  m s = (Ok a, s') → wrap fmt args m s = (Ok a, s').
Proof. unfold wrap. by intros ->. Qed.

Lemma bind_inv {A B} (m : M S A) (k : A → M S B) s b s' :
  (m ≫= k) s = (Ok b, s') → ∃ a s1, m s = (Ok a, s1) ∧ k a s1 = (Ok b, s').
Proof. unfold mbind, M_bind. destruct (m s) as [[a|e] s1]; [eauto|intros [=]]. Qed.

Lemma wrap_inv {A} fmt args (m : M S A) s a s' :
  wrap fmt args m s = (Ok a, s') → m s = (Ok a, s').
Proof. unfold wrap. destruct (m s) as [[a'|e] s1]; [done|intros [=]]. Qed.

Lemma wp_mono {A} (m : M S A) (Q Q' : res A → S → Prop) s :
  wp m Q s → (∀ r s', Q r s' → Q' r s') → wp m Q' s.
Proof. unfold wp. auto. Qed.

Lemma wp_ret {A} (a : A) Q (s : S) : wp (mret a) Q s = Q (Ok a) s.
Proof. done. Qed.

Lemma wp_fail {A} e (Q : res A → S → Prop) s : wp (fail e) Q s = Q (Err e) s.
Proof. done. Qed.

Lemma wp_bind {A B} (m : M S A) (k : A → M S B) Q s :
  wp (m ≫= k) Q s =
  wp m (λ r s', match r with Ok a => wp (k a) Q s' | Err e => Q (Err e) s' end) s.
Proof.
  unfold wp, mbind, M_bind. destruct (m s) as [[a|e] s']; done.
Qed.

Lemma wp_fail_if b e Q (s : S) :
  wp (fail_if b e) Q s = if b then Q (Err e) s else Q (Ok tt) s.
Proof. by destruct b. Qed.

Lemma wp_try {A} (m : M S A) Q s : wp (try m) Q s = wp m (λ r s', Q (Ok r) s') s.
Proof. unfold wp, try. destruct (m s); done. Qed.

Lemma wp_ignore {A} (m : M S A) Q s :
  wp (ignore m) Q s = wp m (λ _ s', Q (Ok tt) s') s.
Proof. unfold wp, ignore. destruct (m s); done. Qed.

Lemma wp_wrap {A} fmt args (m : M S A) Q s :
  wp (wrap fmt args m) Q s =
  wp m (λ r s', Q (match r with Ok a => Ok a | Err e => Err (Errorw fmt args e) end) s') s.
Proof. unfold wp, wrap. destruct (m s) as [[a|e] s']; done. Qed.

Lemma wp_lift_res {A} (r : res A) Q (s : S) : wp (lift_res r) Q s = Q r s.
Proof. done. Qed.

Lemma wp_gets {A} (f : S → A) Q s : wp (gets f) Q s = Q (Ok (f s)) s.
Proof. done. Qed.

Lemma wp_modify (f : S → S) Q s : wp (modify f) Q s = Q (Ok tt) (f s).
Proof. done. Qed.

Lemma wp_zoom {T A} (get : S → T) (put : T → S → S) (m : M T A) Q s :
  wp (zoom get put m) Q s = wp m (λ r t, Q r (put t s)) (get s).
Proof. unfold wp, zoom. destruct (m (get s)); done. Qed.

Lemma keeps_wp {A} P (m : M S A) :
  keeps P m ↔ ∀ s, P s → wp m (λ _ s', P s') s.
Proof. done. Qed.

Lemma keeps_ret {A} (P : S → Prop) (a : A) : keeps P (mret a).
Proof. intros s Hs. done. Qed.

Lemma keeps_fail {A} (P : S → Prop) e : keeps P (fail (A:=A) e).
Proof. intros s Hs. done. Qed.

Lemma keeps_fail_if (P : S → Prop) b e : keeps P (fail_if b e).
Proof. destruct b; intros s Hs; done. Qed.

Lemma keeps_lift_res {A} (P : S → Prop) (r : res A) : keeps P (lift_res r).
Proof. intros s Hs. done. Qed.

Lemma keeps_gets {A} (P : S → Prop) (f : S → A) : keeps P (gets f).
Proof. intros s Hs. done. Qed.

Lemma keeps_modify (P : S → Prop) (f : S → S) :
  (∀ s, P s → P (f s)) → keeps P (modify f).
Proof. intros Hf s Hs. by apply Hf. Qed.

Lemma keeps_bind {A B} P (m : M S A) (k : A → M S B) :
  keeps P m → (∀ a, keeps P (k a)) → keeps P (m ≫= k).
Proof.
  intros Hm Hk s Hs. specialize (Hm s Hs). unfold mbind, M_bind.
  destruct (m s) as [[a|e] s']; simpl in *; [by apply Hk|done].
Qed.

Lemma keeps_try {A} P (m : M S A) : keeps P m → keeps P (try m).
Proof. intros Hm s Hs. specialize (Hm s Hs). unfold try. by destruct (m s). Qed.

Lemma keeps_ignore {A} P (m : M S A) : keeps P m → keeps P (ignore m).
Proof. intros Hm s Hs. specialize (Hm s Hs). unfold ignore. by destruct (m s). Qed.

Lemma keeps_wrap {A} P fmt args (m : M S A) : keeps P m → keeps P (wrap fmt args m).
Proof.
  intros Hm s Hs. specialize (Hm s Hs). unfold wrap. by destruct (m s) as [[a|e] s'].
Qed.

Lemma keeps_for_each {A} P (f : A → M S unit) xs :
  (∀ x, keeps P (f x)) → keeps P (for_each f xs).
Proof.
  intros Hf. induction xs as [|x xs IH]; simpl.
  - apply keeps_ret.
  - apply keeps_bind; [apply Hf|intros _; apply IH].
Qed.

Lemma keeps_zoom {T A} (P : S → Prop) (get : S → T) put (m : M T A) :
  (∀ s, P s → P (put (snd (m (get s))) s)) → keeps P (zoom get put m).
Proof. intros H s Hs. specialize (H s Hs). unfold zoom. by destruct (m (get s)). Qed.
End WP.

Create HintDb keeps.
#[export] Hint Resolve keeps_ret keeps_fail keeps_fail_if keeps_lift_res keeps_gets
  keeps_try keeps_ignore keeps_wrap keeps_for_each : keeps.
#[export] Hint Extern 2 (keeps _ (_ ≫= _)) => apply keeps_bind : keeps.

#[warnings="-implicit-create-rewrite-hint-db"]
#[export] Hint Rewrite @wp_ret @wp_fail @wp_bind @wp_fail_if @wp_try @wp_ignore @wp_wrap
  @wp_lift_res @wp_gets @wp_modify @wp_zoom : wp.

(** Push [wp] through the monadic structure of the goal. *)
Ltac wp_simpl := autorewrite with wp; simpl.

(** [keeps] goals, by the structure of the computation. *)
Ltac solve_keeps :=
  repeat first
    [ progress intros
    | solve [eauto with keeps]
    | apply keeps_bind
    | apply keeps_try | apply keeps_ignore | apply keeps_wrap | apply keeps_for_each
    | case_match ].

(** Case analysis on the outcome of a computation that occurs in [H]. *)
Ltac run_case H :=
  match type of H with
  | context [match ?m ?s with (_, _) => _ end] =>
      let E := fresh "E" in destruct (m s) as [[?|?] ?] eqn:E; simpl in H
  end.

(** ** Integers *)
Lemma wrap64_id z : in_int64 z → wrap64 z = z.
Proof.
  unfold in_int64, wrap64. intros Hz. rewrite Z.mod_small; lia.
Qed.

Lemma wrap64_range z : in_int64 (wrap64 z).
Proof.
  unfold in_int64, wrap64. pose proof (Z.mod_pos_bound (z + 2^63) (2^64)). lia.
Qed.

(** ** Stable insertion sort

    [sort.Strings], [sort.Slice] and SQL's [ORDER BY]: the code only relies on
    the result being an ordered permutation of the input. *)
Section Sort.
Context {A : Type} (leb : A → A → bool).

Fixpoint insert_sorted (x : A) (xs : list A) : list A :=
  match xs with
  | [] => [x]
  | y :: ys => if leb x y then x :: xs else y :: insert_sorted x ys
  end.

Definition isort (xs : list A) : list A := foldr insert_sorted [] xs.

Lemma insert_sorted_perm x xs : insert_sorted x xs ≡ₚ x :: xs.
Proof.
  induction xs as [|y ys IH]; simpl; [done|].
  destruct (leb x y); [done|]. rewrite IH. by rewrite Permutation_swap.
Qed.

Lemma isort_perm xs : isort xs ≡ₚ xs.
Proof.
  induction xs as [|x xs IH]; simpl; [done|]. by rewrite insert_sorted_perm, IH.
Qed.

Lemma elem_of_isort x xs : x ∈ isort xs ↔ x ∈ xs.
Proof. by rewrite isort_perm. Qed.

Context (Htot : ∀ x y, leb x y = true ∨ leb y x = true).

Lemma insert_sorted_sorted x xs :
  Sorted (λ a b, leb a b = true) xs →
  Sorted (λ a b, leb a b = true) (insert_sorted x xs).
Proof.
  induction 1 as [|y ys Hys IH Hhd]; simpl; [by repeat constructor|].
  destruct (leb x y) eqn:E.
  - constructor; [by constructor|]. by constructor.
  - constructor; [done|].
    assert (leb y x = true) by (destruct (Htot x y); congruence).
    destruct Hhd; simpl; [by constructor|].
    destruct (leb x b); by constructor.
Qed.

Lemma isort_sorted xs : Sorted (λ a b, leb a b = true) (isort xs).
Proof.
  induction xs as [|x xs IH]; simpl; [constructor|]. by apply insert_sorted_sorted.
Qed.
End Sort.
