(* ===== verification/Interleave.v ===== *)
(** * Computations whose calls interleave

    A method that takes no lock of its own, or releases it early, runs between the calls of
    others.  A [Proc] is such a method: a sequence of steps, each a computation of the monad
    [M] that the others see as one.  [alone] runs a [Proc] by itself; [serve] lets any number
    of them run together; [calls] lets anything happen between its calls.  The rule [rg] proves
    one of them from its own part of the state, which it must be alone to change. *)

From S2P Require Import Prelude.

(** ** Definitions *)

Inductive Proc (S A : Type) : Type :=
| Done (r : res A)
| Step (X : Type) (m : M S X) (k : res X → Proc S A).
Arguments Done {S A}.
Arguments Step {S A X}.

#[global] Instance Proc_ret S : MRet (Proc S) := λ A a, Done (Ok a).
#[global] Instance Proc_bind S : MBind (Proc S) := λ A B f,
    fix go p :=
      match p with
      | Done (Ok a) => f a
      | Done (Err e) => Done (Err e)
      | Step m k => Step m (λ r, go (k r))
      end.

Section Proc.
Context {S : Type}.

(** One call. *)
Definition act {A} (m : M S A) : Proc S A := Step m Done.

(** [return err] *)
Definition abort {A} (e : error) : Proc S A := Done (Err e).

(** The loop of [for_each]. *)
Fixpoint for_steps {A} (f : A → Proc S unit) (xs : list A) : Proc S unit :=
  match xs with
  | [] => mret tt
  | x :: xs => f x ;; for_steps f xs
  end.

(** The outcome of [p] as a value. *)
Fixpoint attempt {A} (p : Proc S A) : Proc S (res A) :=
  match p with
  | Done r => Done (Ok r)
  | Step m k => Step m (λ r, attempt (k r))
  end.

(** Nothing else runs. *)
Fixpoint alone {A} (p : Proc S A) : M S A := λ s,
  match p with
  | Done r => (r, s)
  | Step m k => alone (k (fst (m s))) (snd (m s))
  end.

Definition pstep {A} (p : Proc S A) (s : S) : Proc S A * S :=
  match p with
  | Done r => (Done r, s)
  | Step m k => (k (fst (m s)), snd (m s))
  end.
End Proc.

(** [p] on a part of the state. *)
Fixpoint within {S T A} (get : T → S) (put : S → T → T) (p : Proc S A) : Proc T A :=
  match p with
  | Done r => Done r
  | Step m k => Step (zoom get put m) (λ r, within get put (k r))
  end.

(** *** Many at once *)

(** What is being served, each with the key it was asked for. *)
Abbreviation Pool S K A := (list (K * Proc S A)).

Section Serve.
Context {S K A : Type}.

(** When a request may come, and what else happens to the state. *)
Context (joins : Pool S K A → K → Proc S A → Prop) (env : S → S → Prop).

Inductive serve : Pool S K A * S → Pool S K A * S → Prop :=
| serve_start l s k p : joins l k p → serve (l, s) ((k, p) :: l, s)
| serve_step l1 l2 k p s :
      serve (l1 ++ (k, p) :: l2, s) (l1 ++ (k, fst (pstep p s)) :: l2, snd (pstep p s))
| serve_end l1 l2 k r s : serve (l1 ++ (k, Done r) :: l2, s) (l1 ++ l2, s)
| serve_env l s s' : env s s' → serve (l, s) (l, s').
End Serve.

(** The turns a scheduler gives: the request at each position in the pool makes its next step. *)
Definition turn {S K A} (st : Pool S K A * S) (i : nat) : Pool S K A * S :=
    match st.1 !! i with
    | Some (k, p) => (<[i := (k, fst (pstep p st.2))]> st.1, snd (pstep p st.2))
    | None => st
    end.
Definition turns {S K A} (is_ : list nat) (st : Pool S K A * S) : Pool S K A * S := foldl turn st is_.

(** *** Beside anything *)

(** [p] ends with [r]; anything may happen between its calls: the state before and after each. *)
Fixpoint calls {S A} (p : Proc S A) (tr : list (S * S)) (r : res A) : Prop :=
  match p with
  | Done r' => tr = [] ∧ r = r'
  | Step m k =>
      match tr with
      | [] => False
      | (s, s') :: tr => s' = snd (m s) ∧ calls (k (fst (m s))) tr r
      end
  end.

(** *** A proof rule *)

Section Rule.
Context {S K V G : Type}.

(** The part of the state that belongs to a key, given a ghost state [G] that says what belongs
to whom; and what always holds. *)
Context (view : G → S → K → V) (base : G → S → Prop).

(** From any state in which [k] sees [v]: [p] keeps [base], changes what [k] sees only, and ends
with [Q], whatever the others do to their parts meanwhile. *)
Fixpoint rg {A} (k : K) (p : Proc S A) (Q : res A → V → Prop) (v : V) : Prop :=
  match p with
  | Done r => Q r v
  | Step m c => ∀ g s, base g s → view g s k = v →
      ∃ g', base g' (snd (m s)) ∧ (∀ k', k' ≠ k → view g' (snd (m s)) k' = view g s k') ∧
        rg k (c (fst (m s))) Q (view g' (snd (m s)) k)
  end.

(** Every request in progress is proved from what its key sees; what no request works on is [ok]. *)
Definition served {A} (ok : K → V → Prop) (st : Pool S K A * S) : Prop :=
  ∃ g, base g (snd st) ∧ NoDup (fst st).*1 ∧
    (∀ k p, (k, p) ∈ fst st → rg k p (λ _, ok k) (view g (snd st) k)) ∧
    (∀ k, k ∉ (fst st).*1 → ok k (view g (snd st) k)).
End Rule.

(** ** Lemmas *)

Section AloneFacts.
Context {S : Type}.

Lemma alone_bind {A B} (p : Proc S A) (f : A → Proc S B) s :
  alone (p ≫= f) s = (alone p ≫= λ a, alone (f a)) s.
Proof.
  unfold mbind at 2, M_bind. revert s. induction p as [[a|e]|X m k IH]; intros s; [done..|].
  exact (IH _ _).
Qed.

Lemma alone_act {A} (m : M S A) s : alone (act m) s = m s.
Proof. simpl. by destruct (m s). Qed.

Lemma alone_ret {A} (a : A) (s : S) : alone (mret a) s = (Ok a, s).
Proof. done. Qed.

(** A sequence of steps does what a computation does when their parts do. *)
Lemma alone_seq {A B} (p : Proc S A) (m : M S A) (f : A → Proc S B) (g : A → M S B) :
  (∀ s, alone p s = m s) → (∀ a s, alone (f a) s = g a s) → ∀ s, alone (p ≫= f) s = (m ≫= g) s.
Proof.
  intros Hp Hf s. rewrite alone_bind. unfold mbind, M_bind. rewrite Hp.
  destruct (m s) as [[a|e] s']; [apply Hf|done].
Qed.

Lemma alone_for_steps {A} (f : A → Proc S unit) (g : A → M S unit) xs s :
  (∀ a s', alone (f a) s' = g a s') → alone (for_steps f xs) s = for_each g xs s.
Proof.
  intros H. revert s. induction xs as [|x xs IH]; intros s; [done|]. simpl.
  rewrite alone_bind. unfold mbind, M_bind. rewrite H. destruct (g x s) as [[u|e] s']; [apply IH|done].
Qed.

Lemma alone_attempt {A} (p : Proc S A) s : alone (attempt p) s = try (alone p) s.
Proof. unfold try. revert s. induction p as [r|X m k IH]; intros s; [done|]. apply IH. Qed.
End AloneFacts.

Lemma alone_within {S T A} (get : T → S) (put : S → T → T) (p : Proc S A) t :
  (∀ t, put (get t) t = t) → (∀ x t, get (put x t) = x) → (∀ x y t, put x (put y t) = put x t) →
  alone (within get put p) t = zoom get put (alone p) t.
Proof.
  intros Hpg Hgp Hpp. revert t. induction p as [r|X m k IH]; intros t; unfold zoom; simpl.
  - by rewrite Hpg.
  - unfold zoom in *. simpl. destruct (m (get t)) as [r s]. simpl. rewrite IH, Hgp.
    destruct (alone (k r) s). by rewrite Hpp.
Qed.

Lemma calls_act {S A} (m : M S A) tr r : calls (act m) tr r → ∃ s, tr = [(s, snd (m s))] ∧ r = fst (m s).
Proof. destruct tr as [|[s s'] tr]; [done|]. intros (-> & -> & ->). by exists s. Qed.

Lemma calls_bind {S A B} (p : Proc S A) (f : A → Proc S B) tr r :
  calls (p ≫= f) tr r →
  ∃ tr1 tr2 r1, tr = tr1 ++ tr2 ∧ calls p tr1 r1 ∧
    match r1 with Ok a => calls (f a) tr2 r | Err e => tr2 = [] ∧ r = Err e end.
Proof.
  revert tr. induction p as [[a|e]|X m k IH]; intros tr H.
  - by exists [], tr, (Ok a).
  - destruct H as [-> ->]. by exists [], [], (Err e).
  - destruct tr as [|[s s'] tr]; [done|]. destruct H as [-> H]. destruct (IH _ _ H) as (tr1 & tr2 & r1 & -> & H1 & H2).
    by exists ((s, snd (m s)) :: tr1), tr2, r1.
Qed.

(** A request that comes when no other step is taken runs alone. *)
Section ServeAlone.
Context {S K A : Type} (joins : Pool S K A → K → Proc S A → Prop) (env : S → S → Prop).

Lemma alone_serves (p : Proc S A) k l s :
  rtc (serve joins env) ((k, p) :: l, s) ((k, Done (fst (alone p s))) :: l, snd (alone p s)).
Proof.
  revert s. induction p as [r|X m c IH]; intros s; [apply rtc_refl|].
  eapply rtc_l; [exact (serve_step joins env [] l k (Step m c) s)|]. apply IH.
Qed.

Lemma serve_alone (p : Proc S A) k l s : joins l k p → rtc (serve joins env) (l, s) (l, snd (alone p s)).
Proof.
  intros H. eapply rtc_l; [by apply serve_start|]. eapply rtc_r; [apply alone_serves|].
  exact (serve_end joins env [] l k _ _).
Qed.

Lemma serve_turns is_ st : rtc (serve joins env) st (turns is_ st).
Proof.
  revert st. induction is_ as [|i is_ IH]; intros [l s]; [apply rtc_refl|]. simpl. etrans; [|apply IH].
  unfold turn. simpl. destruct (l !! i) as [[k p]|] eqn:E; [|apply rtc_refl].
  pose proof (take_drop_middle l i (k, p) E) as El. apply rtc_once.
  rewrite insert_take_drop by (by eapply lookup_lt_Some). rewrite <- El at 1. apply serve_step.
Qed.
End ServeAlone.

Section RuleFacts.
Context {S K V G : Type} `{!EqDecision K}.
Context (view : G → S → K → V) (base : G → S → Prop).

Local Abbreviation rg := (rg view base).

Lemma rg_mono {A} k (p : Proc S A) (Q Q' : res A → V → Prop) v :
  rg k p Q v → (∀ r v, Q r v → Q' r v) → rg k p Q' v.
Proof.
  intros Hp H. revert v Hp. induction p as [r|X m c IH]; intros v; [apply H|]. simpl.
  intros Hp g s Hb Hv. destruct (Hp g s Hb Hv) as (g' & Hb' & Ho & Hc). eauto 6.
Qed.

Lemma rg_bind {A B} k (p : Proc S A) (f : A → Proc S B) Q v :
  rg k p (λ r v', match r with Ok a => rg k (f a) Q v' | Err e => Q (Err e) v' end) v →
  rg k (p ≫= f) Q v.
Proof.
  revert v. induction p as [[a|e]|X m c IH]; intros v; [done..|]. simpl.
  intros Hp g s Hb Hv. destruct (Hp g s Hb Hv) as (g' & Hb' & Ho & Hc).
  exists g'. split; [done|]. split; [done|]. by apply IH.
Qed.

(** One call, by the rule of [M]. *)
Lemma rg_act {A} k (m : M S A) (Q : res A → V → Prop) v :
  (∀ g s, base g s → view g s k = v →
     wp m (λ r s', ∃ g', base g' s' ∧ (∀ k', k' ≠ k → view g' s' k' = view g s k') ∧ Q r (view g' s' k)) s) →
  rg k (act m) Q v.
Proof. intros H g s Hb Hv. by destruct (H g s Hb Hv) as (g' & ? & ? & ?); exists g'. Qed.

Lemma rg_for_steps {A} k (f : A → Proc S unit) (I : V → Prop) Q xs v :
  (∀ x v, x ∈ xs → I v → rg k (f x) (λ r v', match r with Ok _ => I v' | Err e => Q (Err e) v' end) v) →
  (∀ v, I v → Q (Ok tt) v) → I v → rg k (for_steps f xs) Q v.
Proof.
  intros Hf HQ. revert v. induction xs as [|x xs IH]; intros v Hv; simpl; [by apply HQ|].
  apply rg_bind. eapply rg_mono; [apply Hf; [by left|done]|]. intros [u|e] v'; [|done].
  apply IH. intros y v'' Hy. apply Hf. by right.
Qed.

Lemma rg_attempt {A} k (p : Proc S A) (Q : res (res A) → V → Prop) v :
  rg k p (λ r, Q (Ok r)) v → rg k (attempt p) Q v.
Proof.
  revert v. induction p as [r|X m c IH]; intros v; [done|]. simpl.
  intros Hp g s Hb Hv. destruct (Hp g s Hb Hv) as (g' & Hb' & Ho & Hc). eauto 6.
Qed.

(** Together they keep what each was proved to keep. *)
Lemma served_serve {A} (ok : K → V → Prop) (joins : Pool S K A → K → Proc S A → Prop) (env : S → S → Prop) st st' :
  (∀ l k p, joins l k p → (k ∉ l.*1) ∧ (∀ v, ok k v → rg k p (λ _, ok k) v)) →
  (∀ g s s', base g s → env s s' → ∃ g', base g' s' ∧ (∀ k, view g' s' k = view g s k)) →
  serve joins env st st' → served view base ok st → served view base ok st'.
Proof.
  intros Hadm Henv Hst (g & Hb & Hnd & Hin & Hout).
  destruct Hst as [l s k p H|l1 l2 k p s|l1 l2 k r s|l s s' H]; simpl in *.
  - destruct (Hadm _ _ _ H) as [Hk Hp]. exists g. split; [done|]. split; [by constructor|]. split.
    + intros k' p' [[= -> ->]|Hx]%elem_of_cons; [by apply Hp, Hout|by apply Hin].
    + intros k' Hk'. apply Hout. set_solver.
  - rewrite fmap_app, fmap_cons in Hnd, Hout. simpl in Hnd, Hout.
    pose proof (Hin k p) as Hp. rewrite elem_of_app, elem_of_cons in Hp. specialize (Hp (or_intror (or_introl eq_refl))).
    assert (∃ g', base g' (snd (pstep p s)) ∧ (∀ k', k' ≠ k → view g' (snd (pstep p s)) k' = view g s k') ∧
      rg k (fst (pstep p s)) (λ _, ok k) (view g' (snd (pstep p s)) k)) as (g' & Hb' & Ho & Hp').
    { destruct p as [r|X m c]; simpl in *; [by exists g|by apply Hp]. }
    exists g'. simpl. rewrite fmap_app, fmap_cons. simpl. split; [done|]. split; [done|].
    assert (∀ k' p', (k', p') ∈ l1 ∨ (k', p') ∈ l2 → k' ≠ k) as Hne.
    { intros k' p' Hx ->. apply NoDup_app in Hnd as (_ & H1 & H2). apply NoDup_cons in H2 as [H2 _].
      destruct Hx as [Hx|Hx]; apply (list_elem_of_fmap_2 fst) in Hx; simpl in Hx; [|done].
      apply (H1 k Hx). by left. }
    split.
    + intros k' p' Hx. rewrite elem_of_app, elem_of_cons in Hx.
      destruct Hx as [Hx|[[= -> ->]|Hx]]; [|done|]; (rewrite Ho by eauto; apply Hin; set_solver).
    + intros k' Hk'. rewrite Ho by set_solver. by apply Hout.
  - rewrite fmap_app, fmap_cons in Hnd, Hout. simpl in Hnd, Hout. exists g. simpl. rewrite fmap_app.
    split; [done|]. split; [|split].
    + apply NoDup_app in Hnd as (H1 & H2 & H3). apply NoDup_cons in H3 as [_ H3].
      apply NoDup_app. split; [done|]. split; [|done]. intros x Hx Hx2. apply (H2 x Hx). by right.
    + intros k' p' Hx. apply Hin. set_solver.
    + intros k' Hk'. destruct (decide (k' = k)) as [->|Hd]; [|apply Hout; set_solver].
      apply (Hin k (Done r)). set_solver.
  - destruct (Henv g s s' Hb H) as (g' & Hb' & Hv). exists g'. simpl. split; [done|]. split; [done|].
    split; intros; rewrite Hv; auto.
Qed.
End RuleFacts.

#[global] Arguments rg : simpl never.

(** What is proved on a part of the state holds on the whole. *)
Lemma rg_within {S T K V G A} (view : G → S → K → V) (base : G → S → Prop)
    (get : T → S) (put : S → T → T) k (p : Proc S A) Q v :
  (∀ x t, get (put x t) = x) → rg view base k p Q v →
  rg (λ g t, view g (get t)) (λ g t, base g (get t)) k (within get put p) Q v.
Proof.
  intros Hgp. revert v. induction p as [r|X m c IH]; intros v; [done|]. simpl.
  intros Hp g t Hb Hv. destruct (Hp g (get t) Hb Hv) as (g' & Hb' & Ho & Hc).
  unfold zoom. simpl. destruct (m (get t)) as [r s]. simpl in *. exists g'. rewrite Hgp. auto.
Qed.
