(* ===== verification/Platform.v ===== *)
(** * Process groups and sockets of the operating system ([internal/platform])

    The processes of the node with their groups, the signals a call of [kill] sends, and
    the two implementations of [ProcessGroup].  The daemon ends frpc with the group it was
    started in, so that its children end with it and the daemon does not. *)

From S2P Require Import Prelude.

(** ** Definitions *)

Definition ErrNotSupported : error := Errorf "platform feature not supported" [].

(** Each process has a group; [ker_termed] is who has got SIGTERM. *)
Record Kernel := mkKernel {
  ker_groups : gmap Z Z; ker_termed : gset Z; ker_faults : list (option error) }.

(** An [exec.Cmd]: whether [SysProcAttr] asks for a new group, and its [Process], if started. *)
Record Cmd := mkCmd { cmd_Setpgid : bool; cmd_Process : option Z }.

Definition ESRCH : error := EExt "no such process".

(** Who a target of [kill] means to the caller [self]: a process, the caller's group, everybody
    else but init, or a group. *)
Definition kill_matches (self : Z) (groups : gmap Z Z) (target pid pgid : Z) : bool :=
  if 0 <? target then pid =? target
  else if target =? 0 then bool_decide (groups !! self = Some pgid)
  else if target =? -1 then negb (pid =? 1) && negb (pid =? self)
  else pgid =? - target.

Definition kill_set (self target : Z) (groups : gmap Z Z) : gset Z :=
  dom (filter (λ pg, kill_matches self groups target pg.1 pg.2 = true) groups).

(** [syscall.Kill(target, SIGTERM)] *)
Definition kill (self target : Z) : M Kernel unit := λ k,
  match ker_faults k with
  | Some e :: fs => (Err e, mkKernel (ker_groups k) (ker_termed k) fs)
  | fs =>
      let who := kill_set self target (ker_groups k) in
      let fs := tail fs in
      if bool_decide (who = ∅) then (Err ESRCH, mkKernel (ker_groups k) (ker_termed k) fs)
      else (Ok tt, mkKernel (ker_groups k) (ker_termed k ∪ who) fs)
  end.

(** [cmd.Start]: the child [pid] joins the caller's group, or leads its own. *)
Definition spawn (self pid : Z) (cmd : Cmd) : M Kernel Cmd := λ k,
  let pgid := if cmd_Setpgid cmd then pid else default self (ker_groups k !! self) in
  (Ok (mkCmd (cmd_Setpgid cmd) (Some pid)), mkKernel (<[pid := pgid]> (ker_groups k)) (ker_termed k) (ker_faults k)).

Class ProcessGroup := {
  pg_Configure : Cmd → res Cmd;
  pg_Terminate : Z → option Cmd → M Kernel unit }.

(** *** Linux *)

Definition configureProcessGroup (cmd : Cmd) : res Cmd := Ok (mkCmd true (cmd_Process cmd)).

(** [None] is a nil command. *)
Definition terminateProcessGroup (self : Z) (cmd : option Cmd) : M Kernel unit :=
  match cmd with
  | None | Some (mkCmd _ None) => mret tt
  | Some (mkCmd _ (Some pid)) =>
      if pid <=? 0 then mret tt
      else
        r ← try (kill self (- pid));
        match r with
        | Err e => if bool_decide (e = ESRCH) then mret tt else fail e
        | Ok _ => mret tt
        end
  end.

Definition unixProcessGroup : ProcessGroup := {|
  pg_Configure := configureProcessGroup;
  pg_Terminate := terminateProcessGroup |}.

(** [listen] is [net.Listen] for ["unix"]. *)
Definition SocketPath {S L} (listen : string → M S L) (path : string) : M S L := listen path.

(** *** The systems that have none *)

Definition unsupportedProcessGroup : ProcessGroup := {|
  pg_Configure := λ _, Err ErrNotSupported;
  pg_Terminate := λ _ _, fail ErrNotSupported |}.

Definition SocketPath_unsupported {S L} (path : string) : M S L := fail ErrNotSupported.

(** *** What processes do meanwhile *)

(** A process makes a child, in its own group; ends; or moves to another group ([setpgid], and
    [setsid], which makes one of its own). *)
Inductive pevent := Forks (parent child : Z) | Exits (pid : Z) | Regroups (pid pgid : Z).

Definition with_groups (groups : gmap Z Z) (k : Kernel) : Kernel := mkKernel groups (ker_termed k) (ker_faults k).

Definition kernel_event (k : Kernel) (e : pevent) : Kernel :=
  match e with
  | Forks parent child =>
      match ker_groups k !! parent with
      | Some pgid => with_groups (<[child := pgid]> (ker_groups k)) k
      | None => k
      end
  | Exits pid => with_groups (delete pid (ker_groups k)) k
  | Regroups pid pgid =>
      match ker_groups k !! pid with
      | Some _ => with_groups (<[pid := pgid]> (ker_groups k)) k
      | None => k
      end
  end.
Definition kernel_events (es : list pevent) (k : Kernel) : Kernel := foldl kernel_event k es.

(** Beside a process [pid] that the daemon [self] started: a child gets a number that no process
    has, and not [pid], which stands for its group; who is outside of that group does not move
    into it; the daemon lives on. *)
Definition admissible (self pid : Z) (e : pevent) (k : Kernel) : Prop :=
  match e with
  | Forks _ child => ker_groups k !! child = None ∧ child ≠ pid
  | Exits p => p ≠ self
  | Regroups p pgid => pgid = pid → ker_groups k !! p = Some pid
  end.
Fixpoint possible (self pid : Z) (es : list pevent) (k : Kernel) : Prop :=
  match es with
  | [] => True
  | e :: es => admissible self pid e k ∧ possible self pid es (kernel_event k e)
  end.

(** [pid] and its descendants that live and have not left for another group. *)
Definition family (pid : Z) (es : list pevent) : gset Z :=
  foldl (λ kin e,
    match e with
    | Forks parent child => if bool_decide (parent ∈ kin) then {[child]} ∪ kin else kin
    | Exits p => kin ∖ {[p]}
    | Regroups p pgid => if pgid =? pid then kin else kin ∖ {[p]}
    end) {[pid]} es.

(** ** Lemmas *)

Lemma kill_set_group self pgid groups pid :
  1 < pgid → pid ∈ kill_set self (- pgid) groups ↔ groups !! pid = Some pgid.
Proof.
  intros Hp. unfold kill_set. rewrite elem_of_dom. split.
  - intros [g [Hg Hm]%map_lookup_filter_Some]. simpl in Hm. unfold kill_matches in Hm.
    destruct (Z.ltb_spec 0 (- pgid)); [lia|]. destruct (Z.eqb_spec (- pgid) 0); [lia|].
    destruct (Z.eqb_spec (- pgid) (-1)); [lia|]. rewrite Z.opp_involutive in Hm. apply Z.eqb_eq in Hm as ->. done.
  - intros Hg. exists pgid. apply map_lookup_filter_Some. split; [done|]. simpl. unfold kill_matches.
    destruct (Z.ltb_spec 0 (- pgid)); [lia|]. destruct (Z.eqb_spec (- pgid) 0); [lia|].
    destruct (Z.eqb_spec (- pgid) (-1)); [lia|]. by rewrite Z.opp_involutive, Z.eqb_refl.
Qed.

(** The group of [pid] is its family, and the daemon is not in it. *)
Lemma family_group self pid es k0 :
  (∀ p, ker_groups k0 !! p = Some pid ↔ p = pid) → is_Some (ker_groups k0 !! self) → self ≠ pid →
  possible self pid es k0 →
  (∀ p, ker_groups (kernel_events es k0) !! p = Some pid ↔ p ∈ family pid es) ∧ self ∉ family pid es.
Proof.
  intros Hk Hs Hne Hpos.
  assert (∀ p, ker_groups k0 !! p = Some pid ↔ p ∈ ({[pid]} : gset Z)) as Hk' by (intros p; rewrite Hk; set_solver).
  assert (self ∉ ({[pid]} : gset Z)) as Hself by set_solver. clear Hk Hne. unfold family, kernel_events.
  revert k0 Hk' Hs Hpos Hself. generalize ({[pid]} : gset Z) as kin.
  induction es as [|e es IH]; intros kin k Hk Hs Hpos Hself; [done|]. destruct Hpos as [Ha Hpos]. simpl.
  destruct e as [a c|p|p g]; simpl in Ha, Hpos |- *.
  - destruct Ha as [Hc _]. assert (c ∉ kin) as Hck by (rewrite <- Hk, Hc; done).
    assert (c ≠ self) as Hcs by (intros ->; rewrite Hc in Hs; by destruct Hs).
    destruct (ker_groups k !! a) as [g|] eqn:E.
    + apply IH; simpl; [|by rewrite lookup_insert_ne|done|case_bool_decide; set_solver].
      intros q. rewrite lookup_insert. case_bool_decide as Hin.
      * apply Hk in Hin. assert (g = pid) as -> by congruence.
        rewrite elem_of_union, elem_of_singleton. case_decide as Hq; [|rewrite Hk; naive_solver]. subst q. naive_solver.
      * case_decide as Hq; [|apply Hk]. subst q. split; [intros [= ->]|done]. by apply Hk in E.
    + rewrite bool_decide_eq_false_2; [by apply IH|]. intros Hin%Hk. congruence.
  - apply IH; simpl; [|by rewrite lookup_delete_ne|done|set_solver].
    intros q. rewrite lookup_delete. case_decide; [set_solver|]. rewrite Hk. set_solver.
  - destruct (ker_groups k !! p) as [g'|] eqn:E.
    + apply IH; simpl; [| |done|case_match; set_solver].
      * intros q. rewrite lookup_insert. destruct (Z.eqb_spec g pid) as [->|Hg].
        -- specialize (Ha eq_refl). case_decide; [|apply Hk]. subst q. split; [intros _; apply Hk; congruence|done].
        -- case_decide; [|rewrite Hk; set_solver]. subst q. split; [by intros [= ->]|set_solver].
      * rewrite lookup_insert. by case_decide.
    + apply IH; [|done..|case_match; set_solver]. intros q. destruct (Z.eqb_spec g pid) as [->|Hg]; [apply Hk|].
      rewrite elem_of_difference, <- Hk, elem_of_singleton. split; [|by intros [? _]]. intros Hq. split; [done|].
      intros ->. congruence.
Qed.

(** ** Properties *)

(** C19. Ending a process group ends what was started, and nothing else.  A command is configured with
    [Configure] and started as a new process [pid]; it, the daemon and all others then make
    processes, end, and move to other groups.  As long as the system gives the number [pid] to
    nothing else, and no stranger moves into its group, [Terminate] signals exactly [pid] and
    those of its descendants that live and have not left the group, so never the daemon; that
    none is left is no error.  When [kill] fails otherwise, nobody is signalled and its error is
    returned. *)
Theorem terminate_own_group self pid cmd k :
  1 < pid → pid ≠ self → ker_groups k !! pid = None → (∀ p, ker_groups k !! p ≠ Some pid) →
  is_Some (ker_groups k !! self) →
  ∃ configured started k1,
    pg_Configure (ProcessGroup:=unixProcessGroup) cmd = Ok configured ∧
    spawn self pid configured k = (Ok started, k1) ∧
    ∀ es, possible self pid es k1 →
      let k2 := kernel_events es k1 in
      let '(r, k3) := pg_Terminate (ProcessGroup:=unixProcessGroup) self (Some started) k2 in
      self ∉ family pid es ∧
      match fst (next_fault (ker_faults k2)) with
      | None => r = Ok tt ∧ ker_termed k3 = ker_termed k2 ∪ family pid es
      | Some e => r = (if bool_decide (e = ESRCH) then Ok tt else Err e) ∧ ker_termed k3 = ker_termed k2
      end.
Proof.
  intros Hp Hne Hnew Hgrp Hself. eexists _, _, _. split; [done|]. split; [done|]. intros es Hpos k2.
  edestruct (family_group self pid es) as [Hfam Hnot]; [| |exact (not_eq_sym Hne)|exact Hpos|]; simpl.
  - intros p. rewrite lookup_insert. case_decide as Hq; [by subst p|]. split; [by intros ?%Hgrp|by intros ->].
  - by rewrite lookup_insert_ne.
  - fold k2 in Hfam.
    assert (kill_set self (- pid) (ker_groups k2) = family pid es) as Hset.
    { apply set_eq. intros p. rewrite kill_set_group by done. apply Hfam. }
    destruct (Z.leb_spec pid 0); [lia|]. unfold try, mbind, M_bind, kill. rewrite Hset.
    destruct (ker_faults k2) as [|[e|] fs]; simpl.
    2: { case_bool_decide; simpl; auto. }
    all: destruct (decide (family pid es = ∅)) as [He|He];
      [rewrite bool_decide_eq_true_2 by done; simpl; rewrite He; split; [set_solver|]; split; [done|set_solver]
      |by rewrite bool_decide_eq_false_2].
Qed.

(** *** Witnesses *)

(** The daemon is 10, in the group 5; frpc 20 makes 21, which makes 22, which leaves for a session
    of its own; the daemon makes 30; 20 ends. *)
Definition node : Kernel := mkKernel (<[10 := 5]> (<[5 := 5]> ∅)) ∅ [].
Definition meanwhile : list pevent := [Forks 20 21; Forks 10 30; Forks 21 22; Regroups 22 22; Forks 21 23; Exits 20].

Lemma terminate_own_group_witness :
  ∃ started k1 k2, spawn 10 20 (mkCmd true None) node = (Ok started, k1) ∧
    terminateProcessGroup 10 (Some started) (kernel_events meanwhile k1) = (Ok tt, k2) ∧ ker_termed k2 = {[21; 23]}.
Proof.
  destruct (terminate_own_group 10 20 (mkCmd false None) node) as (c & started & k1 & Hc & Hs & H).
  - lia.
  - lia.
  - reflexivity.
  - intros p. unfold node. simpl. rewrite !lookup_insert. repeat case_decide; done.
  - by eexists.
  - injection Hc as <-. exists started, k1. injection Hs as <- <-. specialize (H meanwhile). cbv zeta in H.
    lapply H; [clear H; intros H|repeat split; try (vm_compute; reflexivity); try lia; intros [=]].
    match type of H with let '(r, k3) := ?t in _ => destruct t as [r k2] eqn:E end.
    destruct (fst (next_fault _)) as [e|] eqn:F in H; [vm_compute in F; discriminate F|].
    exists k2. destruct H as (_ & -> & Hk). split; [reflexivity|]. split; [exact E|]. rewrite Hk.
    apply (bool_decide_unpack _). vm_compute. reflexivity.
Defined.

(** Without [Configure] the child would be in the group of the daemon, and be signalled by nobody. *)
Example unconfigured_is_not_ended :
  let '(r, k2) := terminateProcessGroup 10 (Some (mkCmd false (Some 20))) (snd (spawn 10 20 (mkCmd false None) node)) in
  r = Ok tt ∧ elements (ker_termed k2) = [].
Proof. vm_compute. done. Qed.
