(* ===== verification/GoLib.v ===== *)
(** * Go strings and numbers

    The functions of Go's [strings], [strconv], [encoding/hex] and [regexp]
    that the modelled code calls, on byte strings.  White space and letter case
    are the ASCII ones: bytes above 127 are neither spaces nor letters here. *)

From S2P Require Import Prelude.
From Stdlib Require Import Ascii DecimalString DecimalZ.

(** ** Prefixes and substrings *)

Definition HasPrefix (s p : string) : bool := String.prefix p s.

Fixpoint drop_bytes (n : nat) (s : string) : string :=
  match n, s with
  | S n, String _ s => drop_bytes n s
  | _, _ => s
  end.

Fixpoint take_bytes (n : nat) (s : string) : string :=
  match n, s with S n, String c s => String c (take_bytes n s) | _, _ => "" end.

Fixpoint zero_bytes (n : nat) : string :=
  match n with O => "" | S n => String zero (zero_bytes n) end.

(** What a file holds after [data] was written at [off]: a gap is filled with zero bytes, and
    nothing is cut off. *)
Definition write_bytes (old : string) (off : nat) (data : string) : string :=
  if (data =? "")%string then old
  else take_bytes off (old +:+ zero_bytes (off - String.length old)) +:+ data +:+
       drop_bytes (off + String.length data) old.

(** [s] in successive slices of at most [n] bytes. *)
Fixpoint split_fuel (fuel n : nat) (s : string) : list string :=
  match fuel with
  | O => []
  | S fuel => if s =s "" then [] else take_bytes n s :: split_fuel fuel n (drop_bytes n s)
  end.
Definition split_every (n : nat) (s : string) : list string := split_fuel (String.length s) n s.

Definition TrimPrefix (s p : string) : string :=
  if HasPrefix s p then drop_bytes (String.length p) s else s.

Fixpoint Contains (s sub : string) : bool :=
  HasPrefix s sub || match s with "" => false | String _ s => Contains s sub end.

Fixpoint bytes_all (f : ascii → bool) (s : string) : bool :=
  match s with "" => true | String c s => f c && bytes_all f s end.

Fixpoint bytes_map (f : ascii → ascii) (s : string) : string :=
  match s with "" => "" | String c s => String (f c) (bytes_map f s) end.

(** ** Character classes *)

Definition code (c : ascii) : Z := Z.of_N (N_of_ascii c).
Definition byte_in (lo hi : ascii) (c : ascii) : bool :=
  (code lo <=? code c) && (code c <=? code hi).

Definition is_upper (c : ascii) : bool := byte_in "A" "Z" c.
Definition is_lower (c : ascii) : bool := byte_in "a" "z" c.
Definition is_digit (c : ascii) : bool := byte_in "0" "9" c.
Definition is_alnum (c : ascii) : bool := is_upper c || is_lower c || is_digit c.
Definition is_hex_lower (c : ascii) : bool := is_digit c || byte_in "a" "f" c.
Definition is_hex (c : ascii) : bool := is_hex_lower c || byte_in "A" "F" c.

Definition is_space (c : ascii) : bool :=
  (9 <=? code c) && (code c <=? 13) || (code c =? 32).

Definition lower_byte (c : ascii) : ascii :=
  if is_upper c then ascii_of_N (N_of_ascii c + 32) else c.
Definition ToLower (s : string) : string := bytes_map lower_byte s.

(** ** Splitting *)

(** [strings.Split(s, sep)] for a one-byte [sep]: never empty. *)
Fixpoint Split (sep : ascii) (s : string) : list string :=
  match s with
  | "" => [""]
  | String c s =>
      if bool_decide (c = sep) then "" :: Split sep s
      else match Split sep s with
           | [] => [String c ""]
           | w :: ws => String c w :: ws
           end
  end.

(** [strings.Cut(s, sep)] for a one-byte [sep]. *)
Fixpoint Cut (sep : ascii) (s : string) : option (string * string) :=
  match s with
  | "" => None
  | String c s =>
      if bool_decide (c = sep) then Some ("", s)
      else match Cut sep s with
           | Some (a, b) => Some (String c a, b)
           | None => None
           end
  end.

(** [strings.Fields]: the maximal runs of non-space bytes. *)
Fixpoint fields_go (cur : string) (s : string) : list string :=
  match s with
  | "" => if bool_decide (cur = "") then [] else [cur]
  | String c s =>
      if is_space c
      then (if bool_decide (cur = "") then [] else [cur]) ++ fields_go "" s
      else fields_go (cur +:+ String c "") s
  end.
Definition Fields (s : string) : list string := fields_go "" s.

Fixpoint trim_left (s : string) : string :=
  match s with
  | String c s' => if is_space c then trim_left s' else s
  | "" => ""
  end.
Fixpoint trim_right (s : string) : string :=
  match s with
  | "" => ""
  | String c s' =>
      match trim_right s' with
      | "" => if is_space c then "" else String c ""
      | r => String c r
      end
  end.
Definition TrimSpace (s : string) : string := trim_right (trim_left s).

(** [strings.Join(parts, sep)] *)
Definition Join_sep (sep : string) (parts : list string) : string :=
  String.concat sep parts.

(** ** Numbers *)

(** [strconv.FormatInt(z, 10)] and the [%d] verb. *)
Definition FormatInt (z : Z) : string := NilZero.string_of_int (Z.to_int z).

(** [strconv.ParseInt(s, 10, 64)] *)
Definition ParseInt (s : string) : res Z :=
  let err := Errorf "strconv.ParseInt: parsing %s" [s] in
  let s' := TrimPrefix s "+" in
  match (if HasPrefix s "+" && HasPrefix s' "-" then None
         else NilZero.int_of_string s') with
  | Some d =>
      let z := Z.of_int d in
      if (- 2^63 <=? z) && (z <? 2^63) then Ok z else Err err
  | None => Err err
  end.

(** [hex.DecodeString] succeeds. *)
Fixpoint hex_decodes (s : string) : bool :=
  match s with
  | "" => true
  | String a (String b s) => is_hex a && is_hex b && hex_decodes s
  | String _ "" => false
  end.

(** [%^[c]+$%] for a character class [c]. *)
Definition matches_class1 (c : ascii → bool) (s : string) : bool :=
  bool_decide (s ≠ "") && bytes_all c s.

(** ** Lemmas *)

Lemma HasPrefix_app p s : HasPrefix (p +:+ s) p = true.
Proof.
  unfold HasPrefix. induction p as [|c p IH]; simpl; [by destruct s|].
  by destruct (ascii_dec c c).
Qed.

Lemma HasPrefix_iff s p : HasPrefix s p = true ↔ ∃ t, s = p +:+ t.
Proof.
  split.
  - unfold HasPrefix. revert s. induction p as [|c p IH]; intros s; simpl.
    + intros _. by exists s.
    + destruct s as [|d s]; simpl; [done|].
      destruct (ascii_dec c d) as [->|]; [|done]. intros [t ->]%IH. by exists t.
  - intros [t ->]. apply HasPrefix_app.
Qed.

Lemma string_app_assoc (a b c : string) : (a +:+ b) +:+ c = a +:+ (b +:+ c).
Proof. induction a as [|x a IH]; simpl; [done|]. by rewrite IH. Qed.

Lemma string_app_nil_r (a : string) : a +:+ "" = a.
Proof. induction a as [|x a IH]; simpl; [done|]. by rewrite IH. Qed.

Lemma concat_cons p ps : String.concat "" (p :: ps) = p +:+ String.concat "" ps.
Proof. destruct ps; simpl; [by rewrite string_app_nil_r|done]. Qed.

Lemma length_app_s (a b : string) : String.length (a +:+ b) = (String.length a + String.length b)%nat.
Proof. induction a as [|x a IH]; [done|]. exact (f_equal S IH). Qed.

Lemma string_app_inj_l (a b c : string) : a +:+ b = a +:+ c → b = c.
Proof. induction a as [|x a IH]; simpl; [done|]. intros [=]. by apply IH. Qed.

Lemma drop_bytes_app p s : drop_bytes (String.length p) (p +:+ s) = s.
Proof. induction p as [|c p IH]; simpl; [by destruct s|done]. Qed.

Lemma take_bytes_app p s : take_bytes (String.length p) (p +:+ s) = p.
Proof. induction p as [|c p IH]; simpl; [by destruct s|]. by f_equal. Qed.

Lemma drop_bytes_drop n m s : drop_bytes n (drop_bytes m s) = drop_bytes (m + n) s.
Proof. revert s. induction m as [|m IH]; intros s; [done|]. destruct s; simpl; [by destruct n|apply IH]. Qed.

Lemma take_drop_bytes n s : take_bytes n s +:+ drop_bytes n s = s.
Proof. revert s. induction n as [|n IH]; intros [|c s]; simpl; [done..|]. by rewrite IH. Qed.

Lemma length_drop_bytes n s : String.length (drop_bytes n s) = (String.length s - n)%nat.
Proof. revert s. induction n as [|n IH]; intros [|c s]; simpl; [done..|]. apply IH. Qed.

Lemma length_take_bytes n s : (String.length (take_bytes n s) ≤ n)%nat.
Proof. revert s. induction n as [|n IH]; intros [|c s]; simpl; [lia..|]. specialize (IH s). lia. Qed.

(** A write behind the bytes that were replaced already. *)
Lemma write_bytes_next a b old :
  write_bytes (a +:+ drop_bytes (String.length a) old) (String.length a) b =
  (a +:+ b) +:+ drop_bytes (String.length (a +:+ b)) old.
Proof.
  unfold write_bytes. rewrite length_app_s. destruct (String.eqb_spec b "") as [->|Hb].
  { rewrite string_app_nil_r. simpl. by rewrite ?Nat.add_0_r. }
  rewrite length_app_s, (proj2 (Nat.sub_0_le _ _)) by lia. cbn [zero_bytes]. rewrite string_app_nil_r, take_bytes_app.
  by rewrite <- !drop_bytes_drop, drop_bytes_app, string_app_assoc.
Qed.

Lemma concat_split_every n s : (0 < n)%nat → String.concat "" (split_every n s) = s.
Proof.
  intros Hn. assert (∀ fuel s, (String.length s ≤ fuel)%nat → String.concat "" (split_fuel fuel n s) = s) as H; [|by apply H].
  clear s. induction fuel as [|fuel IH]; intros s Hs; [by destruct s; [|simpl in Hs; lia]|]. cbn [split_fuel].
  destruct (String.eqb_spec s "") as [->|Hne]; [done|]. rewrite concat_cons, IH; [apply take_drop_bytes|].
  rewrite length_drop_bytes. destruct s; [done|simpl in *; lia].
Qed.

(** Every slice but none is empty, and none is longer than [n]. *)
Lemma elem_of_split_every n s p : (0 < n)%nat → p ∈ split_every n s → (0 < String.length p ≤ n)%nat.
Proof.
  intros Hn. unfold split_every. generalize (String.length s). intros fuel. revert s.
  induction fuel as [|fuel IH]; intros s; [by intros ?%elem_of_nil|]. cbn [split_fuel].
  destruct (String.eqb_spec s "") as [->|Hne]; [by intros ?%elem_of_nil|].
  intros [->|Hp]%elem_of_cons; [|by eapply IH]. split; [|apply length_take_bytes].
  destruct s, n; simpl; [done..|lia|lia].
Qed.

Lemma bytes_all_app f a b : bytes_all f (a +:+ b) = bytes_all f a && bytes_all f b.
Proof. induction a as [|c a IH]; simpl; [done|]. by rewrite IH, andb_assoc. Qed.

Lemma bytes_all_impl (f g : ascii → bool) s :
  (∀ c, f c = true → g c = true) → bytes_all f s = true → bytes_all g s = true.
Proof.
  intros Hfg. induction s as [|c s IH]; simpl; [done|].
  rewrite !andb_true_iff. intros [H1 H2]. auto.
Qed.

(** A separator byte cuts a string in one way only. *)
Lemma cut_unique (f : ascii → bool) c a b a' b' :
  f c = false → bytes_all f a = true → bytes_all f a' = true →
  a +:+ String c b = a' +:+ String c b' → a = a' ∧ b = b'.
Proof.
  intros Hc. revert a'. induction a as [|x a IH]; intros [|x' a']; simpl.
  - intros _ _ [=]. done.
  - rewrite andb_true_iff. intros _ [Hx _] [=]. subst. congruence.
  - rewrite andb_true_iff. intros [Hx _] _ [=]. subst. congruence.
  - rewrite !andb_true_iff. intros [_ Ha] [_ Ha'] [= -> Heq].
    destruct (IH a' Ha Ha' Heq) as [-> ->]. done.
Qed.

Lemma Split_no_sep sep s w : w ∈ Split sep s → bytes_all (λ c, bool_decide (c ≠ sep)) w = true.
Proof.
  revert w. induction s as [|c s IH]; simpl; intros w Hw.
  - apply list_elem_of_singleton in Hw as ->. done.
  - case_bool_decide as Hc.
    + apply elem_of_cons in Hw as [->|Hw]; [done|auto].
    + destruct (Split sep s) as [|v vs] eqn:E.
      * apply list_elem_of_singleton in Hw as ->. simpl.
        rewrite bool_decide_true; done.
      * apply elem_of_cons in Hw as [->|Hw].
        -- simpl. rewrite bool_decide_true by done. simpl. apply IH. left.
        -- apply IH. by right.
Qed.

Lemma Z_to_int_nonnil z : Z.to_int z ≠ Decimal.Pos Decimal.Nil ∧ Z.to_int z ≠ Decimal.Neg Decimal.Nil.
Proof.
  assert (∀ p, Pos.to_uint p ≠ Decimal.Nil) as Hp by apply DecimalPos.Unsigned.to_uint_nonnil.
  destruct z; simpl; split; try done; intros [=]; by eapply Hp.
Qed.

Lemma FormatInt_head z :
  ∃ c s, FormatInt z = String c s ∧ c ≠ "+"%char.
Proof.
  unfold FormatInt. destruct (Z_to_int_nonnil z) as [H1 H2].
  destruct (Z.to_int z) as [d|d]; simpl; [destruct d; simpl|];
    eexists _, _; (split; [reflexivity|done]).
Qed.

Lemma ParseInt_FormatInt z : in_int64 z → ParseInt (FormatInt z) = Ok z.
Proof.
  intros Hz. unfold ParseInt. destruct (FormatInt_head z) as (c & s & E & Hc).
  assert (NilZero.int_of_string (FormatInt z) = Some (Z.to_int z)) as Hparse.
  { unfold FormatInt. destruct (Z_to_int_nonnil z). by apply NilZero.isi. }
  assert (HasPrefix (FormatInt z) "+" = false) as Hplus.
  { apply not_true_is_false. intros [t Ht]%HasPrefix_iff. rewrite E in Ht. simpl in Ht.
    congruence. }
  unfold TrimPrefix. rewrite Hplus. simpl. rewrite Hparse, of_to. unfold in_int64 in Hz.
  destruct (Z.leb_spec (- 2^63) z), (Z.ltb_spec z (2^63)); simpl; done || lia.
Qed.

Lemma FormatInt_inj a b : FormatInt a = FormatInt b → a = b.
Proof.
  unfold FormatInt. intros H. destruct (Z_to_int_nonnil a), (Z_to_int_nonnil b).
  apply (f_equal NilZero.int_of_string) in H. rewrite !NilZero.isi in H by done.
  injection H as H. apply (f_equal Z.of_int) in H. by rewrite !of_to in H.
Qed.

Lemma FormatInt_no_space z : bytes_all (λ c, negb (is_space c)) (FormatInt z) = true.
Proof.
  unfold FormatInt. set (d := Z.to_int z). clearbody d.
  assert (∀ u, bytes_all (λ c, negb (is_space c)) (NilEmpty.string_of_uint u) = true) as Hu.
  { induction u; simpl; done. }
  assert (∀ u, bytes_all (λ c, negb (is_space c)) (NilZero.string_of_uint u) = true) as Hz.
  { intros []; simpl; try done; apply Hu. }
  destruct d as [u|u]; simpl; apply Hz.
Qed.

Lemma trim_left_no_space s :
  bytes_all (λ c, negb (is_space c)) s = true → trim_left s = s.
Proof. destruct s as [|c s]; simpl; [done|]. by destruct (is_space c). Qed.

Lemma trim_right_no_space s :
  bytes_all (λ c, negb (is_space c)) s = true → trim_right s = s.
Proof.
  induction s as [|c s IH]; simpl; [done|]. destruct (is_space c) eqn:Ec; simpl; [done|].
  intros Hs. rewrite IH by done. by destruct s.
Qed.

Lemma TrimSpace_no_space s :
  bytes_all (λ c, negb (is_space c)) s = true → TrimSpace s = s.
Proof. intros Hs. unfold TrimSpace. by rewrite trim_left_no_space, trim_right_no_space. Qed.

Lemma fields_go_word cur w s :
  bytes_all (λ c, negb (is_space c)) w = true →
  fields_go cur (w +:+ s) = fields_go (cur +:+ w) s.
Proof.
  revert cur. induction w as [|c w IH]; intros cur; simpl.
  - intros _. by rewrite string_app_nil_r.
  - rewrite andb_true_iff, negb_true_iff. intros [-> Hw]. rewrite IH by done.
    by rewrite string_app_assoc.
Qed.

(** [sort.Strings] order. *)
Lemma string_leb_total x y : String.leb x y = true ∨ String.leb y x = true.
Proof. apply String.leb_total. Qed.

Lemma ascii_compare_N a b : Ascii.compare a b = N.compare (N_of_ascii a) (N_of_ascii b).
Proof. done. Qed.

Lemma string_leb_cons a s b t :
  String.leb (String a s) (String b t) = true ↔
  (N_of_ascii a < N_of_ascii b)%N ∨ (a = b ∧ String.leb s t = true).
Proof.
  unfold String.leb. simpl. rewrite ascii_compare_N.
  destruct (N.compare_spec (N_of_ascii a) (N_of_ascii b)) as [E|E|E].
  - assert (a = b) as -> by (rewrite <- (ascii_N_embedding a), E; apply ascii_N_embedding).
    split; [auto|]. intros [H|[_ H]]; [lia|done].
  - split; [by left|done].
  - split; [done|]. intros [H|[-> _]]; lia.
Qed.

Lemma string_leb_trans s t u :
  String.leb s t = true → String.leb t u = true → String.leb s u = true.
Proof.
  revert s u. induction t as [|b t IH]; intros [|a s] [|c u]; try done.
  rewrite !string_leb_cons. intros [H1|[-> H1]] [H2|[-> H2]]; [left; lia|by left|by left|].
  right. split; [done|by eapply IH].
Qed.

Lemma string_leb_antisym s t : String.leb s t = true → String.leb t s = true → s = t.
Proof. apply String.leb_antisym. Qed.
