(* ===== verification/GoPath.v ===== *)
(** * Go's [path/filepath] on Unix

    A path is a string; [comps] are its components, without the empty ones and
    ["."].  [Clean], [Join], [Rel], [Dir], [Base] and [IsAbs] follow the package's
    documented results on Unix. *)

From S2P Require Import Prelude GoLib.
From Stdlib Require Import Ascii.

(** ** Definitions *)

Definition slash : ascii := "/".

Definition IsAbs (p : string) : bool := HasPrefix p "/".

Definition is_comp (c : string) : bool := negb ((c =? "")%string || (c =? ".")%string).

Definition comps (p : string) : list string := filter (λ c, is_comp c = true) (Split slash p).

(** Elimination of [".."] on a stack of components, innermost first. *)
Fixpoint norm_go (rooted : bool) (acc cs : list string) : list string :=
  match cs with
  | [] => rev acc
  | c :: cs =>
      if (c =? "..")%string then
        match acc with
        | [] => if rooted then norm_go rooted [] cs else norm_go rooted [".."] cs
        | x :: acc' => if (x =? "..")%string then norm_go rooted (".." :: acc) cs
                       else norm_go rooted acc' cs
        end
      else norm_go rooted (c :: acc) cs
  end.
Definition norm (rooted : bool) (cs : list string) : list string := norm_go rooted [] cs.

Definition render (rooted : bool) (cs : list string) : string :=
  if rooted then "/" +:+ Join_sep "/" cs
  else match cs with [] => "." | _ => Join_sep "/" cs end.

Definition Clean (p : string) : string := render (IsAbs p) (norm (IsAbs p) (comps p)).

(** [filepath.Join]: empty elements are ignored. *)
Definition Join (elems : list string) : string :=
  match filter (λ e, bool_decide (e ≠ "") = true) elems with
  | [] => ""
  | es => Clean (Join_sep "/" es)
  end.

(** [filepath.Dir] *)
Definition Dir (p : string) : string :=
  Clean (let dirs := removelast (Split slash p) in
         match dirs with
         | [] => ""
         | _ => Join_sep "/" dirs +:+ "/"
         end).

(** [filepath.Base]: the last non-empty element, ["."] for an empty path, ["/"] for
    slashes only; [Base] does not clean, so a trailing ["."] is an element. *)
Definition Base (p : string) : string :=
  if (p =? "")%string then "."
  else match rev (filter (λ c, bool_decide (c ≠ "") = true) (Split slash p)) with
       | [] => "/"
       | c :: _ => c
       end.

Fixpoint strip_common (base targ : list string) : list string * list string :=
  match base, targ with
  | b :: base', t :: targ' => if (b =? t)%string then strip_common base' targ' else (base, targ)
  | _, _ => (base, targ)
  end.

(** [filepath.Rel] *)
Definition Rel (base targ : string) : res string :=
  let cb := norm (IsAbs base) (comps base) in
  let ct := norm (IsAbs targ) (comps targ) in
  if negb (Bool.eqb (IsAbs base) (IsAbs targ))
  then Err (Errorf "Rel: can't make %s relative to %s" [targ; base])
  else
    let '(b, t) := strip_common cb ct in
    match b with
    | x :: _ => if (x =? "..")%string
                then Err (Errorf "Rel: can't make %s relative to %s" [targ; base])
                else Ok (render false (replicate (length b) ".." ++ t))
    | [] => Ok (render false t)
    end.

(** ** Lemmas *)

(** What [Clean] can leave as a component. *)
Definition comp_ok (c : string) : Prop :=
  c ≠ "" ∧ c ≠ "." ∧ bytes_all (λ x, bool_decide (x ≠ slash)) c = true.

Lemma is_comp_iff c : is_comp c = true ↔ c ≠ "" ∧ c ≠ ".".
Proof.
  unfold is_comp. rewrite negb_true_iff, orb_false_iff, !String.eqb_neq. done.
Qed.

Lemma comps_ok p : Forall comp_ok (comps p).
Proof.
  apply Forall_forall. intros c [H1 H2]%list_elem_of_filter.
  apply is_comp_iff in H1 as []. by repeat split; [..|eapply Split_no_sep].
Qed.

Lemma Split_app_sep w s :
  bytes_all (λ x, bool_decide (x ≠ slash)) w = true →
  Split slash (w +:+ String slash s) = w :: Split slash s.
Proof.
  induction w as [|c w IH]; intros Hw; csimpl; [done|].
  simpl in Hw. apply andb_true_iff in Hw as [Hc Hw]. apply bool_decide_eq_true in Hc.
  rewrite bool_decide_false by done. by rewrite IH.
Qed.

Lemma Split_no_sep_self w :
  bytes_all (λ x, bool_decide (x ≠ slash)) w = true → Split slash w = [w].
Proof.
  induction w as [|c w IH]; intros Hw; csimpl; [done|].
  simpl in Hw. apply andb_true_iff in Hw as [Hc Hw]. apply bool_decide_eq_true in Hc.
  rewrite bool_decide_false by done. by rewrite IH.
Qed.

Lemma Split_not_nil p : Split slash p ≠ [].
Proof.
  destruct p as [|c p]; simpl; [done|]. case_bool_decide; [done|]. by destruct (Split slash p).
Qed.

Lemma Split_sep_app a b : Split slash (a +:+ String slash b) = Split slash a ++ Split slash b.
Proof.
  induction a as [|c a IH]; csimpl; [done|]. case_bool_decide; [by rewrite IH|].
  rewrite IH. pose proof (Split_not_nil a). by destruct (Split slash a).
Qed.

Lemma comps_sep_app a b : comps (a +:+ String slash b) = comps a ++ comps b.
Proof. unfold comps. by rewrite Split_sep_app, filter_app. Qed.

Lemma comps_comp c : comp_ok c → comps c = [c].
Proof.
  intros (H1 & H2 & H3). unfold comps. rewrite Split_no_sep_self by done.
  rewrite filter_cons, decide_True by (by apply is_comp_iff). done.
Qed.

Lemma comps_Join_sep cs : Forall comp_ok cs → comps (Join_sep "/" cs) = cs.
Proof.
  unfold Join_sep. induction 1 as [|c cs Hc Hcs IH]; [done|].
  destruct cs as [|d cs]; [by apply comps_comp|].
  change (String.concat "/" (c :: d :: cs)) with (c +:+ String slash (String.concat "/" (d :: cs))).
  rewrite comps_sep_app, IH, comps_comp by done. done.
Qed.

Lemma comps_slash p : comps (String slash p) = comps p.
Proof. exact (comps_sep_app "" p). Qed.

Lemma comps_render b cs : Forall comp_ok cs → comps (render b cs) = cs.
Proof.
  intros H. unfold render. destruct b.
  - change ("/" +:+ Join_sep "/" cs) with (String slash (Join_sep "/" cs)).
    by rewrite comps_slash, comps_Join_sep.
  - destruct cs as [|c cs]; [done|]. by apply comps_Join_sep.
Qed.

Lemma IsAbs_iff p : IsAbs p = true ↔ ∃ q, p = String slash q.
Proof. unfold IsAbs. rewrite HasPrefix_iff. done. Qed.

Lemma IsAbs_comp c : comp_ok c → IsAbs c = false.
Proof.
  intros (_ & _ & H). apply not_true_is_false. intros [q ->]%IsAbs_iff. simpl in H.
  done.
Qed.

Lemma IsAbs_app a b : a ≠ "" → IsAbs (a +:+ b) = IsAbs a.
Proof.
  destruct a as [|c a]; [done|]. intros _. apply Bool.eq_iff_eq_true. rewrite !IsAbs_iff. simpl.
  split; intros [q [= -> _]]; eauto.
Qed.

Lemma IsAbs_render b cs : Forall comp_ok cs → IsAbs (render b cs) = b.
Proof.
  intros H. unfold render. destruct b; [by apply IsAbs_iff; eexists|].
  destruct H as [|c cs Hc Hcs]; [done|]. unfold Join_sep.
  destruct cs as [|d cs]; [by apply IsAbs_comp|].
  change (String.concat "/" (c :: d :: cs)) with (c +:+ ("/" +:+ String.concat "/" (d :: cs))).
  rewrite IsAbs_app; [by apply IsAbs_comp|]. by destruct Hc.
Qed.

(** *** Normalisation *)

(** Components without [".."]. *)
Definition plain (cs : list string) : Prop := Forall (λ c, c ≠ "..") cs.

Lemma norm_go_ok b acc cs : Forall comp_ok acc → Forall comp_ok cs → Forall comp_ok (norm_go b acc cs).
Proof.
  assert (comp_ok "..") by done.
  intros Ha Hc. revert acc Ha. induction Hc as [|c cs Hc Hcs IH]; intros acc Ha; simpl.
  - by apply Forall_rev.
  - destruct (c =? "..")%string; [|by apply IH; constructor].
    destruct Ha as [|x acc Hx Ha].
    + destruct b; apply IH; [constructor|by constructor].
    + destruct (x =? "..")%string; apply IH; [by do 2 constructor|done].
Qed.

Lemma norm_ok b p : Forall comp_ok (norm b (comps p)).
Proof. apply norm_go_ok; [constructor|apply comps_ok]. Qed.

Lemma norm_go_plain_acc acc cs : plain acc → plain (norm_go true acc cs).
Proof.
  unfold plain. revert acc. induction cs as [|c cs IH]; intros acc Ha; simpl; [by apply Forall_rev|].
  destruct (String.eqb_spec c ".."); [|by apply IH; constructor].
  destruct Ha as [|x acc Hx Ha]; [apply IH; constructor|].
  destruct (String.eqb_spec x ".."); [done|by apply IH].
Qed.

Lemma norm_plain cs : plain (norm true cs).
Proof. apply norm_go_plain_acc. constructor. Qed.

Lemma norm_go_plain b acc cs : plain cs → norm_go b acc cs = rev acc ++ cs.
Proof.
  intros Hcs. revert acc. induction Hcs as [|c cs Hc Hcs IH]; intros acc; simpl.
  - by rewrite app_nil_r.
  - apply String.eqb_neq in Hc as ->. rewrite IH. simpl. by rewrite <- app_assoc.
Qed.

Lemma norm_plain_id b cs : plain cs → norm b cs = cs.
Proof. intros. unfold norm. by rewrite norm_go_plain. Qed.

Lemma norm_go_app b acc cs ds :
  norm_go b acc (cs ++ ds) = norm_go b (rev (norm_go b acc cs)) ds.
Proof.
  revert acc. induction cs as [|c cs IH]; intros acc; simpl; [by rewrite rev_involutive|].
  destruct (c =? "..")%string; [|by apply IH].
  destruct acc as [|x acc]; [destruct b; apply IH|]. destruct (x =? "..")%string; apply IH.
Qed.

Lemma norm_app_plain b cs ds : plain cs → norm b (cs ++ ds) = norm_go b (rev cs) ds.
Proof. intros H. unfold norm. by rewrite norm_go_app, (norm_go_plain b [] cs). Qed.

Lemma comps_Clean p : comps (Clean p) = norm (IsAbs p) (comps p).
Proof. unfold Clean. apply comps_render, norm_ok. Qed.

Lemma IsAbs_Clean p : IsAbs (Clean p) = IsAbs p.
Proof. unfold Clean. apply IsAbs_render, norm_ok. Qed.

Lemma plain_app cs ds : plain (cs ++ ds) ↔ plain cs ∧ plain ds.
Proof. unfold plain. by rewrite Forall_app. Qed.

(** Cleaning a clean path changes nothing. *)
Lemma Clean_render_plain b cs :
  Forall comp_ok cs → plain cs → Clean (render b cs) = render b cs.
Proof.
  intros H1 H2. unfold Clean. by rewrite IsAbs_render, comps_render, norm_plain_id.
Qed.

Lemma render_not_empty b cs : Forall comp_ok cs → render b cs ≠ "".
Proof.
  intros H. destruct b; [done|]. destruct H as [|c cs Hc Hcs]; [done|]. simpl. unfold Join_sep.
  destruct cs as [|d cs]; [by destruct Hc|]. destruct Hc as [Hc _]. simpl. by destruct c.
Qed.

(** [Join] of an absolute base with relative elements. *)
Lemma Join_two a b : a ≠ "" → b ≠ "" → Join [a; b] = Clean (a +:+ String slash b).
Proof.
  intros Ha Hb. unfold Join. rewrite filter_cons, decide_True by (by apply bool_decide_eq_true).
  rewrite filter_cons, decide_True by (by apply bool_decide_eq_true). done.
Qed.

Lemma Join_three a b c : a ≠ "" → b ≠ "" → c ≠ "" →
  Join [a; b; c] = Clean (a +:+ String slash (b +:+ String slash c)).
Proof.
  intros Ha Hb Hc. unfold Join.
  rewrite filter_cons, decide_True by (by apply bool_decide_eq_true).
  rewrite filter_cons, decide_True by (by apply bool_decide_eq_true).
  rewrite filter_cons, decide_True by (by apply bool_decide_eq_true). done.
Qed.

Lemma Join_abs_eq a b : IsAbs a = true → b ≠ "" →
  Join [a; b] = render true (norm true (comps a ++ comps b)).
Proof.
  intros Ha Hb. assert (a ≠ "") as Ha' by (intros ->; done).
  rewrite Join_two by done. unfold Clean.
  assert (IsAbs (a +:+ String slash b) = true) as E.
  { apply IsAbs_iff in Ha as [q ->]. apply IsAbs_iff. simpl. eauto. }
  rewrite E. by rewrite comps_sep_app.
Qed.

Lemma comps_Join_abs a b : IsAbs a = true → b ≠ "" →
  comps (Join [a; b]) = norm true (comps a ++ comps b) ∧ IsAbs (Join [a; b]) = true.
Proof.
  intros Ha Hb. rewrite Join_abs_eq by done.
  assert (Forall comp_ok (norm true (comps a ++ comps b))) as H.
  { apply norm_go_ok; [constructor|]. apply Forall_app. split; apply comps_ok. }
  split; [by rewrite comps_render|by rewrite IsAbs_render].
Qed.

(** *** [Rel] *)

Lemma strip_common_spec base targ b t :
  strip_common base targ = (b, t) →
  ∃ p, base = p ++ b ∧ targ = p ++ t ∧
       (∀ x y b' t', b = x :: b' → t = y :: t' → x ≠ y).
Proof.
  revert targ b t. induction base as [|x base IH]; intros [|y targ] b t; simpl.
  - intros [= <- <-]. exists []. naive_solver.
  - intros [= <- <-]. exists []. naive_solver.
  - intros [= <- <-]. exists []. naive_solver.
  - destruct (String.eqb_spec x y) as [->|Hxy].
    + intros (p & -> & -> & H)%IH. by exists (y :: p).
    + intros [= <- <-]. exists []. naive_solver.
Qed.

Lemma strip_common_prefix p t : strip_common p (p ++ t) = ([], t).
Proof.
  induction p as [|x p IH]; simpl; [by destruct t|]. by rewrite String.eqb_refl.
Qed.

(** [Rel] from an absolute directory: below it the rest of the path, else a path
    through [".."]. *)
Lemma Rel_abs base targ :
  IsAbs base = true → IsAbs targ = true → plain (comps base) → plain (comps targ) →
  let '(b, t) := strip_common (comps base) (comps targ) in
  Rel base targ = Ok (render false (replicate (length b) ".." ++ t)).
Proof.
  intros Hb Ht Pb Pt. unfold Rel. rewrite Hb, Ht. simpl.
  rewrite !norm_plain_id by done.
  destruct (strip_common (comps base) (comps targ)) as [b t] eqn:E.
  destruct b as [|x b]; [done|]. apply strip_common_spec in E as (p & E & _).
  destruct (String.eqb_spec x "..") as [->|]; [|done].
  rewrite E in Pb. apply plain_app in Pb as [_ Pb]. by inversion Pb.
Qed.

Lemma Join_sep_cons c cs : cs ≠ [] → Join_sep "/" (c :: cs) = c +:+ String slash (Join_sep "/" cs).
Proof. destruct cs; done. Qed.

(** A relative rendering is [".."] or starts with ["../"] exactly when its first
    component is [".."]. *)
Lemma render_escapes cs :
  Forall comp_ok cs →
  ((render false cs =? "..")%string || HasPrefix (render false cs) "../") = true ↔ head cs = Some "..".
Proof.
  intros H. destruct H as [|c cs Hc Hcs]; [done|]. unfold render.
  destruct cs as [|d cs].
  - change (Join_sep "/" [c]) with c. rewrite orb_true_iff, String.eqb_eq. split.
    + intros [->|[t ->]%HasPrefix_iff]; [done|]. destruct Hc as (_ & _ & Hc). simpl in Hc. done.
    + intros [= ->]. by left.
  - rewrite (Join_sep_cons c (d :: cs)) by discriminate. rewrite orb_true_iff, String.eqb_eq. split.
    + intros [E|[t E]%HasPrefix_iff].
      * exfalso. destruct Hc as (_ & _ & Hc).
        assert (bytes_all (λ x, bool_decide (x ≠ slash)) ".." = true) as Hd by done.
        rewrite <- E, bytes_all_app in Hd. simpl in Hd. by rewrite andb_false_r in Hd.
      * change ("../" +:+ t) with (".." +:+ String slash t) in E.
        destruct Hc as (_ & _ & Hc).
        destruct (cut_unique (λ x, bool_decide (x ≠ slash)) slash c (Join_sep "/" (d :: cs)) ".." t)
          as [-> _]; [by rewrite bool_decide_false by naive_solver|done..].
    + intros [= ->]. right. apply HasPrefix_iff. exists (Join_sep "/" (d :: cs)). done.
Qed.

#[global] Arguments render : simpl never.
#[global] Arguments Join : simpl never.
#[global] Arguments Clean : simpl never.
#[global] Arguments Dir : simpl never.
#[global] Arguments Base : simpl never.
#[global] Arguments Rel : simpl never.
