(* ===== verification/GoOS.v ===== *)
(** * The file system as the [os] package shows it

    Nodes are keyed by the components of their absolute path; the root directory
    is implicit.  A path is resolved like the kernel does, component by
    component, through at most 40 symbolic links.  Every call takes one outcome
    from the list of faults: a call that fails for a reason of the outside (never
    "not exist") changes nothing.  Ownership, access control and file times are not
    modelled; a mode is the argument the code passes. *)

From S2P Require Import Prelude GoLib GoPath.

(** ** Definitions *)

Abbreviation path := (list string).

Inductive fnode :=
| NFile (content : string) (mode : Z)
| NDir
| NLink (target : string).

#[global] Instance fnode_eq_dec : EqDecision fnode.
Proof. solve_decision. Defined.

Abbreviation tree := (gmap path fnode).

Record OS := mkOS {
  os_tree : tree;
  os_cwd : path;
  os_rand : list Z;        (* what [os.CreateTemp] draws *)
  os_faults : list (option string) }.

Definition set_tree (t : tree) (o : OS) : OS := mkOS t (os_cwd o) (os_rand o) (os_faults o).

Definition ENOENT : error := ESentinel os_ErrNotExist.
Definition EEXIST : error := EExt "file exists".
Definition ENOTDIR : error := EExt "not a directory".
Definition EISDIR : error := EExt "is a directory".
Definition ENOTEMPTY : error := EExt "directory not empty".
Definition EINVAL : error := EExt "invalid argument".
Definition ELOOP : error := EExt "too many levels of symbolic links".

(** [os.IsNotExist(err)] *)
Definition IsNotExist (e : error) : bool := bool_decide (e = ENOENT).

(** *** Path resolution *)

Definition node_at (t : tree) (p : path) : option fnode :=
  match p with [] => Some NDir | _ => t !! p end.

(** [walk links follow done rest]: the key the path [rest], taken from the directory
    [done], names; its last component need not exist, and is not followed as a link
    unless [follow]. *)
Fixpoint walk (t : tree) (links : nat) (follow : bool) (done rest : path) : res path :=
  (fix go (done rest : path) : res path :=
     match rest with
     | [] => Ok done
     | c :: rest' =>
         if (c =? "..")%string then go (removelast done) rest'
         else
           let p := done ++ [c] in
           match t !! p with
           | Some (NLink target) =>
               if negb follow && bool_decide (rest' = []) then Ok p
               else match links with
                    | O => Err ELOOP
                    | S links => walk t links follow (if IsAbs target then [] else done)
                                   (comps target ++ rest')
                    end
           | Some NDir => go p rest'
           | Some (NFile _ _) => match rest' with [] => Ok p | _ => Err ENOTDIR end
           | None => match rest' with [] => Ok p | _ => Err ENOENT end
           end
     end) done rest.

#[global] Arguments walk : simpl never.

Definition max_links : nat := 40.

Definition start_dir (o : OS) (p : string) : path := if IsAbs p then [] else os_cwd o.

Definition resolve (o : OS) (follow : bool) (p : string) : res path :=
  if (p =? "")%string then Err ENOENT
  else walk (os_tree o) max_links follow (start_dir o p) (comps p).

(** One system call. *)
Definition syscall {A} (f : OS → res (A * tree)) : M OS A := λ o,
  let '(flt, fs) := next_fault (os_faults o) in
  let o := mkOS (os_tree o) (os_cwd o) (os_rand o) fs in
  match flt with
  | Some e => (Err (EExt e), o)
  | None => match f o with
            | Ok (a, t) => (Ok a, set_tree t o)
            | Err e => (Err e, o)
            end
  end.

(** *** Trees *)

(** [below p q]: [q] is [p] or inside it. *)
Definition below (p q : path) : Prop := p `prefix_of` q.

Definition remove_tree (p : path) (t : tree) : tree := filter (λ kn, ¬ below p kn.1) t.
Definition subtree (p : path) (t : tree) : tree := filter (λ kn, below p kn.1) t.

Definition is_empty_dir (p : path) (t : tree) : bool :=
  bool_decide (map_Forall (λ k _, ¬ (below p k ∧ k ≠ p)) t).

(** The node [p] and all inside it become [q]. *)
Definition rekey (p q : path) (k : path) : path := q ++ drop (length p) k.
Definition move_tree (p q : path) (t : tree) : tree :=
  list_to_map ((λ kn, (rekey p q kn.1, kn.2)) <$> map_to_list (subtree p t))
  ∪ remove_tree p (remove_tree q t).

(** *** System calls *)

Definition stat_with (follow : bool) (p : string) : M OS fnode :=
  syscall (λ o,
    match resolve o follow p with
    | Err e => Err e
    | Ok k => match node_at (os_tree o) k with
              | Some n => Ok (n, os_tree o)
              | None => Err ENOENT
              end
    end).
Definition Lstat : string → M OS fnode := stat_with false.
Definition Stat : string → M OS fnode := stat_with true.

Definition IsDir (n : fnode) : bool := match n with NDir => true | _ => false end.
Definition IsSymlink (n : fnode) : bool := match n with NLink _ => true | _ => false end.
Definition IsRegular (n : fnode) : bool := match n with NFile _ _ => true | _ => false end.
Definition Size (n : fnode) : Z :=
  match n with NFile c _ => Z.of_nat (String.length c) | _ => 0 end.

(** [os.ReadFile], and [os.Open] with a read of all of it. *)
Definition ReadFile (p : string) : M OS string :=
  syscall (λ o,
    match resolve o true p with
    | Err e => Err e
    | Ok k => match node_at (os_tree o) k with
              | Some (NFile c _) => Ok (c, os_tree o)
              | Some _ => Err EISDIR
              | None => Err ENOENT
              end
    end).

(** [os.WriteFile]; [os.OpenFile] with [O_CREATE|O_WRONLY|O_TRUNC] then a write. *)
Definition put_file (k : path) (data : string) (mode : Z) (t : tree) : res tree :=
  match node_at t k with
  | Some (NFile _ m) => Ok (<[k := NFile data m]> t)
  | Some _ => Err EISDIR
  | None => Ok (<[k := NFile data mode]> t)
  end.
Definition WriteFile (p data : string) (mode : Z) : M OS unit :=
  syscall (λ o,
    match resolve o true p with
    | Err e => Err e
    | Ok k => match put_file k data mode (os_tree o) with
              | Ok t => Ok (tt, t)
              | Err e => Err e
              end
    end).

(** [os.OpenFile] with [O_CREATE|O_WRONLY]: an existing file keeps its contents. *)
Definition OpenCreate (p : string) (mode : Z) : M OS unit :=
  syscall (λ o,
    match resolve o true p with
    | Err e => Err e
    | Ok k => match node_at (os_tree o) k with
              | Some (NFile _ _) => Ok (tt, os_tree o)
              | Some _ => Err EISDIR
              | None => Ok (tt, <[k := NFile "" mode]> (os_tree o))
              end
    end).

(** [File.WriteAt], of the open file [p]. *)
Definition WriteAt (p data : string) (off : Z) : M OS unit :=
  syscall (λ o,
    if off <? 0 then Err (EExt "negative offset")
    else match resolve o true p with
    | Err e => Err e
    | Ok k => match node_at (os_tree o) k with
              | Some (NFile c m) => Ok (tt, <[k := NFile (write_bytes c (Z.to_nat off) data) m]> (os_tree o))
              | Some _ => Err EISDIR
              | None => Err ENOENT
              end
    end).

Definition Chmod (p : string) (mode : Z) : M OS unit :=
  syscall (λ o,
    match resolve o true p with
    | Err e => Err e
    | Ok k => match node_at (os_tree o) k with
              | Some (NFile c _) => Ok (tt, <[k := NFile c mode]> (os_tree o))
              | Some _ => Ok (tt, os_tree o)
              | None => Err ENOENT
              end
    end).

(** The non-empty prefixes of a list, shortest first. *)
Fixpoint prefixes {A} (l : list A) : list (list A) :=
  match l with
  | [] => []
  | x :: l => [x] :: ((x ::.) <$> prefixes l)
  end.

(** [mkdir(2)] that accepts an existing directory. *)
Definition mkdir_key (k : path) (t : tree) : res tree :=
  match node_at t k with
  | Some NDir => Ok t
  | Some (NFile _ _) => Err ENOTDIR
  | Some (NLink _) => Err EEXIST
  | None => Ok (<[k := NDir]> t)
  end.

(** [os.MkdirAll] *)
Fixpoint mkdir_all (o : OS) (start : path) (ps : list path) (t : tree) : res tree :=
  match ps with
  | [] => Ok t
  | p :: ps =>
      match walk t max_links true start p with
      | Err e => Err e
      | Ok k => match mkdir_key k t with
                | Ok t => mkdir_all o start ps t
                | Err e => Err e
                end
      end
  end.
Definition MkdirAll (p : string) : M OS unit :=
  syscall (λ o,
    if (p =? "")%string then Err ENOENT
    else match mkdir_all o (start_dir o p) (prefixes (comps p)) (os_tree o) with
         | Ok t => Ok (tt, t)
         | Err e => Err e
         end).

Definition Remove (p : string) : M OS unit :=
  syscall (λ o,
    match resolve o false p with
    | Err e => Err e
    | Ok [] => Err EINVAL
    | Ok k => match os_tree o !! k with
              | None => Err ENOENT
              | Some NDir => if is_empty_dir k (os_tree o) then Ok (tt, delete k (os_tree o))
                             else Err ENOTEMPTY
              | Some _ => Ok (tt, delete k (os_tree o))
              end
    end).

(** [os.RemoveAll]: a path that does not exist is no error. *)
Definition RemoveAll (p : string) : M OS unit :=
  syscall (λ o,
    if (p =? "")%string then Ok (tt, os_tree o)
    else match resolve o false p with
         | Err e => if IsNotExist e then Ok (tt, os_tree o) else Err e
         | Ok k => Ok (tt, remove_tree k (os_tree o))
         end).

(** Whether the node [n] at [a] may be renamed to [b], over what is there. *)
Definition rename_check (t : tree) (a b : path) (n : fnode) : option error :=
  if bool_decide (below a b) then (if bool_decide (a = b) then None else Some EINVAL)
  else match node_at t b, n with
       | Some NDir, NDir => if is_empty_dir b t && bool_decide (b ≠ []) then None else Some EEXIST
       | Some NDir, _ => Some EEXIST
       | Some _, NDir => Some ENOTDIR
       | _, _ => None
       end.

Definition Rename (old new : string) : M OS unit :=
  syscall (λ o,
    match resolve o false old, resolve o false new with
    | Err e, _ => Err e
    | _, Err e => Err e
    | Ok a, Ok b =>
        match os_tree o !! a with
        | None => Err ENOENT
        | Some n =>
            match rename_check (os_tree o) a b n with
            | Some e => Err e
            | None => Ok (tt, if bool_decide (a = b) then os_tree o else move_tree a b (os_tree o))
            end
        end
    end).

Definition Symlink (target p : string) : M OS unit :=
  syscall (λ o,
    match resolve o false p with
    | Err e => Err e
    | Ok k => match node_at (os_tree o) k with
              | Some _ => Err EEXIST
              | None => Ok (tt, <[k := NLink target]> (os_tree o))
              end
    end).

Definition Readlink (p : string) : M OS string :=
  syscall (λ o,
    match resolve o false p with
    | Err e => Err e
    | Ok k => match node_at (os_tree o) k with
              | Some (NLink target) => Ok (target, os_tree o)
              | Some _ => Err EINVAL
              | None => Err ENOENT
              end
    end).

(** [os.CreateTemp(dir, prefix + "*" + suffix)]: the name of a new empty file of mode
    0600, made from the first random number whose name is free. *)
Definition join_path (dir name : string) : string :=
  if (dir =? "/")%string then "/" +:+ name else dir +:+ "/" +:+ name.
Fixpoint create_temp (o : OS) (dir prefix suffix : string) (rs : list Z) : res (string * tree) :=
  match rs with
  | [] => Err EEXIST
  | r :: rs =>
      let name := join_path dir (prefix +:+ FormatInt r +:+ suffix) in
      match resolve o false name with
      | Err e => Err e
      | Ok k => match node_at (os_tree o) k with
                | Some _ => create_temp o dir prefix suffix rs
                | None => Ok (name, <[k := NFile "" 384]> (os_tree o))
                end
      end
  end.
Definition CreateTemp (dir prefix suffix : string) : M OS string :=
  syscall (λ o, create_temp o dir prefix suffix (os_rand o)).

(** Operations on an open temporary file of that name. *)
Definition temp_Write (name data : string) : M OS unit := WriteFile name data 384.
Definition temp_Chmod : string → Z → M OS unit := Chmod.
Definition temp_Sync (name : string) : M OS unit := syscall (λ o, Ok (tt, os_tree o)).
Definition temp_Close (name : string) : M OS unit := syscall (λ o, Ok (tt, os_tree o)).

(** [os.ReadDir]: the entries in the order of their names. *)
Definition child_of (p k : path) : option string :=
  match drop (length p) k with
  | [c] => if bool_decide (below p k) then Some c else None
  | _ => None
  end.
Definition entries (p : path) (t : tree) : list (string * fnode) :=
  isort (λ a b, String.leb a.1 b.1)
    (omap (λ kn, (λ c, (c, kn.2)) <$> child_of p kn.1) (map_to_list t)).
Definition ReadDir (p : string) : M OS (list (string * fnode)) :=
  syscall (λ o,
    match resolve o true p with
    | Err e => Err e
    | Ok k => match node_at (os_tree o) k with
              | Some NDir => Ok (entries k (os_tree o), os_tree o)
              | Some _ => Err ENOTDIR
              | None => Err ENOENT
              end
    end).

(** [defer f()] around the rest of a function: [f] runs whatever the rest returns, its
    own error is dropped. *)
Definition defer {S A} (m : M S A) (f : M S unit) : M S A :=
  r ← try m; ignore f;; lift_res r.
