(* ===== verification/GoOSFacts.v ===== *)
(** * Facts about the file-system model

    Where a path leads when no component of it is a link, which keys each call
    can change, and which links it can make. *)

From S2P Require Import Prelude GoLib GoPath GoOS.

(** ** Definitions *)

(** No component of [p], the last one excepted, is a link. *)
Definition no_link_above (t : tree) (p : path) : Prop :=
  ∀ q c target, q ++ [c] `prefix_of` p → q ++ [c] ≠ p → t !! (q ++ [c]) ≠ Some (NLink target).
Definition no_link (t : tree) (p : path) : Prop :=
  ∀ q c target, q ++ [c] `prefix_of` p → t !! (q ++ [c]) ≠ Some (NLink target).

(** An absolute path without [".."]. *)
Definition direct (p : string) : Prop := IsAbs p = true ∧ plain (comps p).

(** Every link of [t'] is one of [t]. *)
Definition no_new_links (t t' : tree) : Prop :=
  ∀ k target, t' !! k = Some (NLink target) → t !! k = Some (NLink target).

(** Everything that changes from [t] to [t'] is in the region [R]. *)
Definition changes (R : path → Prop) (t t' : tree) : Prop := ∀ k, t' !! k = t !! k ∨ R k.

(** From [t] to [t'] only missing prefixes of [p] became directories. *)
Definition adds_dirs (p : path) (t t' : tree) : Prop :=
  ∀ k, t' !! k = t !! k ∨ (below k p ∧ t !! k = None ∧ t' !! k = Some NDir).

(** ** Lemmas *)

Lemma below_refl p : below p p.
Proof. unfold below. done. Qed.

Lemma no_link_weaken t p : no_link t p → no_link_above t p.
Proof. intros H q c tg H1 _. by apply H. Qed.

Lemma no_link_above_snoc t p c : no_link t p → no_link_above t (p ++ [c]).
Proof.
  intros H q d tg Hpre Hne. apply H. destruct Hpre as [s Hs].
  destruct s as [|x s _] using rev_ind; [by rewrite app_nil_r in Hs|].
  rewrite app_assoc in Hs. apply app_inj_tail in Hs as [-> _]. by apply prefix_app_r.
Qed.

Lemma no_link_above_prefix t p q : no_link_above t p → q `prefix_of` p → q ≠ p → no_link t q.
Proof.
  intros H Hpre Hne r c tg Hr. apply H; [by etrans|].
  intros Heq. apply Hne. apply (anti_symm prefix); [done|]. by rewrite <- Heq.
Qed.

Lemma no_link_prefix t p q : no_link t p → q `prefix_of` p → no_link t q.
Proof. intros H Hpre r c tg Hr. apply H. by etrans. Qed.

Lemma no_link_no_new t t' p : no_new_links t t' → no_link t p → no_link t' p.
Proof. intros Hn H q c tg Hpre E%Hn. by eapply H. Qed.

Lemma no_link_above_no_new t t' p : no_new_links t t' → no_link_above t p → no_link_above t' p.
Proof. intros Hn H q c tg Hpre Hne E%Hn. by eapply H. Qed.

Lemma no_link_above_last t p :
  no_link_above t p → (∀ target, t !! p ≠ Some (NLink target)) → no_link t p.
Proof.
  intros H Hl q c tg Hpre. destruct (decide (q ++ [c] = p)) as [->|Hne]; [apply Hl|by apply H].
Qed.

(** *** Resolution *)

Definition walk_inner (t : tree) (links : nat) (follow : bool) : path → path → res path :=
  fix go (done rest : path) : res path :=
    match rest with
    | [] => Ok done
    | c :: rest' =>
        if (c =? "..")%string then go (removelast done) rest'
        else
          let p := done ++ [c] in
          match t !! p with
          | Some (NLink target) =>
              if negb follow && bool_decide (rest' = []) then Ok p
              else match links with
                   | O => Err ELOOP
                   | S links => walk t links follow (if IsAbs target then [] else done)
                                  (comps target ++ rest')
                   end
          | Some NDir => go p rest'
          | Some (NFile _ _) => match rest' with [] => Ok p | _ => Err ENOTDIR end
          | None => match rest' with [] => Ok p | _ => Err ENOENT end
          end
    end.

Lemma walk_unfold t links follow done rest :
  walk t links follow done rest = walk_inner t links follow done rest.
Proof. by destruct links. Qed.

Lemma node_at_snoc t p c : node_at t (p ++ [c]) = t !! (p ++ [c]).
Proof. by destruct p. Qed.

Lemma walk_no_link t links follow done rest k :
  plain rest →
  (∀ q c target, q ++ [c] `prefix_of` rest → (follow = false → q ++ [c] ≠ rest) →
     t !! (done ++ q ++ [c]) ≠ Some (NLink target)) →
  node_at t done = Some NDir →
  walk t links follow done rest = Ok k →
  k = done ++ rest ∧ (rest ≠ [] → node_at t (removelast k) = Some NDir).
Proof.
  rewrite walk_unfold. revert done. induction rest as [|c rest IH]; intros done Hp Hl Hd; simpl.
  - intros [= <-]. by rewrite app_nil_r.
  - inversion Hp as [|? ? Hc Hr]; subst. apply String.eqb_neq in Hc as ->.
    assert (node_at t (removelast (done ++ [c])) = Some NDir) as Hd'.
    { by rewrite removelast_last. }
    destruct (t !! (done ++ [c])) as [[f m| |tg]|] eqn:E.
    + destruct rest; intros [=]; by subst.
    + intros Hk. apply IH in Hk as [-> Hk]; [|done| |by rewrite node_at_snoc].
      * rewrite <- app_assoc. split; [done|]. intros _. destruct rest as [|d rest]; [done|].
        rewrite <- app_assoc in Hk. by apply Hk.
      * intros q d tg Hpre Hne. rewrite <- app_assoc. apply (Hl (c :: q) d tg).
        -- by apply prefix_cons.
        -- intros Hf [= Heq]. by apply Hne.
    + destruct follow; simpl.
      * exfalso. apply (Hl [] c tg); [by apply prefix_cons, prefix_nil|done|done].
      * case_bool_decide as Hb; [by intros [= <-]; subst|].
        exfalso. apply (Hl [] c tg); [by apply prefix_cons, prefix_nil| |done].
        simpl. intros _ [=]. done.
    + destruct rest; intros [=]; by subst.
Qed.

Lemma resolve_above o p k :
  direct p → no_link_above (os_tree o) (comps p) → resolve o false p = Ok k →
  k = comps p ∧ (comps p ≠ [] → node_at (os_tree o) (removelast (comps p)) = Some NDir).
Proof.
  intros [Ha Hp] Hl. unfold resolve, start_dir. rewrite Ha.
  destruct (p =? "")%string; [discriminate|]. intros H.
  eapply walk_no_link in H as [-> H]; [done|done| |done]. intros q c tg Hpre Hne. apply Hl; auto.
Qed.

Lemma resolve_no_link o b p k :
  direct p → no_link (os_tree o) (comps p) → resolve o b p = Ok k →
  k = comps p ∧ (comps p ≠ [] → node_at (os_tree o) (removelast (comps p)) = Some NDir).
Proof.
  intros [Ha Hp] Hl. unfold resolve, start_dir. rewrite Ha.
  destruct (p =? "")%string; [discriminate|]. intros H.
  eapply walk_no_link in H as [-> H]; [done|done| |done]. intros q c tg Hpre Hne. by apply Hl.
Qed.

(** *** Regions *)

Lemma changes_refl R t : changes R t t.
Proof. intros k. by left. Qed.

Lemma changes_trans R t1 t2 t3 : changes R t1 t2 → changes R t2 t3 → changes R t1 t3.
Proof. intros H1 H2 k. destruct (H1 k), (H2 k); [left; congruence|auto..]. Qed.

Lemma changes_mono (R R' : path → Prop) t t' :
  (∀ k, R k → R' k) → changes R t t' → changes R' t t'.
Proof. intros HR H k. destruct (H k); auto. Qed.

Lemma changes_insert (R : path → Prop) k n t : R k → changes R t (<[k := n]> t).
Proof. intros HR k'. rewrite lookup_insert. case_decide; subst; auto. Qed.

Lemma changes_delete (R : path → Prop) k t : R k → changes R t (delete k t).
Proof. intros HR k'. rewrite lookup_delete. case_decide; subst; auto. Qed.

Lemma lookup_remove_tree p t k :
  remove_tree p t !! k = if decide (below p k) then None else t !! k.
Proof.
  apply option_eq. intros n. unfold remove_tree. rewrite map_lookup_filter_Some. simpl.
  case_decide; naive_solver.
Qed.

Lemma changes_remove_tree (R : path → Prop) p t :
  (∀ k, below p k → R k) → changes R t (remove_tree p t).
Proof. intros HR k. rewrite lookup_remove_tree. case_decide; auto. Qed.

Lemma rekey_below p q k : below q (rekey p q k).
Proof. unfold rekey, below. by apply prefix_app_r. Qed.

Lemma rekey_inj p q k k' : below p k → below p k' → rekey p q k = rekey p q k' → k = k'.
Proof.
  unfold below, rekey. intros [r ->] [r' ->] H%app_inv_head.
  rewrite !drop_app_length in H. by subst.
Qed.

Lemma lookup_move_tree p q t k :
  move_tree p q t !! k =
  if decide (below q k) then
    t !! (p ++ drop (length q) k)
  else if decide (below p k) then None else t !! k.
Proof.
  unfold move_tree. set (l := _ <$> map_to_list (subtree p t)).
  assert (∀ x n, (x, n) ∈ l ↔ ∃ r, x = q ++ r ∧ t !! (p ++ r) = Some n) as Hl.
  { intros x n. unfold l. rewrite list_elem_of_fmap. split.
    - intros ([k' n'] & [= -> ->] & Hin%elem_of_map_to_list). unfold subtree in Hin.
      apply map_lookup_filter_Some in Hin as [Hk [r Hr]]. simpl in Hr. subst k'.
      exists r. unfold rekey. simpl. by rewrite drop_app_length.
    - intros (r & -> & Hr). exists (p ++ r, n). unfold rekey. simpl. rewrite drop_app_length.
      split; [done|]. apply elem_of_map_to_list. unfold subtree.
      apply map_lookup_filter_Some. split; [done|]. by exists r. }
  assert (NoDup l.*1) as Hnd.
  { unfold l. rewrite <- list_fmap_compose. apply NoDup_fmap_2_strong.
    - intros [k1 n1] [k2 n2] H1%elem_of_map_to_list H2%elem_of_map_to_list. simpl.
      unfold subtree in H1, H2. apply map_lookup_filter_Some in H1 as [H1 H1'].
      apply map_lookup_filter_Some in H2 as [H2 H2']. simpl in *.
      intros H%rekey_inj; [|done|done]. subst. congruence.
    - apply NoDup_map_to_list. }
  destruct (decide (below q k)) as [[r ->]|Hq].
  - rewrite drop_app_length. destruct (t !! (p ++ r)) as [n|] eqn:E.
    + apply lookup_union_Some_l. apply elem_of_list_to_map; [done|]. apply Hl. eauto.
    + rewrite lookup_union_r.
      * rewrite !lookup_remove_tree. destruct (decide (below p (q ++ r))); [done|].
        rewrite decide_True; [done|]. by exists r.
      * apply not_elem_of_list_to_map. intros ([x n] & Hx & Hin)%list_elem_of_fmap.
        simpl in Hx. subst x. apply Hl in Hin as (r' & Hr%app_inv_head & Hin). congruence.
  - rewrite lookup_union_r.
    + rewrite !lookup_remove_tree. destruct (decide (below p k)); [done|].
      by rewrite decide_False.
    + apply not_elem_of_list_to_map. intros ([x n] & Hx & Hin)%list_elem_of_fmap.
      simpl in Hx. subst x. apply Hl in Hin as (r' & -> & _). apply Hq. by exists r'.
Qed.

Lemma changes_move_tree (R : path → Prop) p q t :
  (∀ k, below p k → R k) → (∀ k, below q k → R k) → changes R t (move_tree p q t).
Proof.
  intros Hp Hq k. rewrite lookup_move_tree. repeat case_decide; auto.
Qed.

Lemma no_new_links_refl t : no_new_links t t.
Proof. by intros k tg. Qed.

Lemma no_new_links_trans t1 t2 t3 :
  no_new_links t1 t2 → no_new_links t2 t3 → no_new_links t1 t3.
Proof. intros H1 H2 k tg H. by apply H1, H2. Qed.

Lemma no_new_links_insert k n t :
  IsSymlink n = false → no_new_links t (<[k := n]> t).
Proof. intros Hn k' tg. rewrite lookup_insert. case_decide; [by intros [= ->]|done]. Qed.

Lemma no_new_links_delete k t : no_new_links t (delete k t).
Proof. intros k' tg [_ H]%lookup_delete_Some. done. Qed.

Lemma no_new_links_remove_tree p t : no_new_links t (remove_tree p t).
Proof. intros k tg. rewrite lookup_remove_tree. by case_decide. Qed.

(** *** Well-formed trees: only directories have children *)

Definition tree_ok (t : tree) : Prop :=
  ∀ p c n, t !! (p ++ [c]) = Some n → node_at t p = Some NDir.

Lemma snoc_ne {A} (p : list A) c : p ++ [c] ≠ p.
Proof. intros H. apply (f_equal length) in H. rewrite length_app in H. simpl in H. lia. Qed.

Lemma snoc_removelast {A} (k : list A) : k ≠ [] → ∃ p c, k = p ++ [c] ∧ removelast k = p.
Proof.
  destruct k as [|c p _] using rev_ind; [done|]. intros _. exists p, c.
  by rewrite removelast_last.
Qed.

Lemma tree_ok_below t p q n : tree_ok t → t !! q = Some n → below p q → p ≠ q → node_at t p = Some NDir.
Proof.
  intros Ht Hq [r ->]. revert n Hq. induction r as [|c r IH] using rev_ind; intros n Hq Hne.
  - by rewrite app_nil_r in Hne.
  - rewrite app_assoc in Hq. apply Ht in Hq. destruct (decide (r = [])) as [->|Hr].
    + by rewrite app_nil_r in Hq.
    + destruct (p ++ r) as [|x l] eqn:E; [by apply app_eq_nil in E as [_ ->]|].
      rewrite <- E in Hq, IH. eapply IH.
      * rewrite E in *. exact Hq.
      * intros Heq. apply Hr. rewrite <- (app_nil_r p) in Heq at 1. by apply app_inv_head in Heq.
Qed.

Lemma tree_ok_insert t k n :
  tree_ok t → k ≠ [] → node_at t (removelast k) = Some NDir →
  (t !! k ≠ Some NDir ∨ n = NDir) → tree_ok (<[k := n]> t).
Proof.
  intros Ht Hk Hp Hn p c m. rewrite lookup_insert. case_decide as Hd.
  - intros _. subst k. rewrite removelast_last in Hp.
    destruct p as [|x p]; [done|]. simpl in *. rewrite lookup_insert_ne; [done|].
    by intros ?%(snoc_ne (x :: p)).
  - intros Hm%Ht. destruct p as [|x p]; [done|]. simpl in *.
    rewrite lookup_insert. case_decide; [|done]. subst k. destruct Hn; [congruence|by subst].
Qed.

Lemma tree_ok_delete t k :
  tree_ok t → (t !! k = Some NDir → is_empty_dir k t = true) → tree_ok (delete k t).
Proof.
  intros Ht Hk p c n [Hne Hn]%lookup_delete_Some. pose proof (Ht _ _ _ Hn) as Hp.
  destruct p as [|x p]; [done|]. simpl in *. rewrite lookup_delete_ne; [done|].
  intros ->. apply Hk in Hp. unfold is_empty_dir in Hp. apply bool_decide_eq_true in Hp.
  eapply (Hp _ n Hn). split; [by exists [c]|].
  by apply (snoc_ne (x :: p)).
Qed.

Lemma tree_ok_remove_tree t k : tree_ok t → tree_ok (remove_tree k t).
Proof.
  intros Ht p c n. rewrite lookup_remove_tree. case_decide as Hb; [done|].
  intros Hn%Ht. destruct p as [|x p]; [done|]. simpl in *. rewrite lookup_remove_tree.
  rewrite decide_False; [done|]. intros Hk. apply Hb. unfold below in *. etrans; [exact Hk|]. by exists [c].
Qed.

Lemma tree_ok_move_tree t p q n :
  tree_ok t → p ≠ [] → q ≠ [] → t !! p = Some n → ¬ below p q →
  node_at t (removelast q) = Some NDir → tree_ok (move_tree p q t).
Proof.
  intros Ht Hp0 Hq0 Hp Hpq Hq x c m. rewrite lookup_move_tree.
  apply snoc_removelast in Hq0 as (q' & d & Hqe & Hq'). rewrite Hq' in Hq.
  destruct (decide (below q (x ++ [c]))) as [[r Hr]|Hb].
  - intros Hm. destruct r as [|y r _] using rev_ind.
    + rewrite app_nil_r, Hqe in Hr. apply app_inj_tail in Hr as [-> ->].
      destruct q' as [|z q']; [done|]. simpl in *. rewrite lookup_move_tree.
      rewrite !decide_False; [done| |].
      * intros [s Hs]. apply Hpq. rewrite Hqe. exists (s ++ [d]). by rewrite app_assoc, <- Hs.
      * intros [s Hs]. rewrite Hqe in Hs. apply (f_equal length) in Hs.
        simpl in Hs. rewrite !length_app in Hs. simpl in Hs. lia.
    + rewrite app_assoc in Hr. apply app_inj_tail in Hr as [-> ->].
      rewrite <- app_assoc, drop_app_length, app_assoc in Hm. apply Ht in Hm.
      assert (∃ a l, q ++ r = a :: l) as (a & l & E).
      { rewrite Hqe. destruct q'; simpl; eauto. }
      rewrite E. simpl. rewrite <- E, lookup_move_tree, decide_True by (by exists r).
      rewrite drop_app_length. destruct (p ++ r) eqn:E2; [by apply app_eq_nil in E2 as [-> _]|done].
  - case_decide as Hb2; [done|]. intros Hm%Ht. destruct x as [|a x]; [done|]. simpl in *.
    rewrite lookup_move_tree, !decide_False; [done| |].
    + intros Hs. apply Hb2. unfold below in *. etrans; [exact Hs|]. by exists [c].
    + intros Hs. apply Hb. unfold below in *. etrans; [exact Hs|]. by exists [c].
Qed.

(** A node that exists is reached. *)
Lemma walk_reaches t links follow dn rest n :
  tree_ok t → plain rest →
  (∀ q c target, q ++ [c] `prefix_of` rest → t !! (dn ++ q ++ [c]) ≠ Some (NLink target)) →
  t !! (dn ++ rest) = Some n → rest ≠ [] →
  walk t links follow dn rest = Ok (dn ++ rest).
Proof.
  rewrite walk_unfold. revert dn. induction rest as [|c rest IH]; intros dn Ht Hp Hl Hn Hne; [done|].
  inversion Hp as [|? ? Hc Hr]; subst. simpl. apply String.eqb_neq in Hc as ->.
  destruct (decide (rest = [])) as [->|Hrest].
  - destruct (t !! (dn ++ [c])) as [[]|] eqn:E; try done.
    exfalso. eapply (Hl [] c); [done|exact E].
  - assert (t !! (dn ++ [c]) = Some NDir) as ->.
    { rewrite <- node_at_snoc. eapply tree_ok_below; [done|exact Hn|exists rest; by rewrite <- app_assoc|].
      intros Heq%app_inv_head. by injection Heq as <-. }
    rewrite IH; [by rewrite <- app_assoc|done..| |by rewrite <- app_assoc|done].
    intros q d tg Hpre. rewrite <- app_assoc. apply (Hl (c :: q) d tg). by apply prefix_cons.
Qed.

Lemma resolve_exists o b p n :
  direct p → tree_ok (os_tree o) → no_link (os_tree o) (comps p) → comps p ≠ [] →
  os_tree o !! comps p = Some n → resolve o b p = Ok (comps p).
Proof.
  intros [Ha Hp] Ht Hl Hne Hn. unfold resolve, start_dir. rewrite Ha.
  destruct (String.eqb_spec p "") as [->|]; [done|].
  eapply (walk_reaches _ _ _ []); [done|done| |exact Hn|done].
  intros q c tg Hpre. by apply Hl.
Qed.

(** *** [MkdirAll] *)

Lemma adds_dirs_refl p t : adds_dirs p t t.
Proof. intros k. by left. Qed.

Lemma adds_dirs_trans p t1 t2 t3 : adds_dirs p t1 t2 → adds_dirs p t2 t3 → adds_dirs p t1 t3.
Proof.
  intros H1 H2 k. destruct (H1 k) as [E1|(B & N1 & D1)], (H2 k) as [E2|(B2 & N2 & D2)].
  - left. congruence.
  - right. split; [done|]. split; congruence.
  - right. split; [done|]. split; congruence.
  - congruence.
Qed.

Lemma adds_dirs_mono p q t t' : p `prefix_of` q → adds_dirs p t t' → adds_dirs q t t'.
Proof.
  intros Hpq H k. destruct (H k) as [|(B & N & D)]; [by left|]. right. split; [|done].
  unfold below in *. by etrans.
Qed.

Lemma adds_dirs_no_new_links p t t' : adds_dirs p t t' → no_new_links t t'.
Proof. intros H k tg Hk. destruct (H k) as [E|(_ & _ & D)]; congruence. Qed.

Lemma elem_of_prefixes {A} (l p : list A) : p ∈ prefixes l → p `prefix_of` l ∧ p ≠ [].
Proof.
  revert p. induction l as [|x l IH]; intros p; simpl; [by intros ?%elem_of_nil|].
  intros [->|(q & -> & Hq)%list_elem_of_fmap]%elem_of_cons.
  - split; [by apply prefix_cons, prefix_nil|done].
  - apply IH in Hq as [Hq _]. split; [by apply prefix_cons|done].
Qed.

Lemma mkdir_key_adds k p t t' :
  below k p → mkdir_key k t = Ok t' → adds_dirs p t t'.
Proof.
  intros Hk. unfold mkdir_key. destruct (node_at t k) as [[]|] eqn:E; try done.
  - intros [= <-]. apply adds_dirs_refl.
  - intros [= <-] k'. rewrite lookup_insert. case_decide; [subst k'|by left].
    right. split; [done|]. split; [|done]. by destruct k.
Qed.

Lemma mkdir_key_ok k t t' :
  tree_ok t → (k ≠ [] → node_at t (removelast k) = Some NDir) → mkdir_key k t = Ok t' → tree_ok t'.
Proof.
  intros Ht Hk. unfold mkdir_key. destruct (node_at t k) as [[]|] eqn:E; try done.
  - by intros [= <-].
  - assert (k ≠ []) as Hk0 by (by intros ->).
    intros [= <-]. apply tree_ok_insert; auto.
Qed.

Lemma mkdir_all_adds o p ps t t' :
  (∀ q, q ∈ ps → q `prefix_of` p) → plain p → no_link t p →
  mkdir_all o [] ps t = Ok t' → adds_dirs p t t' ∧ (tree_ok t → tree_ok t').
Proof.
  revert t. induction ps as [|q ps IH]; intros t Hps Hp Hl; simpl.
  - intros [= <-]. split; [apply adds_dirs_refl|done].
  - assert (q `prefix_of` p) as Hq by (apply Hps; left).
    destruct (walk t max_links true [] q) as [k|] eqn:E; [|intros [=]].
    apply walk_no_link in E as [-> E]; simpl in E.
    + simpl. destruct (mkdir_key q t) as [t1|] eqn:E1; [|intros [=]]. intros H.
      pose proof (mkdir_key_adds q p t t1 Hq E1) as Ha.
      edestruct (IH t1) as [Ha' Ht']; [|done| |exact H|].
      * intros r Hr. apply Hps. by right.
      * eapply no_link_no_new; [by eapply adds_dirs_no_new_links|done].
      * split; [by eapply adds_dirs_trans|]. intros Ht. apply Ht'. by eapply mkdir_key_ok.
    + destruct Hq as [s ->]. by apply plain_app in Hp as [].
    + intros r c tg Hr _. apply Hl. by etrans.
    + done.
Qed.

(** The root directory is never made. *)
Lemma mkdir_all_root o start ps t t' : mkdir_all o start ps t = Ok t' → t' !! [] = t !! [].
Proof.
  revert t. induction ps as [|q ps IH]; intros t; simpl; [by intros [= <-]|].
  destruct (walk _ _ _ _ _) as [k|]; [|done]. unfold mkdir_key.
  destruct (node_at t k) as [[]|] eqn:E; try done; [apply IH|].
  intros ->%IH. apply lookup_insert_ne. by intros ->.
Qed.

(** *** System calls *)

(** What a call does: with a fault or an error it changes nothing. *)
Lemma syscall_inv {A} (f : OS → res (A * tree)) o r o' :
  syscall f o = (r, o') →
  let o1 := mkOS (os_tree o) (os_cwd o) (os_rand o) (snd (next_fault (os_faults o))) in
  (∃ e, r = Err e ∧ o' = o1 ∧ ((∃ s, e = EExt s) ∨ f o1 = Err e)) ∨
  (∃ a t, f o1 = Ok (a, t) ∧ r = Ok a ∧ o' = set_tree t o1).
Proof.
  unfold syscall. destruct (next_fault (os_faults o)) as [[e|] fs]; simpl.
  - intros [= <- <-]. left. eauto 6.
  - destruct (f _) as [[a t]|e] eqn:E; intros [= <- <-]; [right|left]; eauto 6.
Qed.

(** A call that reads only. *)
Definition reads {A} (m : M OS A) : Prop := ∀ o, os_tree (snd (m o)) = os_tree o.

Lemma syscall_reads {A} (f : OS → res (A * tree)) :
  (∀ o a t, f o = Ok (a, t) → t = os_tree o) → reads (syscall f).
Proof.
  intros Hf o. destruct (syscall f o) as [r o'] eqn:E. simpl.
  apply syscall_inv in E as [(e & _ & -> & _)|(a & t & H & _ & ->)]; [done|].
  simpl. by apply Hf in H as ->.
Qed.

Ltac solve_reads :=
  apply syscall_reads; intros o' a' t'; repeat case_match; congruence.

Lemma reads_stat b p : reads (stat_with b p).
Proof. solve_reads. Qed.
Lemma reads_ReadFile p : reads (ReadFile p).
Proof. solve_reads. Qed.
Lemma reads_Readlink p : reads (Readlink p).
Proof. solve_reads. Qed.
Lemma reads_ReadDir p : reads (ReadDir p).
Proof. solve_reads. Qed.
Lemma reads_temp_Sync p : reads (temp_Sync p).
Proof. solve_reads. Qed.
Lemma reads_temp_Close p : reads (temp_Close p).
Proof. solve_reads. Qed.

Section Effects.
Context (o o' : OS) (p : string).
Context (Hd : direct p).

Lemma MkdirAll_adds r :
no_link (os_tree o) (comps p) → MkdirAll p o = (r, o') →
adds_dirs (comps p) (os_tree o) (os_tree o') ∧ (tree_ok (os_tree o) → tree_ok (os_tree o')).
Proof.
intros Hl [(e & -> & -> & _)|(a & t & H & -> & ->)]%syscall_inv; simpl;
  [split; [apply adds_dirs_refl|done]|].
destruct (p =? "")%string; [done|]. destruct Hd as [Ha Hp]. simpl in H.
unfold start_dir in H. rewrite Ha in H.
destruct (mkdir_all _ [] _ _) as [t'|] eqn:E; [|done]. injection H as _ <-.
eapply mkdir_all_adds; [|done|done|exact E]. by intros q [? _]%elem_of_prefixes.
Qed.

(** A call that puts a file at [p]. *)
Definition puts_file : Prop :=
os_tree o' = os_tree o ∨
(∃ c m, os_tree o' = <[comps p := NFile c m]> (os_tree o) ∧ comps p ≠ [] ∧
        node_at (os_tree o) (removelast (comps p)) = Some NDir ∧
        os_tree o !! comps p ≠ Some NDir).

Lemma node_at_none k t : node_at t k = None → k ≠ [] ∧ t !! k = None.
Proof. by destruct k. Qed.

Lemma WriteFile_effect data mode r :
no_link (os_tree o) (comps p) → WriteFile p data mode o = (r, o') → puts_file.
Proof.
unfold puts_file. intros Hl [(e & -> & -> & _)|(a & t & H & -> & ->)]%syscall_inv; [by left|].
destruct (resolve _ _ _) as [k|] eqn:E; [|done]. apply resolve_no_link in E as [-> E]; [|done..].
unfold put_file in *. simpl in *. right.
destruct (comps p) as [|x l]; [done|]. simpl in *.
destruct (os_tree o !! (x :: l)) as [[]|] eqn:En; try done; injection H as _ <-;
  eexists _, _; (split; [reflexivity|]; split; [done|]; split; [by apply E|done]).
Qed.

Lemma OpenCreate_effect mode r :
no_link (os_tree o) (comps p) → OpenCreate p mode o = (r, o') → puts_file.
Proof.
unfold puts_file. intros Hl [(e & -> & -> & _)|(a & t & H & -> & ->)]%syscall_inv; [by left|].
destruct (resolve _ _ _) as [k|] eqn:E; [|done]. apply resolve_no_link in E as [-> E]; [|done..].
simpl in *. destruct (comps p) as [|x l] eqn:Ep; [done|]. simpl in *.
destruct (os_tree o !! (x :: l)) as [[]|] eqn:En; try done; injection H as _ <-; [by left|].
right. eexists _, _. split; [reflexivity|].
split; [done|]. split; [by apply E|done].
Qed.

Lemma WriteAt_effect data off r :
no_link (os_tree o) (comps p) → WriteAt p data off o = (r, o') → puts_file.
Proof.
unfold puts_file. intros Hl [(e & -> & -> & _)|(a & t & H & -> & ->)]%syscall_inv; [by left|].
destruct (off <? 0); [done|].
destruct (resolve _ _ _) as [k|] eqn:E; [|done]. apply resolve_no_link in E as [-> E]; [|done..].
simpl in *. destruct (comps p) as [|x l] eqn:Ep; [done|]. simpl in *.
destruct (os_tree o !! (x :: l)) as [[]|] eqn:En; try done; injection H as _ <-.
right. eexists _, _. split; [reflexivity|].
split; [done|]. split; [by apply E|done].
Qed.

Lemma Chmod_effect mode r :
no_link (os_tree o) (comps p) → Chmod p mode o = (r, o') → puts_file.
Proof.
unfold puts_file. intros Hl [(e & -> & -> & _)|(a & t & H & -> & ->)]%syscall_inv; [by left|].
destruct (resolve _ _ _) as [k|] eqn:E; [|done]. apply resolve_no_link in E as [-> E]; [|done..].
simpl in *.
destruct (comps p) as [|x l] eqn:Ep; [injection H as _ <-; by left|]. simpl in *.
destruct (os_tree o !! (x :: l)) as [[]|] eqn:En; try done; injection H as _ <-; try by left.
right. eexists _, _. split; [reflexivity|].
split; [done|]. split; [by apply E|done].
Qed.

Lemma puts_file_ok : puts_file → tree_ok (os_tree o) → tree_ok (os_tree o').
Proof.
intros [->|(c & m & -> & H1 & H2 & H3)] Ht; [done|]. apply tree_ok_insert; auto.
Qed.

Lemma puts_file_links : puts_file → no_new_links (os_tree o) (os_tree o').
Proof.
intros [->|(c & m & -> & _)]; [apply no_new_links_refl|by apply no_new_links_insert].
Qed.

Lemma puts_file_changes (R : path → Prop) :
puts_file → R (comps p) → changes R (os_tree o) (os_tree o').
Proof.
intros [->|(c & m & -> & _)] HR; [apply changes_refl|by apply changes_insert].
Qed.

(** A call that removes [p], with what is in it. *)
Definition removes : Prop :=
os_tree o' = os_tree o ∨
(os_tree o' = delete (comps p) (os_tree o) ∧
 (os_tree o !! comps p = Some NDir → is_empty_dir (comps p) (os_tree o) = true)) ∨
os_tree o' = remove_tree (comps p) (os_tree o).

Lemma Remove_effect r :
no_link_above (os_tree o) (comps p) → Remove p o = (r, o') → removes.
Proof.
unfold removes. intros Hl [(e & -> & -> & _)|(a & t & H & -> & ->)]%syscall_inv; [by left|].
destruct (resolve _ _ _) as [k|] eqn:E; [|done]. apply resolve_above in E as [-> E]; [|done..].
right. left. simpl in *. destruct (comps p) as [|x l]; [done|].
destruct (os_tree o !! (x :: l)) as [[]|]; try done; simplify_eq; [done| |done].
destruct (is_empty_dir (x :: l) (os_tree o)); by simplify_eq.
Qed.

Lemma RemoveAll_effect r :
no_link_above (os_tree o) (comps p) → RemoveAll p o = (r, o') → removes.
Proof.
unfold removes. intros Hl [(e & -> & -> & _)|(a & t & H & -> & ->)]%syscall_inv; [by left|].
destruct (p =? "")%string; [injection H as _ <-; by left|].
destruct (resolve _ _ _) as [k|] eqn:E.
- apply resolve_above in E as [-> _]; [|done..]. injection H as _ <-. by right; right.
- case_match; [|done]. injection H as _ <-. by left.
Qed.

Lemma removes_ok : removes → tree_ok (os_tree o) → tree_ok (os_tree o').
Proof.
intros [->|[[-> H]| ->]] Ht; [done|by apply tree_ok_delete|by apply tree_ok_remove_tree].
Qed.

Lemma removes_links : removes → no_new_links (os_tree o) (os_tree o').
Proof.
intros [->|[[-> _]| ->]]; [apply no_new_links_refl|apply no_new_links_delete|
  apply no_new_links_remove_tree].
Qed.

Lemma removes_changes (R : path → Prop) :
removes → (∀ k, below (comps p) k → R k) → changes R (os_tree o) (os_tree o').
Proof.
intros [->|[[-> _]| ->]] HR; [apply changes_refl| |by apply changes_remove_tree].
apply changes_delete, HR, below_refl.
Qed.

Lemma Rename_cases q r :
direct q → no_link_above (os_tree o) (comps p) → no_link_above (os_tree o) (comps q) →
Rename p q o = (r, o') →
(is_ok r = false ∧ os_tree o' = os_tree o) ∨
(r = Ok tt ∧ comps p = comps q ∧ os_tree o !! comps p ≠ None ∧ os_tree o' = os_tree o) ∨
(r = Ok tt ∧ ∃ n, os_tree o !! comps p = Some n ∧
   rename_check (os_tree o) (comps p) (comps q) n = None ∧ comps p ≠ comps q ∧
   (comps q ≠ [] → node_at (os_tree o) (removelast (comps q)) = Some NDir) ∧
   os_tree o' = move_tree (comps p) (comps q) (os_tree o)).
Proof.
intros Hq Hl Hl' [(e & -> & -> & _)|([] & t & H & -> & ->)]%syscall_inv; [by left|right].
destruct (resolve _ _ p) as [k|] eqn:E; [|done]. apply resolve_above in E as [-> E]; [|done..].
destruct (resolve _ _ q) as [k'|] eqn:E'; [|done]. apply resolve_above in E' as [-> E']; [|done..].
simpl in H. destruct (os_tree o !! comps p) as [n|] eqn:En; [|done].
destruct (rename_check _ _ _ _) eqn:Ec; [done|]. injection H as <-.
case_bool_decide; [by left|right]. simpl in *. split; [done|]. exists n. done.
Qed.

Lemma Rename_effect q r :
direct q → no_link_above (os_tree o) (comps p) → no_link_above (os_tree o) (comps q) →
Rename p q o = (r, o') →
os_tree o' = os_tree o ∨
(∃ n, os_tree o !! comps p = Some n ∧
      rename_check (os_tree o) (comps p) (comps q) n = None ∧ comps p ≠ comps q ∧
      (comps q ≠ [] → node_at (os_tree o) (removelast (comps q)) = Some NDir) ∧
      os_tree o' = move_tree (comps p) (comps q) (os_tree o)).
Proof.
intros Hq Hl Hl' H. edestruct Rename_cases as [[_ E]|[(_ & _ & _ & E)|[_ E]]]; eauto.
Qed.

Lemma Rename_ok q r :
direct q → no_link_above (os_tree o) (comps p) → no_link_above (os_tree o) (comps q) →
comps p ≠ [] → comps q ≠ [] →
Rename p q o = (r, o') → tree_ok (os_tree o) → tree_ok (os_tree o').
Proof.
intros Hq Hl Hl' Hp0 Hq0 H Ht. eapply Rename_effect in H as [->|(n & H1 & H2 & H3 & H4 & ->)];
  [done| |done..].
eapply tree_ok_move_tree; eauto. unfold rename_check in H2.
rewrite (bool_decide_false (comps p = comps q)) in H2 by done.
intros Hb. by rewrite bool_decide_true in H2.
Qed.
End Effects.

Lemma MkdirAll_root p o r o' : MkdirAll p o = (r, o') → os_tree o' !! [] = os_tree o !! [].
Proof.
  intros [(e & -> & -> & _)|(a & t & H & -> & ->)]%syscall_inv; simpl; [done|].
  destruct (p =? "")%string; [done|]. destruct (mkdir_all _ _ _ _) as [t'|] eqn:E; [|done].
  injection H as _ <-. by apply mkdir_all_root in E.
Qed.

(** *** Entries of a directory *)

(** A name that can be an entry of a directory. *)
Definition entry_ok (c : string) : Prop := comp_ok c ∧ c ≠ "..".

Lemma entry_path root x :
  direct root → entry_ok x → direct (Join [root; x]) ∧ comps (Join [root; x]) = comps root ++ [x].
Proof.
  intros [Ha Hp] [Hx Hx']. assert (x ≠ "") as Hne by (by destruct Hx).
  destruct (comps_Join_abs root x Ha Hne) as [Hc Hab]. rewrite (comps_comp x Hx) in Hc.
  assert (plain (comps root ++ [x])) as Hpl by (apply plain_app; split; [done|by constructor]).
  rewrite norm_plain_id in Hc by done. split; [|done]. split; [done|]. by rewrite Hc.
Qed.

Lemma node_at_app_ne p c : p ++ [c] ≠ ([] : path).
Proof. by destruct p. Qed.

(** What a successful [MkdirAll] leaves. *)
Lemma mkdir_all_Ok o p ps t t' :
  (∀ q, q ∈ ps → q `prefix_of` p) → plain p → no_link t p →
  mkdir_all o [] ps t = Ok t' → ∀ q, q ∈ ps → node_at t' q = Some NDir.
Proof.
  revert t. induction ps as [|q ps IH]; intros t Hps Hp Hl H r Hr; [by apply elem_of_nil in Hr|].
  pose proof H as H0. simpl in H. assert (q `prefix_of` p) as Hq by (apply Hps; left).
  destruct (walk t max_links true [] q) as [k|] eqn:E; [|done].
  apply walk_no_link in E as [-> _]; simpl.
  2:{ destruct Hq as [s ->]. by apply plain_app in Hp as []. }
  2:{ intros r' c tg Hr' _. apply Hl. by etrans. }
  2:{ done. }
  simpl in H. destruct (mkdir_key q t) as [t1|] eqn:E1; [|done].
  pose proof (mkdir_key_adds q p t t1 Hq E1) as Ha.
  assert (no_link t1 p) as Hl1 by (eapply no_link_no_new; [by eapply adds_dirs_no_new_links|done]).
  apply elem_of_cons in Hr as [->|Hr].
  - assert (node_at t1 q = Some NDir) as Hn.
    { revert E1. unfold mkdir_key. destruct (node_at t q) as [[]|] eqn:En; try done.
      - by intros [= <-].
      - destruct q; [done|]. intros [= <-]. simpl. by rewrite lookup_insert_eq. }
    destruct q as [|x q]; [done|]. simpl in *.
    destruct (proj1 (mkdir_all_adds o p ps t1 t' (λ r Hr, Hps r (proj2 (elem_of_cons _ _ _) (or_intror Hr))) Hp Hl1 H) (x :: q))
      as [->|(_ & ? & _)]; [done|congruence].
  - eapply (IH t1); [|done|done|done|done]. intros q' ?. apply Hps. by right.
Qed.

(** *** Temporary names *)

Lemma FormatInt_no_slash z : bytes_all (λ x, bool_decide (x ≠ slash)) (FormatInt z) = true.
Proof.
  unfold FormatInt. set (d := Z.to_int z). clearbody d.
  assert (∀ u, bytes_all (λ x, bool_decide (x ≠ slash))
            (DecimalString.NilEmpty.string_of_uint u) = true) as Hu.
  { induction u; simpl; done. }
  assert (∀ u, bytes_all (λ x, bool_decide (x ≠ slash))
            (DecimalString.NilZero.string_of_uint u) = true) as Hz.
  { intros []; simpl; try done; apply Hu. }
  destruct d as [u|u]; simpl; apply Hz.
Qed.

Lemma comps_join_path dir name : comps (join_path dir name) = comps dir ++ comps name.
Proof.
  unfold join_path. destruct (String.eqb_spec dir "/") as [->|].
  - change ("/" +:+ name) with (String slash name). by rewrite comps_slash.
  - change ("/" +:+ name) with (String slash name). by rewrite comps_sep_app.
Qed.

(** A successful [CreateTemp] in a directory reached without links. *)
Lemma create_temp_spec o dir prefix suffix rs name t :
  direct dir → no_link (os_tree o) (comps dir) →
  (∀ r, comp_ok (prefix +:+ FormatInt r +:+ suffix) ∧ prefix +:+ FormatInt r +:+ suffix ≠ "..") →
  create_temp o dir prefix suffix rs = Ok (name, t) →
  direct name ∧
  ∃ c, comp_ok c ∧ HasPrefix c prefix = true ∧ comps name = comps dir ++ [c] ∧
       os_tree o !! comps name = None ∧ node_at (os_tree o) (comps dir) = Some NDir ∧
       t = <[comps name := NFile "" 384]> (os_tree o).
Proof.
  intros [Ha Hp] Hl Hok. induction rs as [|r rs IH]; simpl; [done|].
  set (c := prefix +:+ FormatInt r +:+ suffix). set (nm := join_path dir c).
  destruct (Hok r) as [Hc Hc']. fold c in Hc, Hc'.
  assert (comps nm = comps dir ++ [c]) as Hnm.
  { unfold nm. by rewrite comps_join_path, (comps_comp c). }
  assert (direct nm) as Hdir.
  { split; [|rewrite Hnm; apply plain_app; split; [done|by constructor]].
    unfold nm, join_path. destruct (dir =? "/")%string; [apply IsAbs_iff; by exists c|].
    apply IsAbs_iff in Ha as [x ->]. apply IsAbs_iff. simpl. eauto. }
  destruct (resolve o false nm) as [k|] eqn:E; [|discriminate].
  apply resolve_above in E as [-> Hpar]; [|done|rewrite Hnm; by apply no_link_above_snoc].
  destruct (node_at (os_tree o) (comps nm)) as [n|] eqn:En; [apply IH|].
  intros [= <- <-]. split; [done|]. exists c. split; [done|]. split; [apply HasPrefix_app|].
  split; [done|]. rewrite Hnm in *. rewrite removelast_last in Hpar.
  split; [by destruct (comps dir)|]. split; [|done]. apply Hpar. by destruct (comps dir).
Qed.

Lemma CreateTemp_effect o dir prefix suffix r o' :
  direct dir → no_link (os_tree o) (comps dir) →
  (∀ r, comp_ok (prefix +:+ FormatInt r +:+ suffix) ∧ prefix +:+ FormatInt r +:+ suffix ≠ "..") →
  CreateTemp dir prefix suffix o = (r, o') →
  match r with
  | Ok name => direct name ∧
      ∃ c, comp_ok c ∧ HasPrefix c prefix = true ∧ comps name = comps dir ++ [c] ∧
           os_tree o !! comps name = None ∧ node_at (os_tree o) (comps dir) = Some NDir ∧
           os_tree o' = <[comps name := NFile "" 384]> (os_tree o)
  | Err _ => os_tree o' = os_tree o
  end.
Proof.
  intros Hd Hl Hok [(e & -> & -> & _)|(a & t & H & -> & ->)]%syscall_inv; simpl; [done|].
  simpl in H. eapply create_temp_spec in H as (H1 & c & H2); eauto.
Qed.

(** *** Files without faults *)

(** [syscall] when nothing fails outside. *)
Lemma syscall_no_fault {A} (f : OS → res (A * tree)) o :
  os_faults o = [] →
  syscall f o = match f o with Ok (a, t) => (Ok a, set_tree t o) | Err e => (Err e, o) end.
Proof. intros Hf. unfold syscall. rewrite Hf. destruct o; simpl in *. by subst. Qed.

(** An existing file at [p], on the way to which there is no link. *)
Definition file_at (t : tree) (p c : string) : Prop :=
  direct p ∧ no_link t (comps p) ∧ comps p ≠ [] ∧ ∃ m, t !! comps p = Some (NFile c m).

Lemma ReadFile_at o p c :
  os_faults o = [] → tree_ok (os_tree o) → file_at (os_tree o) p c → ReadFile p o = (Ok c, o).
Proof.
  intros Hf Ht (Hd & Hl & Hne & m & Hm). unfold ReadFile. rewrite syscall_no_fault by done.
  rewrite (resolve_exists o true p _ Hd Ht Hl Hne Hm). destruct (comps p) eqn:E; [done|].
  simpl. rewrite Hm. by destruct o.
Qed.

Lemma WriteFile_at o p c data mode :
  os_faults o = [] → tree_ok (os_tree o) → file_at (os_tree o) p c →
  ∃ o', WriteFile p data mode o = (Ok tt, o') ∧ os_faults o' = [] ∧ tree_ok (os_tree o') ∧
    file_at (os_tree o') p data ∧
    ∀ q d, comps q ≠ comps p → file_at (os_tree o) q d → file_at (os_tree o') q d.
Proof.
  intros Hf Ht (Hd & Hl & Hne & m & Hm).
  assert (WriteFile p data mode o = (Ok tt, set_tree (<[comps p := NFile data m]> (os_tree o)) o)) as E.
  { unfold WriteFile, put_file. rewrite syscall_no_fault by done.
    rewrite (resolve_exists o true p _ Hd Ht Hl Hne Hm).
    assert (node_at (os_tree o) (comps p) = Some (NFile c m)) as -> by (by destruct (comps p)). done. }
  pose proof (WriteFile_effect _ _ p Hd data mode _ Hl E) as He.
  eexists. split; [exact E|]. simpl.
  assert (no_new_links (os_tree o) (<[comps p := NFile data m]> (os_tree o))) as Hnl.
  { by apply no_new_links_insert. }
  split; [done|]. split; [by apply (puts_file_ok _ _ _ He)|]. split.
  - split; [done|]. split; [by eapply no_link_no_new|]. split; [done|]. exists m.
    by rewrite lookup_insert_eq.
  - intros q d Hq (Hdq & Hlq & Hneq & mq & Hmq). split; [done|]. split; [by eapply no_link_no_new|].
    split; [done|]. exists mq. by rewrite lookup_insert_ne.
Qed.

(** *** More about single calls *)

Lemma walk_ENOENT t links follow done rest :
  tree_ok t → plain rest →
  (∀ q c target, q ++ [c] `prefix_of` rest → (follow = false → q ++ [c] ≠ rest) →
     t !! (done ++ q ++ [c]) ≠ Some (NLink target)) →
  walk t links follow done rest = Err ENOENT → t !! (done ++ rest) = None.
Proof.
  rewrite walk_unfold. revert done. induction rest as [|c rest IH]; intros done Ht Hp Hl; simpl;
    [intros [=]|].
  inversion Hp as [|? ? Hc Hr]; subst. apply String.eqb_neq in Hc as ->.
  destruct (t !! (done ++ [c])) as [[f m| |tg]|] eqn:E.
  - destruct rest; intros [=].
  - intros Hk. apply IH in Hk; [by rewrite <- app_assoc in Hk|done|done|].
    intros q d tg Hpre Hne. rewrite <- app_assoc. apply (Hl (c :: q) d tg).
    + by apply prefix_cons.
    + intros Hf [= Heq]. by apply Hne.
  - destruct follow; simpl.
    + exfalso. apply (Hl [] c tg); [by apply prefix_cons, prefix_nil|done|done].
    + case_bool_decide as Hb; [intros [=]|].
      exfalso. apply (Hl [] c tg); [by apply prefix_cons, prefix_nil| |done].
      simpl. intros _ [=]. done.
  - intros _. destruct (t !! (done ++ c :: rest)) as [n|] eqn:En; [|done].
    destruct (decide (rest = [])) as [->|Hne]; [congruence|].
    assert (node_at t (done ++ [c]) = Some NDir) as H.
    { eapply tree_ok_below; [done|exact En|exists rest; by rewrite <- app_assoc|].
      intros Heq%app_inv_head. by injection Heq as <-. }
    rewrite node_at_snoc in H. congruence.
Qed.

Lemma below_none t p q : tree_ok t → t !! p = None → below p q → p ≠ [] → t !! q = None.
Proof.
  intros Ht Hp Hpq Hp0. destruct (decide (p = q)) as [<-|Hne]; [done|].
  destruct (t !! q) as [n|] eqn:E; [|done].
  pose proof (tree_ok_below t p q n Ht E Hpq Hne) as H. destruct p; [done|]. simpl in H. congruence.
Qed.

(** [Lstat] of a path that is reached without links. *)
Lemma Lstat_effect o p r o' :
  direct p → tree_ok (os_tree o) → no_link_above (os_tree o) (comps p) → comps p ≠ [] →
  Lstat p o = (r, o') →
  match r with
  | Ok n => os_tree o !! comps p = Some n
  | Err e => e = ENOENT → os_tree o !! comps p = None
  end.
Proof.
  intros [Ha Hp] Ht Hl Hne [(e & -> & -> & [[s ->]|H])|(n & t & H & -> & ->)]%syscall_inv.
  - intros [=].
  - intros ->. simpl in H. destruct (resolve _ _ _) as [k|e] eqn:E.
    + apply resolve_above in E as [-> _]; [|done..]. simpl in H.
      destruct (comps p) as [|x l]; [done|]. simpl in H. by destruct (os_tree o !! (x :: l)).
    + injection H as ->. unfold resolve, start_dir in E. rewrite Ha in E.
      destruct (String.eqb_spec p "") as [->|]; [done|]. simpl in E.
      apply walk_ENOENT in E; [done..|]. intros q c tg Hq Hne'. by apply Hl; [|apply Hne'].
  - simpl in H. destruct (resolve _ _ _) as [k|e] eqn:E; [|done].
    apply resolve_above in E as [-> _]; [|done..]. simpl in H.
    destruct (comps p) as [|x l]; [done|]. simpl in H.
    destruct (os_tree o !! (x :: l)); simplify_eq. done.
Qed.

Lemma Dir_render cs :
Forall comp_ok cs → plain cs → Dir (render true cs) = render true (removelast cs).
Proof.
intros H1 H2. destruct cs as [|c cs _] using rev_ind; [done|]. rewrite removelast_last.
apply Forall_app in H1 as [H1 Hc]. apply plain_app in H2 as [H2 Hd].
apply Forall_singleton in Hc as (Hc1 & Hc2 & Hc3).
assert (Split slash (render true (cs ++ [c])) = "" :: cs ++ [c]) as Hs.
{ unfold render. change ("/" +:+ ?x) with (String slash x). csimpl.
  f_equal. clear H2 Hd.
  induction H1 as [|d cs Hd Hcs IH].
  - unfold Join_sep. simpl. by apply Split_no_sep_self.
  - simpl app. rewrite Join_sep_cons by (by destruct cs).
    destruct Hd as (_ & _ & Hd). by rewrite Split_app_sep, IH. }
unfold Dir. rewrite Hs. change ("" :: cs ++ [c]) with (("" :: cs) ++ [c]).
rewrite removelast_last. unfold Clean.
set (p := Join_sep "/" ("" :: cs) +:+ "/").
assert (IsAbs p = true ∧ comps p = cs) as [-> ->].
{ unfold p. destruct cs as [|d cs]; [done|]. rewrite Join_sep_cons by done. split.
  - apply IsAbs_iff. simpl. eauto.
  - change ("/") with (String slash "") at 1. rewrite comps_sep_app. 
    change (comps "") with (@nil string). rewrite app_nil_r.
    change ("" +:+ ?x) with x. rewrite comps_slash. by apply comps_Join_sep. }
by rewrite norm_plain_id.
Qed.

(** What a successful write and a successful change of mode leave. *)
Lemma WriteFile_Ok p data mode o o' :
  direct p → no_link (os_tree o) (comps p) → WriteFile p data mode o = (Ok tt, o') →
  ∃ m, os_tree o' = <[comps p := NFile data m]> (os_tree o).
Proof.
  intros Hd Hl [(e & [=] & _)|(a & t & H & _ & ->)]%syscall_inv.
  destruct (resolve _ _ _) as [k|] eqn:E; [|done]. apply resolve_no_link in E as [-> _]; [|done..].
  unfold put_file in H. simpl in *.
  destruct (node_at _ _) as [[]|]; simplify_eq; eauto.
Qed.

Lemma Chmod_Ok p mode o o' c m :
  direct p → no_link (os_tree o) (comps p) → os_tree o !! comps p = Some (NFile c m) →
  comps p ≠ [] → Chmod p mode o = (Ok tt, o') →
  os_tree o' = <[comps p := NFile c mode]> (os_tree o).
Proof.
  intros Hd Hl Hc Hne [(e & [=] & _)|(a & t & H & _ & ->)]%syscall_inv.
  destruct (resolve _ _ _) as [k|] eqn:E; [|done]. apply resolve_no_link in E as [-> _]; [|done..].
  simpl in *. destruct (comps p) as [|x l]; [done|]. simpl in H. rewrite Hc in H. by simplify_eq.
Qed.

(** A file or a link renamed over a path that is not a directory. *)
Lemma Rename_leaf_effect name abs o r o' n :
  n ≠ NDir →
  direct name → direct abs → tree_ok (os_tree o) → comps abs ≠ [] → comps name ≠ [] →
  no_link_above (os_tree o) (comps name) → no_link_above (os_tree o) (comps abs) →
  os_tree o !! comps name = Some n → Rename name abs o = (r, o') →
  match r with
  | Err _ => os_tree o' = os_tree o
  | Ok _ => (comps name = comps abs ∧ os_tree o' = os_tree o) ∨
            (comps name ≠ comps abs ∧ os_tree o' !! comps abs = Some n ∧
             os_tree o' !! comps name = None ∧
             changes (λ k, k = comps name ∨ k = comps abs) (os_tree o) (os_tree o'))
  end.
Proof.
  intros HnD Hd Hd' Ht Hne Hne' Hl Hl' Hn H.
  apply (Rename_cases o o' name Hd abs r Hd' Hl Hl') in H
    as [[Hr E]|[(-> & Hab & _ & E)|(-> & n' & Hn' & Hck & Hab & _ & E)]].
  - by destruct r.
  - by left.
  - right. split; [done|]. rewrite Hn in Hn'. injection Hn' as <-.
    assert (∀ k m', os_tree o !! k ≠ Some NDir → below k m' → k ≠ m' → k ≠ [] → os_tree o !! m' = None) as Hleaf.
    { intros k m' Hk Hb Hkm Hk0. destruct (os_tree o !! m') as [x|] eqn:Em; [|done].
      pose proof (tree_ok_below _ _ _ _ Ht Em Hb Hkm) as H. by destruct k. }
    assert (os_tree o !! comps abs ≠ Some NDir) as Hdir.
    { intros Hdir. unfold rename_check in Hck. rewrite bool_decide_false in Hck.
      - destruct (comps abs); [done|]. simpl in Hck. rewrite Hdir in Hck. by destruct n.
      - intros Hb. pose proof (tree_ok_below _ _ _ _ Ht Hdir Hb Hab) as H.
        destruct (comps name); [done|]. simpl in H. congruence. }
    assert (os_tree o !! comps name ≠ Some NDir) as Hdir' by congruence.
    rewrite E. split; [|split].
    + rewrite lookup_move_tree, decide_True by apply below_refl. by rewrite drop_all, app_nil_r.
    + rewrite lookup_move_tree. destruct (decide (below (comps abs) (comps name))) as [Hb|_].
      * pose proof (Hleaf _ _ Hdir Hb (not_eq_sym Hab) Hne). congruence.
      * by rewrite decide_True by apply below_refl.
    + intros k. rewrite lookup_move_tree. destruct (decide (below (comps abs) k)) as [Hb|_].
      * destruct (decide (k = comps abs)) as [->|Hk]; [by right; right|left].
        rewrite (Hleaf (comps abs) k) by done. destruct Hb as [x ->]. rewrite drop_app_length.
        apply (Hleaf (comps name)); [done|by exists x| |].
        -- intros Heq. rewrite <- (app_nil_r (comps name)) in Heq at 1. apply app_inv_head in Heq as <-.
           by rewrite app_nil_r in Hk.
        -- done.
      * destruct (decide (below (comps name) k)) as [Hb|_]; [|by left].
        destruct (decide (k = comps name)) as [->|Hk]; [by right; left|left].
        symmetry. by apply (Hleaf (comps name)).
Qed.

Lemma Rename_file_effect name abs o r o' data mode :
  direct name → direct abs → tree_ok (os_tree o) → comps abs ≠ [] → comps name ≠ [] →
  no_link_above (os_tree o) (comps name) → no_link_above (os_tree o) (comps abs) →
  os_tree o !! comps name = Some (NFile data mode) → Rename name abs o = (r, o') →
  match r with
  | Err _ => os_tree o' = os_tree o
  | Ok _ => (comps name = comps abs ∧ os_tree o' = os_tree o) ∨
            (comps name ≠ comps abs ∧ os_tree o' !! comps abs = Some (NFile data mode) ∧
             changes (λ k, k = comps name ∨ k = comps abs) (os_tree o) (os_tree o'))
  end.
Proof.
  intros. pose proof (Rename_leaf_effect name abs o r o' (NFile data mode)) as H'.
  destruct r; [|by apply H']. destruct H' as [?|(? & ? & _ & ?)]; auto.
Qed.

(** Every regular file is still there. *)
Definition files_kept (t t' : tree) : Prop :=
  ∀ k c m, t !! k = Some (NFile c m) → t' !! k = Some (NFile c m).

Lemma files_kept_trans t1 t2 t3 : files_kept t1 t2 → files_kept t2 t3 → files_kept t1 t3.
Proof. unfold files_kept. eauto. Qed.

Lemma adds_dirs_files p t t' : adds_dirs p t t' → files_kept t t'.
Proof. intros H k c m Hk. destruct (H k) as [->|(_ & Hn & _)]; [done|congruence]. Qed.

Lemma MkdirAll_files p o r o' :
  direct p → no_link (os_tree o) (comps p) → MkdirAll p o = (r, o') →
  files_kept (os_tree o) (os_tree o').
Proof. intros Hd Hl H. eapply adds_dirs_files, (proj1 (MkdirAll_adds o o' p Hd r Hl H)). Qed.


(** *** Deciding the invariants of a concrete tree *)

Definition tree_okb (t : tree) : bool :=
  forallb (λ kn, bool_decide (kn.1 = []) || bool_decide (node_at t (removelast kn.1) = Some NDir))
    (map_to_list t).

Lemma tree_okb_ok t : tree_okb t = true → tree_ok t.
Proof.
  unfold tree_okb. rewrite forallb_forall. intros H p c n Hn%elem_of_map_to_list.
  apply list_elem_of_In, H in Hn. simpl in Hn. rewrite removelast_last in Hn.
  apply orb_true_iff in Hn as [Hn|Hn]; apply bool_decide_eq_true in Hn; [by destruct p|done].
Qed.

Definition no_linkb (t : tree) (p : path) : bool :=
  forallb (λ q, negb (from_option IsSymlink false (t !! q))) (prefixes p).

Lemma prefixes_complete {A} (p q : list A) : q `prefix_of` p → q ≠ [] → q ∈ prefixes p.
Proof.
  revert q. induction p as [|x p IH]; intros q [r Hr] Hq; [by destruct q|].
  destruct q as [|y q]; [done|]. injection Hr as <- Hr. simpl.
  destruct q as [|z q]; [left|right]. apply list_elem_of_fmap. eexists. split; [done|].
  apply IH; [by exists r|done].
Qed.

Lemma no_links_check t :
  forallb (λ kn : path * fnode, negb (IsSymlink kn.2)) (map_to_list t) = true → ∀ k tg, t !! k ≠ Some (NLink tg).
Proof.
  rewrite forallb_forall. intros H k tg Hk. specialize (H (k, NLink tg)).
  rewrite <- list_elem_of_In, elem_of_map_to_list in H. by specialize (H Hk).
Qed.

Lemma MkdirAll_Ok p o u o' :
  direct p → no_link (os_tree o) (comps p) → MkdirAll p o = (Ok u, o') → node_at (os_tree o') (comps p) = Some NDir.
Proof.
  intros [Ha Hp] Hl [(e & ? & _)|(a & t & H & _ & ->)]%syscall_inv; [done|]. simpl.
  destruct (p =? "")%string; [done|]. unfold start_dir in H. rewrite Ha in H.
  destruct (mkdir_all _ [] _ _) as [t'|] eqn:E; [|done]. injection H as _ <-.
  destruct (comps p) as [|x l] eqn:Ep; [done|]. rewrite <- Ep in *.
  eapply mkdir_all_Ok; [|exact Hp|exact Hl|exact E|].
  - by intros q [? _]%elem_of_prefixes.
  - apply prefixes_complete; [done|]. by rewrite Ep.
Qed.

Lemma no_linkb_ok t p : no_linkb t p = true → no_link t p.
Proof.
  unfold no_linkb. rewrite forallb_forall. intros H q c tg Hq Hn.
  specialize (H (q ++ [c])). rewrite Hn in H. simpl in H.
  assert (q ++ [c] ∈ prefixes p) as Hin by (apply prefixes_complete; [done|by destruct q]).
  apply list_elem_of_In, H in Hin. done.
Qed.
