(* ===== verification/GoOSRun.v ===== *)
(** * System calls that no fault disturbs

    Where a path with an existing parent leads, and what each call returns when the
    outside world does not fail it. *)

From S2P Require Import Prelude GoLib GoPath GoOS GoOSFacts.

(** ** Definitions *)

(** A path whose parent directory is there, itself not a link. *)
Definition reachable (t : tree) (p : string) : Prop :=
  direct p ∧ comps p ≠ [] ∧ node_at t (removelast (comps p)) = Some NDir ∧
  ∀ target, t !! comps p ≠ Some (NLink target).

(** Every name in the tree is one a directory can hold. *)
Definition names_ok (t : tree) : Prop := ∀ k n, t !! k = Some n → Forall entry_ok k.

(** No links below [R]. *)
Definition links_free (t : tree) (R : path) : Prop := ∀ k tg, t !! (R ++ k) ≠ Some (NLink tg).

(** ** Lemmas *)

Lemma entry_ok_split k : Forall entry_ok k ↔ Forall comp_ok k ∧ plain k.
Proof. unfold plain, entry_ok. by rewrite Forall_and. Qed.

Lemma walk_entry t links follow dn q c :
  tree_ok t → plain (q ++ [c]) → node_at t (dn ++ q) = Some NDir →
  (∀ target, t !! (dn ++ q ++ [c]) ≠ Some (NLink target)) →
  walk t links follow dn (q ++ [c]) = Ok (dn ++ q ++ [c]).
Proof.
  intros Ht. rewrite walk_unfold. revert dn. induction q as [|x q IH]; intros dn Hp Hn Hl; simpl.
  - inversion Hp as [|? ? Hc _]; subst. apply String.eqb_neq in Hc as ->. simpl in Hl.
    destruct (t !! (dn ++ [c])) as [[]|] eqn:E; try done. by destruct (Hl target).
  - inversion Hp as [|? ? Hx Hq]; subst. apply String.eqb_neq in Hx as ->.
    assert (t !! (dn ++ [x]) = Some NDir) as ->.
    { rewrite <- node_at_snoc. destruct q as [|y q]; [done|].
      eapply (tree_ok_below t _ (dn ++ x :: y :: q) NDir); [done|by destruct dn|by exists (y :: q); rewrite <- app_assoc|].
      intros E%app_inv_head. done. }
    rewrite IH; [by rewrite <- !app_assoc|done|by rewrite <- app_assoc|by rewrite <- app_assoc].
Qed.

Lemma resolve_entry o b p :
  tree_ok (os_tree o) → reachable (os_tree o) p → resolve o b p = Ok (comps p).
Proof.
  intros Ht ([Ha Hp] & Hne & Hn & Hl). unfold resolve, start_dir. rewrite Ha.
  destruct (String.eqb_spec p "") as [->|]; [done|].
  destruct (snoc_removelast (comps p) Hne) as (q & c & E & Eq). rewrite E in *. rewrite removelast_last in Hn.
  by apply (walk_entry _ _ _ []).
Qed.

Lemma reachable_existing t p n :
  direct p → tree_ok t → comps p ≠ [] → t !! comps p = Some n → (∀ tg, n ≠ NLink tg) → reachable t p.
Proof.
  intros Hd Ht Hne Hn Hl. split; [done|]. split; [done|]. split.
  - destruct (snoc_removelast (comps p) Hne) as (q & c & E & Eq). rewrite E in *. rewrite removelast_last. by eapply Ht.
  - intros tg E. rewrite Hn in E. injection E as ->. by eapply Hl.
Qed.

Lemma set_tree_id o : set_tree (os_tree o) o = o.
Proof. by destruct o. Qed.

Section Calls.
Context (o : OS) (Hf : os_faults o = []) (Ht : tree_ok (os_tree o)).

Lemma Lstat_at p n : direct p → comps p ≠ [] → os_tree o !! comps p = Some n → (∀ tg, n ≠ NLink tg) →
  Lstat p o = (Ok n, o).
Proof.
  intros Hd Hne Hn Hl. unfold Lstat, stat_with. rewrite syscall_no_fault by done.
  rewrite resolve_entry; [|done|by eapply reachable_existing].
  assert (node_at (os_tree o) (comps p) = Some n) as -> by (by destruct (comps p)). by rewrite set_tree_id.
Qed.

Lemma ReadDir_at p : direct p → comps p ≠ [] → os_tree o !! comps p = Some NDir →
  ReadDir p o = (Ok (entries (comps p) (os_tree o)), o).
Proof.
  intros Hd Hne Hn. unfold ReadDir. rewrite syscall_no_fault by done.
  rewrite resolve_entry; [|done|by eapply reachable_existing].
  assert (node_at (os_tree o) (comps p) = Some NDir) as -> by (by destruct (comps p)). by rewrite set_tree_id.
Qed.

Lemma ReadFile_reach p c m : direct p → comps p ≠ [] → os_tree o !! comps p = Some (NFile c m) →
  ReadFile p o = (Ok c, o).
Proof.
  intros Hd Hne Hn. unfold ReadFile. rewrite syscall_no_fault by done.
  rewrite resolve_entry; [|done|by eapply reachable_existing].
  assert (node_at (os_tree o) (comps p) = Some (NFile c m)) as -> by (by destruct (comps p)). by rewrite set_tree_id.
Qed.

(** The mode of a file that is already there stays. *)
Definition write_mode (n : option fnode) (mode : Z) : Z :=
  match n with Some (NFile _ m) => m | _ => mode end.

Lemma WriteFile_reach p data mode :
  reachable (os_tree o) p → os_tree o !! comps p ≠ Some NDir →
  WriteFile p data mode o =
  (Ok tt, set_tree (<[comps p := NFile data (write_mode (os_tree o !! comps p) mode)]> (os_tree o)) o).
Proof.
  intros Hr Hnd. pose proof Hr as (Hd & Hne & _ & Hl). unfold WriteFile, put_file. rewrite syscall_no_fault by done.
  rewrite resolve_entry by done.
  assert (node_at (os_tree o) (comps p) = os_tree o !! comps p) as -> by (by destruct (comps p)).
  destruct (os_tree o !! comps p) as [[]|] eqn:E; try done. by destruct (Hl target).
Qed.
End Calls.

(** [MkdirAll] succeeds when nothing but directories is in its way. *)
Lemma mkdir_all_total o dn rest t :
  tree_ok t → node_at t dn = Some NDir → plain (dn ++ rest) →
  (∀ q, below q (dn ++ rest) → q ≠ [] → t !! q = None ∨ t !! q = Some NDir) →
  ∃ t', mkdir_all o [] ((λ q, dn ++ q) <$> prefixes rest) t = Ok t'.
Proof.
  revert dn t. induction rest as [|c rest IH]; intros dn t Ht Hdn Hp Hq; [by eexists|].
  assert (below (dn ++ [c]) (dn ++ c :: rest)) as Hb by (exists rest; by rewrite <- app_assoc).
  assert (dn ++ [c] ≠ []) as Hne by (by destruct dn).
  assert (t !! (dn ++ [c]) = None ∨ t !! (dn ++ [c]) = Some NDir) as Hc by (by apply Hq).
  assert (dn ++ c :: rest = (dn ++ [c]) ++ rest) as Ea by (by rewrite <- app_assoc).
  csimpl. rewrite (walk_entry t max_links true [] dn c Ht); [|by rewrite Ea in Hp; apply plain_app in Hp as []|done|].
  2:{ intros tg. simpl. destruct Hc as [-> | ->]; done. }
  simpl. unfold mkdir_key. rewrite node_at_snoc.
  assert ((λ q, dn ++ q) <$> ((c ::.) <$> prefixes rest) = (λ q, (dn ++ [c]) ++ q) <$> prefixes rest) as ->.
  { rewrite <- list_fmap_compose. apply list_fmap_ext. intros i q _. simpl. by rewrite <- app_assoc. }
  rewrite Ea in Hp, Hq. destruct Hc as [E|E]; rewrite E.
  - apply IH; [| |done|].
    + apply tree_ok_insert; [done|done|by rewrite removelast_last|by right].
    + by rewrite node_at_snoc, lookup_insert_eq.
    + intros q Hbq Hq0. rewrite lookup_insert. case_decide; [by right|by apply Hq].
  - apply IH; [done|by rewrite node_at_snoc|done|done].
Qed.

Lemma MkdirAll_total o p :
  os_faults o = [] → direct p → tree_ok (os_tree o) →
  (∀ q, below q (comps p) → q ≠ [] → os_tree o !! q = None ∨ os_tree o !! q = Some NDir) →
  ∃ t', MkdirAll p o = (Ok tt, set_tree t' o) ∧ tree_ok t' ∧ node_at t' (comps p) = Some NDir ∧
    adds_dirs (comps p) (os_tree o) t'.
Proof.
  intros Hf [Ha Hp] Ht Hq. assert (no_link (os_tree o) (comps p)) as Hl.
  { intros q c tg Hb. destruct (Hq (q ++ [c])) as [-> | ->]; [exact Hb|by destruct q|done..]. }
  destruct (mkdir_all_total o [] (comps p) (os_tree o) Ht eq_refl Hp Hq) as [t' E].
  assert (MkdirAll p o = (Ok tt, set_tree t' o)) as Em.
  { unfold MkdirAll. rewrite syscall_no_fault by done. destruct (String.eqb_spec p "") as [->|]; [done|].
    unfold start_dir. rewrite Ha. rewrite list_fmap_id in E. by rewrite E. }
  exists t'. split; [done|]. destruct (MkdirAll_adds _ _ p (conj Ha Hp) _ Hl Em) as [Hadd Hok].
  split; [by apply Hok|]. split; [|done]. by apply (MkdirAll_Ok p o tt (set_tree t' o)).
Qed.

Lemma MkdirAll_existing o p :
  os_faults o = [] → direct p → tree_ok (os_tree o) → node_at (os_tree o) (comps p) = Some NDir →
  MkdirAll p o = (Ok tt, o).
Proof.
  intros Hf Hd Ht Hn. assert (∀ q, below q (comps p) → q ≠ [] → os_tree o !! q = Some NDir) as Hq.
  { intros q Hb Hq0. destruct (decide (q = comps p)) as [->|Hne]; [by destruct (comps p)|].
    assert (comps p ≠ []) as Hp0 by (intros E; rewrite E in Hb; destruct Hb as [x Hx]; by destruct q).
    assert (node_at (os_tree o) q = Some NDir) as Hnq.
    { eapply (tree_ok_below _ q (comps p) NDir); [done| |done|done]. by destruct (comps p). }
    by destruct q. }
  destruct (MkdirAll_total o p Hf Hd Ht) as (t' & E & _ & _ & Ha); [by auto|].
  rewrite E. assert (t' = os_tree o) as ->; [|by rewrite set_tree_id].
  apply map_eq. intros k. destruct (Ha k) as [->|(B & N & _)]; [done|].
  destruct (decide (k = [])) as [->|Hk]; [by apply MkdirAll_root in E|]. by rewrite Hq in N.
Qed.

(** *** The entries of a directory *)

Lemma elem_of_entries p t c n : (c, n) ∈ entries p t ↔ t !! (p ++ [c]) = Some n.
Proof.
  unfold entries. rewrite elem_of_isort, list_elem_of_omap. split.
  - intros ([k m] & Hin%elem_of_map_to_list & E). simpl in E. unfold child_of in E.
    destruct (drop (length p) k) as [|d [|]] eqn:Ed; try done. case_bool_decide as Hb; [|done].
    injection E as -> ->. destruct Hb as [x ->]. rewrite drop_app_length in Ed. by subst x.
  - intros Hn. exists (p ++ [c], n). split; [by apply elem_of_map_to_list|]. simpl. unfold child_of.
    rewrite drop_app_length. rewrite bool_decide_true by (by exists [c]). done.
Qed.
