(* ===== verification/GoEncoding.v ===== *)
(** * Go's [encoding/hex] and [encoding/base64]

    Hexadecimal text and the standard base64 alphabet with padding, on byte strings. *)

From S2P Require Import Prelude GoLib.
From Stdlib Require Import Ascii.

(** ** Definitions *)

Definition byte_of (z : Z) : ascii := ascii_of_N (Z.to_N z).

(** *** [encoding/hex] *)

Definition hex_digit (z : Z) : ascii := byte_of (if z <? 10 then 48 + z else 87 + z).

(** [hex.EncodeToString] *)
Fixpoint hex_EncodeToString (s : string) : string :=
  match s with
  | "" => ""
  | String c s => String (hex_digit (code c / 16)) (String (hex_digit (code c mod 16)) (hex_EncodeToString s))
  end.

Definition hex_value (c : ascii) : option Z :=
  if is_digit c then Some (code c - 48)
  else if byte_in "a" "f" c then Some (code c - 87)
  else if byte_in "A" "F" c then Some (code c - 55)
  else None.

(** [hex.DecodeString] *)
Fixpoint hex_DecodeString (s : string) : res string :=
  match s with
  | "" => Ok ""
  | String a (String b s) =>
      match hex_value a, hex_value b, hex_DecodeString s with
      | Some x, Some y, Ok r => Ok (String (byte_of (16 * x + y)) r)
      | Some _, Some _, Err e => Err e
      | _, _, _ => Err (EExt "encoding/hex: invalid byte")
      end
  | String _ "" => Err (EExt "encoding/hex: odd length hex string")
  end.

(** *** [encoding/base64], [StdEncoding] *)

Definition b64_digit (z : Z) : ascii :=
  byte_of (if z <? 26 then 65 + z else if z <? 52 then 71 + z else if z <? 62 then z - 4
           else if z =? 62 then 43 else 47).

Definition b64_value (c : ascii) : option Z :=
  if is_upper c then Some (code c - 65)
  else if is_lower c then Some (code c - 71)
  else if is_digit c then Some (code c + 4)
  else if bool_decide (c = "+"%char) then Some 62
  else if bool_decide (c = "/"%char) then Some 63
  else None.

Definition b64_pad : ascii := "="%char.

(** [base64.StdEncoding.EncodeToString] *)
Fixpoint b64_EncodeToString (s : string) : string :=
  match s with
  | "" => ""
  | String a "" =>
      String (b64_digit (code a / 4)) (String (b64_digit (code a mod 4 * 16)) (String b64_pad (String b64_pad "")))
  | String a (String b "") =>
      String (b64_digit (code a / 4)) (String (b64_digit (code a mod 4 * 16 + code b / 16))
        (String (b64_digit (code b mod 16 * 4)) (String b64_pad "")))
  | String a (String b (String c s)) =>
      String (b64_digit (code a / 4)) (String (b64_digit (code a mod 4 * 16 + code b / 16))
        (String (b64_digit (code b mod 16 * 4 + code c / 64)) (String (b64_digit (code c mod 64))
          (b64_EncodeToString s))))
  end.

(** Line ends are skipped wherever they are. *)
Fixpoint skip_newlines (s : string) : string :=
  match s with
  | "" => ""
  | String c s => if bool_decide (code c = 10 ∨ code c = 13) then skip_newlines s else String c (skip_newlines s)
  end.

Definition b64_corrupt {A} : res A := Err (EExt "illegal base64 data").

Fixpoint b64_decode (s : string) : res string :=
  match s with
  | "" => Ok ""
  | String a (String b (String c (String d s))) =>
      match b64_value a, b64_value b with
      | Some x, Some y =>
          let b1 := byte_of (x * 4 + y / 16) in
          if bool_decide (c = b64_pad) then
            (if bool_decide (d = b64_pad ∧ s = "") then Ok (String b1 "") else b64_corrupt)
          else
            match b64_value c with
            | None => b64_corrupt
            | Some z =>
                let b2 := byte_of (y mod 16 * 16 + z / 4) in
                if bool_decide (d = b64_pad) then
                  (if bool_decide (s = "") then Ok (String b1 (String b2 "")) else b64_corrupt)
                else
                  match b64_value d with
                  | None => b64_corrupt
                  | Some w => match b64_decode s with
                              | Ok r => Ok (String b1 (String b2 (String (byte_of (z mod 4 * 64 + w)) r)))
                              | Err e => Err e
                              end
                  end
            end
      | _, _ => b64_corrupt
      end
  | _ => b64_corrupt
  end.

(** [base64.StdEncoding.DecodeString] *)
Definition b64_DecodeString (s : string) : res string := b64_decode (skip_newlines s).

(** ** Lemmas *)

Lemma code_range c : 0 ≤ code c < 256.
Proof. unfold code. pose proof (N_ascii_bounded c). lia. Qed.

Lemma code_byte_of z : 0 ≤ z < 256 → code (byte_of z) = z.
Proof. intros Hz. unfold code, byte_of. rewrite N_ascii_embedding; lia. Qed.

Lemma byte_of_code c : byte_of (code c) = c.
Proof. unfold code, byte_of. rewrite N2Z.id. apply ascii_N_embedding. Qed.

(** A property of the 256 bytes, or of the numbers below [n], by evaluation. *)
Lemma below_ind (n : nat) (P : Z → bool) :
  forallb P (Z.of_nat <$> seq 0 n) = true → ∀ z, 0 ≤ z < Z.of_nat n → P z = true.
Proof.
  rewrite forallb_forall. intros H z Hz. apply H, list_elem_of_In, list_elem_of_fmap. exists (Z.to_nat z).
  rewrite elem_of_seq. lia.
Qed.

Lemma below_dec (n : nat) (Q : Z → Prop) `{∀ z, Decision (Q z)} :
  forallb (λ z, bool_decide (Q z)) (Z.of_nat <$> seq 0 n) = true → ∀ z, 0 ≤ z < Z.of_nat n → Q z.
Proof. intros HQ z Hz. exact (bool_decide_eq_true_1 _ (below_ind n (λ z, bool_decide (Q z)) HQ z Hz)). Qed.

Lemma hex_digit_value z : 0 ≤ z < 16 → hex_value (hex_digit z) = Some z.
Proof. revert z. refine (below_dec 16 _ _). vm_compute. reflexivity. Qed.

Lemma b64_digit_value z : 0 ≤ z < 64 → b64_value (b64_digit z) = Some z.
Proof. revert z. refine (below_dec 64 _ _). vm_compute. reflexivity. Qed.

Lemma b64_digit_plain z : 0 ≤ z < 64 → b64_digit z ≠ b64_pad ∧ ¬ (code (b64_digit z) = 10 ∨ code (b64_digit z) = 13).
Proof. revert z. refine (below_dec 64 _ _). vm_compute. reflexivity. Qed.

Lemma code_split c n : 0 < n → code c / n * n + code c mod n = code c.
Proof. intros Hn. pose proof (Z.div_mod (code c) n). lia. Qed.

Lemma hex_roundtrip s : hex_DecodeString (hex_EncodeToString s) = Ok s.
Proof.
  induction s as [|c s IH]; simpl; [done|]. pose proof (code_range c).
  rewrite !hex_digit_value, IH; [|apply Z.mod_pos_bound; lia|split; [apply Z.div_pos; lia|apply Z.div_lt_upper_bound; lia]].
  by rewrite (Z.mul_comm 16), code_split, byte_of_code.
Qed.

Lemma length_hex s : String.length (hex_EncodeToString s) = (2 * String.length s)%nat.
Proof. induction s as [|c s IH]; simpl; [done|]. lia. Qed.

Lemma is_hex_digit z : 0 ≤ z < 16 → is_hex_lower (hex_digit z) = true.
Proof. revert z. refine (below_dec 16 _ _). vm_compute. reflexivity. Qed.

Lemma hex_is_hex s : bytes_all is_hex_lower (hex_EncodeToString s) = true.
Proof.
  induction s as [|c s IH]; simpl; [done|]. pose proof (code_range c).
  rewrite !is_hex_digit, IH; [done|apply Z.mod_pos_bound; lia|split; [apply Z.div_pos; lia|apply Z.div_lt_upper_bound; lia]].
Qed.

(** [hex.DecodeString] accepts the strings that [hex_decodes] accepts. *)
Lemma hex_value_ok c : is_Some (hex_value c) ↔ is_hex c = true.
Proof.
  unfold hex_value, is_hex, is_hex_lower. destruct (is_digit c); [naive_solver|].
  destruct (byte_in "a" "f" c); [naive_solver|]. destruct (byte_in "A" "F" c); simpl; [naive_solver|].
  split; [by intros [? [=]]|done].
Qed.

Lemma hex_decodes_ok n s : (String.length s < n)%nat → is_ok (hex_DecodeString s) = hex_decodes s.
Proof.
  revert s. induction n as [|n IH]; intros s Hn; [lia|]. destruct s as [|a [|b s]]; [done..|]. simpl in *.
  rewrite <- (IH s) by lia. destruct (hex_value a) as [x|] eqn:Ea, (hex_value b) as [y|] eqn:Eb.
  - rewrite !(proj1 (hex_value_ok _)) by eauto. simpl. by destruct (hex_DecodeString s).
  - destruct (is_hex b) eqn:Hb; [apply hex_value_ok in Hb as [? ?]; congruence|]. by rewrite andb_false_r.
  - destruct (is_hex a) eqn:Ha; [apply hex_value_ok in Ha as [? ?]; congruence|done].
  - destruct (is_hex a) eqn:Ha; [apply hex_value_ok in Ha as [? ?]; congruence|done].
Qed.

Definition not_newline (c : ascii) : bool := negb (bool_decide (code c = 10 ∨ code c = 13)).

Lemma skip_newlines_id s : bytes_all not_newline s = true → skip_newlines s = s.
Proof.
  induction s as [|c s IH]; simpl; [done|]. unfold not_newline at 1. case_bool_decide; simpl; [done|].
  intros Hs. by rewrite IH.
Qed.

(** Strings are taken three bytes at a time. *)
Lemma string_ind3 (P : string → Prop) :
  P "" → (∀ a, P (String a "")) → (∀ a b, P (String a (String b ""))) →
  (∀ a b c s, P s → P (String a (String b (String c s)))) → ∀ s, P s.
Proof.
  intros H0 H1 H2 H3. assert (∀ n s, (String.length s < n)%nat → P s) as H; [|eauto].
  induction n as [|n IH]; intros s Hs; [lia|]. destruct s as [|a [|b [|c s]]]; auto. apply H3, IH. simpl in Hs. lia.
Qed.

Lemma sixbit_bounds a b c :
  0 ≤ code a / 4 < 64 ∧ 0 ≤ code a mod 4 * 16 + code b / 16 < 64 ∧ 0 ≤ code b mod 16 * 4 + code c / 64 < 64 ∧
  0 ≤ code c mod 64 < 64.
Proof.
  pose proof (code_range a). pose proof (code_range b). pose proof (code_range c).
  pose proof (Z.mod_pos_bound (code a) 4). pose proof (Z.mod_pos_bound (code b) 16). pose proof (Z.mod_pos_bound (code c) 64).
  pose proof (Z.div_mod (code a) 4). pose proof (Z.div_mod (code b) 16). pose proof (Z.div_mod (code c) 64). lia.
Qed.

Lemma sixbit_join a b c :
  (code a / 4) * 4 + (code a mod 4 * 16 + code b / 16) / 16 = code a ∧
  (code a mod 4 * 16 + code b / 16) mod 16 * 16 + (code b mod 16 * 4 + code c / 64) / 4 = code b ∧
  (code b mod 16 * 4 + code c / 64) mod 4 * 64 + code c mod 64 = code c.
Proof.
  pose proof (code_range a). pose proof (code_range b). pose proof (code_range c).
  pose proof (Z.mod_pos_bound (code a) 4). pose proof (Z.mod_pos_bound (code b) 16). pose proof (Z.mod_pos_bound (code c) 64).
  pose proof (Z.div_mod (code a) 4). pose proof (Z.div_mod (code b) 16). pose proof (Z.div_mod (code c) 64).
  rewrite !(Z.add_comm (_ * _) (code b / 16)), !(Z.add_comm (_ * _) (code c / 64)), !Z.div_add, !Z.mod_add by lia.
  rewrite (Z.div_small (code b / 16)), (Z.div_small (code c / 64)), (Z.mod_small (code b / 16)), (Z.mod_small (code c / 64)) by lia.
  lia.
Qed.

Lemma code_nul : code "000"%char = 0.
Proof. done. Qed.

Lemma b64_encode_text s : bytes_all not_newline (b64_EncodeToString s) = true.
Proof.
  assert (∀ z, 0 ≤ z < 64 → not_newline (b64_digit z) = true) as Hd.
  { intros z [_ Hz]%b64_digit_plain. unfold not_newline. by rewrite bool_decide_false. }
  induction s as [|a|a b|a b c s IH] using string_ind3; simpl; [done|..].
  - destruct (sixbit_bounds a "000" "000") as (H1 & H2 & _). rewrite code_nul, Z.add_0_r in H2. by rewrite !Hd.
  - destruct (sixbit_bounds a b "000") as (H1 & H2 & H3 & _). rewrite code_nul, Z.add_0_r in H3. by rewrite !Hd.
  - destruct (sixbit_bounds a b c) as (H1 & H2 & H3 & H4). by rewrite !Hd, IH.
Qed.

Lemma b64_roundtrip s : b64_DecodeString (b64_EncodeToString s) = Ok s.
Proof.
  unfold b64_DecodeString. rewrite (skip_newlines_id _ (b64_encode_text s)).
  induction s as [|a|a b|a b c s IH] using string_ind3; simpl; [done|..].
  - destruct (sixbit_bounds a "000" "000") as (H1 & H2 & _). destruct (sixbit_join a "000" "000") as (J & _).
    rewrite code_nul, !Z.add_0_r in *. rewrite !b64_digit_value by done. by rewrite J, byte_of_code.
  - destruct (sixbit_bounds a b "000") as (H1 & H2 & H3 & _). destruct (sixbit_join a b "000") as (J & J' & _).
    rewrite code_nul, !Z.add_0_r in *. rewrite !b64_digit_value by done.
    rewrite bool_decide_false by by apply b64_digit_plain. by rewrite J, J', !byte_of_code.
  - destruct (sixbit_bounds a b c) as (H1 & H2 & H3 & H4). destruct (sixbit_join a b c) as (J1 & J2 & J3).
    rewrite !b64_digit_value by done. rewrite !bool_decide_false by by apply b64_digit_plain.
    by rewrite IH, J1, J2, J3, !byte_of_code.
Qed.

(** Hexadecimal text is base64 text: four digits are three bytes. *)
Lemma hex_is_b64 c : is_hex_lower c = true → is_Some (b64_value c) ∧ c ≠ b64_pad ∧ not_newline c = true.
Proof.
  intros Hc. rewrite <- (byte_of_code c) in *. revert Hc. generalize (code_range c). generalize (code c).
  intros z Hz Hc. split.
  - revert Hc. apply (below_ind 256 (λ z, implb (is_hex_lower (byte_of z)) (bool_decide (is_Some (b64_value (byte_of z)))))) in Hz; [|vm_compute; reflexivity].
    intros Hc. rewrite Hc in Hz. by apply bool_decide_eq_true_1 in Hz.
  - apply (below_ind 256 (λ z, implb (is_hex_lower (byte_of z)) (bool_decide (byte_of z ≠ b64_pad) && not_newline (byte_of z)))) in Hz; [|vm_compute; reflexivity].
    rewrite Hc in Hz. simpl in Hz. apply andb_true_iff in Hz as [Hz ?]. by apply bool_decide_eq_true_1 in Hz.
Qed.

Lemma hex_text_b64 n s :
  bytes_all is_hex_lower s = true → String.length s = (4 * n)%nat →
  ∃ r, b64_DecodeString s = Ok r ∧ String.length r = (3 * n)%nat.
Proof.
  intros Hs Hn. unfold b64_DecodeString. rewrite skip_newlines_id.
  2:{ eapply bytes_all_impl; [|exact Hs]. intros c Hc. by apply hex_is_b64. }
  revert s Hs Hn. induction n as [|n IH]; intros s Hs Hn; [destruct s; [by exists ""|done]|].
  destruct s as [|a [|b [|c [|d s]]]]; [simpl in Hn; lia..|]. simpl in Hs.
  rewrite !andb_true_iff in Hs. destruct Hs as (Ha & Hb & Hc & Hd & Hs).
  destruct (hex_is_b64 a Ha) as [[x Hx] _], (hex_is_b64 b Hb) as [[y Hy] _].
  destruct (hex_is_b64 c Hc) as ([z Hz] & Hzp & _), (hex_is_b64 d Hd) as ([w Hw] & Hwp & _).
  destruct (IH s Hs) as (r & Hr & Hlen); [simpl in Hn; lia|].
  simpl. rewrite Hx, Hy, Hz, Hw, !bool_decide_false, Hr by done. eexists. split; [done|]. simpl. lia.
Qed.
