(* ===== verification/AtomicFile.v ===== *)
(** * Files that are replaced through a temporary file

    The pattern of the frpc configuration and of the slot manifest: a temporary
    file next to the target is filled and renamed over it, and removed whatever
    happens. *)

From S2P Require Import Prelude GoLib GoPath GoOS GoOSFacts.

(** ** Definitions *)

(** A clean absolute path that is not reached through a link, in a well-formed tree. *)
Definition sound_path (t : tree) (p : string) : Prop :=
  tree_ok t ∧ ∃ cs c, p = render true (cs ++ [c]) ∧ Forall comp_ok (cs ++ [c]) ∧
    plain (cs ++ [c]) ∧ no_link t (cs ++ [c]).

(** [m] fills the file [name] with [data], and touches nothing else. *)
Definition fills (name data : string) (m : M OS unit) : Prop := ∀ o r o',
  no_link (os_tree o) (comps name) → tree_ok (os_tree o) → m o = (r, o') →
  tree_ok (os_tree o') ∧ no_new_links (os_tree o) (os_tree o') ∧
  changes (λ k, k = comps name) (os_tree o) (os_tree o') ∧
  (r = Ok tt → ∃ m, os_tree o' !! comps name = Some (NFile data m)).

(** [m] renames [name] to [p], up to the error. *)
Definition renames (name p : string) (m : M OS unit) : Prop := ∀ o r o',
  m o = (r, o') → ∃ r', Rename name p o = (r', o') ∧ is_ok r = is_ok r'.

(** What was there stays. *)
Definition keeps_nodes (R : path → Prop) (t t' : tree) : Prop :=
  ∀ k n, t !! k = Some n → R k ∨ t' !! k = Some n.

(** ** Lemmas *)

Lemma sound_direct t p : sound_path t p → direct p ∧ comps p ≠ [] ∧ no_link t (comps p).
Proof.
  intros (_ & cs & c & -> & H1 & H2 & H3). unfold direct.
  rewrite IsAbs_render, comps_render by done. split; [done|]. split; [by destruct cs|done].
Qed.

Lemma sound_Dir t p : sound_path t p →
  direct (Dir p) ∧ no_link t (comps (Dir p)) ∧ ∃ c, comps p = comps (Dir p) ++ [c].
Proof.
  intros (_ & cs & c & -> & H1 & H2 & H3). unfold direct.
  rewrite Dir_render, removelast_last by done.
  pose proof H1 as [H1' _]%Forall_app. pose proof H2 as [H2' _]%plain_app.
  rewrite IsAbs_render, !comps_render by done. split; [done|]. split; [|eauto].
  eapply no_link_prefix; [exact H3|]. by exists [c].
Qed.

Lemma sound_path_next t t' p : sound_path t p → tree_ok t' → no_new_links t t' → sound_path t' p.
Proof.
  intros (_ & cs & c & -> & H1 & H2 & H3) Ht Hn. split; [done|]. exists cs, c.
  do 3 (split; [done|]). by eapply no_link_no_new.
Qed.

Lemma wrap_eq {S A} fmt args (m : M S A) s r s' :
  wrap fmt args m s = (r, s') → ∃ r', m s = (r', s') ∧ is_ok r = is_ok r' ∧ (∀ a, r = Ok a → r' = Ok a).
Proof.
  unfold wrap. destruct (m s) as [[a|e] s1]; intros [= <- <-]; eexists; split; try reflexivity; eauto.
  split; [done|]. intros a [=].
Qed.

Lemma renames_Rename name p : renames name p (Rename name p).
Proof. intros o r o' H. eauto. Qed.

Lemma renames_wrap name p fmt args : renames name p (wrap fmt args (Rename name p)).
Proof. intros o r o' H. apply wrap_eq in H as (r' & H & Hr & _). eauto. Qed.

Lemma keeps_nodes_refl R t : keeps_nodes R t t.
Proof. intros k n. by right. Qed.

Lemma keeps_nodes_trans R t1 t2 t3 : keeps_nodes R t1 t2 → keeps_nodes R t2 t3 → keeps_nodes R t1 t3.
Proof. intros H1 H2 k n Hk. destruct (H1 k n Hk) as [?|Hk']; [by left|]. by apply H2. Qed.

Lemma keeps_nodes_mono (R R' : path → Prop) t t' : (∀ k, R k → R' k) → keeps_nodes R t t' → keeps_nodes R' t t'.
Proof. intros HR H k n Hk. destruct (H k n Hk); [left|right]; auto. Qed.

Lemma changes_keeps R t t' : changes R t t' → keeps_nodes R t t'.
Proof. intros H k n Hk. destruct (H k) as [E|?]; [right; congruence|by left]. Qed.

(** Two entries of one directory. *)
Lemma not_below_sibling (d : path) a b : a ≠ b → ¬ below (d ++ [a]) (d ++ [b]).
Proof. intros Hne [x Hx]. rewrite <- app_assoc in Hx. apply app_inv_head in Hx. by injection Hx. Qed.

(** From the new temporary file on. *)
Lemma replace_finish (d : path) b c name p data fill ren o r o' :
  direct p → comps p = d ++ [b] → no_link (os_tree o) (comps p) →
  direct name → comps name = d ++ [c] → c ≠ b → no_link (os_tree o) (comps name) →
  tree_ok (os_tree o) → fills name data fill → renames name p ren →
  defer (fill;; ren) (Remove name) o = (r, o') →
  tree_ok (os_tree o') ∧ no_new_links (os_tree o) (os_tree o') ∧
  changes (λ k, below (comps name) k ∨ (r = Ok tt ∧ k = comps p)) (os_tree o) (os_tree o') ∧
  (r = Ok tt → ∃ m, os_tree o' !! comps p = Some (NFile data m)).
Proof.
  intros Hdp Hb Hlp Hd Hc Hcb Hl Ht Hfill Hren.
  assert (comps name ≠ []) as Hne by (rewrite Hc; by destruct d).
  assert (comps p ≠ []) as Hnep by (rewrite Hb; by destruct d).
  assert (¬ below (comps name) (comps p)) as Hnb by (rewrite Hb, Hc; by apply not_below_sibling).
  assert (comps name ≠ comps p) as Hnp by (intros E; apply Hnb; rewrite E; apply below_refl).
  unfold defer, try, ignore, mbind, M_bind.
  destruct (fill o) as [r1 o1] eqn:E1. apply Hfill in E1 as (T1 & N1 & C1 & X1); [|done..].
  assert (changes (below (comps name)) (os_tree o) (os_tree o1)) as C1'.
  { eapply changes_mono; [|exact C1]. intros k ->. apply below_refl. }
  assert (∀ o2 o3 r3, no_link_above (os_tree o2) (comps name) → Remove name o2 = (r3, o3) →
    removes o2 o3 name) as HR by (intros o2 o3 r3 Hl2 E3; by apply (Remove_effect o2 o3 name Hd r3)).
  pose proof (no_link_no_new _ _ _ N1 Hl) as Hl1.
  destruct r1 as [u1|e].
  2:{ destruct (Remove name o1) as [r3 o3] eqn:E3. apply HR in E3; [|by apply no_link_weaken].
      simpl. intros [= <- <-]. split; [by eapply removes_ok|].
      split; [eapply no_new_links_trans; [exact N1|by eapply removes_links]|]. split; [|intros [=]].
      eapply changes_mono; [by left|]. eapply changes_trans; [exact C1'|]. by eapply removes_changes. }
  destruct u1, (X1 eq_refl) as [m Xm].
  destruct (ren o1) as [r2 o2] eqn:E2. apply Hren in E2 as (r2' & E2 & Hr2).
  pose proof (Rename_ok o1 o2 name Hd p r2' Hdp (no_link_weaken _ _ Hl1)
    (no_link_weaken _ _ (no_link_no_new _ _ _ N1 Hlp)) Hne Hnep E2 T1) as T2.
  apply Rename_leaf_effect with (n := NFile data m) in E2; try done;
    [|by apply no_link_weaken|apply no_link_weaken; by eapply no_link_no_new].
  assert (no_new_links (os_tree o1) (os_tree o2)) as N2.
  { destruct r2'; [|rewrite E2; apply no_new_links_refl]. destruct E2 as [[? _]|(_ & Xp & Xn & C2)]; [done|].
    intros k tg Hk. destruct (C2 k) as [<-|[->| ->]]; [done|by rewrite Xn in Hk|by rewrite Xp in Hk]. }
  assert (no_link_above (os_tree o2) (comps name)) as Hl2.
  { eapply no_link_above_no_new; [exact N2|]. by apply no_link_weaken. }
  destruct (Remove name o2) as [r3 o3] eqn:E3. apply HR in E3; [|done]. simpl.
  pose proof (removes_changes _ _ _ (below (comps name)) E3 (λ k Hk, Hk)) as C3.
  assert (tree_ok (os_tree o3) ∧ no_new_links (os_tree o) (os_tree o3)) as [T3 N3].
  { split; [by eapply removes_ok|]. eapply no_new_links_trans; [exact N1|].
    eapply no_new_links_trans; [exact N2|by eapply removes_links]. }
  destruct r2 as [[]|e], r2' as [u|e']; try done; intros [= <- <-]; (do 2 (split; [done|])).
  - destruct E2 as [[? _]|(_ & Xp & Xn & C2)]; [done|]. split.
    + eapply changes_trans; [eapply changes_mono; [|exact C1']; auto|].
      eapply changes_trans; [|eapply changes_mono; [|exact C3]; auto].
      eapply changes_mono; [|exact C2]. intros k [->| ->]; [left; apply below_refl|by right].
    + intros _. exists m. destruct (C3 (comps p)) as [->|?]; done.
  - split; [|intros [=]]. eapply changes_mono; [by left|]. rewrite E2 in C3.
    by eapply changes_trans.
Qed.

(** The whole pattern: what existed stays, except the target; the target is replaced exactly if
    the result is a success, and then holds the data. *)
Lemma atomic_replace (d : path) b dir p prefix suffix data (fill ren : string → M OS unit) o r o' :
  direct dir → comps dir = d → no_link (os_tree o) d →
  direct p → comps p = d ++ [b] → no_link (os_tree o) (d ++ [b]) → tree_ok (os_tree o) →
  (∀ z, comp_ok (prefix +:+ FormatInt z +:+ suffix) ∧ prefix +:+ FormatInt z +:+ suffix ≠ "..") →
  HasPrefix b prefix = false →
  (∀ name, direct name → comps name ≠ [] → fills name data (fill name)) → (∀ name, renames name p (ren name)) →
  (name ← CreateTemp dir prefix suffix; defer (fill name;; ren name) (Remove name)) o = (r, o') →
  tree_ok (os_tree o') ∧ no_new_links (os_tree o) (os_tree o') ∧
  keeps_nodes (λ k, r = Ok tt ∧ k = d ++ [b]) (os_tree o) (os_tree o') ∧
  (r = Ok tt → ∃ m, os_tree o' !! (d ++ [b]) = Some (NFile data m)).
Proof.
  intros Hdir Hd Hl Hdp Hp Hlp Ht Hok Hpre Hfill Hren H. unfold mbind, M_bind in H.
  destruct (CreateTemp dir prefix suffix o) as [r1 o1] eqn:E1.
  apply CreateTemp_effect in E1; [|done|by rewrite Hd|done]. destruct r1 as [name|e].
  2:{ injection H as <- <-. rewrite E1. split; [done|]. split; [apply no_new_links_refl|].
      split; [apply keeps_nodes_refl|intros [=]]. }
  destruct E1 as (Hdn & c & Hcok & Hcp & Hc & Hnone & Hdirn & Ho1). rewrite Hd in Hc.
  assert (puts_file o o1 name) as Hput.
  { right. exists "", 384. rewrite Ho1, Hc, removelast_last.
    split; [done|]. split; [by destruct d|]. split; [by rewrite Hd in Hdirn|].
    rewrite Hc in Hnone. by rewrite Hnone. }
  pose proof (puts_file_ok _ _ _ Hput Ht) as T1. pose proof (puts_file_links _ _ _ Hput) as N1.
  assert (c ≠ b) as Hcb by congruence.
  assert (no_link (os_tree o1) (comps name)) as Hln.
  { apply no_link_above_last.
    - rewrite Hc. apply no_link_above_snoc. by eapply no_link_no_new.
    - intros tg. by rewrite Ho1, lookup_insert_eq. }
  apply (replace_finish d b c name p data (fill name) (ren name)) in H; try done.
  - destruct H as (T2 & N2 & C2 & X2). rewrite Hp in *. split; [done|].
    split; [by eapply no_new_links_trans|]. split; [|done].
    intros k n Hk. assert (¬ below (comps name) k) as Hnb.
    { intros Hbk. rewrite (below_none _ _ _ Ht Hnone Hbk) in Hk; [done|].
      rewrite Hc. by destruct d. }
    assert (os_tree o1 !! k = Some n) as Hk1.
    { rewrite Ho1, lookup_insert_ne; [done|]. intros <-. apply Hnb, below_refl. }
    destruct (C2 k) as [->|[?|?]]; [by right|done|by left].
  - rewrite Hp. by eapply no_link_no_new.
  - apply Hfill; [done|]. rewrite Hc. by destruct d.
Qed.
