(* ===== verification/Codec.v ===== *)
(** * A concrete codec

    Strings one after the other, each byte after a mark: what the examples use where the
    code calls an encoder that is not part of the repository. *)

From S2P Require Import Prelude.
From Stdlib Require Import Ascii.

(** ** Definitions *)

Fixpoint encode_name (s rest : string) : string :=
  match s with "" => "." +:+ rest | String c s => "+" +:+ String c (encode_name s rest) end.
Fixpoint decode_name (s : string) : option (string * string) :=
  match s with
  | String "."%char rest => Some ("", rest)
  | String "+"%char (String c s) => (λ nr, (String c nr.1, nr.2)) <$> decode_name s
  | _ => None
  end.

(** ** Lemmas *)

Lemma decode_encode_name s rest : decode_name (encode_name s rest) = Some (s, rest).
Proof. induction s as [|c s IH]; simpl; [done|]. by rewrite IH. Qed.

Lemma encode_name_length s rest : (String.length rest < String.length (encode_name s rest))%nat.
Proof. induction s as [|c s IH]; simpl; lia. Qed.
