(* ===== verification/Config.v ===== *)
(** * Eggs and the agent's configuration ([internal/egg], [internal/config])

    The YAML decoder and the duration parser are parameters. *)

From S2P Require Import Prelude GoLib GoPath GoOS.
From Stdlib Require Import Ascii.

(** ** Definitions *)

(** *** [internal/egg] *)

Record EggBuild := mkEggBuild { eb_Dockerfile : string }.
Record EggStartup := mkEggStartup {
  es_Command : string; es_StopSignal : string; es_StopCommand : string; es_ReadinessLog : string }.
Record EggVariable := mkEggVariable {
  ea_Name : string; ea_Env : string; ea_Default : string; ea_Editable : bool }.
Record EggPort := mkEggPort { ep_Name : string; ep_Default : Z; ep_Protocol : string }.
Record Egg := mkEgg {
  egg_Name : string; egg_Slug : string; egg_Description : string; egg_Build : EggBuild;
  egg_Startup : EggStartup; egg_Variables : list EggVariable; egg_Ports : list EggPort }.

Definition Validate (e : Egg) : res unit :=
  if egg_Name e =s "" then Err (Errorf "egg.name wajib diisi" [])
  else if egg_Slug e =s "" then Err (Errorf "egg.slug wajib diisi" [])
  else if es_Command (egg_Startup e) =s "" then Err (Errorf "egg.startup.command wajib diisi" [])
  else if eb_Dockerfile (egg_Build e) =s "" then Err (Errorf "egg.build.dockerfile wajib diisi" [])
  else Ok tt.

Section Load.
(** [yaml.Unmarshal] into a zero [Egg]. *)
Context (yaml_Unmarshal : string → res Egg).

Definition LoadDir (dir : string) : M OS Egg :=
  data ← wrap "baca egg.yaml" [] (ReadFile (Join [dir; "egg.yaml"]));
  wrap "parse egg.yaml" [] (lift_res (yaml_Unmarshal data)).
End Load.

(** [strings.ReplaceAll(s, old, new)] for a non-empty [old]; [skip] counts the bytes of the
    occurrence that is being passed over. *)
Fixpoint replace_from (old new : string) (skip : nat) (s : string) : string :=
  match s with
  | "" => ""
  | String c s' =>
      match skip with
      | S n => replace_from old new n s'
      | O => if HasPrefix s old
             then new +:+ replace_from old new (String.length old - 1) s'
             else String c (replace_from old new 0 s')
      end
  end.
Definition ReplaceAll (s old new : string) : string := replace_from old new 0 s.

(** [RenderStartup cmd vars], [vars] in the order the Go map is iterated. *)
Definition RenderStartup (cmd : string) (vars : list (string * string)) : string :=
  foldl (λ out kv, ReplaceAll out ("{{" +:+ kv.1 +:+ "}}") kv.2) cmd vars.

(** *** [internal/config] *)

Record NodeConfig := mkNodeConfig { nc_DataDir : string; nc_CertPath : string; nc_KeyPath : string }.
Record PanelConfig := mkPanelConfig { pa_Address : string; pa_CAPath : string }.
Record RuntimeConfig := mkRuntimeConfig {
  rn_Engine : string; rn_DockerSocket : string; rn_FRPBinary : string; rn_FRPConfig : string;
  rn_FRPServerAddr : string; rn_FRPServerPort : Z; rn_FRPToken : string;
  rn_FRPRemotePortMin : Z; rn_FRPRemotePortMax : Z }.
Record APIConfig := mkAPIConfig { ac_LocalGRPCPort : Z }.
Record LogConfig := mkLogConfig { lc_Level : string }.

(** [Duration]: nanoseconds, [int64]. *)
Definition Duration : Type := Z.

(** [UnmarshalYAML]: [raw] is the outcome of decoding a string, [ParseDuration] is
    [time.ParseDuration]. *)
Definition Duration_UnmarshalYAML (ParseDuration : string → res Z) (raw : res string) : res Duration :=
  match raw with Err e => Err e | Ok s => ParseDuration s end.

Record ObservabilityConfig := mkObservabilityConfig {
  oc_BindAddr : string; oc_MetricsPath : string; oc_HealthPath : string;
  oc_EventRetentionDays : Z; oc_MetricsInterval : Duration; oc_HealthInterval : Duration }.
Record FilesystemConfig := mkFilesystemConfig {
  fc_ServerRoot : string; fc_BackupRoot : string; fc_UploadChunkBytes : Z; fc_MaxUploadBytes : Z }.
Record SFTPConfig := mkSFTPConfig { sc_Enabled : bool; sc_BindAddr : string; sc_HostKeyPath : string }.
Record PluginsConfig := mkPluginsConfig { pl_ManifestPath : string }.

Record Config := mkConfig {
  cf_Node : NodeConfig; cf_Panel : PanelConfig; cf_Runtime : RuntimeConfig; cf_API : APIConfig;
  cf_Log : LogConfig; cf_Observability : ObservabilityConfig; cf_Filesystem : FilesystemConfig;
  cf_SFTP : SFTPConfig; cf_Plugins : PluginsConfig }.

Definition Default : Config := mkConfig
  (mkNodeConfig "/var/lib/oikos" "/etc/oikos/certs/node.crt" "/etc/oikos/certs/node.key")
  (mkPanelConfig "panel.example.com:9091" "/etc/oikos/certs/ca.crt")
  (mkRuntimeConfig "docker" "unix:///var/run/docker.sock" "/usr/local/bin/frpc"
     "/var/lib/oikos/frpc.toml" "" 7000 "" 30000 40000)
  (mkAPIConfig 9190)
  (mkLogConfig "info")
  (mkObservabilityConfig "127.0.0.1:9191" "/metrics" "/healthz" 30 (15 * time_Second) (15 * time_Second))
  (mkFilesystemConfig "/var/lib/oikos/servers" "/var/lib/oikos/backups" 1048576 10737418240)
  (mkSFTPConfig false "127.0.0.1:2222" "/etc/oikos/certs/sftp_host.key")
  (mkPluginsConfig "").

Section LoadConfig.
(** [yaml.Unmarshal] over a configuration: the fields the document names are replaced. *)
Context (yaml_Unmarshal : string → Config → res Config).

Definition Load (path : string) : M OS Config :=
  r ← try (ReadFile path);
  match r with
  | Err e => if IsNotExist e then mret Default
             else fail (Errorw "baca config %s" [path] e)
  | Ok data => wrap "parse config %s" [path] (lift_res (yaml_Unmarshal data Default))
  end.
End LoadConfig.

(** A startup command as its author reads it: text and placeholders. *)
Inductive piece := Text (s : string) | Placeholder (k : string).

Definition show_piece (p : piece) : string :=
  match p with Text s => s | Placeholder k => "{{" +:+ k +:+ "}}" end.
Fixpoint show_pieces (ps : list piece) : string :=
  match ps with [] => "" | p :: ps => show_piece p +:+ show_pieces ps end.

Definition no_brace (s : string) : bool :=
  bytes_all (λ c, negb (bool_decide (c = "{"%char)) && negb (bool_decide (c = "}"%char))) s.

Definition piece_ok (p : piece) : Prop :=
  match p with Text s => no_brace s = true | Placeholder k => no_brace k = true end.

(** The placeholders that are defined replaced by their values. *)
Definition fill (vars : list (string * string)) (p : piece) : piece :=
  match p with
  | Text s => Text s
  | Placeholder k => match list_find (λ kv, kv.1 = k) vars with
                     | Some (_, kv) => Text kv.2
                     | None => Placeholder k
                     end
  end.

(** ** Lemmas *)

Lemma app_assoc_s (a b c : string) : (a +:+ b) +:+ c = a +:+ (b +:+ c).
Proof. induction a as [|x a IH]; [done|]. exact (f_equal (String x) IH). Qed.

Lemma HasPrefix_cons x y a s : HasPrefix (String x s) (String y a) = (if decide (y = x) then HasPrefix s a else false).
Proof. unfold HasPrefix. simpl. destruct (ascii_dec y x), (decide (y = x)); done. Qed.

Lemma replace_skip old new a s :
  replace_from old new (String.length a) (a +:+ s) = replace_from old new 0 s.
Proof. induction a as [|x a IH]; [done|]. exact IH. Qed.

(** Nothing before the first brace is part of an occurrence. *)
Lemma replace_text k v a s :
  no_brace a = true → replace_from ("{{" +:+ k +:+ "}}") v 0 (a +:+ s) = a +:+ replace_from ("{{" +:+ k +:+ "}}") v 0 s.
Proof.
  induction a as [|x a IH]; [done|]. intros [Hx Ha]%andb_true_iff.
  apply andb_true_iff in Hx as [Hx _]. apply negb_true_iff, bool_decide_eq_false in Hx.
  change (String x a +:+ s) with (String x (a +:+ s)).
  change ("{{" +:+ k +:+ "}}") with (String "{" (String "{" (k +:+ "}}"))) in *.
  cbn [replace_from]. rewrite HasPrefix_cons, decide_False by congruence.
  by rewrite IH.
Qed.

Lemma HasPrefix_braces k k' s :
  no_brace k = true → no_brace k' = true → HasPrefix ((k' +:+ "}}") +:+ s) (k +:+ "}}") = true → k = k'.
Proof.
  revert k'. induction k as [|x k IH]; intros [|y k'] Hk Hk' H.
  - done.
  - exfalso. simpl in Hk'. apply andb_true_iff in Hk' as [Hy _].
    change (HasPrefix (String y ((k' +:+ "}}") +:+ s)) (String "}" "}") = true) in H.
    rewrite HasPrefix_cons in H. destruct (decide _) as [<-|]; done.
  - exfalso. simpl in Hk. apply andb_true_iff in Hk as [Hy _].
    change (HasPrefix (String "}" (String "}" s)) (String x (k +:+ "}}")) = true) in H.
    rewrite HasPrefix_cons in H. destruct (decide _) as [->|]; done.
  - apply andb_true_iff in Hk as [_ Hk]. apply andb_true_iff in Hk' as [_ Hk'].
    change (HasPrefix (String y ((k' +:+ "}}") +:+ s)) (String x (k +:+ "}}")) = true) in H.
    rewrite HasPrefix_cons in H. destruct (decide _) as [->|]; [|done]. f_equal. by apply (IH k').
Qed.

(** *** Rendering *)

(** The piece with [{{k}}] replaced. *)
Definition fill1 (k v : string) (p : piece) : piece :=
  match p with
  | Text s => Text s
  | Placeholder k' => if decide (k' = k) then Text v else Placeholder k'
  end.

Lemma replace_step old v c s :
  replace_from old v 0 (String c s) =
  if HasPrefix (String c s) old then v +:+ replace_from old v (String.length old - 1) s
  else String c (replace_from old v 0 s).
Proof. done. Qed.

(** The placeholder that is replaced. *)
Lemma replace_hit k v s :
  replace_from ("{{" +:+ k +:+ "}}") v 0 (("{{" +:+ k +:+ "}}") +:+ s) =
  v +:+ replace_from ("{{" +:+ k +:+ "}}") v 0 s.
Proof.
  set (old := "{{" +:+ k +:+ "}}"). assert (old = String "{" (String "{" (k +:+ "}}"))) as Ho by done.
  pose proof (HasPrefix_app old s) as Hp. revert Hp. rewrite Ho at 1 2 4. clearbody old. subst old.
  change (String "{" (String "{" (k +:+ "}}")) +:+ s) with (String "{" (String "{" (k +:+ "}}") +:+ s)).
  intros Hp. rewrite replace_step, Hp. f_equal.
  replace (String.length (String "{" (String "{" (k +:+ "}}"))) - 1)%nat
    with (String.length (String "{" (k +:+ "}}"))) by (simpl; lia).
  apply replace_skip.
Qed.

Lemma no_brace_cons x a : no_brace (String x a) = true → x ≠ "{"%char ∧ x ≠ "}"%char ∧ no_brace a = true.
Proof.
  unfold no_brace. cbn [bytes_all]. rewrite !andb_true_iff, !negb_true_iff, !bool_decide_eq_false. tauto.
Qed.

(** Another placeholder. *)
Lemma replace_miss k k' v s :
  no_brace k = true → no_brace k' = true → k' ≠ k →
  replace_from ("{{" +:+ k +:+ "}}") v 0 (("{{" +:+ k' +:+ "}}") +:+ s) =
  ("{{" +:+ k' +:+ "}}") +:+ replace_from ("{{" +:+ k +:+ "}}") v 0 s.
Proof.
  intros Hk Hk' Hne.
  assert (∀ t, HasPrefix t (k +:+ "}}") = false →
    replace_from ("{{" +:+ k +:+ "}}") v 0 (String "{" (String "{" t)) =
    String "{" (replace_from ("{{" +:+ k +:+ "}}") v 0 (String "{" t))) as Hstep.
  { intros t Ht. rewrite replace_step. change ("{{" +:+ k +:+ "}}") with (String "{" (String "{" (k +:+ "}}"))) at 1.
    by rewrite !HasPrefix_cons, !decide_True, Ht by done. }
  assert (∀ x t, x ≠ "{"%char → replace_from ("{{" +:+ k +:+ "}}") v 0 (String x t) =
    String x (replace_from ("{{" +:+ k +:+ "}}") v 0 t)) as Hlit.
  { intros x t Hx. rewrite replace_step. change ("{{" +:+ k +:+ "}}") with (String "{" (String "{" (k +:+ "}}"))) at 1.
    by rewrite HasPrefix_cons, decide_False by congruence. }
  assert (∀ x t, x ≠ "{"%char → replace_from ("{{" +:+ k +:+ "}}") v 0 (String "{" (String x t)) =
    String "{" (String x (replace_from ("{{" +:+ k +:+ "}}") v 0 t))) as Hopen.
  { intros x t Hx. rewrite replace_step. change ("{{" +:+ k +:+ "}}") with (String "{" (String "{" (k +:+ "}}"))) at 1.
    rewrite !HasPrefix_cons, decide_True, decide_False by congruence. f_equal. by apply Hlit. }
  change (("{{" +:+ k' +:+ "}}") +:+ s) with (String "{" (String "{" ((k' +:+ "}}") +:+ s))).
  rewrite Hstep.
  2:{ apply not_true_iff_false. intros H. apply HasPrefix_braces in H; [|done..]. congruence. }
  change (("{{" +:+ k' +:+ "}}") +:+ ?t) with (String "{" (String "{" ((k' +:+ "}}") +:+ t))).
  f_equal. rewrite !app_assoc_s. destruct k' as [|x k'].
  - change ("" +:+ "}}" +:+ s) with (String "}" (String "}" s)). by rewrite Hopen, Hlit.
  - apply no_brace_cons in Hk' as (Hx & _ & Hk'').
    change (String x k' +:+ "}}" +:+ s) with (String x (k' +:+ "}}" +:+ s)).
    rewrite Hopen, replace_text by done.
    change ("}}" +:+ s) with (String "}" (String "}" s)). by rewrite !Hlit.
Qed.

Lemma replace_piece k v p s :
  no_brace k = true → piece_ok p →
  replace_from ("{{" +:+ k +:+ "}}") v 0 (show_piece p +:+ s) =
  show_piece (fill1 k v p) +:+ replace_from ("{{" +:+ k +:+ "}}") v 0 s.
Proof.
  intros Hk Hp. destruct p as [a|k']; [by apply replace_text|].
  unfold fill1. destruct (decide (k' = k)) as [->|Hne]; [apply replace_hit|by apply replace_miss].
Qed.

Lemma replace_pieces k v ps :
  no_brace k = true → Forall piece_ok ps →
  ReplaceAll (show_pieces ps) ("{{" +:+ k +:+ "}}") v = show_pieces (fill1 k v <$> ps).
Proof.
  intros Hk. induction 1 as [|p ps Hp _ IH]; [done|]. unfold ReplaceAll in *.
  cbn [show_pieces]. rewrite replace_piece by done. by rewrite IH.
Qed.

Lemma fill1_ok k v p : no_brace v = true → piece_ok p → piece_ok (fill1 k v p).
Proof. intros Hv Hp. destruct p as [a|k']; [done|]. simpl. by destruct (decide _). Qed.

Lemma fill_cons k v vars p : fill vars (fill1 k v p) = fill ((k, v) :: vars) p.
Proof.
  destruct p as [a|k']; [done|]. unfold fill. simpl.
  destruct (decide (k = k')) as [->|Hne].
  - by rewrite decide_True.
  - rewrite decide_False by congruence. destruct (list_find _ _) as [[i kv]|]; done.
Qed.

Lemma find_key (k : string) (vars : list (string * string)) kv :
  NoDup vars.*1 → kv ∈ vars → kv.1 = k → ∃ i, list_find (λ kv, kv.1 = k) vars = Some (i, kv).
Proof.
  intros Hnd Hin <-. induction vars as [|x vars IH]; [by apply elem_of_nil in Hin|]. simpl.
  apply NoDup_cons in Hnd as [Hx Hnd].
  apply elem_of_cons in Hin as [->|Hin]; [rewrite decide_True by done; eauto|].
  rewrite decide_False.
  - destruct (IH Hnd Hin) as [i ->]. by eexists.
  - intros Heq. apply Hx. rewrite Heq. by apply list_elem_of_fmap_2.
Qed.

Lemma fill_perm vars vars' p : NoDup vars.*1 → vars ≡ₚ vars' → fill vars p = fill vars' p.
Proof.
  intros Hnd Hp. destruct p as [a|k]; [done|]. simpl.
  assert (NoDup vars'.*1) as Hnd' by (by rewrite <- Hp).
  destruct (list_find _ vars) as [[i kv]|] eqn:E.
  - apply list_find_Some in E as (Hi & Hk & _). apply list_elem_of_lookup_2 in Hi.
    rewrite Hp in Hi. by destruct (find_key k vars' kv Hnd' Hi Hk) as [j ->].
  - apply list_find_None in E. assert (list_find (λ kv : string * string, kv.1 = k) vars' = None) as ->; [|done].
    apply list_find_None. by rewrite <- Hp.
Qed.

(** ** Properties *)

(** C13.  A startup command is rendered as it reads: every placeholder that has a value is replaced
    by it, every other placeholder and all the text stay, and the result does not depend on the
    order in which the variables are iterated. *)
Theorem RenderStartup_correct ps vars vars' :
  Forall piece_ok ps → NoDup vars.*1 → vars ≡ₚ vars' →
  Forall (λ kv, no_brace kv.1 = true ∧ no_brace kv.2 = true) vars →
  RenderStartup (show_pieces ps) vars' = show_pieces (fill vars <$> ps).
Proof.
  intros Hps Hnd Hp Hvs. rewrite Hp in Hvs.
  trans (show_pieces (fill vars' <$> ps)).
  2:{ f_equal. apply list_fmap_ext. intros i p _. symmetry. by apply fill_perm. }
  clear Hnd Hp. unfold RenderStartup. revert ps Hps.
  induction vars' as [|[k v] vs IH]; intros ps Hps; cbn [foldl fst snd].
  - f_equal. rewrite <- (list_fmap_id ps) at 1. apply list_fmap_ext. intros i [a|k] _; done.
  - apply Forall_cons in Hvs as [[Hk Hv] Hvs]. rewrite replace_pieces by done.
    rewrite IH by (done || (apply Forall_fmap; eapply Forall_impl; [exact Hps|]; intros; by apply fill1_ok)).
    f_equal. rewrite <- list_fmap_compose. apply list_fmap_ext. intros i p _. apply fill_cons.
Qed.

Lemma RenderStartup_correct_witness :
  RenderStartup "java -Xmx{{MEM}} -jar {{JAR}} {{X}}" [("JAR", "server.jar"); ("MEM", "2G")] =
  "java -Xmx2G -jar server.jar {{X}}".
Proof.
  refine (RenderStartup_correct
    [Text "java -Xmx"; Placeholder "MEM"; Text " -jar "; Placeholder "JAR"; Text " "; Placeholder "X"]
    [("MEM", "2G"); ("JAR", "server.jar")] [("JAR", "server.jar"); ("MEM", "2G")] _ _ _ _).
  - repeat constructor.
  - repeat constructor; set_solver.
  - apply Permutation_swap.
  - repeat constructor.
Defined.

(** A value that spells a placeholder makes the result depend on the iteration order. *)
Lemma RenderStartup_order_dependent :
  RenderStartup "{{A}}" [("A", "{{B}}"); ("B", "x")] ≠ RenderStartup "{{A}}" [("B", "x"); ("A", "{{B}}")].
Proof. vm_compute. done. Qed.
