(* ===== verification/Store.v ===== *)
(** * The SQLite store ([internal/store], [migrations])

    The tables are lists of rows in rowid order; each statement of
    [sqlite.go] is a function on them with the constraints of the schema in
    [migrations/*.sql]: primary keys, UNIQUE, NOT NULL by construction of the
    row types, REFERENCES and ON DELETE CASCADE when the connection has
    [PRAGMA foreign_keys=ON].  Timestamps are unix seconds: every one is
    written with [Format(time.RFC3339)] or [CURRENT_TIMESTAMP], both of which
    drop the part below the second.  A statement can also fail for a reason
    outside the source (a locked or full database): [db_faults]. *)

From S2P Require Import Prelude GoLib.

(** ** Data ([models.go]) *)

Definition Time : Type := Z.
(** [time.Time{}], 0001-01-01T00:00:00Z *)
Definition zeroTime : Time := -62135596800.
Definition IsZero (t : Time) : bool := t =? zeroTime.

Record Server := mkServer {
  sv_ID : string; sv_Name : string; sv_EggID : string; sv_ContainerID : string;
  sv_Status : string; sv_StartupCommand : string; sv_Environment : string;
  sv_RestartCount : Z; sv_LastCrashAt : Time }.

Record Egg := mkEgg {
  eg_ID : string; eg_Name : string; eg_DockerfilePath : string; eg_MetadataPath : string }.

Record ResourceLimits := mkResourceLimits {
  rl_ServerID : string; rl_CPULimit : Z; rl_MemoryLimitMB : Z; rl_DiskLimitMB : Z;
  rl_PIDLimit : Z; rl_BandwidthKbps : Z }.

Record Node := mkNode {
  nd_ID : string; nd_Name : string; nd_PanelURL : string; nd_CertPath : string;
  nd_KeyPath : string; nd_PairedAt : Time }.

Record Tunnel := mkTunnel {
  tn_ID : string; tn_ServerID : string; tn_LocalPort : Z; tn_RemotePort : Z;
  tn_Protocol : string; tn_Status : string; tn_LastConnected : Time }.

Record NetworkGroup := mkNetworkGroup { ng_ID : string; ng_Name : string }.

Record NetworkGroupMember := mkMember {
  nm_GroupID : string; nm_NodeID : string; nm_PrivateIP : string }.

Record Backup := mkBackup {
  bk_ID : string; bk_ServerID : string; bk_FilePath : string; bk_SizeBytes : Z;
  bk_ChecksumSHA : string; bk_Status : string; bk_CreatedAt : Time; bk_CompletedAt : Time }.

Record SFTPCredential := mkSFTPCredential {
  sc_ID : string; sc_ServerID : string; sc_Username : string; sc_PublicKey : string;
  sc_PasswordHash : string }.

Record Plugin := mkPlugin {
  pl_ID : string; pl_Name : string; pl_Version : string; pl_BinaryPath : string;
  pl_ConfigPath : string; pl_SHA256 : string; pl_Enabled : bool;
  pl_SubscribedEvents : string; pl_AllowedRoutes : string; pl_InstalledAt : Time }.

Record StoreEvent := mkStoreEvent {
  ev_ID : string; ev_Type : string; ev_ServerID : string; ev_Severity : string;
  ev_Message : string; ev_Metadata : string; ev_CreatedAt : Time }.

Record EventFilter := mkEventFilter {
  ef_ServerID : string; ef_Type : string; ef_From : Time; ef_To : Time; ef_Limit : Z }.

Record MetricTunnel := mkMetricTunnel { mt_ServerID : string; mt_Status : string }.

#[global] Instance ResourceLimits_eq_dec : EqDecision ResourceLimits.
Proof. solve_decision. Defined.
#[global] Instance Plugin_eq_dec : EqDecision Plugin.
Proof. solve_decision. Defined.

(** ** Rows: the columns of [migrations/*.sql]; [option] is a nullable column *)

Record node_row := mkNodeRow { nr_node : Node; nr_created_at : Time }.
Record egg_row := mkEggRow { er_egg : Egg; er_created_at : Time }.
Record server_row := mkServerRow {
  sr_id : string; sr_name : string; sr_egg_id : string; sr_container_id : option string;
  sr_status : string; sr_startup_command : string; sr_environment : string;
  sr_created_at : Time; sr_updated_at : Time; sr_restart_count : Z;
  sr_last_crash_at : option Time }.
Record tunnel_row := mkTunnelRow {
  tr_id : string; tr_server_id : string; tr_local_port : Z; tr_remote_port : option Z;
  tr_protocol : string; tr_status : string; tr_last_connected : option Time }.
Record group_row := mkGroupRow { gr_id : string; gr_name : string; gr_created_at : Time }.
Definition member_row : Type := NetworkGroupMember.
Record event_row := mkEventRow {
  vr_id : string; vr_type : string; vr_server_id : option string; vr_severity : string;
  vr_message : string; vr_metadata : string; vr_created_at : Time }.
Record backup_row := mkBackupRow {
  br_id : string; br_server_id : string; br_file_path : string; br_size_bytes : Z;
  br_checksum : string; br_status : string; br_created_at : Time;
  br_completed_at : option Time }.

Record DB := mkDB {
  db_nodes : list node_row;
  db_eggs : list egg_row;
  db_servers : list server_row;
  db_limits : list ResourceLimits;
  db_tunnels : list tunnel_row;
  db_groups : list group_row;
  db_members : list member_row;
  db_events : list event_row;
  db_backups : list backup_row;
  db_sftp : list SFTPCredential;
  db_plugins : list Plugin;
  db_schema : list (string * list string);  (* table -> columns *)
  db_fk : bool;                           (* PRAGMA foreign_keys of the connection that serves *)
  db_now : Z;                             (* CURRENT_TIMESTAMP, unix seconds *)
  db_faults : faults                      (* outcomes of the coming statements *)
}.

Definition set_nodes (x : list node_row) (d : DB) : DB :=
  mkDB x (db_eggs d) (db_servers d) (db_limits d) (db_tunnels d) (db_groups d)
    (db_members d) (db_events d) (db_backups d) (db_sftp d) (db_plugins d)
    (db_schema d) (db_fk d) (db_now d) (db_faults d).
Definition set_eggs (x : list egg_row) (d : DB) : DB :=
  mkDB (db_nodes d) x (db_servers d) (db_limits d) (db_tunnels d) (db_groups d)
    (db_members d) (db_events d) (db_backups d) (db_sftp d) (db_plugins d)
    (db_schema d) (db_fk d) (db_now d) (db_faults d).
Definition set_servers (x : list server_row) (d : DB) : DB :=
  mkDB (db_nodes d) (db_eggs d) x (db_limits d) (db_tunnels d) (db_groups d)
    (db_members d) (db_events d) (db_backups d) (db_sftp d) (db_plugins d)
    (db_schema d) (db_fk d) (db_now d) (db_faults d).
Definition set_limits (x : list ResourceLimits) (d : DB) : DB :=
  mkDB (db_nodes d) (db_eggs d) (db_servers d) x (db_tunnels d) (db_groups d)
    (db_members d) (db_events d) (db_backups d) (db_sftp d) (db_plugins d)
    (db_schema d) (db_fk d) (db_now d) (db_faults d).
Definition set_tunnels (x : list tunnel_row) (d : DB) : DB :=
  mkDB (db_nodes d) (db_eggs d) (db_servers d) (db_limits d) x (db_groups d)
    (db_members d) (db_events d) (db_backups d) (db_sftp d) (db_plugins d)
    (db_schema d) (db_fk d) (db_now d) (db_faults d).
Definition set_groups (x : list group_row) (d : DB) : DB :=
  mkDB (db_nodes d) (db_eggs d) (db_servers d) (db_limits d) (db_tunnels d) x
    (db_members d) (db_events d) (db_backups d) (db_sftp d) (db_plugins d)
    (db_schema d) (db_fk d) (db_now d) (db_faults d).
Definition set_members (x : list member_row) (d : DB) : DB :=
  mkDB (db_nodes d) (db_eggs d) (db_servers d) (db_limits d) (db_tunnels d)
    (db_groups d) x (db_events d) (db_backups d) (db_sftp d) (db_plugins d)
    (db_schema d) (db_fk d) (db_now d) (db_faults d).
Definition set_events (x : list event_row) (d : DB) : DB :=
  mkDB (db_nodes d) (db_eggs d) (db_servers d) (db_limits d) (db_tunnels d)
    (db_groups d) (db_members d) x (db_backups d) (db_sftp d) (db_plugins d)
    (db_schema d) (db_fk d) (db_now d) (db_faults d).
Definition set_backups (x : list backup_row) (d : DB) : DB :=
  mkDB (db_nodes d) (db_eggs d) (db_servers d) (db_limits d) (db_tunnels d)
    (db_groups d) (db_members d) (db_events d) x (db_sftp d) (db_plugins d)
    (db_schema d) (db_fk d) (db_now d) (db_faults d).
Definition set_sftp (x : list SFTPCredential) (d : DB) : DB :=
  mkDB (db_nodes d) (db_eggs d) (db_servers d) (db_limits d) (db_tunnels d)
    (db_groups d) (db_members d) (db_events d) (db_backups d) x (db_plugins d)
    (db_schema d) (db_fk d) (db_now d) (db_faults d).
Definition set_plugins (x : list Plugin) (d : DB) : DB :=
  mkDB (db_nodes d) (db_eggs d) (db_servers d) (db_limits d) (db_tunnels d)
    (db_groups d) (db_members d) (db_events d) (db_backups d) (db_sftp d) x
    (db_schema d) (db_fk d) (db_now d) (db_faults d).
Definition set_schema (x : list (string * list string)) (d : DB) : DB :=
  mkDB (db_nodes d) (db_eggs d) (db_servers d) (db_limits d) (db_tunnels d)
    (db_groups d) (db_members d) (db_events d) (db_backups d) (db_sftp d)
    (db_plugins d) x (db_fk d) (db_now d) (db_faults d).
Definition set_faults (x : faults) (d : DB) : DB :=
  mkDB (db_nodes d) (db_eggs d) (db_servers d) (db_limits d) (db_tunnels d)
    (db_groups d) (db_members d) (db_events d) (db_backups d) (db_sftp d)
    (db_plugins d) (db_schema d) (db_fk d) (db_now d) x.

(** ** Statements

    [sql.Exec] and [sql.Query] of one statement over the tables [tbls]. *)
Definition has_table (d : DB) (t : string) : bool :=
  existsb (λ tc, String.eqb (fst tc) t) (db_schema d).

Definition query {A} (tbls : list string) (f : DB → res A) : M DB A := λ d,
  let '(flt, fs) := next_fault (db_faults d) in
  let d := set_faults fs d in
  match flt with
  | Some e => (Err e, d)
  | None => if forallb (has_table d) tbls then (f d, d)
            else (Err (EExt "no such table"), d)
  end.

Definition exec (tbls : list string) (f : DB → res DB) : M DB unit := λ d,
  let '(flt, fs) := next_fault (db_faults d) in
  let d := set_faults fs d in
  match flt with
  | Some e => (Err e, d)
  | None => if forallb (has_table d) tbls
            then match f d with Ok d' => (Ok tt, d') | Err e => (Err e, d) end
            else (Err (EExt "no such table"), d)
  end.

Definition unique_failed (what : string) : error := Errorf "UNIQUE constraint failed: %s" [what].
Definition fk_failed : error := EExt "FOREIGN KEY constraint failed".

(** [UPDATE t SET .. WHERE p] *)
Definition update_where {R} (p : R → bool) (f : R → R) (t : list R) : list R :=
  (λ r, if p r then f r else r) <$> t.
(** [SELECT .. WHERE p] and [DELETE FROM t WHERE p] *)
Definition select_where {R} (p : R → bool) (t : list R) : list R := filter (λ r, p r = true) t.
Definition delete_where {R} (p : R → bool) (t : list R) : list R := filter (λ r, p r = false) t.
(** [sql.QueryRow(..).Scan]: the first row or [sql.ErrNoRows]. *)
Definition first_row {R} (t : list R) : res R :=
  match t with r :: _ => Ok r | [] => Err (ESentinel sql_ErrNoRows) end.

Definition nullIfEmpty (s : string) : option string := if s =s "" then None else Some s.
Definition nullableInt (n : Z) : option Z := if n =? 0 then None else Some n.
(** [formatTime] followed by [NULLIF(?,'')] *)
Definition formatTime (t : Time) : option Time := if IsZero t then None else Some t.
(** [sql.NullString.String], [int(sql.NullInt64.Int64)], a NULL time left zero *)
Definition null_string (s : option string) : string := default "" s.
Definition null_int (n : option Z) : Z := default 0 n.
Definition null_time (t : option Time) : Time := default zeroTime t.

Definition egg_exists (d : DB) (id : string) : bool :=
  existsb (λ r, eg_ID (er_egg r) =s id) (db_eggs d).
Definition server_exists (d : DB) (id : string) : bool :=
  existsb (λ r, sr_id r =s id) (db_servers d).
Definition node_exists (d : DB) (id : string) : bool :=
  existsb (λ r, nd_ID (nr_node r) =s id) (db_nodes d).
Definition group_exists (d : DB) (id : string) : bool :=
  existsb (λ r, gr_id r =s id) (db_groups d).

(** A REFERENCES check of an inserted row. *)
Definition fk_check (d : DB) (parent : bool) : bool := negb (db_fk d) || parent.

(** ** Operations ([sqlite.go]) *)

Definition IncrementRestartCount (id : string) : M DB unit :=
  exec ["servers"] (λ d, Ok (set_servers (update_where (λ r, sr_id r =s id)
    (λ r, mkServerRow (sr_id r) (sr_name r) (sr_egg_id r) (sr_container_id r) (sr_status r)
            (sr_startup_command r) (sr_environment r) (sr_created_at r) (sr_updated_at r)
            (sr_restart_count r + 1) (sr_last_crash_at r)) (db_servers d)) d)).

Definition ResetRestartCount (id : string) : M DB unit :=
  exec ["servers"] (λ d, Ok (set_servers (update_where (λ r, sr_id r =s id)
    (λ r, mkServerRow (sr_id r) (sr_name r) (sr_egg_id r) (sr_container_id r) (sr_status r)
            (sr_startup_command r) (sr_environment r) (sr_created_at r) (sr_updated_at r)
            0 (sr_last_crash_at r)) (db_servers d)) d)).

Definition SetLastCrash (id : string) (at_ : Time) : M DB unit :=
  exec ["servers"] (λ d, Ok (set_servers (update_where (λ r, sr_id r =s id)
    (λ r, mkServerRow (sr_id r) (sr_name r) (sr_egg_id r) (sr_container_id r) (sr_status r)
            (sr_startup_command r) (sr_environment r) (sr_created_at r) (sr_updated_at r)
            (sr_restart_count r) (Some at_)) (db_servers d)) d)).

(** [INSERT .. ON CONFLICT(key) DO UPDATE] when every column is overwritten. *)
Definition upsert {R} (same : R → bool) (row : R) (t : list R) : list R :=
  if existsb same t then update_where same (λ _, row) t else t ++ [row].

Section SavePlugin.
(** SQLite's [json_valid] *)
Context (json_valid : string → bool).

Definition SavePlugin (p : Plugin) : M DB unit :=
  let evs := if pl_SubscribedEvents p =s "" then "[]" else pl_SubscribedEvents p in
  let rts := if pl_AllowedRoutes p =s "" then "[]" else pl_AllowedRoutes p in
  v ← query [] (λ _, Ok (json_valid evs));
  fail_if (negb v) (Errorf "subscribed events plugin bukan JSON valid" []);;
  v ← query [] (λ _, Ok (json_valid rts));
  fail_if (negb v) (Errorf "allowed routes plugin bukan JSON valid" []);;
  exec ["plugins"] (λ d,
    let row := mkPlugin (pl_ID p) (pl_Name p) (pl_Version p) (pl_BinaryPath p)
                 (pl_ConfigPath p) (pl_SHA256 p) (pl_Enabled p) evs rts (pl_InstalledAt p) in
    Ok (set_plugins (upsert (λ r, pl_ID r =s pl_ID p) row (db_plugins d)) d)).
End SavePlugin.

Definition GetPlugin (id : string) : M DB Plugin :=
  query ["plugins"] (λ d, first_row (select_where (λ r, pl_ID r =s id) (db_plugins d))).

Definition ListPlugins : M DB (list Plugin) :=
  query ["plugins"] (λ d, Ok (isort (λ a b, String.leb (pl_ID a) (pl_ID b)) (db_plugins d))).

Definition with_enabled (e : bool) (r : Plugin) : Plugin :=
  mkPlugin (pl_ID r) (pl_Name r) (pl_Version r) (pl_BinaryPath r) (pl_ConfigPath r)
    (pl_SHA256 r) e (pl_SubscribedEvents r) (pl_AllowedRoutes r) (pl_InstalledAt r).

Definition SetPluginEnabled (id : string) (enabled : bool) : M DB unit :=
  exec ["plugins"] (λ d, Ok (set_plugins
    (update_where (λ r, pl_ID r =s id) (with_enabled enabled) (db_plugins d)) d)).

Definition CreateEgg (e : Egg) : M DB unit :=
  exec ["eggs"] (λ d,
    if egg_exists d (eg_ID e) then Err (unique_failed "eggs.id")
    else Ok (set_eggs (db_eggs d ++ [mkEggRow e (db_now d)]) d)).

Definition EnsureEgg (e : Egg) : M DB unit :=
  exec ["eggs"] (λ d,
    if egg_exists d (eg_ID e) then Ok d
    else Ok (set_eggs (db_eggs d ++ [mkEggRow e (db_now d)]) d)).

Definition CreateServer (s : Server) : M DB unit :=
  exec ["servers"] (λ d,
    if server_exists d (sv_ID s) then Err (unique_failed "servers.id")
    else if fk_check d (egg_exists d (sv_EggID s)) then
      Ok (set_servers (db_servers d ++
        [mkServerRow (sv_ID s) (sv_Name s) (sv_EggID s) (nullIfEmpty (sv_ContainerID s))
           (sv_Status s) (sv_StartupCommand s) (sv_Environment s) (db_now d) (db_now d)
           0 None]) d)
    else Err fk_failed).

Definition scan_server (r : server_row) : Server :=
  mkServer (sr_id r) (sr_name r) (sr_egg_id r) (null_string (sr_container_id r)) (sr_status r)
    (sr_startup_command r) (sr_environment r) (sr_restart_count r)
    (null_time (sr_last_crash_at r)).

Definition GetServer (id : string) : M DB Server :=
  query ["servers"] (λ d,
    match first_row (select_where (λ r, sr_id r =s id) (db_servers d)) with
    | Ok r => Ok (scan_server r)
    | Err e => Err e
    end).

Definition UpdateServerStatus (id status : string) : M DB unit :=
  exec ["servers"] (λ d, Ok (set_servers (update_where (λ r, sr_id r =s id)
    (λ r, mkServerRow (sr_id r) (sr_name r) (sr_egg_id r) (sr_container_id r) status
            (sr_startup_command r) (sr_environment r) (sr_created_at r) (db_now d)
            (sr_restart_count r) (sr_last_crash_at r)) (db_servers d)) d)).

Definition SetServerContainer (id containerID : string) : M DB unit :=
  exec ["servers"] (λ d, Ok (set_servers (update_where (λ r, sr_id r =s id)
    (λ r, mkServerRow (sr_id r) (sr_name r) (sr_egg_id r) (Some containerID) (sr_status r)
            (sr_startup_command r) (sr_environment r) (sr_created_at r) (db_now d)
            (sr_restart_count r) (sr_last_crash_at r)) (db_servers d)) d)).

(** The ON DELETE CASCADE children of [servers]. *)
Definition cascade_server (id : string) (d : DB) : DB :=
  set_limits (delete_where (λ r, rl_ServerID r =s id) (db_limits d))
  (set_tunnels (delete_where (λ r, tr_server_id r =s id) (db_tunnels d))
  (set_events (delete_where (λ r, bool_decide (vr_server_id r = Some id)) (db_events d))
  (set_backups (delete_where (λ r, br_server_id r =s id) (db_backups d))
  (set_sftp (delete_where (λ r, sc_ServerID r =s id) (db_sftp d)) d)))).

Definition DeleteServer (id : string) : M DB unit :=
  exec ["servers"] (λ d,
    let d' := set_servers (delete_where (λ r, sr_id r =s id) (db_servers d)) d in
    Ok (if db_fk d then cascade_server id d' else d')).

Definition ListServers : M DB (list Server) :=
  query ["servers"] (λ d,
    Ok (scan_server <$> isort (λ a b, sr_created_at a <=? sr_created_at b) (db_servers d))).

(** [INSERT OR REPLACE]: the conflicting row is deleted first, with its cascade. *)
Definition SaveNode (n : Node) : M DB unit :=
  exec ["nodes"] (λ d,
    let d1 := if node_exists d (nd_ID n)
              then let d' := set_nodes (delete_where (λ r, nd_ID (nr_node r) =s nd_ID n)
                                          (db_nodes d)) d in
                   if db_fk d then set_members (delete_where (λ r, nm_NodeID r =s nd_ID n)
                                                  (db_members d')) d' else d'
              else d in
    Ok (set_nodes (db_nodes d1 ++ [mkNodeRow n (db_now d)]) d1)).

Definition GetNode : M DB Node :=
  query ["nodes"] (λ d,
    match first_row (db_nodes d) with Ok r => Ok (nr_node r) | Err e => Err e end).

Definition same_mapping (serverID : string) (localPort : Z) (protocol : string)
    (r : tunnel_row) : bool :=
  (tr_server_id r =s serverID) && (tr_local_port r =? localPort) && (tr_protocol r =s protocol).

(** PRIMARY KEY(id) and UNIQUE(remote_port) of [t] against the rows [others]. *)
Definition tunnel_clash (id : string) (remote : option Z) (others : list tunnel_row) : bool :=
  existsb (λ r, (tr_id r =s id) ||
                bool_decide (is_Some remote ∧ tr_remote_port r = remote)) others.

Definition SaveTunnel (t : Tunnel) : M DB unit :=
  exec ["tunnels"] (λ d,
    let same := same_mapping (tn_ServerID t) (tn_LocalPort t) (tn_Protocol t) in
    let remote := nullableInt (tn_RemotePort t) in
    if tunnel_clash (tn_ID t) remote (delete_where same (db_tunnels d))
    then Err (unique_failed "tunnels.id, tunnels.remote_port")
    else if existsb same (db_tunnels d) then
      Ok (set_tunnels (update_where same
        (λ r, mkTunnelRow (tn_ID t) (tr_server_id r) (tr_local_port r) remote (tr_protocol r)
                (tn_Status t) (tr_last_connected r)) (db_tunnels d)) d)
    else if fk_check d (server_exists d (tn_ServerID t)) then
      Ok (set_tunnels (db_tunnels d ++
        [mkTunnelRow (tn_ID t) (tn_ServerID t) (tn_LocalPort t) remote (tn_Protocol t)
           (tn_Status t) (formatTime (tn_LastConnected t))]) d)
    else Err fk_failed).

Definition scan_tunnel (r : tunnel_row) : Tunnel :=
  mkTunnel (tr_id r) (tr_server_id r) (tr_local_port r) (null_int (tr_remote_port r))
    (tr_protocol r) (tr_status r) (null_time (tr_last_connected r)).

Definition GetTunnelByMapping (serverID : string) (localPort : Z) (protocol : string)
    : M DB Tunnel :=
  query ["tunnels"] (λ d,
    match first_row (select_where (same_mapping serverID localPort protocol) (db_tunnels d)) with
    | Ok r => Ok (scan_tunnel r)
    | Err e => Err e
    end).

Definition ListTunnels (serverID : string) : M DB (list Tunnel) :=
  query ["tunnels"] (λ d,
    Ok (scan_tunnel <$> isort (λ a b, tr_local_port a <=? tr_local_port b)
          (select_where (λ r, tr_server_id r =s serverID) (db_tunnels d)))).

Definition SaveNetworkGroup (g : NetworkGroup) : M DB unit :=
  exec ["network_groups"] (λ d,
    if group_exists d (ng_ID g) then
      Ok (set_groups (update_where (λ r, gr_id r =s ng_ID g)
        (λ r, mkGroupRow (gr_id r) (ng_Name g) (gr_created_at r)) (db_groups d)) d)
    else Ok (set_groups (db_groups d ++ [mkGroupRow (ng_ID g) (ng_Name g) (db_now d)]) d)).

(** [INSERT INTO network_group_members]: PRIMARY KEY(group_id, node_id),
    UNIQUE(group_id, private_ip). *)
Definition insert_member (m : NetworkGroupMember) : M DB unit :=
  exec ["network_group_members"] (λ d,
    if existsb (λ r, (nm_GroupID r =s nm_GroupID m) &&
                 ((nm_NodeID r =s nm_NodeID m) || (nm_PrivateIP r =s nm_PrivateIP m)))
         (db_members d)
    then Err (unique_failed "network_group_members")
    else if fk_check d (group_exists d (nm_GroupID m) && node_exists d (nm_NodeID m))
    then Ok (set_members (db_members d ++ [m]) d)
    else Err fk_failed).

(** [tx.Rollback()], and what an unsuccessful [tx.Commit()] leaves. *)
Definition rollback_to (snapshot : DB) : M DB unit :=
  modify (λ d, set_faults (db_faults d) snapshot).

(** The statements inside the transaction. *)
Definition replace_members_tx (groupID : string) (members : list NetworkGroupMember)
    : M DB unit :=
  exec ["network_group_members"] (λ d, Ok (set_members
    (delete_where (λ r, nm_GroupID r =s groupID) (db_members d)) d));;
  for_each (λ m, insert_member (mkMember groupID (nm_NodeID m) (nm_PrivateIP m))) members.

Definition ReplaceNetworkGroupMembers (groupID : string) (members : list NetworkGroupMember)
    : M DB unit :=
  query [] (λ _, Ok tt);;                                        (* Begin *)
  snapshot ← gets id;
  r ← try (replace_members_tx groupID members);
  match r with
  | Err e => rollback_to snapshot;; fail e
  | Ok _ =>
      c ← try (query [] (λ _, Ok tt));                           (* Commit *)
      match c with
      | Err e => rollback_to snapshot;; fail e
      | Ok _ => mret tt
      end
  end.

Definition ListNetworkGroupMembers (groupID : string) : M DB (list NetworkGroupMember) :=
  query ["network_group_members"] (λ d,
    Ok (isort (λ a b, String.leb (nm_NodeID a) (nm_NodeID b))
          (select_where (λ r, nm_GroupID r =s groupID) (db_members d)))).

Definition DeleteNetworkGroupMember (groupID nodeID : string) : M DB unit :=
  exec ["network_group_members"] (λ d, Ok (set_members
    (delete_where (λ r, (nm_GroupID r =s groupID) && (nm_NodeID r =s nodeID)) (db_members d)) d)).

Section SaveEvent.
Context (json_valid : string → bool).

Definition SaveEvent (e : StoreEvent) : M DB unit :=
  fail_if ((ev_ID e =s "") || (ev_Type e =s "") || (ev_Message e =s ""))
    (Errorf "event id, type, dan message wajib diisi" []);;
  let severity := if ev_Severity e =s "" then "info" else ev_Severity e in
  let metadata := if ev_Metadata e =s "" then "{}" else ev_Metadata e in
  v ← query [] (λ _, Ok (json_valid metadata));
  fail_if (negb v) (Errorf "metadata event bukan JSON valid" []);;
  exec ["events"] (λ d,
    if existsb (λ r, vr_id r =s ev_ID e) (db_events d) then Err (unique_failed "events.id")
    else if fk_check d (match nullIfEmpty (ev_ServerID e) with
                        | None => true | Some sid => server_exists d sid end)
    then Ok (set_events (db_events d ++
           [mkEventRow (ev_ID e) (ev_Type e) (nullIfEmpty (ev_ServerID e)) severity
              (ev_Message e) metadata (ev_CreatedAt e)]) d)
    else Err fk_failed).
End SaveEvent.

Definition event_matches (f : EventFilter) (r : event_row) : bool :=
  ((ef_ServerID f =s "") || bool_decide (vr_server_id r = Some (ef_ServerID f))) &&
  ((ef_Type f =s "") || (vr_type r =s ef_Type f)) &&
  (IsZero (ef_From f) || (ef_From f <=? vr_created_at r)) &&
  (IsZero (ef_To f) || (vr_created_at r <=? ef_To f)).

Definition event_limit (f : EventFilter) : nat :=
  if 0 <? ef_Limit f then Z.to_nat (ef_Limit f) else 1000.

(** [var sid string]: [rows.Scan] cannot put a NULL [server_id] into it. *)
Definition scan_event (r : event_row) : res StoreEvent :=
  match vr_server_id r with
  | None => Err (EExt "sql: Scan error on column server_id: converting NULL to string is unsupported")
  | Some sid => Ok (mkStoreEvent (vr_id r) (vr_type r) sid (vr_severity r) (vr_message r)
                      (vr_metadata r) (vr_created_at r))
  end.

Fixpoint scan_events (rs : list event_row) : res (list StoreEvent) :=
  match rs with
  | [] => Ok []
  | r :: rs =>
      match scan_event r with
      | Err e => Err e
      | Ok ev => match scan_events rs with Err e => Err e | Ok evs => Ok (ev :: evs) end
      end
  end.

Definition ListEvents (f : EventFilter) : M DB (list StoreEvent) :=
  query ["events"] (λ d, scan_events (take (event_limit f)
    (isort (λ a b, vr_created_at b <=? vr_created_at a)
       (select_where (event_matches f) (db_events d))))).

Definition ListTunnelsForMetrics : M DB (list MetricTunnel) :=
  query ["tunnels"] (λ d, Ok ((λ r, mkMetricTunnel (tr_server_id r) (tr_status r)) <$>
    isort (λ a b, String.leb (tr_server_id a) (tr_server_id b)) (db_tunnels d))).

Definition PruneEvents (before : Time) : M DB unit :=
  exec ["events"] (λ d, Ok (set_events
    (delete_where (λ r, vr_created_at r <? before) (db_events d)) d)).

Definition SaveBackup (b : Backup) : M DB unit :=
  exec ["backups"] (λ d,
    if existsb (λ r, br_id r =s bk_ID b) (db_backups d) then Err (unique_failed "backups.id")
    else if fk_check d (server_exists d (bk_ServerID b)) then
      Ok (set_backups (db_backups d ++
        [mkBackupRow (bk_ID b) (bk_ServerID b) (bk_FilePath b) (bk_SizeBytes b)
           (bk_ChecksumSHA b) (bk_Status b) (bk_CreatedAt b) (formatTime (bk_CompletedAt b))]) d)
    else Err fk_failed).

Definition scan_backup (r : backup_row) : Backup :=
  mkBackup (br_id r) (br_server_id r) (br_file_path r) (br_size_bytes r) (br_checksum r)
    (br_status r) (br_created_at r) (null_time (br_completed_at r)).

Definition GetBackup (id : string) : M DB Backup :=
  query ["backups"] (λ d,
    match first_row (select_where (λ r, br_id r =s id) (db_backups d)) with
    | Ok r => Ok (scan_backup r)
    | Err e => Err e
    end).

Definition ListBackups (serverID : string) : M DB (list Backup) :=
  query ["backups"] (λ d,
    Ok (scan_backup <$> isort (λ a b, br_created_at b <=? br_created_at a)
          (select_where (λ r, br_server_id r =s serverID) (db_backups d)))).

Definition UpdateBackupStatus (id status checksum : string) (size : Z) : M DB unit :=
  exec ["backups"] (λ d, Ok (set_backups (update_where (λ r, br_id r =s id)
    (λ r, mkBackupRow (br_id r) (br_server_id r) (br_file_path r) size checksum status
            (br_created_at r)
            (if status =s "completed" then Some (db_now d) else br_completed_at r))
    (db_backups d)) d)).

Definition DeleteBackup (id : string) : M DB unit :=
  exec ["backups"] (λ d, Ok (set_backups
    (delete_where (λ r, br_id r =s id) (db_backups d)) d)).

Definition SaveSFTPCredential (c : SFTPCredential) : M DB unit :=
  exec ["sftp_credentials"] (λ d,
    if existsb (λ r, sc_ID r =s sc_ID c) (db_sftp d)
    then Err (unique_failed "sftp_credentials.id")
    else if fk_check d (server_exists d (sc_ServerID c))
    then Ok (set_sftp (db_sftp d ++ [c]) d)
    else Err fk_failed).

Definition GetSFTPCredential (username : string) : M DB SFTPCredential :=
  query ["sftp_credentials"] (λ d,
    first_row (select_where (λ r, sc_Username r =s username) (db_sftp d))).

Definition DeleteTunnelByMapping (serverID : string) (localPort : Z) (protocol : string)
    : M DB unit :=
  exec ["tunnels"] (λ d, Ok (set_tunnels
    (delete_where (same_mapping serverID localPort protocol) (db_tunnels d)) d)).

Definition UpdateTunnelStatus (id status : string) : M DB unit :=
  exec ["tunnels"] (λ d, Ok (set_tunnels (update_where (λ r, tr_id r =s id)
    (λ r, mkTunnelRow (tr_id r) (tr_server_id r) (tr_local_port r) (tr_remote_port r)
            (tr_protocol r) status
            (if status =s "connected" then Some (db_now d) else tr_last_connected r))
    (db_tunnels d)) d)).

Definition SetResourceLimits (l : ResourceLimits) : M DB unit :=
  exec ["resource_limits"] (λ d,
    let same r := rl_ServerID r =s rl_ServerID l in
    if existsb same (db_limits d) || fk_check d (server_exists d (rl_ServerID l))
    then Ok (set_limits (upsert same l (db_limits d)) d)
    else Err fk_failed).

Definition GetResourceLimits (serverID : string) : M DB ResourceLimits :=
  query ["resource_limits"] (λ d,
    first_row (select_where (λ r, rl_ServerID r =s serverID) (db_limits d))).
