(* ===== verification/Migrations.v ===== *)
(** * Schema migrations ([store.Open], [store.Migrate*], [migrations/*.sql])

    A migration file is a list of SQL statements; [run_script] is
    [d.sql.Exec(string(data))], one call whose statements take effect in order
    up to the first that fails.  Reading a file is the parameter [ReadFile]
    of the section. *)

From S2P Require Import Prelude GoLib Store.

Inductive sql_stmt :=
| CreateTableIfNotExists (name : string) (columns : list string)
| CreateIndexIfNotExists (name on_table : string)
| AlterTableAddColumn (table column : string).

Definition sql_script : Type := list sql_stmt.

(** ** The files under [migrations/] *)

Definition init_0001 : sql_script := [
  CreateTableIfNotExists "nodes"
    ["id"; "name"; "panel_url"; "cert_path"; "key_path"; "paired_at"; "created_at"];
  CreateTableIfNotExists "eggs" ["id"; "name"; "dockerfile_path"; "metadata_path"; "created_at"];
  CreateTableIfNotExists "servers"
    ["id"; "name"; "egg_id"; "container_id"; "status"; "startup_command"; "environment";
     "created_at"; "updated_at"];
  CreateTableIfNotExists "resource_limits"
    ["server_id"; "cpu_limit"; "memory_limit_mb"; "disk_limit_mb"; "pid_limit";
     "bandwidth_kbps"];
  CreateIndexIfNotExists "idx_servers_status" "servers"].

Definition networking_0002 : sql_script := [
  CreateTableIfNotExists "tunnels"
    ["id"; "server_id"; "local_port"; "remote_port"; "protocol"; "status"; "last_connected";
     "created_at"];
  CreateTableIfNotExists "network_groups" ["id"; "name"; "created_at"];
  CreateTableIfNotExists "network_group_members" ["group_id"; "node_id"; "private_ip"];
  CreateIndexIfNotExists "idx_tunnels_server_id" "tunnels";
  CreateIndexIfNotExists "idx_tunnels_status" "tunnels"].

Definition observability_0003 : sql_script := [
  CreateTableIfNotExists "events"
    ["id"; "type"; "server_id"; "severity"; "message"; "metadata"; "created_at"];
  CreateIndexIfNotExists "idx_events_created_at" "events";
  CreateIndexIfNotExists "idx_events_server_id" "events";
  AlterTableAddColumn "servers" "restart_count";
  AlterTableAddColumn "servers" "last_crash_at"].

Definition filesystem_0004 : sql_script := [
  CreateTableIfNotExists "backups"
    ["id"; "server_id"; "file_path"; "size_bytes"; "checksum_sha256"; "status"; "created_at";
     "completed_at"];
  CreateTableIfNotExists "sftp_credentials"
    ["id"; "server_id"; "username"; "public_key"; "password_hash"; "created_at"];
  CreateIndexIfNotExists "idx_backups_server_id" "backups"].

Definition plugins_0005 : sql_script := [
  CreateTableIfNotExists "plugins"
    ["id"; "name"; "version"; "binary_path"; "config_path"; "sha256"; "enabled";
     "subscribed_events"; "allowed_routes"; "installed_at"];
  CreateIndexIfNotExists "idx_plugins_enabled" "plugins"].

(** ** Executing SQL *)

(** The tables of the database with their columns. *)
Abbreviation schema := (list (string * list string)).

Definition columns_of (t : string) (sc : schema) : option (list string) :=
  match filter (λ tc, fst tc = t) sc with (_, cols) :: _ => Some cols | [] => None end.

Definition add_column (t c : string) (sc : schema) : schema :=
  (λ tc, if fst tc =s t then (fst tc, snd tc ++ [c]) else tc) <$> sc.

Definition run_stmt (st : sql_stmt) (sc : schema) : res schema :=
  match st with
  | CreateTableIfNotExists t cols =>
      match columns_of t sc with Some _ => Ok sc | None => Ok (sc ++ [(t, cols)]) end
  | CreateIndexIfNotExists _ t =>
      match columns_of t sc with Some _ => Ok sc | None => Err (Errorf "no such table: %s" [t]) end
  | AlterTableAddColumn t c =>
      match columns_of t sc with
      | None => Err (Errorf "no such table: %s" [t])
      | Some cols => if existsb (String.eqb c) cols
                     then Err (Errorf "duplicate column name: %s" [c])
                     else Ok (add_column t c sc)
      end
  end.

(** The statements take effect up to the first failing one. *)
Fixpoint run_stmts (ss : sql_script) (sc : schema) : option error * schema :=
  match ss with
  | [] => (None, sc)
  | st :: ss =>
      match run_stmt st sc with
      | Err e => (Some e, sc)
      | Ok sc => run_stmts ss sc
      end
  end.

Definition run_script (ss : sql_script) : M DB unit := λ d,
  let '(flt, fs) := next_fault (db_faults d) in
  let d := set_faults fs d in
  match flt with
  | Some e => (Err e, d)
  | None =>
      let '(err, sc) := run_stmts ss (db_schema d) in
      (match err with Some e => Err e | None => Ok tt end, set_schema sc d)
  end.

(** [SELECT .. FROM pragma_table_info(t) WHERE name=c] *)
Definition has_column (t c : string) : M DB bool :=
  query [] (λ d, Ok (match columns_of t (db_schema d) with
                     | Some cols => existsb (String.eqb c) cols | None => false end)).

(** [sqlText[:strings.Index(sqlText, "ALTER TABLE servers")]] *)
Fixpoint before_alter_servers (ss : sql_script) : sql_script :=
  match ss with
  | [] => []
  | AlterTableAddColumn t c :: ss' => if t =s "servers" then [] else
                                      AlterTableAddColumn t c :: before_alter_servers ss'
  | st :: ss' => st :: before_alter_servers ss'
  end.

(** [store.Open]: the PRAGMA is one statement on one pooled connection. *)
Definition Open : M DB unit :=
  wrap "pragma: %w" [] (exec [] (λ d,
    Ok (mkDB (db_nodes d) (db_eggs d) (db_servers d) (db_limits d) (db_tunnels d)
          (db_groups d) (db_members d) (db_events d) (db_backups d) (db_sftp d)
          (db_plugins d) (db_schema d) true (db_now d) (db_faults d)))).

Definition migrationCandidates : list string :=
  ["migrations/0001_init.sql"; "../../migrations/0001_init.sql"].
Definition networkingMigrationCandidates : list string :=
  ["migrations/0002_networking.sql"; "../../migrations/0002_networking.sql"].
Definition observabilityMigrationCandidates : list string :=
  ["migrations/0003_observability.sql"; "../../migrations/0003_observability.sql"].
Definition filesystemMigrationCandidates : list string :=
  ["migrations/0004_filesystem_backup.sql"; "../../migrations/0004_filesystem_backup.sql"].
Definition pluginsMigrationCandidates : list string :=
  ["migrations/0005_plugins.sql"; "../../migrations/0005_plugins.sql"].

(** The rows that cannot be executed safely. *)
Definition legacy_plugin (p : Plugin) : bool :=
  pl_Enabled p && ((pl_SHA256 p =s "") || (pl_BinaryPath p =s "")).

Definition default_routes (p : Plugin) : Plugin :=
  mkPlugin (pl_ID p) (pl_Name p) (pl_Version p) (pl_BinaryPath p) (pl_ConfigPath p)
    (pl_SHA256 p) (pl_Enabled p) (pl_SubscribedEvents p) "[]" (pl_InstalledAt p).

Section Migrate.
(** [os.ReadFile] of a migration file. *)
Context (ReadFile : string → res sql_script).

(** The candidate loop: the first readable file, or the last error. *)
Fixpoint read_first (err : error) (candidates : list string) : res sql_script :=
  match candidates with
  | [] => Err err
  | p :: ps =>
      match ReadFile p with Ok data => Ok data | Err e => read_first e ps end
  end.
Definition no_candidate : error := EExt "no migration candidate".

(** [for name, definition := range columns]: Go visits the map in any order;
    [columns] lists its keys in the order of this run. *)
Definition add_plugin_column (name : string) : M DB unit :=
  found ← has_column "plugins" name;
  if found : bool then mret tt
  else wrap "add plugin column %s: %w" [name]
         (run_script [AlterTableAddColumn "plugins" name]).

Definition MigratePlugins (columns : list string) : M DB unit :=
  data ← wrap "baca migrasi plugin: %w" []
           (lift_res (read_first no_candidate pluginsMigrationCandidates));
  wrap "aplikasi migrasi plugin: %w" [] (run_script data);;
  for_each add_plugin_column columns;;
  exec ["plugins"] (λ d, Ok (set_plugins
    (update_where (λ p, pl_AllowedRoutes p =s "") default_routes (db_plugins d)) d));;
  exec ["plugins"] (λ d, Ok (set_plugins
    (update_where legacy_plugin (with_enabled false) (db_plugins d)) d)).

Definition MigrateFilesystem : M DB unit :=
  data ← wrap "baca migrasi filesystem: %w" []
           (lift_res (read_first no_candidate filesystemMigrationCandidates));
  wrap "aplikasi migrasi filesystem: %w" [] (run_script data).

Definition MigrateNetworking : M DB unit :=
  data ← wrap "baca migrasi networking: %w" []
           (lift_res (read_first no_candidate networkingMigrationCandidates));
  wrap "aplikasi migrasi networking: %w" [] (run_script data).

Definition add_server_column (name : string) : M DB unit :=
  exists_ ← has_column "servers" name;
  if exists_ : bool then mret tt else run_script [AlterTableAddColumn "servers" name].

Definition MigrateObservability : M DB unit :=
  data ← wrap "baca migrasi observability: %w" []
           (lift_res (read_first no_candidate observabilityMigrationCandidates));
  wrap "aplikasi migrasi observability: %w" [] (run_script (before_alter_servers data));;
  for_each add_server_column ["restart_count"; "last_crash_at"].

Definition Migrate (columns : list string) : M DB unit :=
  data ← wrap "read migration (run from repository root): %w" []
           (lift_res (read_first no_candidate migrationCandidates));
  wrap "aplikasi migrasi: %w" [] (run_script data);;
  MigrateObservability;;
  MigrateFilesystem;;
  MigratePlugins columns.
End Migrate.

(** The repository's files, read from its root. *)
Definition repo_files (p : string) : res sql_script :=
  if p =s "migrations/0001_init.sql" then Ok init_0001
  else if p =s "migrations/0002_networking.sql" then Ok networking_0002
  else if p =s "migrations/0003_observability.sql" then Ok observability_0003
  else if p =s "migrations/0004_filesystem_backup.sql" then Ok filesystem_0004
  else if p =s "migrations/0005_plugins.sql" then Ok plugins_0005
  else Err (ESentinel os_ErrNotExist).

Definition empty_db : DB :=
  mkDB [] [] [] [] [] [] [] [] [] [] [] [] false 0 [].

Definition all_tables : list string :=
  ["nodes"; "eggs"; "servers"; "resource_limits"; "tunnels"; "network_groups";
   "network_group_members"; "events"; "backups"; "sftp_credentials"; "plugins"].

(** [Open], then [Migrate] and [MigrateNetworking] on a new file. *)
Definition fresh_db : DB :=
  Eval vm_compute in snd ((Open;; Migrate repo_files ["config_path"; "sha256"; "allowed_routes"];;
        MigrateNetworking repo_files) empty_db).

Example fresh_db_ok :
  db_fk fresh_db = true ∧ forallb (has_table fresh_db) all_tables = true.
Proof. by vm_compute. Qed.
