(* ===== verification/StoreFacts.v ===== *)
(** * Facts about the store's statements

    Lemmas on the table operations of [Store] shared by the components, and the
    integrity invariant [wf] with its preservation by every operation. *)

From S2P Require Import Prelude GoLib Store Migrations.

(** ** Definitions *)

(** The integrity constraints of the schema, with foreign keys enforced. *)
Record wf (d : DB) : Prop := mk_wf {
  wf_fk : db_fk d = true;
  wf_node_pk : NoDup ((nd_ID ∘ nr_node) <$> db_nodes d);
  wf_egg_pk : NoDup ((eg_ID ∘ er_egg) <$> db_eggs d);
  wf_server_pk : NoDup (sr_id <$> db_servers d);
  wf_limits_pk : NoDup (rl_ServerID <$> db_limits d);
  wf_tunnel_pk : NoDup (tr_id <$> db_tunnels d);
  wf_tunnel_mapping :
    NoDup ((λ r, (tr_server_id r, tr_local_port r, tr_protocol r)) <$> db_tunnels d);
  wf_tunnel_remote : NoDup (omap tr_remote_port (db_tunnels d));
  wf_group_pk : NoDup (gr_id <$> db_groups d);
  wf_member_pk : NoDup ((λ r, (nm_GroupID r, nm_NodeID r)) <$> db_members d);
  wf_member_ip : NoDup ((λ r, (nm_GroupID r, nm_PrivateIP r)) <$> db_members d);
  wf_event_pk : NoDup (vr_id <$> db_events d);
  wf_backup_pk : NoDup (br_id <$> db_backups d);
  wf_sftp_pk : NoDup (sc_ID <$> db_sftp d);
  wf_plugin_pk : NoDup (pl_ID <$> db_plugins d);
  wf_server_egg : sr_egg_id <$> db_servers d ⊆ (eg_ID ∘ er_egg) <$> db_eggs d;
  wf_limits_server : rl_ServerID <$> db_limits d ⊆ sr_id <$> db_servers d;
  wf_tunnel_server : tr_server_id <$> db_tunnels d ⊆ sr_id <$> db_servers d;
  wf_event_server : omap vr_server_id (db_events d) ⊆ sr_id <$> db_servers d;
  wf_backup_server : br_server_id <$> db_backups d ⊆ sr_id <$> db_servers d;
  wf_sftp_server : sc_ServerID <$> db_sftp d ⊆ sr_id <$> db_servers d;
  wf_member_group : nm_GroupID <$> db_members d ⊆ gr_id <$> db_groups d;
  wf_member_node : nm_NodeID <$> db_members d ⊆ (nd_ID ∘ nr_node) <$> db_nodes d
}.

(** Every operation of the store that writes. *)
Inductive StoreOp :=
| OpIncrementRestartCount (id : string) | OpResetRestartCount (id : string)
| OpSetLastCrash (id : string) (t : Time) | OpSavePlugin (p : Plugin)
| OpSetPluginEnabled (id : string) (b : bool) | OpCreateEgg (e : Egg) | OpEnsureEgg (e : Egg)
| OpCreateServer (s : Server) | OpUpdateServerStatus (id st : string)
| OpSetServerContainer (id c : string) | OpDeleteServer (id : string) | OpSaveNode (n : Node)
| OpSaveTunnel (t : Tunnel) | OpSaveNetworkGroup (g : NetworkGroup)
| OpReplaceMembers (g : string) (ms : list NetworkGroupMember)
| OpDeleteMember (g n : string) | OpSaveEvent (e : StoreEvent) | OpPruneEvents (t : Time)
| OpSaveBackup (b : Backup) | OpUpdateBackupStatus (id st sum : string) (size : Z)
| OpDeleteBackup (id : string) | OpSaveSFTPCredential (c : SFTPCredential)
| OpDeleteTunnel (s : string) (port : Z) (proto : string)
| OpUpdateTunnelStatus (id st : string) | OpSetResourceLimits (l : ResourceLimits).

Definition run_op (json_valid : string → bool) (op : StoreOp) : M DB unit :=
  match op with
  | OpIncrementRestartCount id => IncrementRestartCount id
  | OpResetRestartCount id => ResetRestartCount id
  | OpSetLastCrash id t => SetLastCrash id t
  | OpSavePlugin p => SavePlugin json_valid p
  | OpSetPluginEnabled id b => SetPluginEnabled id b
  | OpCreateEgg e => CreateEgg e
  | OpEnsureEgg e => EnsureEgg e
  | OpCreateServer s => CreateServer s
  | OpUpdateServerStatus id st => UpdateServerStatus id st
  | OpSetServerContainer id c => SetServerContainer id c
  | OpDeleteServer id => DeleteServer id
  | OpSaveNode n => SaveNode n
  | OpSaveTunnel t => SaveTunnel t
  | OpSaveNetworkGroup g => SaveNetworkGroup g
  | OpReplaceMembers g ms => ReplaceNetworkGroupMembers g ms
  | OpDeleteMember g n => DeleteNetworkGroupMember g n
  | OpSaveEvent e => SaveEvent json_valid e
  | OpPruneEvents t => PruneEvents t
  | OpSaveBackup b => SaveBackup b
  | OpUpdateBackupStatus id st sum size => UpdateBackupStatus id st sum size
  | OpDeleteBackup id => DeleteBackup id
  | OpSaveSFTPCredential c => SaveSFTPCredential c
  | OpDeleteTunnel s port proto => DeleteTunnelByMapping s port proto
  | OpUpdateTunnelStatus id st => UpdateTunnelStatus id st
  | OpSetResourceLimits l => SetResourceLimits l
  end.

(** ** Table lemmas *)

Section Rows.
Context {R : Type}.
Implicit Types (t : list R) (p : R → bool).

Lemma elem_of_select_where p t r : r ∈ select_where p t ↔ p r = true ∧ r ∈ t.
Proof. unfold select_where. by rewrite list_elem_of_filter. Qed.

Lemma elem_of_delete_where p t r : r ∈ delete_where p t ↔ p r = false ∧ r ∈ t.
Proof. unfold delete_where. by rewrite list_elem_of_filter. Qed.

Lemma existsb_false p t : existsb p t = false ↔ ∀ r, r ∈ t → p r = false.
Proof.
  induction t as [|x t IH]; simpl; [set_solver|].
  rewrite orb_false_iff, IH. set_solver.
Qed.

Lemma existsb_true p t : existsb p t = true ↔ ∃ r, r ∈ t ∧ p r = true.
Proof. rewrite existsb_exists. by setoid_rewrite list_elem_of_In. Qed.

Lemma delete_where_none p t : existsb p t = false → delete_where p t = t.
Proof.
  rewrite existsb_false. induction t as [|x t IH]; intros H; [done|].
  unfold delete_where in *. rewrite filter_cons_True by (apply H; left).
  rewrite IH; [done|]. intros r Hr. apply H. by right.
Qed.
End Rows.

Section Tables.
Context {R K : Type} (key : R → K).
Implicit Types (t : list R) (p : R → bool).

(** A primary key determines its row. *)
Lemma key_unique t r1 r2 : NoDup (key <$> t) → r1 ∈ t → r2 ∈ t → key r1 = key r2 → r1 = r2.
Proof.
  intros Hnd [i Hi]%list_elem_of_lookup [j Hj]%list_elem_of_lookup E.
  assert (i = j) as ->; [|congruence].
  eapply NoDup_lookup; [exact Hnd| |]; rewrite list_lookup_fmap; [by rewrite Hi|].
  by rewrite Hj, E.
Qed.

Lemma fmap_update_where p f t :
  (∀ r, p r = true → key (f r) = key r) → key <$> update_where p f t = key <$> t.
Proof.
  intros Hk. unfold update_where. rewrite <- list_fmap_compose.
  apply list_fmap_ext. intros i r _. simpl. destruct (p r) eqn:E; auto.
Qed.

Lemma omap_update_where (g : R → option K) p f t :
  (∀ r, p r = true → g (f r) = g r) → omap g (update_where p f t) = omap g t.
Proof.
  intros Hk. unfold update_where. induction t as [|r t IH]; csimpl; [done|].
  rewrite IH. destruct (p r) eqn:E; [by rewrite Hk|done].
Qed.

Lemma sublist_delete_where p t : key <$> delete_where p t `sublist_of` key <$> t.
Proof.
  unfold delete_where. induction t as [|r t IH]; [done|].
  rewrite filter_cons. case_decide; csimpl; by constructor.
Qed.

Lemma sublist_omap_delete (g : R → option K) p t :
  omap g (delete_where p t) `sublist_of` omap g t.
Proof.
  unfold delete_where. induction t as [|r t IH]; [done|].
  rewrite filter_cons. case_decide; csimpl; destruct (g r); by repeat constructor.
Qed.

Lemma NoDup_delete_where p t : NoDup (key <$> t) → NoDup (key <$> delete_where p t).
Proof. intros Ht. eapply sublist_NoDup; [exact Ht|apply sublist_delete_where]. Qed.

Lemma NoDup_omap_delete (g : R → option K) p t :
  NoDup (omap g t) → NoDup (omap g (delete_where p t)).
Proof. intros Ht. eapply sublist_NoDup; [exact Ht|apply sublist_omap_delete]. Qed.

Lemma NoDup_snoc t r : key r ∉ key <$> t → NoDup (key <$> t) → NoDup (key <$> t ++ [r]).
Proof.
  intros Hr Ht. rewrite fmap_app. apply NoDup_app. split; [done|]. simpl.
  split; [|apply NoDup_singleton]. set_solver.
Qed.

End Tables.

Lemma existsb_key {R} (key : R → string) id (t : list R) :
  existsb (λ r, key r =s id) t = true ↔ id ∈ key <$> t.
Proof.
  rewrite existsb_true, list_elem_of_fmap. setoid_rewrite String.eqb_eq. naive_solver.
Qed.

Lemma existsb_key_false {R} (key : R → string) id (t : list R) :
  existsb (λ r, key r =s id) t = false ↔ id ∉ key <$> t.
Proof. rewrite <- existsb_key. symmetry. apply not_true_iff_false. Qed.

Lemma fmap_delete_key {R} (key : R → string) id (t : list R) x :
  x ∈ key <$> delete_where (λ r, key r =s id) t ↔ x ≠ id ∧ x ∈ key <$> t.
Proof.
  rewrite !list_elem_of_fmap. setoid_rewrite elem_of_delete_where.
  setoid_rewrite String.eqb_neq. naive_solver.
Qed.

Lemma fmap_upsert {R K} (key : R → K) (same : R → bool) row t :
  (∀ r, same r = true → key r = key row) →
  key <$> upsert same row t = if existsb same t then key <$> t else (key <$> t) ++ [key row].
Proof.
  intros Hs. unfold upsert. destruct (existsb same t).
  - rewrite fmap_update_where; [done|]. intros r Hr. symmetry. by apply Hs.
  - by rewrite fmap_app.
Qed.

Lemma update_where_perm {R} (p : R → bool) f t :
  update_where p f t ≡ₚ (f <$> select_where p t) ++ delete_where p t.
Proof.
  unfold update_where, select_where, delete_where. induction t as [|r t IH]; [done|].
  rewrite !filter_cons. csimpl. rewrite IH. destruct (p r) eqn:E.
  - rewrite decide_True, decide_False by congruence. done.
  - rewrite decide_False, decide_True by congruence. by rewrite Permutation_middle.
Qed.

(** A predicate that pins a unique key selects at most one row. *)
Lemma select_unique {R K} (key : R → K) (k : K) (p : R → bool) t :
  NoDup (key <$> t) → (∀ r, p r = true → key r = k) →
  select_where p t = [] ∨ ∃ r, select_where p t = [r].
Proof.
  intros Ht Hk. assert (NoDup (key <$> select_where p t)) as Hs.
  { unfold select_where. induction t as [|r t IH]; [constructor|].
    apply NoDup_cons in Ht as [Hr Ht]. rewrite filter_cons. case_decide; [|by apply IH].
    csimpl. constructor; [|by apply IH]. intros (r' & E & [_ Hr']%list_elem_of_filter)%list_elem_of_fmap.
    apply Hr, list_elem_of_fmap. eauto. }
  assert (∀ r, r ∈ select_where p t → key r = k) as Hall.
  { intros r [Hr _]%elem_of_select_where. auto. }
  destruct (select_where p t) as [|r [|r' l]]; [by left|by eauto|].
  apply NoDup_cons in Hs as [Hs _]. exfalso. apply Hs. csimpl.
  rewrite (Hall r), <- (Hall r') by set_solver. left.
Qed.

Lemma NoDup_upsert {R} (key : R → string) row t :
  NoDup (key <$> t) → NoDup (key <$> upsert (λ r, key r =s key row) row t).
Proof.
  intros Ht. rewrite (fmap_upsert key) by (intros r; apply String.eqb_eq). case_match; [done|].
  apply NoDup_app. split; [done|]. split; [|apply NoDup_singleton].
  intros x Hx ->%list_elem_of_singleton. revert Hx. by apply existsb_key_false.
Qed.

(** ** Statements *)

Section Exec.
Implicit Types (d : DB).

Lemma keeps_exec (P : DB → Prop) tbls f :
  (∀ d fs, P d → P (set_faults fs d)) →
  (∀ d d', P d → f d = Ok d' → P d') → keeps P (exec tbls f).
Proof.
  intros Hfs Hf d Hd. unfold exec. destruct (next_fault (db_faults d)) as [[e|] fs]; simpl.
  - by apply Hfs.
  - destruct (forallb _ _); simpl; [|by apply Hfs].
    destruct (f _) as [d'|e] eqn:E; simpl; [|by apply Hfs].
    eapply Hf, E. by apply Hfs.
Qed.

Lemma keeps_query {A} (P : DB → Prop) tbls (f : DB → res A) :
  (∀ d fs, P d → P (set_faults fs d)) → keeps P (query tbls f).
Proof.
  intros Hfs d Hd. unfold query. destruct (next_fault (db_faults d)) as [[e|] fs]; simpl.
  - by apply Hfs.
  - by destruct (forallb _ _); simpl; apply Hfs.
Qed.

Lemma set_faults_nil d : db_faults d = [] → set_faults [] d = d.
Proof. destruct d; simpl. by intros ->. Qed.

(** A statement that meets no fault. *)
Lemma exec_no_fault tbls f d :
  db_faults d = [] → forallb (has_table d) tbls = true →
  exec tbls f d = match f d with Ok d' => (Ok tt, d') | Err e => (Err e, d) end.
Proof.
  intros Hf Ht. unfold exec. rewrite Hf. simpl.
  rewrite set_faults_nil by done.
  by rewrite Ht.
Qed.

Lemma query_no_fault {A} tbls (f : DB → res A) d :
  db_faults d = [] → forallb (has_table d) tbls = true → query tbls f d = (f d, d).
Proof.
  intros Hf Ht. unfold query. rewrite Hf. simpl.
  rewrite set_faults_nil by done.
  by rewrite Ht.
Qed.

(** A successful statement ran [f] on the tables it found. *)
Lemma exec_Ok tbls f d d' :
  exec tbls f d = (Ok tt, d') →
  ∃ fs, f (set_faults fs d) = Ok d' ∧ next_fault (db_faults d) = (None, fs) ∧
    forallb (has_table d) tbls = true.
Proof.
  unfold exec. destruct (next_fault (db_faults d)) as [[e|] fs]; [done|].
  destruct (forallb (has_table (set_faults fs d)) tbls) eqn:Ht; [|done]. destruct (f _) as [d''|e] eqn:E; [|done].
  intros [= ->]. eauto.
Qed.

(** A failing one left the tables as they were. *)
Lemma exec_Err tbls f d e d' :
  exec tbls f d = (Err e, d') → d' = set_faults (snd (next_fault (db_faults d))) d.
Proof.
  unfold exec. destruct (next_fault (db_faults d)) as [[e'|] fs]; simpl; [by intros [=]|].
  destruct (forallb _ _); [|by intros [=]]. destruct (f _) as [d''|e']; by intros [=].
Qed.

Lemma query_state {A} tbls (f : DB → res A) d r d' :
  query tbls f d = (r, d') → d' = set_faults (snd (next_fault (db_faults d))) d.
Proof.
  unfold query. destruct (next_fault (db_faults d)) as [[e'|] fs]; simpl; [by intros [=]|].
  destruct (forallb _ _); by intros [=].
Qed.

Lemma query_Ok {A} tbls (f : DB → res A) d a d' :
  query tbls f d = (Ok a, d') → f d' = Ok a.
Proof.
  unfold query. destruct (next_fault (db_faults d)) as [[e'|] fs]; simpl; [by intros [=]|].
  destruct (forallb _ _); by intros [= <- <-].
Qed.
End Exec.

(** ** [wf] is kept by every operation *)

Lemma wf_set_faults d fs : wf d → wf (set_faults fs d).
Proof. by intros []. Qed.
#[export] Hint Resolve wf_set_faults : keeps.

Lemma delete_where_subset {R K} (key : R → K) p (t : list R) l :
  key <$> t ⊆ l → key <$> delete_where p t ⊆ l.
Proof. intros Ht x Hx. apply Ht. eapply elem_of_sublist, sublist_delete_where. exact Hx. Qed.

Lemma omap_delete_subset {R K} (g : R → option K) p (t : list R) l :
  omap g t ⊆ l → omap g (delete_where p t) ⊆ l.
Proof. intros Ht x Hx. apply Ht. eapply elem_of_sublist, sublist_omap_delete. exact Hx. Qed.

Lemma snoc_subset {R K} (key : R → K) t r l :
  key <$> t ⊆ l → key r ∈ l → key <$> t ++ [r] ⊆ l.
Proof. intros Ht Hr. rewrite fmap_app. csimpl. set_solver. Qed.

Lemma subset_snoc {R K} (key : R → K) t r l : l ⊆ key <$> t → l ⊆ key <$> t ++ [r].
Proof. intros Ht. rewrite fmap_app. set_solver. Qed.

(** Close the fields of [wf] that a statement does not touch, or touches with an
    UPDATE or DELETE that keeps them. *)
Ltac wf_columns :=
  match goal with H : wf ?d |- wf _ =>
    destruct H; constructor; simpl;
    rewrite ?fmap_update_where, ?omap_update_where by done;
    eauto using NoDup_delete_where, NoDup_omap_delete, delete_where_subset,
      omap_delete_subset, subset_snoc
  end.

(** An operation that is one statement. *)
Ltac wf_statement :=
  apply keeps_exec; [auto with keeps|]; intros d d' Hwf E; simpl in E;
  repeat case_match; simplify_eq; try done.

Lemma fk_check_true d b : wf d → fk_check d b = true → b = true.
Proof. intros Hwf. unfold fk_check. by rewrite (wf_fk _ Hwf). Qed.

Section KeepsWf.
Context (json_valid : string → bool).

Lemma keeps_IncrementRestartCount id : keeps wf (IncrementRestartCount id).
Proof. wf_statement; wf_columns. Qed.

Lemma keeps_ResetRestartCount id : keeps wf (ResetRestartCount id).
Proof. wf_statement; wf_columns. Qed.

Lemma keeps_SetLastCrash id t : keeps wf (SetLastCrash id t).
Proof. wf_statement; wf_columns. Qed.

Lemma keeps_SetPluginEnabled id b : keeps wf (SetPluginEnabled id b).
Proof. wf_statement; wf_columns. Qed.

Lemma keeps_UpdateServerStatus id st : keeps wf (UpdateServerStatus id st).
Proof. wf_statement; wf_columns. Qed.

Lemma keeps_SetServerContainer id c : keeps wf (SetServerContainer id c).
Proof. wf_statement; wf_columns. Qed.

Lemma keeps_UpdateTunnelStatus id st : keeps wf (UpdateTunnelStatus id st).
Proof. wf_statement; wf_columns. Qed.

Lemma keeps_UpdateBackupStatus id st sum size : keeps wf (UpdateBackupStatus id st sum size).
Proof. wf_statement; wf_columns. Qed.

Lemma keeps_PruneEvents t : keeps wf (PruneEvents t).
Proof. wf_statement; wf_columns. Qed.

Lemma keeps_DeleteBackup id : keeps wf (DeleteBackup id).
Proof. wf_statement; wf_columns. Qed.

Lemma keeps_DeleteTunnel s p pr : keeps wf (DeleteTunnelByMapping s p pr).
Proof. wf_statement; wf_columns. Qed.

Lemma keeps_DeleteMember g n : keeps wf (DeleteNetworkGroupMember g n).
Proof. wf_statement; wf_columns. Qed.

Lemma keeps_CreateEgg e : keeps wf (CreateEgg e).
Proof.
  wf_statement; wf_columns. apply NoDup_snoc; [|done].
  by apply (existsb_key_false (eg_ID ∘ er_egg)).
Qed.

Lemma keeps_EnsureEgg e : keeps wf (EnsureEgg e).
Proof.
  wf_statement; wf_columns. apply NoDup_snoc; [|done].
  by apply (existsb_key_false (eg_ID ∘ er_egg)).
Qed.

Lemma keeps_CreateServer s : keeps wf (CreateServer s).
Proof.
  wf_statement. apply fk_check_true, (existsb_key (eg_ID ∘ er_egg)) in H0; [|done].
  wf_columns.
  - apply NoDup_snoc; [|done]. by apply existsb_key_false.
  - by apply snoc_subset.
Qed.

Lemma keeps_SaveBackup b : keeps wf (SaveBackup b).
Proof.
  wf_statement. apply fk_check_true, existsb_key in H0; [|done]. wf_columns.
  - apply NoDup_snoc; [|done]. by apply existsb_key_false.
  - by apply snoc_subset.
Qed.

Lemma keeps_SaveSFTPCredential c : keeps wf (SaveSFTPCredential c).
Proof.
  wf_statement. apply fk_check_true, existsb_key in H0; [|done]. wf_columns.
  - apply NoDup_snoc; [|done]. by apply existsb_key_false.
  - by apply snoc_subset.
Qed.

Lemma keeps_SaveNetworkGroup g : keeps wf (SaveNetworkGroup g).
Proof.
  wf_statement; wf_columns. apply NoDup_snoc; [|done]. by apply existsb_key_false.
Qed.

Lemma keeps_SavePlugin p : keeps wf (SavePlugin json_valid p).
Proof.
  unfold SavePlugin.
  repeat first [apply keeps_bind; [|intros []] | apply keeps_fail_if
               | apply keeps_query; auto with keeps].
  all: apply keeps_exec; [auto with keeps|]; intros d d' Hwf [= <-]; wf_columns.
  all: by apply (NoDup_upsert pl_ID (mkPlugin _ _ _ _ _ _ _ _ _ _)).
Qed.

Lemma keeps_SetResourceLimits l : keeps wf (SetResourceLimits l).
Proof.
  wf_statement. wf_columns; [by apply NoDup_upsert|].
  rewrite (fmap_upsert rl_ServerID) by (simpl; intros r; apply String.eqb_eq).
  case_match; [done|]. apply orb_true_iff in H as [H|H]; [congruence|].
  unfold fk_check in H. rewrite wf_fk0 in H. apply existsb_key in H. set_solver.
Qed.

Lemma keeps_SaveEvent e : keeps wf (SaveEvent json_valid e).
Proof.
  unfold SaveEvent. apply keeps_bind; [apply keeps_fail_if|intros _].
  apply keeps_bind; [apply keeps_query; auto with keeps|intros v].
  apply keeps_bind; [apply keeps_fail_if|intros _].
  wf_statement; wf_columns; try (by apply NoDup_snoc; [apply existsb_key_false|]).
  all: rewrite omap_app; simpl; rewrite ?app_nil_r; try done.
  all: unfold fk_check in H0; rewrite wf_fk0 in H0; apply existsb_key in H0; set_solver.
Qed.

Lemma keeps_insert_member m : keeps wf (insert_member m).
Proof.
  wf_statement. apply fk_check_true, andb_true_iff in H0 as [Hg Hn]; [|done].
  apply existsb_key in Hg. apply (existsb_key (nd_ID ∘ nr_node)) in Hn.
  rewrite existsb_false in H. wf_columns; try by apply snoc_subset.
  all: apply NoDup_snoc; [|done]; rewrite list_elem_of_fmap; intros (r & [= E1 E2] & Hr).
  all: specialize (H r Hr); rewrite E1, E2, !String.eqb_refl in H.
  all: by rewrite ?orb_true_r in H.
Qed.

Lemma keeps_replace_members_tx g ms : keeps wf (replace_members_tx g ms).
Proof.
  apply keeps_bind; [wf_statement; wf_columns|].
  intros _. apply keeps_for_each. intros. apply keeps_insert_member.
Qed.

Lemma keeps_ReplaceMembers g ms : keeps wf (ReplaceNetworkGroupMembers g ms).
Proof.
  assert (keeps wf (query [] (λ _ : DB, Ok tt))) as Hq by (apply keeps_query; auto with keeps).
  intros d Hwf. unfold ReplaceNetworkGroupMembers, mbind, M_bind.
  specialize (Hq d Hwf) as Hd0.
  destruct (query [] (λ _ : DB, Ok tt) d) as [[[]|e] d0]; simpl in *; [|done].
  unfold try. pose proof (keeps_replace_members_tx g ms d0 Hd0) as Hd1.
  destruct (replace_members_tx g ms d0) as [[[]|e] d1]; simpl in *; [|by apply wf_set_faults].
  specialize (Hq d1 Hd1) as Hd2.
  destruct (query [] (λ _ : DB, Ok tt) d1) as [[[]|e] d2]; simpl in *; [done|].
  by apply wf_set_faults.
Qed.

Lemma keeps_SaveNode n : keeps wf (SaveNode n).
Proof.
  wf_statement; rename H into Hn.
  - rewrite (wf_fk _ Hwf) in H0. destruct Hwf; constructor; simpl; eauto.
    + apply (NoDup_snoc (nd_ID ∘ nr_node)); [|by apply NoDup_delete_where]. simpl.
      by intros [? _]%(fmap_delete_key (nd_ID ∘ nr_node)).
    + by apply NoDup_delete_where.
    + by apply NoDup_delete_where.
    + by apply delete_where_subset.
    + apply (subset_snoc (nd_ID ∘ nr_node)). intros x (m & -> & Hm)%list_elem_of_fmap.
      apply elem_of_delete_where in Hm as [Hne Hm]. apply (fmap_delete_key (nd_ID ∘ nr_node)).
      split; [by apply String.eqb_neq|]. apply wf_member_node0, list_elem_of_fmap. eauto.
  - pose proof (wf_fk _ Hwf). congruence.
  - wf_columns. apply (NoDup_snoc (nd_ID ∘ nr_node)); [|done].
    by apply (existsb_key_false (nd_ID ∘ nr_node)).
Qed.

Lemma keeps_DeleteServer id : keeps wf (DeleteServer id).
Proof.
  assert (∀ l (t : list server_row), l ⊆ sr_id <$> t → id ∉ l →
    l ⊆ sr_id <$> delete_where (λ r, sr_id r =s id) t) as Hsub.
  { intros l t Hl Hid x Hx. apply fmap_delete_key. set_solver. }
  assert (∀ R (key : R → string) t l, key <$> t ⊆ sr_id <$> l →
    key <$> delete_where (λ r, key r =s id) t ⊆ sr_id <$> delete_where (λ r, sr_id r =s id) l)
    as Hchild.
  { intros R key t l Ht. apply Hsub; [by apply delete_where_subset|].
    by intros [? _]%fmap_delete_key. }
  wf_statement; [|pose proof (wf_fk _ Hwf); congruence]. wf_columns.
  apply Hsub; [by apply omap_delete_subset|]. rewrite list_elem_of_omap.
  intros (r & [Hr _]%elem_of_delete_where & E). by rewrite bool_decide_eq_false in Hr.
Qed.

Lemma same_mapping_iff s p pr r :
  same_mapping s p pr r = true ↔
  (tr_server_id r, tr_local_port r, tr_protocol r) = (s, p, pr).
Proof.
  unfold same_mapping. rewrite !andb_true_iff, !String.eqb_eq, Z.eqb_eq. naive_solver.
Qed.

Lemma tunnel_clash_false id remote rows :
  tunnel_clash id remote rows = false →
    (id ∉ (tr_id <$> rows)) ∧ (∀ p, remote = Some p → p ∉ omap tr_remote_port rows).
Proof.
  unfold tunnel_clash. rewrite existsb_false. intros H. split.
  - intros (r & -> & Hr)%list_elem_of_fmap. apply H in Hr. by rewrite String.eqb_refl in Hr.
  - intros p -> (r & Hr & E)%list_elem_of_omap. apply H in Hr.
    apply orb_false_iff in Hr as [_ Hr%bool_decide_eq_false]. naive_solver.
Qed.

Lemma keeps_SaveTunnel t : keeps wf (SaveTunnel t).
Proof.
  wf_statement; apply tunnel_clash_false in H as [Hid Hport].
  - wf_columns.
    + rewrite update_where_perm, fmap_app. rewrite <- list_fmap_compose.
      destruct (select_unique _ (tn_ServerID t, tn_LocalPort t, tn_Protocol t)
        (same_mapping (tn_ServerID t) (tn_LocalPort t) (tn_Protocol t)) _ wf_tunnel_mapping0)
        as [->|[r ->]]; [intros r; apply same_mapping_iff| |]; csimpl.
      * by apply NoDup_delete_where.
      * constructor; [done|]. by apply NoDup_delete_where.
    + rewrite update_where_perm, omap_app.
      destruct (select_unique _ (tn_ServerID t, tn_LocalPort t, tn_Protocol t)
        (same_mapping (tn_ServerID t) (tn_LocalPort t) (tn_Protocol t)) _ wf_tunnel_mapping0)
        as [->|[r ->]]; [intros r; apply same_mapping_iff| |]; csimpl.
      * by apply NoDup_omap_delete.
      * destruct (nullableInt (tn_RemotePort t)) as [p|]; simpl; [constructor; [by apply Hport|]|];
          by apply NoDup_omap_delete.
  - apply fk_check_true, existsb_key in H1; [|done].
    rewrite delete_where_none in Hid, Hport by done. rewrite existsb_false in H0. wf_columns.
    + by apply NoDup_snoc.
    + apply NoDup_snoc; [|done]. intros (r & E & Hr)%list_elem_of_fmap. simpl in E.
      apply H0 in Hr. apply not_true_iff_false in Hr. apply Hr. by apply same_mapping_iff.
    + rewrite omap_app. csimpl. destruct (nullableInt (tn_RemotePort t)) as [p|]; simpl.
      * apply NoDup_app. split; [done|]. split; [|apply NoDup_singleton].
        specialize (Hport p eq_refl). set_solver.
      * by rewrite app_nil_r.
    + by apply snoc_subset.
Qed.

Lemma keeps_run_op op : keeps wf (run_op json_valid op).
Proof.
  destruct op; simpl;
    eauto using keeps_IncrementRestartCount, keeps_ResetRestartCount, keeps_SetLastCrash,
      keeps_SavePlugin, keeps_SetPluginEnabled, keeps_CreateEgg, keeps_EnsureEgg,
      keeps_CreateServer, keeps_UpdateServerStatus, keeps_SetServerContainer,
      keeps_DeleteServer, keeps_SaveNode, keeps_SaveTunnel, keeps_SaveNetworkGroup,
      keeps_ReplaceMembers, keeps_DeleteMember, keeps_SaveEvent, keeps_PruneEvents,
      keeps_SaveBackup, keeps_UpdateBackupStatus, keeps_DeleteBackup,
      keeps_SaveSFTPCredential, keeps_DeleteTunnel, keeps_UpdateTunnelStatus,
      keeps_SetResourceLimits.
Qed.
End KeepsWf.

#[export] Hint Resolve keeps_IncrementRestartCount keeps_ResetRestartCount keeps_SetLastCrash
  keeps_SetPluginEnabled keeps_EnsureEgg keeps_CreateServer keeps_UpdateServerStatus
  keeps_SetServerContainer keeps_DeleteServer keeps_SaveTunnel keeps_SaveEvent
  keeps_DeleteTunnel keeps_UpdateTunnelStatus keeps_SaveBackup keeps_UpdateBackupStatus
  keeps_DeleteBackup keeps_SaveNode : keeps.
