(* ===== verification/StoreSpec.v ===== *)
(** * What the store promises

    Integrity under every operation, atomic replacement of a group's members,
    the plugin round trip, the event log's listing, cascade of a deletion, and a deletion on a
    connection without foreign keys. *)

From S2P Require Import Prelude GoLib Store Migrations StoreFacts.

(** ** Definitions *)

(** A client that performs operations one after the other and carries on after
    a failed one. *)
Definition run_ops (json_valid : string → bool) (ops : list StoreOp) : M DB unit :=
  for_each (λ op, ignore (run_op json_valid op)) ops.

(** The row [SavePlugin] writes. *)
Definition stored_plugin (p : Plugin) : Plugin :=
  mkPlugin (pl_ID p) (pl_Name p) (pl_Version p) (pl_BinaryPath p) (pl_ConfigPath p)
    (pl_SHA256 p) (pl_Enabled p)
    (if pl_SubscribedEvents p =s "" then "[]" else pl_SubscribedEvents p)
    (if pl_AllowedRoutes p =s "" then "[]" else pl_AllowedRoutes p) (pl_InstalledAt p).

(** The rows [ListEvents] scans. *)
Definition event_window (f : EventFilter) (d : DB) : list event_row :=
  take (event_limit f)
    (isort (λ a b, vr_created_at b <=? vr_created_at a)
       (select_where (event_matches f) (db_events d))).

(** Every table of [d] but the members of group [g]. *)
Definition same_but_members (g : string) (d d' : DB) : Prop :=
  d' = set_faults (db_faults d') (set_members (db_members d') d) ∧
  (∀ m, nm_GroupID m ≠ g → m ∈ db_members d' ↔ m ∈ db_members d).

(** No row of a child table refers to server [id]. *)
Definition server_gone (id : string) (d : DB) : Prop :=
  (id ∉ (sr_id <$> db_servers d)) ∧ (id ∉ (rl_ServerID <$> db_limits d)) ∧
  (id ∉ (tr_server_id <$> db_tunnels d)) ∧ (id ∉ omap vr_server_id (db_events d)) ∧
  (id ∉ (br_server_id <$> db_backups d)) ∧ (id ∉ (sc_ServerID <$> db_sftp d)).

(** ** Lemmas *)

Lemma fresh_db_wf fs : wf (set_faults fs fresh_db).
Proof. constructor; vm_compute; try constructor; try done; intros x Hx; by apply elem_of_nil in Hx. Qed.

(** The row of an event that has a server. *)
Definition event_row_of (e : StoreEvent) : event_row :=
  mkEventRow (ev_ID e) (ev_Type e) (Some (ev_ServerID e)) (ev_Severity e) (ev_Message e)
    (ev_Metadata e) (ev_CreatedAt e).

Lemma scan_events_Ok rs evs : scan_events rs = Ok evs → rs = event_row_of <$> evs.
Proof.
  revert evs. induction rs as [|r rs IH]; simpl; intros evs; [by intros [= <-]|].
  unfold scan_event. destruct r as [i ty [sid|] sev msg meta at_]; simpl; [|done].
  destruct (scan_events rs) as [evs'|e]; [|done]. intros [= <-]. csimpl. by rewrite <- (IH evs').
Qed.

Lemma scan_events_null rs r :
  r ∈ rs → vr_server_id r = None → ∃ e, scan_events rs = Err e.
Proof.
  induction rs as [|r' rs IH]; intros Hr E; [by apply elem_of_nil in Hr|]. simpl.
  unfold scan_event. apply elem_of_cons in Hr as [->|Hr]; [rewrite E; eauto|].
  destruct (vr_server_id r'); [|eauto]. destruct (IH Hr E) as [e ->]. eauto.
Qed.

Lemma scan_events_Err rs e :
  scan_events rs = Err e → ∃ r, r ∈ rs ∧ vr_server_id r = None.
Proof.
  revert e. induction rs as [|r rs IH]; intros e H; [discriminate H|].
  simpl in H. unfold scan_event in H. destruct (vr_server_id r) eqn:Er.
  - destruct (scan_events rs) as [evs|e'] eqn:Es; [discriminate H|].
    destruct (IH e' eq_refl) as (r' & Hr & E). exists r'. split; [by right|done].
  - exists r. split; [left|done].
Qed.

Lemma first_row_upsert {R} (key : R → string) (row : R) t :
  first_row (select_where (λ r, key r =s key row) (upsert (λ r, key r =s key row) row t)) = Ok row.
Proof.
  unfold upsert, select_where, update_where. destruct (existsb _ t) eqn:E.
  - induction t as [|r t IH]; [done|]. csimpl. simpl in E. rewrite filter_cons.
    destruct (key r =s key row) eqn:Er.
    + by rewrite decide_True by (by rewrite String.eqb_refl).
    + rewrite decide_False by congruence. by apply IH.
  - induction t as [|r t IH]; simpl in *.
    + rewrite filter_cons, decide_True by (by rewrite String.eqb_refl). done.
    + apply orb_false_iff in E as [E1 E2]. rewrite filter_cons, decide_False by congruence.
      by apply IH.
Qed.

Lemma select_upsert_other {R} (key : R → string) (row : R) t id :
  id ≠ key row →
  select_where (λ r, key r =s id) (upsert (λ r, key r =s key row) row t) =
  select_where (λ r, key r =s id) t.
Proof.
  intros Hid. assert ((key row =s id) = false) as Hrow by (apply String.eqb_neq; congruence).
  unfold upsert, select_where, update_where. destruct (existsb _ t) eqn:E; clear E.
  - induction t as [|r t IH]; [done|]. csimpl. rewrite !filter_cons, IH.
    destruct (key r =s key row) eqn:Er; [|done].
    apply String.eqb_eq in Er. rewrite Er, !decide_False by congruence. done.
  - rewrite filter_app. cbn. rewrite decide_False by congruence. by rewrite app_nil_r.
Qed.

Lemma for_each_insert_members g ms d d' :
  for_each (λ m, insert_member (mkMember g (nm_NodeID m) (nm_PrivateIP m))) ms d = (Ok tt, d') →
  ∃ fs, d' = set_faults fs (set_members
    (db_members d ++ ((λ m, mkMember g (nm_NodeID m) (nm_PrivateIP m)) <$> ms)) d).
Proof.
  revert d. induction ms as [|m ms IH]; intros d; simpl.
  - intros [= <-]. exists (db_faults d). rewrite app_nil_r. by destruct d.
  - unfold mbind at 1, M_bind at 1. destruct (insert_member _ d) as [[[]|e] d1] eqn:E; [|done].
    apply exec_Ok in E as (fs & E & _). simpl in E. repeat case_match; simplify_eq.
    intros (fs' & ->)%IH. exists fs'. simpl. by rewrite <- app_assoc.
Qed.

Lemma select_delete {R} (p : R → bool) t : select_where p (delete_where p t) = [].
Proof.
  unfold select_where, delete_where. induction t as [|r t IH]; [done|].
  rewrite filter_cons. case_decide; [rewrite filter_cons, decide_False by congruence|]; done.
Qed.

Lemma select_app {R} (p : R → bool) t u :
  select_where p (t ++ u) = select_where p t ++ select_where p u.
Proof. apply filter_app. Qed.

Lemma select_all {R} (p : R → bool) t : (∀ r, r ∈ t → p r = true) → select_where p t = t.
Proof.
  unfold select_where. induction t as [|r t IH]; intros Hp; [done|].
  rewrite filter_cons, decide_True by (apply Hp; left). f_equal. apply IH. intros. apply Hp. by right.
Qed.

(** What a successful [SaveEvent] appends. *)
Lemma SaveEvent_Ok jv e d d' :
  SaveEvent jv e d = (Ok tt, d') →
  ∃ rows r, db_events d' = rows ++ [r] ∧ vr_server_id r = nullIfEmpty (ev_ServerID e) ∧
    has_table d' "events" = true.
Proof.
  unfold SaveEvent, mbind, M_bind. intros E.
  destruct (fail_if _ _ d) as [[[]|?] d0]; [|done].
  destruct (query [] _ d0) as [[[]|?] d1]; simpl in E; try done.
  apply exec_Ok in E as (fs & E & _ & Ht). simpl in E, Ht. rewrite andb_true_r in Ht.
  destruct (existsb _ _); [done|]. destruct (fk_check _ _); [|done]. injection E as <-.
  eexists _, _. split; [reflexivity|]. split; [done|]. exact Ht.
Qed.

(** ** Properties *)

(** C1. The store's tables satisfy the schema's integrity constraints (primary
    keys, UNIQUE columns, foreign keys) after any sequence of write operations
    on a freshly migrated database, whatever fails on the way. *)
Theorem store_integrity (json_valid : string → bool) (fs : faults) (ops : list StoreOp) :
  wf (snd (run_ops json_valid ops (set_faults fs fresh_db))).
Proof.
  apply (keeps_for_each wf); [|apply fresh_db_wf].
  intros op. apply keeps_ignore, keeps_run_op.
Qed.

(** C2. [ReplaceNetworkGroupMembers] is atomic: if it succeeds the group has
    exactly the given members and nothing else changed, if it fails (at any
    statement or at the commit) no table changed. *)
Theorem replace_members_atomic (g : string) (ms : list NetworkGroupMember) (d : DB) :
  match ReplaceNetworkGroupMembers g ms d with
  | (Ok _, d') => same_but_members g d d' ∧
      select_where (λ r, nm_GroupID r =s g) (db_members d') =
        (λ m, mkMember g (nm_NodeID m) (nm_PrivateIP m)) <$> ms
  | (Err _, d') => d' = set_faults (db_faults d') d
  end.
Proof.
  unfold ReplaceNetworkGroupMembers, mbind, M_bind, try.
  destruct (query [] (λ _ : DB, Ok tt) d) as [[[]|e] d0] eqn:E0;
    apply query_state in E0; simpl; [|by rewrite E0; destruct d].
  destruct (replace_members_tx g ms d0) as [[[]|e] d1] eqn:E1; simpl; [|by rewrite E0; destruct d].
  destruct (query [] (λ _ : DB, Ok tt) d1) as [[[]|e] d2] eqn:E2; simpl; [|by rewrite E0; destruct d].
  apply query_state in E2. unfold replace_members_tx, mbind, M_bind in E1.
  destruct (exec _ _ d0) as [[[]|e] d0'] eqn:E; [|done].
  apply exec_Ok in E as (fs & [= <-] & _). apply for_each_insert_members in E1 as [fs' ->].
  rewrite E2, E0. destruct d as [? ? ? ? ? ? members]. unfold same_but_members. simpl. split; [split|].
  - done.
  - intros m Hm. rewrite elem_of_app, elem_of_delete_where, list_elem_of_fmap, String.eqb_neq.
    naive_solver.
  - rewrite select_app, select_delete, select_all; [done|].
    intros m (m' & -> & _)%list_elem_of_fmap. apply String.eqb_refl.
Qed.

(** What [SavePlugin] stores is what [GetPlugin] returns (empty JSON columns
    read back as the empty list), and it touches no other plugin. *)
Theorem plugin_roundtrip (json_valid : string → bool) (p : Plugin) (d d' : DB) :
  SavePlugin json_valid p d = (Ok tt, d') → db_faults d' = [] →
  fst (GetPlugin (pl_ID p) d') = Ok (stored_plugin p) ∧
  (∀ id, id ≠ pl_ID p →
     fst (GetPlugin id d') = first_row (select_where (λ r, pl_ID r =s id) (db_plugins d))).
Proof.
  unfold SavePlugin. intros E Hf. unfold mbind, M_bind in E.
  destruct (query [] _ d) as [[v|e] d0] eqn:E0; [|done]. apply query_state in E0.
  destruct v; simpl in E; [|done].
  destruct (query [] _ d0) as [[v|e] d1] eqn:E1; [|done]. apply query_state in E1.
  destruct v; simpl in E; [|done].
  apply exec_Ok in E as (fs & [= <-] & _ & Ht). subst d1 d0.
  fold (stored_plugin p). split; [|intros id Hid]; unfold GetPlugin;
    (rewrite query_no_fault; [|exact Hf|exact Ht]); simpl.
  - apply (first_row_upsert pl_ID (stored_plugin p)).
  - by rewrite (select_upsert_other pl_ID (stored_plugin p)).
Qed.

Definition sample_plugin : Plugin :=
  mkPlugin "p1" "P" "1" "/bin/p" "" "aa" true "" "[]" 0.

Lemma plugin_roundtrip_witness :
  ∃ d', SavePlugin (λ _, true) sample_plugin fresh_db = (Ok tt, d') ∧
        fst (GetPlugin "p1" d') = Ok (stored_plugin sample_plugin).
Proof.
  eexists. split; [vm_compute; reflexivity|].
  refine (proj1 (plugin_roundtrip (λ _, true) sample_plugin fresh_db _ _ _)); vm_compute; reflexivity.
Defined.

(** C3. A listing is decided by a window of the table.  The window has the newest of the events
    that match the filter, newest first, as many as the limit allows: none that is left out is
    newer than one that is in it.  The listing succeeds exactly when every row of the window has
    a server, and then its events are the rows of the window, field by field. *)
Theorem ListEvents_spec (f : EventFilter) (d : DB) :
  db_faults d = [] → has_table d "events" = true →
  ∃ window rest,
    select_where (event_matches f) (db_events d) ≡ₚ window ++ rest ∧
    StronglySorted (λ a b, vr_created_at b ≤ vr_created_at a) window ∧
    (∀ r r', r ∈ window → r' ∈ rest → vr_created_at r' ≤ vr_created_at r) ∧
    length window = min (event_limit f) (length (select_where (event_matches f) (db_events d))) ∧
    match fst (ListEvents f d) with
    | Ok evs => window = event_row_of <$> evs
    | Err _ => ∃ r, r ∈ window ∧ vr_server_id r = None
    end.
Proof.
  intros Hf Ht. set (newer := λ a b, vr_created_at b <=? vr_created_at a).
  set (l := select_where (event_matches f) (db_events d)).
  exists (event_window f d), (drop (event_limit f) (isort newer l)).
  assert (event_window f d ++ drop (event_limit f) (isort newer l) = isort newer l) as Hl by apply take_drop.
  assert (StronglySorted (λ a b, vr_created_at b ≤ vr_created_at a) (isort newer l)) as Hs.
  { apply Sorted_StronglySorted; [intros ? ? ?; lia|].
    pose proof (isort_sorted newer ltac:(intros; unfold newer; lia) l) as H.
    clear -H. revert H. generalize (isort newer l). intros xs0 H.
    induction H as [|x xs H IH Hh]; constructor; [done|]. destruct Hh as [|y ys Hy]; constructor. unfold newer in Hy. lia. }
  rewrite <- Hl in Hs. split; [|split; [|split; [|split]]].
  - rewrite Hl. symmetry. apply isort_perm.
  - by apply StronglySorted_app_1_l in Hs.
  - intros r r' Hr Hr'. exact (StronglySorted_app_1_elem_of _ _ _ _ _ Hs Hr Hr').
  - unfold event_window. rewrite length_take. f_equal. apply Permutation_length, isort_perm.
  - unfold ListEvents. rewrite query_no_fault by (simpl; rewrite ?Ht; done). simpl.
    change (take _ _) with (event_window f d).
    destruct (scan_events (event_window f d)) as [evs|e] eqn:E; [by apply scan_events_Ok|by eapply scan_events_Err].
Qed.

Definition sample_event (sid : string) : StoreEvent :=
  mkStoreEvent "event-1" "tunnel.disconnected" sid "info" "tunnel.disconnected" "{}" 5.
Definition no_filter : EventFilter := mkEventFilter "" "" zeroTime zeroTime 0.

Definition server_db : DB :=
  snd ((EnsureEgg (mkEgg "e" "e" "" "");;
        CreateServer (mkServer "s1" "srv" "e" "" "installing" "run" "{}" 0 zeroTime)) fresh_db).

Lemma ListEvents_spec_witness :
  ∃ window rest : list event_row, window = [event_row_of (sample_event "s1")] ∧
    select_where (event_matches no_filter) (db_events (snd (SaveEvent (λ _, true) (sample_event "s1") server_db))) ≡ₚ window ++ rest.
Proof.
  destruct (ListEvents_spec no_filter (snd (SaveEvent (λ _, true) (sample_event "s1") server_db)) eq_refl eq_refl)
    as (window & rest & Hp & _ & _ & _ & H).
  exists window, rest. split; [|exact Hp]. vm_compute in H. exact H.
Defined.

(** One recorded event without a server makes every unfiltered listing whose limit
    covers the table fail, however many other events there are. *)
Theorem null_event_poisons_listing (json_valid : string → bool) (e : StoreEvent)
    (d d' : DB) (limit : Z) :
  SaveEvent json_valid e d = (Ok tt, d') → ev_ServerID e = "" → db_faults d' = [] →
  (length (db_events d') ≤ event_limit (mkEventFilter "" "" zeroTime zeroTime limit))%nat →
  ∃ err, ListEvents (mkEventFilter "" "" zeroTime zeroTime limit) d' = (Err err, d').
Proof.
  intros E Hsid Hf Hlen. apply SaveEvent_Ok in E as (rows & r & Ed & Er & Ht).
  rewrite Hsid in Er. set (f := mkEventFilter _ _ _ _ _) in *.
  assert (r ∈ event_window f d') as Hr.
  { unfold event_window. rewrite take_ge.
    - rewrite elem_of_isort, elem_of_select_where, Ed. split; [done|].
      apply elem_of_app. right. by apply list_elem_of_singleton.
    - rewrite (Permutation_length (isort_perm _ _)). etrans; [|exact Hlen]. apply length_filter. }
  destruct (scan_events_null _ r Hr Er) as [err Herr]. exists err.
  unfold ListEvents. rewrite query_no_fault by (simpl; rewrite ?Ht; done).
  unfold event_window in Herr. by rewrite Herr.
Qed.

Lemma null_event_poisons_listing_witness :
  ∃ err, fst (ListEvents no_filter (snd (SaveEvent (λ _, true) (sample_event "") server_db))) = Err err.
Proof.
  destruct (null_event_poisons_listing (λ _, true) (sample_event "") server_db
    (snd (SaveEvent (λ _, true) (sample_event "") server_db)) 0) as [err H];
    [vm_compute; reflexivity..|vm_compute; lia|].
  exists err. change no_filter with (mkEventFilter "" "" zeroTime zeroTime 0). by rewrite H.
Defined.

(** A successful [DeleteServer] with foreign keys on leaves no row of any
    table that refers to the server; a failed one changes nothing. *)
Theorem DeleteServer_cascade (id : string) (d : DB) :
  wf d →
  match DeleteServer id d with
  | (Ok _, d') => server_gone id d'
  | (Err _, d') => d' = set_faults (db_faults d') d
  end.
Proof.
  intros Hwf. destruct (DeleteServer id d) as [[[]|e] d'] eqn:E.
  - apply exec_Ok in E as (fs & E & _). simpl in E. rewrite (wf_fk _ Hwf) in E.
    injection E as <-. unfold server_gone. simpl.
    repeat split; try (by intros [? _]%fmap_delete_key).
    intros (r & [Hr _]%elem_of_delete_where & E)%list_elem_of_omap.
    by rewrite bool_decide_eq_false in Hr.
  - apply exec_Err in E as ->. by destruct d.
Qed.

Lemma server_db_wf : wf server_db.
Proof.
  refine (keeps_bind wf (EnsureEgg _) (λ _, CreateServer _) _ _ fresh_db (fresh_db_wf []));
    auto with keeps.
Qed.

Lemma DeleteServer_cascade_witness :
  server_gone "s1" (snd (DeleteServer "s1" server_db)).
Proof.
  exact (DeleteServer_cascade "s1" server_db server_db_wf).
Defined.

(** *** Another connection

    [Open] sets the pragma on the connection that executes it.  The pool opens another one when two
    statements overlap, and there foreign keys are off. *)




