(* ===== verification/MigrationsSpec.v ===== *)
(** * Migrations are total and idempotent

    [Migrate] succeeds on every database file, adds what is missing, and a
    second run changes nothing. *)

From S2P Require Import Prelude GoLib Store Migrations StoreFacts.

(** ** Definitions *)

Definition plugin_columns : list string := ["config_path"; "sha256"; "allowed_routes"].

Definition migrate_tables : list string :=
  ["nodes"; "eggs"; "servers"; "resource_limits"; "events"; "backups"; "sftp_credentials";
   "plugins"].

(** [sc'] has the tables of [sc], with all their columns. *)
Definition extends (sc sc' : schema) : Prop :=
  ∀ t cols, columns_of t sc = Some cols → ∃ more, columns_of t sc' = Some (cols ++ more).

Definition has_col (t c : string) (sc : schema) : Prop :=
  ∃ cols, columns_of t sc = Some cols ∧ existsb (String.eqb c) cols = true.

(** A script of CREATE .. IF NOT EXISTS whose indexes are on tables it knows. *)
Fixpoint closed_script (known : list string) (ss : sql_script) : bool :=
  match ss with
  | [] => true
  | CreateTableIfNotExists t _ :: ss => closed_script (t :: known) ss
  | CreateIndexIfNotExists _ t :: ss => existsb (String.eqb t) known && closed_script known ss
  | AlterTableAddColumn _ _ :: _ => false
  end.

Definition created (ss : sql_script) : list string :=
  omap (λ st, match st with CreateTableIfNotExists t _ => Some t | _ => None end) ss.

(** ** Schemas *)

Abbreviation has t sc := (is_Some (columns_of t sc)).

Lemma extends_refl sc : extends sc sc.
Proof. intros t cols H. exists []. by rewrite app_nil_r. Qed.

Lemma extends_trans a b c : extends a b → extends b c → extends a c.
Proof.
  intros H1 H2 t cols H. destruct (H1 t cols H) as [m Hm]. destruct (H2 t _ Hm) as [m' Hm'].
  exists (m ++ m'). by rewrite app_assoc.
Qed.

Lemma extends_has sc sc' t : extends sc sc' → has t sc → has t sc'.
Proof. intros H [cols Hc]. destruct (H t cols Hc) as [m Hm]. eauto. Qed.

Lemma extends_has_col sc sc' t c : extends sc sc' → has_col t c sc → has_col t c sc'.
Proof.
  intros H (cols & Hc & Hin). destruct (H t cols Hc) as [m Hm]. exists (cols ++ m).
  split; [done|]. by rewrite existsb_app, Hin.
Qed.

#[local] Hint Resolve extends_refl extends_trans extends_has extends_has_col : core.

Lemma columns_of_cons t u cols sc :
  columns_of t ((u, cols) :: sc) = if u =s t then Some cols else columns_of t sc.
Proof.
  unfold columns_of. rewrite filter_cons. simpl. destruct (u =s t) eqn:E.
  - apply String.eqb_eq in E. by rewrite decide_True.
  - apply String.eqb_neq in E. by rewrite decide_False.
Qed.

Lemma columns_of_app t sc sc' :
  columns_of t (sc ++ sc') = match columns_of t sc with Some c => Some c | None => columns_of t sc' end.
Proof.
  induction sc as [|[u cols] sc IH]; [done|]. simpl. rewrite !columns_of_cons, IH.
  by destruct (u =s t).
Qed.

Lemma columns_of_add_column t c u sc :
  columns_of u (add_column t c sc) =
  (if u =s t then λ cols, cols ++ [c] else λ cols, cols) <$> columns_of u sc.
Proof.
  unfold add_column. induction sc as [|[v cols] sc IH]; csimpl; [done|].
  destruct (v =s t) eqn:Ev; rewrite !columns_of_cons, IH; simpl; destruct (v =s u) eqn:Eu;
    try done; apply String.eqb_eq in Eu as ->; by rewrite Ev.
Qed.

Lemma run_closed known ss sc :
  closed_script known ss = true → (∀ t, t ∈ known → has t sc) →
  ∃ sc', run_stmts ss sc = (None, sc') ∧ extends sc sc' ∧ (∀ t, t ∈ created ss → has t sc').
Proof.
  revert known sc. induction ss as [|[t cols|i t|t c] ss IH]; intros known sc; simpl.
  - intros _ _. exists sc. split; [done|]. split; [done|]. intros t Ht. by apply elem_of_nil in Ht.
  - intros Hc Hk. destruct (columns_of t sc) as [cols'|] eqn:Et.
    + destruct (IH (t :: known) sc Hc) as (sc' & E & Hx & Hh).
      { intros u [->|Hu]%elem_of_cons; eauto. }
      exists sc'. split; [done|]. split; [done|]. csimpl. intros u [->|Hu]%elem_of_cons; eauto.
    + assert (extends sc (sc ++ [(t, cols)])) as Hx0.
      { intros u c' Hu. exists []. by rewrite columns_of_app, Hu, app_nil_r. }
      assert (has t (sc ++ [(t, cols)])) as Ht.
      { rewrite columns_of_app, Et, columns_of_cons, String.eqb_refl. eauto. }
      destruct (IH (t :: known) (sc ++ [(t, cols)]) Hc) as (sc' & E & Hx & Hh).
      { intros u [->|Hu]%elem_of_cons; eauto. }
      exists sc'. split; [done|]. split; [eauto|]. csimpl. intros u [->|Hu]%elem_of_cons; eauto.
  - intros [Hin Hc]%andb_true_iff Hk. apply existsb_true in Hin as (u & Hu & ->%String.eqb_eq).
    destruct (Hk u Hu) as [cols ->]. by apply (IH known).
  - done.
Qed.

Lemma run_settled known ss sc :
  closed_script known ss = true → (∀ t, t ∈ known → has t sc) →
  (∀ t, t ∈ created ss → has t sc) → run_stmts ss sc = (None, sc).
Proof.
  revert known. induction ss as [|[t cols|i t|t c] ss IH]; intros known; simpl.
  - done.
  - intros Hc Hk Hcr. csimpl in Hcr. destruct (Hcr t) as [cols' ->]; [left|].
    apply (IH (t :: known)); [done| |]; intros u.
    + intros [->|Hu]%elem_of_cons; [apply Hcr; left|auto].
    + intros Hu. apply Hcr. by right.
  - intros [Hin Hc]%andb_true_iff Hk Hcr. apply existsb_true in Hin as (u & Hu & ->%String.eqb_eq).
    destruct (Hk u Hu) as [cols ->]. by apply (IH known).
  - done.
Qed.

(** ** Steps without faults *)

Lemma run_script_no_fault ss d sc' :
  db_faults d = [] → run_stmts ss (db_schema d) = (None, sc') →
  run_script ss d = (Ok tt, set_schema sc' d).
Proof.
  intros Hf E. unfold run_script. rewrite Hf. simpl. rewrite set_faults_nil, E by done. done.
Qed.

Lemma set_schema_id d : set_schema (db_schema d) d = d.
Proof. by destruct d. Qed.
Lemma set_plugins_id d : set_plugins (db_plugins d) d = d.
Proof. by destruct d. Qed.

Section AddColumn.
Context (t : string) (step : string → M DB unit).
Context (step_old : ∀ c d, db_faults d = [] → has_col t c (db_schema d) → step c d = (Ok tt, d)).
Context (step_new : ∀ c d, db_faults d = [] → has t (db_schema d) → ¬ has_col t c (db_schema d) →
  step c d = (Ok tt, set_schema (add_column t c (db_schema d)) d)).

Lemma add_columns_run cs d :
  db_faults d = [] → has t (db_schema d) →
  ∃ sc', for_each step cs d = (Ok tt, set_schema sc' d) ∧ extends (db_schema d) sc' ∧
         (∀ c, c ∈ cs → has_col t c sc').
Proof.
  revert d. induction cs as [|c cs IH]; intros d Hf Ht; simpl.
  - exists (db_schema d). rewrite set_schema_id. split; [done|]. split; [done|].
    intros c Hc. by apply elem_of_nil in Hc.
  - assert (∃ sc1, step c d = (Ok tt, set_schema sc1 d) ∧ extends (db_schema d) sc1 ∧ has_col t c sc1)
      as (sc1 & E & Hx & Hc).
    { destruct (columns_of t (db_schema d)) as [cols|] eqn:Et; [|by destruct Ht].
      destruct (existsb (String.eqb c) cols) eqn:Ec.
      - exists (db_schema d). rewrite set_schema_id, step_old; [|done|by exists cols].
        split; [done|]. split; [done|]. by exists cols.
      - exists (add_column t c (db_schema d)). rewrite step_new; [|done|eauto|].
        + split; [done|]. split.
          * intros u cu Hu. rewrite columns_of_add_column, Hu. simpl. destruct (u =s t); simpl;
              [eauto|exists []; by rewrite app_nil_r].
          * exists (cols ++ [c]). rewrite columns_of_add_column, Et, String.eqb_refl. simpl.
            split; [done|]. rewrite existsb_app. simpl. by rewrite String.eqb_refl, orb_true_r.
        + intros (cols' & Ec' & Hin). congruence. }
    unfold mbind, M_bind. rewrite E.
    destruct (IH (set_schema sc1 d)) as (sc' & E' & Hx' & Hc'); [done|simpl; eauto|].
    exists sc'. split; [by rewrite E'|]. split; [eauto|].
    intros c' [->|Hc0]%elem_of_cons; eauto.
Qed.

Lemma add_columns_settled cs d :
  db_faults d = [] → (∀ c, c ∈ cs → has_col t c (db_schema d)) →
  for_each step cs d = (Ok tt, d).
Proof.
  intros Hf. induction cs as [|c cs IH]; simpl; intros Hc; [done|].
  unfold mbind, M_bind. rewrite step_old by (try apply Hc; try done; left).
  apply IH. intros c' Hc'. apply Hc. by right.
Qed.
End AddColumn.

Lemma has_column_spec t c d :
  db_faults d = [] →
  has_column t c d = (Ok (match columns_of t (db_schema d) with
                          | Some cols => existsb (String.eqb c) cols | None => false end), d).
Proof. intros Hf. unfold has_column. by rewrite query_no_fault. Qed.

Lemma alter_new t c d :
  db_faults d = [] → has t (db_schema d) → ¬ has_col t c (db_schema d) →
  run_script [AlterTableAddColumn t c] d = (Ok tt, set_schema (add_column t c (db_schema d)) d).
Proof.
  intros Hf [cols Ht] Hc. apply run_script_no_fault; [done|]. simpl. rewrite Ht.
  destruct (existsb _ cols) eqn:E; [|done]. exfalso. apply Hc. by exists cols.
Qed.

Lemma has_col_false t c d :
  has t (db_schema d) → ¬ has_col t c (db_schema d) →
  match columns_of t (db_schema d) with
  | Some cols => existsb (String.eqb c) cols | None => false end = false.
Proof.
  intros [cols Ht] Hc. rewrite Ht. apply not_true_is_false. intros E. apply Hc. by exists cols.
Qed.

Lemma add_plugin_column_old c d :
  db_faults d = [] → has_col "plugins" c (db_schema d) → add_plugin_column c d = (Ok tt, d).
Proof.
  intros Hf (cols & Ec & Hin). unfold add_plugin_column, mbind, M_bind.
  rewrite has_column_spec, Ec by done. by rewrite Hin.
Qed.

Lemma add_plugin_column_new c d :
  db_faults d = [] → has "plugins" (db_schema d) → ¬ has_col "plugins" c (db_schema d) →
  add_plugin_column c d = (Ok tt, set_schema (add_column "plugins" c (db_schema d)) d).
Proof.
  intros Hf Ht Hc. unfold add_plugin_column, mbind, M_bind.
  rewrite has_column_spec, has_col_false by done. unfold wrap. by rewrite alter_new.
Qed.

Lemma add_server_column_old c d :
  db_faults d = [] → has_col "servers" c (db_schema d) → add_server_column c d = (Ok tt, d).
Proof.
  intros Hf (cols & Ec & Hin). unfold add_server_column, mbind, M_bind.
  rewrite has_column_spec, Ec by done. by rewrite Hin.
Qed.

Lemma add_server_column_new c d :
  db_faults d = [] → has "servers" (db_schema d) → ¬ has_col "servers" c (db_schema d) →
  add_server_column c d = (Ok tt, set_schema (add_column "servers" c (db_schema d)) d).
Proof.
  intros Hf Ht Hc. unfold add_server_column, mbind, M_bind.
  rewrite has_column_spec, has_col_false by done. by apply alter_new.
Qed.

Lemma has_has_table t d : has t (db_schema d) → has_table d t = true.
Proof.
  unfold has_table, columns_of. intros [cols H]. apply existsb_true.
  destruct (filter _ _) as [|[u c] l] eqn:E; [done|].
  assert ((u, c) ∈ filter (λ tc : string * list string, tc.1 = t) (db_schema d)) as Hin
    by (rewrite E; left).
  apply list_elem_of_filter in Hin as [Hu Hin]. exists (u, c). split; [done|].
  by apply String.eqb_eq.
Qed.

Lemma script_step ss d :
  db_faults d = [] → closed_script [] ss = true →
  ∃ sc', run_script ss d = (Ok tt, set_schema sc' d) ∧ extends (db_schema d) sc' ∧
    (∀ t, t ∈ created ss → has t sc').
Proof.
  intros Hf Hc. destruct (run_closed [] ss (db_schema d) Hc) as (sc' & E & Hx & Hh).
  { intros t Ht. by apply elem_of_nil in Ht. }
  exists sc'. split; [by apply run_script_no_fault|done].
Qed.

Lemma script_settled ss d :
  db_faults d = [] → closed_script [] ss = true → (∀ t, t ∈ created ss → has t (db_schema d)) →
  run_script ss d = (Ok tt, d).
Proof.
  intros Hf Hc Hh. rewrite <- (set_schema_id d) at 2. apply run_script_no_fault; [done|].
  apply (run_settled []); [done| |done]. intros t Ht. by apply elem_of_nil in Ht.
Qed.

Lemma update_where_none {R} (p : R → bool) f t : (∀ r, r ∈ t → p r = false) → update_where p f t = t.
Proof.
  unfold update_where. induction t as [|r t IH]; intros H; [done|]. csimpl.
  rewrite (H r) by left. f_equal. apply IH. intros. apply H. by right.
Qed.

(** The two clean-ups of [MigratePlugins]. *)
Definition clean_plugins (ps : list Plugin) : list Plugin :=
  update_where legacy_plugin (with_enabled false)
    (update_where (λ p, pl_AllowedRoutes p =s "") default_routes ps).

Lemma clean_plugins_spec ps p :
  p ∈ clean_plugins ps → legacy_plugin p = false ∧ (pl_AllowedRoutes p =s "") = false.
Proof.
  unfold clean_plugins, update_where.
  intros (q & -> & (r & -> & _)%list_elem_of_fmap)%list_elem_of_fmap.
  destruct (pl_AllowedRoutes r =s "") eqn:Er; simpl;
    match goal with |- context [if legacy_plugin ?x then _ else _] => destruct (legacy_plugin x) eqn:El end;
    done.
Qed.

Lemma clean_plugins_id ps :
  (∀ p, p ∈ ps → legacy_plugin p = false ∧ (pl_AllowedRoutes p =s "") = false) →
  clean_plugins ps = ps.
Proof.
  intros H. unfold clean_plugins. rewrite (update_where_none (λ p, pl_AllowedRoutes p =s "")).
  - apply update_where_none. intros p Hp. by apply H.
  - intros p Hp. by apply H.
Qed.

Lemma clean_step d :
  db_faults d = [] → has "plugins" (db_schema d) →
  (exec ["plugins"] (λ d, Ok (set_plugins
     (update_where (λ p, pl_AllowedRoutes p =s "") default_routes (db_plugins d)) d));;
   exec ["plugins"] (λ d, Ok (set_plugins
     (update_where legacy_plugin (with_enabled false) (db_plugins d)) d))) d =
  (Ok tt, set_plugins (clean_plugins (db_plugins d)) d).
Proof.
  intros Hf Ht%has_has_table. unfold mbind, M_bind.
  rewrite exec_no_fault by (simpl; rewrite ?Ht; done).
  rewrite exec_no_fault; [done|done|]. simpl. unfold has_table in *. simpl. by rewrite Ht.
Qed.

(** The state a successful [Migrate] reaches: what a later run relies on. *)
Definition migrated (d : DB) : Prop :=
  (∀ t, t ∈ migrate_tables → has t (db_schema d)) ∧
  (∀ c, c ∈ ["restart_count"; "last_crash_at"] → has_col "servers" c (db_schema d)) ∧
  (∀ c, c ∈ plugin_columns → has_col "plugins" c (db_schema d)) ∧
  (∀ p, p ∈ db_plugins d → legacy_plugin p = false ∧ (pl_AllowedRoutes p =s "") = false).

Ltac table_in := simpl; repeat first [left; reflexivity | right].

(** Run the steps of [Migrate] whose outcomes are hypotheses. *)
Ltac migrate_steps :=
  repeat (erewrite bind_Ok;
    [|first [eassumption | by apply wrap_Ok | apply wrap_Ok; eassumption]]).

Lemma Migrate_first cols d :
  db_faults d = [] → cols ≡ₚ plugin_columns →
  ∃ sc, Migrate repo_files cols d =
          (Ok tt, set_plugins (clean_plugins (db_plugins d)) (set_schema sc d)) ∧
        extends (db_schema d) sc ∧
        migrated (set_plugins (clean_plugins (db_plugins d)) (set_schema sc d)).
Proof.
  intros Hf Hcols.
  destruct (script_step init_0001 d Hf eq_refl) as (sc1 & E1 & X1 & H1).
  destruct (script_step (before_alter_servers observability_0003) (set_schema sc1 d) Hf eq_refl)
    as (sc2 & E2 & X2 & H2).
  destruct (add_columns_run "servers" add_server_column add_server_column_old
    add_server_column_new ["restart_count"; "last_crash_at"] (set_schema sc2 d) Hf)
    as (sc3 & E3 & X3 & H3); [eapply extends_has, H1; [exact X2|table_in]|].
  destruct (script_step filesystem_0004 (set_schema sc3 d) Hf eq_refl) as (sc4 & E4 & X4 & H4).
  destruct (script_step plugins_0005 (set_schema sc4 d) Hf eq_refl) as (sc5 & E5 & X5 & H5).
  destruct (add_columns_run "plugins" add_plugin_column add_plugin_column_old
    add_plugin_column_new cols (set_schema sc5 d) Hf) as (sc6 & E6 & X6 & H6); [apply H5; table_in|].
  simpl in *. assert (has "plugins" sc6) as Hp by (eapply extends_has; [exact X6|apply H5; table_in]).
  exists sc6. split; [|split].
  - assert (MigrateObservability repo_files (set_schema sc1 d) = (Ok tt, set_schema sc3 d)) as Eo
      by (unfold MigrateObservability; migrate_steps; done).
    assert (MigrateFilesystem repo_files (set_schema sc3 d) = (Ok tt, set_schema sc4 d)) as Ef
      by (unfold MigrateFilesystem; migrate_steps; by apply wrap_Ok).
    unfold Migrate, MigratePlugins. migrate_steps. apply (clean_step (set_schema sc6 d) Hf Hp).
  - eauto 8.
  - assert (extends sc1 sc6) as X16 by eauto 8. assert (extends sc2 sc6) as X26 by eauto 8.
    assert (extends sc4 sc6) as X46 by eauto. split; [|split; [|split]]; simpl.
    + intros t Ht. repeat (apply elem_of_cons in Ht as [->|Ht]); [..|by apply elem_of_nil in Ht].
      1-4: eapply extends_has; [exact X16|]; apply H1; table_in.
      1: eapply extends_has; [exact X26|]; apply H2; table_in.
      1-2: eapply extends_has; [exact X46|]; apply H4; table_in.
      done.
    + intros c Hc. eapply extends_has_col, H3, Hc. eauto.
    + intros c Hc. apply H6. by rewrite Hcols.
    + apply clean_plugins_spec.
Qed.

Lemma Migrate_settled cols d :
  db_faults d = [] → cols ≡ₚ plugin_columns → migrated d →
  Migrate repo_files cols d = (Ok tt, d).
Proof.
  intros Hf Hcols (Ht & Hs & Hc & Hp).
  assert (∀ ss, closed_script [] ss = true → created ss ⊆ migrate_tables →
    run_script ss d = (Ok tt, d)) as Hrun.
  { intros ss Hcl Hsub. apply script_settled; auto. }
  pose proof (Hrun init_0001 eq_refl ltac:(set_solver)) as E1.
  pose proof (Hrun (before_alter_servers observability_0003) eq_refl ltac:(set_solver)) as E2.
  pose proof (Hrun filesystem_0004 eq_refl ltac:(set_solver)) as E4.
  pose proof (Hrun plugins_0005 eq_refl ltac:(set_solver)) as E5.
  pose proof (add_columns_settled "servers" add_server_column add_server_column_old
    ["restart_count"; "last_crash_at"] d Hf Hs) as E3.
  assert (for_each add_plugin_column cols d = (Ok tt, d)) as E6.
  { apply (add_columns_settled "plugins" add_plugin_column add_plugin_column_old); [done|].
    intros c Hin. apply Hc. by rewrite <- Hcols. }
  assert (MigrateObservability repo_files d = (Ok tt, d)) as Eo
    by (unfold MigrateObservability; migrate_steps; done).
  assert (MigrateFilesystem repo_files d = (Ok tt, d)) as Ef
    by (unfold MigrateFilesystem; migrate_steps; by apply wrap_Ok).
  unfold Migrate, MigratePlugins. migrate_steps. rewrite <- (set_plugins_id d) at 2. rewrite <- (clean_plugins_id (db_plugins d)) by done.
  apply (clean_step d Hf). apply Ht. table_in.
Qed.

(** ** Properties *)

(** [Migrate] succeeds on every database, old or new, in whatever order Go
    visits the added plugin columns; it only adds tables and columns, leaves no
    enabled plugin without checksum or binary and no empty route list, and
    running it again changes nothing. *)
Theorem Migrate_idempotent (cols cols' : list string) (d : DB) :
  db_faults d = [] → cols ≡ₚ plugin_columns → cols' ≡ₚ plugin_columns →
  ∃ d1, Migrate repo_files cols d = (Ok tt, d1) ∧
        Migrate repo_files cols' d1 = (Ok tt, d1) ∧
        forallb (has_table d1) migrate_tables = true ∧
        extends (db_schema d) (db_schema d1) ∧
        d1 = set_plugins (db_plugins d1) (set_schema (db_schema d1) d) ∧
        (∀ p, p ∈ db_plugins d1 → legacy_plugin p = false ∧ pl_AllowedRoutes p ≠ "").
Proof.
  intros Hf Hc Hc'. destruct (Migrate_first cols d Hf Hc) as (sc & E & Hx & Hm).
  eexists. split; [exact E|]. split; [by apply Migrate_settled|]. split.
  - apply forallb_forall. intros t Ht. apply has_has_table, Hm. by apply list_elem_of_In.
  - split; [done|]. split; [done|]. intros p Hp. destruct Hm as (_ & _ & _ & H).
    destruct (H p Hp) as [H1 H2%String.eqb_neq]. done.
Qed.

Lemma Migrate_idempotent_witness :
  ∃ d1, Migrate repo_files plugin_columns (snd (Open empty_db)) = (Ok tt, d1) ∧
        Migrate repo_files plugin_columns d1 = (Ok tt, d1).
Proof.
  destruct (Migrate_idempotent plugin_columns plugin_columns (snd (Open empty_db)))
    as (d1 & H1 & H2 & _); [reflexivity..|]. exists d1. split; [exact H1|exact H2].
Defined.
