(* ===== verification/Bus.v ===== *)
(** * The event bus and the event recorder ([internal/orchestrator/eventbus.go],
    [eventrecorder.go])

    A channel is a number; its buffer holds the events sent and not yet
    received, oldest first.  Every method takes the bus mutex for its whole
    effect on [subs], so each is one atomic step; [Publish] sends on the copy
    of the subscriber lists it made under the lock. *)

From S2P Require Import Prelude GoLib Store.

(** ** Definitions *)

(** [orchestrator.Event] *)
Record Event := mkEvent { Ev_Type : string; Ev_ServerID : string }.

#[global] Instance Event_eq_dec : EqDecision Event.
Proof. solve_decision. Defined.

(** [make(chan Event, 64)] *)
Definition chan_cap : nat := 64.

Record EventBus := mkBus {
  subs : gmap string (list nat);       (* b.subs *)
  buffers : gmap nat (list Event);     (* the channels that exist *)
  done_closed : gset nat;              (* whose cancel has run *)
  next_chan : nat }.

Definition NewEventBus : EventBus := mkBus ∅ ∅ ∅ 0.

Definition subs_of (typ : string) (b : EventBus) : list nat := default [] (subs b !! typ).
Definition buffer_of (ch : nat) (b : EventBus) : list Event := default [] (buffers b !! ch).

(** [Subscribe] and [subscribeWithDone]: the new channel is [next_chan b]. *)
Definition Subscribe (typ : string) (b : EventBus) : nat * EventBus :=
  let ch := next_chan b in
  (ch, mkBus (<[typ := subs_of typ b ++ [ch]]> (subs b)) (<[ch := []]> (buffers b))
         (done_closed b) (S ch)).

Definition subscribeWithDone : string → EventBus → nat * EventBus := Subscribe.
Definition SubscribeWithCancel : string → EventBus → nat * EventBus := subscribeWithDone.
Definition SubscribeWithCancelDone : string → EventBus → nat * EventBus := subscribeWithDone.

(** [append(l[:i], l[i+1:]...)] at the first [i] with [l[i] == ch]. *)
Fixpoint remove_first (ch : nat) (l : list nat) : list nat :=
  match l with
  | [] => []
  | c :: l => if bool_decide (c = ch) then l else c :: remove_first ch l
  end.

(** The cancel closure returned with channel [ch]; [once.Do]. *)
Definition cancel (typ : string) (ch : nat) (b : EventBus) : EventBus :=
  if bool_decide (ch ∈ done_closed b) then b
  else mkBus (<[typ := remove_first ch (subs_of typ b)]> (subs b)) (buffers b)
         ({[ch]} ∪ done_closed b) (next_chan b).

(** [select { case ch <- ev: default: }] *)
Definition offer (ev : Event) (b : EventBus) (ch : nat) : EventBus :=
  let buf := buffer_of ch b in
  if (length buf <? chan_cap)%nat
  then mkBus (subs b) (<[ch := buf ++ [ev]]> (buffers b)) (done_closed b) (next_chan b)
  else b.

Definition targets (ev : Event) (b : EventBus) : list nat :=
  subs_of (Ev_Type ev) b ++ subs_of "*" b.

Definition Publish (ev : Event) (b : EventBus) : EventBus :=
  foldl (offer ev) b (targets ev b).

(** [<-ch] of a consumer, when an event is waiting. *)
Definition receive (ch : nat) (b : EventBus) : option (Event * EventBus) :=
  match buffer_of ch b with
  | [] => None
  | ev :: rest => Some (ev, mkBus (subs b) (<[ch := rest]> (buffers b)) (done_closed b) (next_chan b))
  end.

(** The bus as a transition system: what its goroutines do, in any order.  A [Publish]
    in progress is its event with the channels of its copy of the subscriber lists that it
    has not sent to yet: the sends happen after the lock is released, so a cancellation
    or another [Publish] can come between them. *)
Record BusSys := mkSys { sys_bus : EventBus; inflight : list (Event * list nat) }.

Inductive bus_step : BusSys → BusSys → Prop :=
| step_subscribe b fl typ : bus_step (mkSys b fl) (mkSys (snd (Subscribe typ b)) fl)
| step_cancel b fl typ ch :
    ch ∈ subs_of typ b ∨ ch ∈ done_closed b →     (* its closure exists *)
    bus_step (mkSys b fl) (mkSys (cancel typ ch b) fl)
| step_publish b fl ev : bus_step (mkSys b fl) (mkSys b ((ev, targets ev b) :: fl))
| step_send b fl1 fl2 ev ch l :
    bus_step (mkSys b (fl1 ++ (ev, ch :: l) :: fl2)) (mkSys (offer ev b ch) (fl1 ++ (ev, l) :: fl2))
| step_receive b fl ch ev b' :
    receive ch b = Some (ev, b') → bus_step (mkSys b fl) (mkSys b' fl).

Definition bus_reachable (s : BusSys) : Prop := rtc bus_step (mkSys NewEventBus []) s.

(** The bus invariant: buffers within capacity, every subscribed channel exists,
    no channel is subscribed twice. *)
Record bus_wf (b : EventBus) : Prop := mk_bus_wf {
  bw_cap : ∀ ch buf, buffers b !! ch = Some buf → (length buf ≤ chan_cap)%nat;
  bw_exists : ∀ typ ch, ch ∈ subs_of typ b → is_Some (buffers b !! ch);
  bw_next : ∀ ch, is_Some (buffers b !! ch) → (ch < next_chan b)%nat;
  bw_nodup : ∀ typ, NoDup (subs_of typ b);
  bw_disjoint : ∀ typ typ' ch, ch ∈ subs_of typ b → ch ∈ subs_of typ' b → typ = typ';
  bw_done : ∀ typ ch, ch ∈ done_closed b → (ch ∉ subs_of typ b) ∧ (ch < next_chan b)%nat }.

(** *** [EventRecorder] *)

(** [fmt.Sprintf("event-%d", n)] *)
Definition event_id (n : Z) : string := "event-" +:+ FormatInt n.

Record RecorderState := mkRecorder {
  rc_db : DB;
  rc_bus : EventBus;
  rc_seq : Z;           (* eventSequence: a process-wide counter that starts at 0 *)
  rc_chan : nat }.

(** [NewEventRecorder] *)
Definition NewEventRecorder (db : DB) (bus : EventBus) (seq : Z) : RecorderState :=
  let '(ch, bus) := SubscribeWithCancel "*" bus in mkRecorder db bus seq ch.

Section Recorder.
Context (json_valid : string → bool).

Definition recorded (n : Z) (ev : Event) : StoreEvent :=
  mkStoreEvent (event_id n) (Ev_Type ev) (Ev_ServerID ev) "info" (Ev_Type ev) "{}" zeroTime.

(** One turn of the loop of [Start] on a received event; [_ = r.db.SaveEvent(..)].
    [newEventID] is [atomic.AddUint64(&eventSequence, 1)]. *)
Definition recorder_step (r : RecorderState) : RecorderState :=
  match receive (rc_chan r) (rc_bus r) with
  | None => r
  | Some (ev, bus) =>
      let n := (rc_seq r + 1) mod 2^64 in
      mkRecorder (snd (SaveEvent json_valid (recorded n ev) (rc_db r))) bus n (rc_chan r)
  end.
End Recorder.

(** ** Lemmas *)

Lemma subs_of_insert typ typ' l b bufs d n :
  subs_of typ' (mkBus (<[typ := l]> (subs b)) bufs d n) =
  if decide (typ = typ') then l else subs_of typ' b.
Proof. unfold subs_of. simpl. rewrite lookup_insert. by case_decide. Qed.

Lemma elem_of_remove_first c ch l : c ∈ remove_first ch l → c ∈ l.
Proof.
  induction l as [|x l IH]; simpl; [done|]. case_bool_decide.
  - intros. by right.
  - intros [->|Hc]%elem_of_cons; [left|right; auto].
Qed.

Lemma remove_first_not_elem ch l : NoDup l → ch ∉ remove_first ch l.
Proof.
  induction 1 as [|x l Hx Hl IH]; simpl; [set_solver|]. case_bool_decide; set_solver.
Qed.

Lemma remove_first_other c ch l : c ≠ ch → c ∈ remove_first ch l ↔ c ∈ l.
Proof.
  intros Hc. induction l as [|x l IH]; simpl; [done|]. case_bool_decide; set_solver.
Qed.

Lemma NoDup_remove_first ch l : NoDup l → NoDup (remove_first ch l).
Proof.
  induction 1 as [|x l Hx Hl IH]; simpl; [constructor|]. case_bool_decide; [done|].
  constructor; [|done]. intros H'. by apply Hx, (elem_of_remove_first _ ch).
Qed.

Lemma offer_subs ev b ch typ : subs_of typ (offer ev b ch) = subs_of typ b.
Proof. unfold offer. by case_match. Qed.

Lemma offer_buffer ev b ch c :
  buffer_of c (offer ev b ch) =
  if bool_decide (c = ch) && (length (buffer_of c b) <? chan_cap)%nat
  then buffer_of c b ++ [ev] else buffer_of c b.
Proof.
  unfold offer. case_bool_decide as Hc; simpl.
  - subst c. destruct (length (buffer_of ch b) <? chan_cap)%nat; [|done].
    unfold buffer_of at 1. simpl. by rewrite lookup_insert_eq.
  - case_match; [|done]. unfold buffer_of at 1. simpl. by rewrite lookup_insert_ne.
Qed.

Lemma offers_subs ev l b typ : subs_of typ (foldl (offer ev) b l) = subs_of typ b.
Proof. revert b. induction l as [|c l IH]; intros b; simpl; [done|]. by rewrite IH, offer_subs. Qed.

Lemma offers_other ev l b c : c ∉ l → buffer_of c (foldl (offer ev) b l) = buffer_of c b.
Proof.
  revert b. induction l as [|x l IH]; intros b Hc; simpl; [done|].
  rewrite IH, offer_buffer, bool_decide_false by set_solver. done.
Qed.

(** A channel that is sent the event at each of its places in [l] gets it as often, up to its
    capacity. *)
Lemma offers_buffer ev l b c :
  (length (buffer_of c b) ≤ chan_cap)%nat →
  buffer_of c (foldl (offer ev) b l) =
  buffer_of c b ++ replicate (min (length (filter (c =.) l)) (chan_cap - length (buffer_of c b))) ev.
Proof.
  revert b. induction l as [|x l IH]; intros b Hb; simpl; [by rewrite app_nil_r|].
  rewrite filter_cons. destruct (decide (c = x)) as [->|Hne].
  - assert (buffer_of x (offer ev b x) =
      if (length (buffer_of x b) <? chan_cap)%nat then buffer_of x b ++ [ev] else buffer_of x b) as E
      by (by rewrite offer_buffer, bool_decide_true).
    assert (length (buffer_of x (offer ev b x)) ≤ chan_cap)%nat as Hb'.
    { rewrite E. destruct (Nat.ltb_spec (length (buffer_of x b)) chan_cap); [|done]. rewrite length_app. simpl. lia. }
    rewrite IH by done. rewrite E. destruct (Nat.ltb_spec (length (buffer_of x b)) chan_cap).
    + rewrite length_app, <- app_assoc. simpl.
      replace (chan_cap - length (buffer_of x b))%nat with (S (chan_cap - (length (buffer_of x b) + 1))) by lia. done.
    + replace (chan_cap - length (buffer_of x b))%nat with 0%nat by lia. by rewrite !Nat.min_0_r.
  - assert (buffer_of c (offer ev b x) = buffer_of c b) as E by (by rewrite offer_buffer, bool_decide_false).
    by rewrite IH, E by (by rewrite E).
Qed.

Lemma filter_NoDup (c : nat) l : NoDup l → length (filter (c =.) l) = if bool_decide (c ∈ l) then 1%nat else 0%nat.
Proof.
  induction 1 as [|x l Hx Hnd IH]; [done|]. rewrite filter_cons. destruct (decide (c = x)) as [->|Hne]; simpl.
  - rewrite IH, bool_decide_eq_false_2, bool_decide_eq_true_2; [done|by left|done].
  - rewrite IH. rewrite (bool_decide_ext (c ∈ x :: l) (c ∈ l)); [done|]. rewrite elem_of_cons. naive_solver.
Qed.

Lemma offer_exists ev b c ch :
  is_Some (buffers b !! ch) → is_Some (buffers (offer ev b c) !! ch).
Proof.
  unfold offer. case_match; simpl; [|done]. rewrite lookup_insert. case_decide; eauto.
Qed.

Lemma bus_wf_offer ev b ch : bus_wf b → is_Some (buffers b !! ch) → bus_wf (offer ev b ch).
Proof.
  intros Hwf Hch. unfold offer. destruct (_ <? _)%nat eqn:E; [|done].
  apply Nat.ltb_lt in E. destruct Hwf. constructor; unfold subs_of in *; simpl; eauto.
  - intros c buf. rewrite lookup_insert. case_decide; [|eauto].
    intros [= <-]. rewrite length_app. simpl. lia.
  - intros typ c Hc. rewrite lookup_insert. case_decide; eauto.
  - intros c. rewrite lookup_insert. case_decide as Hd; subst; eauto.
Qed.

Lemma bus_wf_offers ev l b :
  bus_wf b → (∀ ch, ch ∈ l → is_Some (buffers b !! ch)) → bus_wf (foldl (offer ev) b l).
Proof.
  revert b. induction l as [|c l IH]; intros b Hwf Hl; simpl; [done|].
  apply IH; [apply bus_wf_offer; [done|apply Hl; left]|].
  intros ch Hch. apply offer_exists, Hl. by right.
Qed.

Lemma bus_wf_publish ev b : bus_wf b → bus_wf (Publish ev b).
Proof.
  intros Hwf. apply bus_wf_offers; [done|].
  intros ch [H|H]%elem_of_app; by eapply bw_exists.
Qed.

Lemma bus_wf_subscribe typ b : bus_wf b → bus_wf (snd (Subscribe typ b)).
Proof.
  intros Hwf. assert (buffers b !! next_chan b = None) as Hfresh.
  { apply eq_None_not_Some. intros H%(bw_next b Hwf). lia. }
  assert (∀ t, next_chan b ∉ subs_of t b) as Hnew.
  { intros t H%(bw_exists b Hwf). rewrite Hfresh in H. by destruct H. }
  destruct Hwf. constructor; simpl.
  - intros ch buf. rewrite lookup_insert. case_decide; [|eauto]. intros [= <-]. simpl. lia.
  - intros t ch. rewrite subs_of_insert, lookup_insert. case_decide; [|case_decide; eauto].
    intros [Hin|Hin]%elem_of_app; [case_decide; eauto|].
    apply list_elem_of_singleton in Hin as ->. rewrite decide_True by done. eauto.
  - intros ch. rewrite lookup_insert. case_decide; [subst; lia|]. intros Hin%bw_next0. lia.
  - intros t. rewrite subs_of_insert. case_decide; [|done]. apply NoDup_app.
    split; [done|]. split; [|apply NoDup_singleton]. intros x Hx ->%list_elem_of_singleton.
    by eapply Hnew.
  - intros t t' ch. rewrite !subs_of_insert. repeat case_decide; subst; eauto; try done.
    + intros [Hin| ->%list_elem_of_singleton]%elem_of_app Hin'; [eauto|by apply Hnew in Hin'].
    + intros Hin' [Hin| ->%list_elem_of_singleton]%elem_of_app; [eauto|by apply Hnew in Hin'].
  - intros t ch Hc. destruct (bw_done0 t ch Hc) as [Hs Hl]. split; [|lia].
    rewrite subs_of_insert. case_decide; [|done]. subst t.
    intros [Hin| ->%list_elem_of_singleton]%elem_of_app; [done|lia].
Qed.

Lemma subs_cancel typ ch b t c : c ∈ subs_of t (cancel typ ch b) → c ∈ subs_of t b.
Proof.
  unfold cancel. case_bool_decide; [done|]. rewrite subs_of_insert.
  case_decide; subst; eauto using elem_of_remove_first.
Qed.

Lemma bus_wf_cancel typ ch b :
  bus_wf b → ch ∈ subs_of typ b ∨ ch ∈ done_closed b → bus_wf (cancel typ ch b).
Proof.
  intros Hwf Hch. pose proof (subs_cancel typ ch b) as Hsub. unfold cancel in *.
  case_bool_decide as Hd; [done|]. destruct Hch as [Hch|]; [|done].
  destruct Hwf. constructor; simpl; eauto.
  - intros t. rewrite subs_of_insert. case_decide; eauto using NoDup_remove_first.
  - intros t c [->%elem_of_singleton|Hc]%elem_of_union.
    + split; [|eauto]. rewrite subs_of_insert. case_decide as Ht; subst.
      * by apply remove_first_not_elem.
      * intros H. by eapply Ht, bw_disjoint0.
    + split; [|by apply (bw_done0 t)]. intros Hin%Hsub. by apply (bw_done0 t) in Hc as [? _].
Qed.

Lemma bus_wf_receive ch ev b b' : bus_wf b → receive ch b = Some (ev, b') → bus_wf b'.
Proof.
  unfold receive. intros Hwf. destruct (buffer_of ch b) as [|e rest] eqn:E; [done|].
  intros [= -> <-]. unfold buffer_of in E. destruct (buffers b !! ch) as [buf|] eqn:Eb; [|done].
  simpl in E. subst buf. pose proof (bw_cap b Hwf ch _ Eb) as Hlen. simpl in Hlen.
  destruct Hwf. constructor; unfold subs_of in *; simpl; eauto.
  - intros c buf. rewrite lookup_insert. case_decide; [|eauto]. intros [= <-]. lia.
  - intros typ c Hc. rewrite lookup_insert. case_decide; eauto.
  - intros c. rewrite lookup_insert. case_decide as Hd; subst; eauto.
Qed.

(** The invariant of the transition system: a [Publish] in progress holds channels that exist. *)
Definition sys_wf (s : BusSys) : Prop :=
  bus_wf (sys_bus s) ∧
  ∀ ev l ch, (ev, l) ∈ inflight s → ch ∈ l → is_Some (buffers (sys_bus s) !! ch).

Lemma bus_wf_new : bus_wf NewEventBus.
Proof.
  constructor; unfold subs_of; simpl; intros *; rewrite ?lookup_empty; simpl;
    try done; try (by intros []); try constructor; by intros ?%elem_of_nil.
Qed.

Lemma targets_exist ev b ch : bus_wf b → ch ∈ targets ev b → is_Some (buffers b !! ch).
Proof. intros Hwf [H|H]%elem_of_app; by eapply bw_exists. Qed.

Lemma receive_exists c ev b b' ch :
  receive c b = Some (ev, b') → is_Some (buffers b !! ch) → is_Some (buffers b' !! ch).
Proof.
  unfold receive. case_match; [done|]. intros [= -> <-] H'. simpl.
  rewrite lookup_insert. case_decide; eauto.
Qed.

Lemma bus_step_wf s s' : bus_step s s' → sys_wf s → sys_wf s'.
Proof.
  intros Hs [Hwf Hfl].
  destruct Hs as [b fl t|b fl t c Hc|b fl ev|b fl1 fl2 ev c l|b fl c ev b' Hr];
    simpl in *; split; simpl.
  - by apply bus_wf_subscribe.
  - intros e l ch He Hch. rewrite lookup_insert. case_decide; eauto.
  - by apply bus_wf_cancel.
  - intros e l ch He Hch. unfold cancel. case_bool_decide; simpl; eauto.
  - done.
  - intros e l ch [[= -> ->]|He]%elem_of_cons Hch; [by eapply targets_exist|eauto].
  - apply bus_wf_offer; [done|]. eapply Hfl; [apply elem_of_app; right; left|left].
  - intros e l' ch He Hch. apply offer_exists.
    apply elem_of_app in He as [He|[[= -> ->]|He]%elem_of_cons].
    + eapply Hfl; [apply elem_of_app; by left|done].
    + eapply Hfl; [apply elem_of_app; right; left|by right].
    + eapply Hfl; [apply elem_of_app; right; by right|done].
  - by eapply bus_wf_receive.
  - intros e l ch He Hch. eapply receive_exists; eauto.
Qed.

Lemma bus_reachable_wf s : bus_reachable s → sys_wf s.
Proof.
  intros Hb. revert s Hb. apply rtc_ind_r.
  - split; [apply bus_wf_new|]. intros e l ch He. by apply elem_of_nil in He.
  - intros x y _ Hs IH. by eapply bus_step_wf.
Qed.

(** A [Publish] whose steps are not interrupted is the function [Publish]. *)
Lemma sends_offers b fl ev l :
  rtc bus_step (mkSys b ((ev, l) :: fl)) (mkSys (foldl (offer ev) b l) ((ev, []) :: fl)).
Proof.
  revert b. induction l as [|c l IH]; intros b; simpl; [apply rtc_refl|].
  eapply rtc_l; [exact (step_send b [] fl ev c l)|apply IH].
Qed.

Lemma publish_steps b fl ev :
  rtc bus_step (mkSys b fl) (mkSys (Publish ev b) ((ev, []) :: fl)).
Proof. eapply rtc_l; [apply step_publish|]. apply sends_offers. Qed.

(** A channel outside every subscriber list only gets the events that [E] allows, namely
    those of the [Publish] calls that copied the lists earlier. *)
Record detached (ch : nat) (E : Event → Prop) (s : BusSys) : Prop := mk_detached {
  dt_subs : ∀ typ, ch ∉ subs_of typ (sys_bus s);
  dt_next : (ch < next_chan (sys_bus s))%nat;
  dt_buffer : ∀ ev, ev ∈ buffer_of ch (sys_bus s) → E ev;
  dt_inflight : ∀ ev l, (ev, l) ∈ inflight s → ch ∈ l → E ev }.

Lemma offer_next ev b c : next_chan (offer ev b c) = next_chan b.
Proof. unfold offer. by case_match. Qed.

Lemma buffer_of_cancel ch typ c b : buffer_of ch (cancel typ c b) = buffer_of ch b.
Proof. unfold cancel. by case_bool_decide. Qed.

Lemma detached_step ch E s s' : bus_step s s' → detached ch E s → detached ch E s'.
Proof.
  intros Hs [Hsub Hlt Hbuf Hfl].
  destruct Hs as [b fl t|b fl t c Hc|b fl ev|b fl1 fl2 ev c l|b fl c ev b' Hr];
    simpl in *; constructor; simpl; try done.
  - intros u. rewrite subs_of_insert. case_decide; [subst|done].
    intros [Hin| ->%list_elem_of_singleton]%elem_of_app; [by eapply Hsub|lia].
  - lia.
  - unfold buffer_of. simpl. rewrite lookup_insert_ne by lia. exact Hbuf.
  - intros u Hu%subs_cancel. by eapply Hsub.
  - unfold cancel. by case_bool_decide.
  - by rewrite buffer_of_cancel.
  - intros e l [[= -> ->]|He]%elem_of_cons Hch; [|eauto].
    apply elem_of_app in Hch as [Hin|Hin]; by eapply Hsub in Hin.
  - intros u. rewrite offer_subs. apply Hsub.
  - by rewrite offer_next.
  - intros e. rewrite offer_buffer. case_bool_decide as Hc; simpl; [subst c|apply Hbuf].
    case_match; [|apply Hbuf]. intros [He| ->%list_elem_of_singleton]%elem_of_app; [eauto|].
    eapply Hfl; [apply elem_of_app; right; left|left].
  - intros e l' He Hch. apply elem_of_app in He as [He|[[= -> ->]|He]%elem_of_cons].
    + eapply Hfl; [apply elem_of_app; by left|done].
    + eapply Hfl; [apply elem_of_app; right; left|by right].
    + eapply Hfl; [apply elem_of_app; right; by right|done].
  - unfold receive in Hr. case_match; [done|]. by injection Hr as _ <-.
  - unfold receive in Hr. case_match; [done|]. by injection Hr as _ <-.
  - unfold receive in Hr. destruct (buffer_of c b) as [|e rest] eqn:Eb; [done|].
    injection Hr as _ <-. intros e'. unfold buffer_of at 1. simpl. rewrite lookup_insert.
    case_decide; [subst c|apply Hbuf]. simpl. intros He. apply Hbuf. rewrite Eb. by right.
Qed.

Lemma detached_steps ch E s s' : rtc bus_step s s' → detached ch E s → detached ch E s'.
Proof. induction 1; eauto using detached_step. Qed.
