(* ===== verification/BusSpec.v ===== *)
(** * What the event bus and the recorder promise

    The invariant of every reachable bus, delivery, cancellation, and which
    events the recorder keeps. *)

From S2P Require Import Prelude GoLib Store StoreFacts StoreSpec Bus.

(** ** Definitions *)

(** A bus with one subscriber of ["*"] and one of ["server.crashed"]. *)
Definition demo_bus : EventBus := snd (Subscribe "server.crashed" (snd (Subscribe "*" NewEventBus))).

(** A recorder whose process has just started on a database that already holds the first
    event of an earlier process. *)
Definition restarted_recorder : RecorderState :=
  let old := mkEvent "server.crashed" "s1" in
  let db := snd (SaveEvent (λ _, true) (recorded 1 old) server_db) in
  let r := NewEventRecorder db NewEventBus 0 in
  mkRecorder (rc_db r) (Publish (mkEvent "server.started" "s1") (rc_bus r)) (rc_seq r) (rc_chan r).

(** ** Properties *)

(** C4. In every state the goroutines can bring the bus to, each buffer is within its
    capacity of 64, every subscribed channel exists, and no channel is subscribed twice
    or after its cancellation. *)
Theorem bus_invariant (b : EventBus) (fl : list (Event * list nat)) :
  bus_reachable (mkSys b fl) →
  (∀ ch, (length (buffer_of ch b) ≤ chan_cap)%nat) ∧
  (∀ typ, NoDup (subs_of typ b)) ∧
  (∀ typ typ' ch, ch ∈ subs_of typ b → ch ∈ subs_of typ' b → typ = typ') ∧
  (∀ typ ch, ch ∈ subs_of typ b → is_Some (buffers b !! ch) ∧ ch ∉ done_closed b).
Proof.
  intros [Hwf _]%bus_reachable_wf. simpl in Hwf. split; [|split; [|split]].
  - intros ch. unfold buffer_of. destruct (buffers b !! ch) eqn:E; simpl; [|lia].
    by eapply bw_cap.
  - by apply bw_nodup.
  - by apply bw_disjoint.
  - intros typ ch Hch. split; [by eapply bw_exists|].
    intros H. by apply (bw_done b Hwf typ) in H as [? _].
Qed.

(** How often a channel is a subscriber of an event: once for a subscription of its type or of
    ["*"], and twice for a subscription of ["*"] when that is also the type. *)
Definition subscribed (ev : Event) (ch : nat) (b : EventBus) : nat :=
  if bool_decide (ch ∈ subs_of "*" b) then (if Ev_Type ev =s "*" then 2 else 1)
  else if bool_decide (ch ∈ subs_of (Ev_Type ev) b) then 1 else 0.

(** C5. [Publish] never blocks, and delivers to each channel as often as it is subscribed to the
    event ([subscribed]): once for a subscriber of its type or of ["*"], twice for one of ["*"]
    if the event has that type itself, never for others.  The event comes at the end of the
    buffer; what a full buffer has no room for is lost. *)
Theorem publish_delivery (b : EventBus) (fl : list (Event * list nat)) (ev : Event) (ch : nat) :
  bus_reachable (mkSys b fl) →
  buffer_of ch (Publish ev b) =
  buffer_of ch b ++ replicate (min (subscribed ev ch b) (chan_cap - length (buffer_of ch b))) ev.
Proof.
  intros [Hwf _]%bus_reachable_wf. simpl in Hwf. unfold Publish. rewrite offers_buffer.
  - do 2 f_equal. unfold targets, subscribed. rewrite filter_app, length_app, !filter_NoDup by (by apply bw_nodup).
    f_equal. destruct (String.eqb_spec (Ev_Type ev) "*") as [->|Ht]; [by case_bool_decide|].
    repeat case_bool_decide; try done. by destruct Ht; eapply bw_disjoint.
  - unfold buffer_of. destruct (buffers b !! ch) eqn:E; simpl; [by eapply bw_cap|lia].
Qed.

(** C6. After its cancellation a subscriber gets no new event: whatever the goroutines do
    next, its channel only holds events that were already buffered, or whose [Publish]
    had copied the subscriber lists before the cancellation and was still sending. *)
Theorem cancel_stops_delivery (b b' : EventBus) (fl fl' : list (Event * list nat))
    (typ : string) (ch : nat) (ev : Event) :
  bus_reachable (mkSys b fl) → ch ∈ subs_of typ b →
  rtc bus_step (mkSys (cancel typ ch b) fl) (mkSys b' fl') →
  ev ∈ buffer_of ch b' →
  ev ∈ buffer_of ch b ∨ ∃ l, (ev, l) ∈ fl ∧ ch ∈ l.
Proof.
  intros [Hwf _]%bus_reachable_wf Hch Hsteps Hev. simpl in Hwf.
  assert (ch ∉ done_closed b) as Hd.
  { intros H. by apply (bw_done b Hwf typ) in H as [? _]. }
  assert (bus_wf (cancel typ ch b)) as Hwf' by (apply bus_wf_cancel; auto).
  assert (ch ∈ done_closed (cancel typ ch b)) as Hd'.
  { unfold cancel. rewrite bool_decide_false by done. simpl. set_solver. }
  eapply (dt_buffer ch (λ ev, ev ∈ buffer_of ch b ∨ ∃ l, (ev, l) ∈ fl ∧ ch ∈ l)
    (mkSys b' fl')); [|exact Hev].
  eapply detached_steps; [exact Hsteps|]. constructor; simpl.
  - intros t. exact (proj1 (bw_done _ Hwf' t ch Hd')).
  - exact (proj2 (bw_done _ Hwf' typ ch Hd')).
  - rewrite buffer_of_cancel. auto.
  - eauto.
Qed.

Lemma demo_bus_reachable : bus_reachable (mkSys demo_bus []).
Proof.
  eapply rtc_l; [apply (step_subscribe _ _ "*")|].
  eapply rtc_l; [apply (step_subscribe _ _ "server.crashed")|]. apply rtc_refl.
Qed.

Lemma bus_invariant_witness : (length (buffer_of 1 demo_bus) ≤ chan_cap)%nat.
Proof. exact (proj1 (bus_invariant demo_bus [] demo_bus_reachable) 1%nat). Defined.

Lemma publish_delivery_witness :
  buffer_of 1 (Publish (mkEvent "server.crashed" "s1") demo_bus) = [mkEvent "server.crashed" "s1"].
Proof.
  rewrite (publish_delivery demo_bus [] (mkEvent "server.crashed" "s1") 1 demo_bus_reachable). reflexivity.
Defined.

(** The one event that arrives after the cancellation belongs to an earlier [Publish]. *)
Lemma cancel_stops_delivery_witness :
  let ev := mkEvent "server.crashed" "s1" in
  ev ∈ buffer_of 1 demo_bus ∨ ∃ l, (ev, l) ∈ [(ev, [1%nat; 0%nat])] ∧ 1%nat ∈ l.
Proof.
  apply (cancel_stops_delivery demo_bus
    (offer (mkEvent "server.crashed" "s1") (cancel "server.crashed" 1 demo_bus) 1)
    _ [(mkEvent "server.crashed" "s1", [0%nat])] "server.crashed" 1).
  - eapply rtc_r; [exact demo_bus_reachable|].
    exact (step_publish demo_bus [] (mkEvent "server.crashed" "s1")).
  - vm_compute. left.
  - eapply rtc_l; [apply (step_send _ [] [])|]. apply rtc_refl.
  - vm_compute. left.
Defined.

(** *** The recorder *)

(** One turn of the recorder, without database faults: the waiting event is taken
    from the channel and its row is appended exactly when the server it names is still in
    the table (or it names none) and the id made from the process-wide counter is unused;
    otherwise the event is lost and the table does not change. *)
Theorem recorder_step_spec (json_valid : string → bool) (r : RecorderState) (ev : Event)
    (bus : EventBus) :
  wf (rc_db r) → json_valid "{}" = true → db_faults (rc_db r) = [] →
  has_table (rc_db r) "events" = true →
  Ev_Type ev ≠ "" → 0 ≤ rc_seq r < 2^64 - 1 →
  receive (rc_chan r) (rc_bus r) = Some (ev, bus) →
  let r' := recorder_step json_valid r in
  rc_bus r' = bus ∧
  db_events (rc_db r') = db_events (rc_db r) ++
    (if (bool_decide (event_id (rc_seq r + 1) ∈ (vr_id <$> db_events (rc_db r))))
        || negb ((Ev_ServerID ev =s "") || server_exists (rc_db r) (Ev_ServerID ev))
     then []
     else [mkEventRow (event_id (rc_seq r + 1)) (Ev_Type ev) (nullIfEmpty (Ev_ServerID ev))
             "info" (Ev_Type ev) "{}" zeroTime]).
Proof.
  intros Hwf Hj Hf Ht Hty Hseq Hr. unfold recorder_step. rewrite Hr. cbv zeta. simpl.
  split; [done|]. rewrite Z.mod_small by lia. set (n := rc_seq r + 1) in *.
  unfold SaveEvent. simpl. apply String.eqb_neq in Hty. rewrite Hty. simpl.
  unfold fail_if. simpl. unfold mbind, M_bind. simpl.
  rewrite query_no_fault by done. rewrite Hj. simpl.
  rewrite exec_no_fault by (simpl; rewrite ?Ht; done). simpl.
  destruct (existsb (λ r0, vr_id r0 =s event_id n) (db_events (rc_db r))) eqn:Ex.
  - rewrite bool_decide_true; [by rewrite app_nil_r|].
    by apply existsb_key.
  - rewrite bool_decide_false; [|by apply existsb_key_false].
    unfold fk_check. rewrite (wf_fk _ Hwf). unfold nullIfEmpty. simpl.
    destruct (Ev_ServerID ev =s "") eqn:Es; simpl; [done|].
    destruct (server_exists (rc_db r) (Ev_ServerID ev)); simpl; [done|by rewrite app_nil_r].
Qed.


Lemma restarted_recorder_wf : wf (rc_db restarted_recorder).
Proof.
  refine (keeps_run_op (λ _, true) (OpSaveEvent (recorded 1 (mkEvent "server.crashed" "s1")))
    server_db server_db_wf).
Qed.

(** The second process numbers its events from 1 again: its first event is lost. *)
Lemma recorder_step_spec_witness :
  db_events (rc_db (recorder_step (λ _, true) restarted_recorder)) =
  db_events (rc_db restarted_recorder).
Proof.
  destruct (recorder_step_spec (λ _, true) restarted_recorder (mkEvent "server.started" "s1")
    (mkBus {["*" := [0%nat]]} {[0%nat := []]} ∅ 1)) as [_ H];
    [exact restarted_recorder_wf|reflexivity|vm_compute; reflexivity|vm_compute; reflexivity
    |discriminate|vm_compute; split; [discriminate|reflexivity]|vm_compute; reflexivity|].
  etrans; [exact H|]. vm_compute. reflexivity.
Defined.
