(* ===== verification/Filesystem.v ===== *)
(** * Server files ([internal/filesystem])

    The manager confines every operation to [root/<server id>/data]; the SFTP
    handlers reach it through the same [ResolvePath].  [ctx.Err()] is a call that
    may fail at any point; an opened file is the node it was opened on. *)

From S2P Require Import Prelude GoLib GoPath GoOS Store.
From Stdlib Require Import Ascii.

(** ** Definitions *)

Definition ErrPathOutsideRoot : error := ESentinel fs_ErrPathOutsideRoot.
Definition ErrNotFound : error := ESentinel fs_ErrNotFound.
Definition ErrServerNotFound : error := ESentinel fs_ErrServerNotFound.

(** [FileInfo], without the times; of [Mode] only its first letter. *)
Record FileInfo := mkFileInfo {
  fi_Name : string; fi_Path : string; fi_IsDir : bool; fi_SizeBytes : Z; fi_Mode : string }.

Definition mode_string (n : fnode) : string :=
  match n with NDir => "d" | NLink _ => "L" | NFile _ _ => "-" end.

(** [ctx.Err()] *)
Definition ctx_Err : M OS unit := syscall (λ o, Ok (tt, os_tree o)).

(** [^[A-Za-z0-9_-]+$] *)
Definition server_id_byte (c : ascii) : bool :=
  is_alnum c || bool_decide (c = "_"%char) || bool_decide (c = "-"%char).
Definition validServerID (s : string) : bool := matches_class1 server_id_byte s.

(** An [io.Reader]: what successive calls of [Read] give, and how they end. *)
Record Reader := mkReader { rd_Pieces : list string; rd_End : res unit }.

(** [os.Open]; and the opened file as a reader. *)
Definition os_Open (p : string) : M OS fnode := Stat p.
Definition file_reader (n : fnode) : Reader :=
  match n with NFile c _ => mkReader [c] (Ok tt) | _ => mkReader [] (Err EISDIR) end.

(** The writes of [io.Copy] to the temporary file [name], which holds [acc]. *)
Fixpoint copy_pieces (name acc : string) (pieces : list string) : M OS unit :=
  match pieces with
  | [] => mret tt
  | p :: pieces =>
      (if p =s "" then mret tt else temp_Write name (acc +:+ p));;
      copy_pieces name (acc +:+ p) pieces
  end.
Definition io_Copy (name : string) (content : Reader) : M OS unit :=
  copy_pieces name "" (rd_Pieces content);; lift_res (rd_End content).

Definition nul : string := String "000" "".

Section Manager.
Context (root : string).                    (* m.root *)

Definition serverRoot (serverID : string) : res string :=
if validServerID serverID then Ok (Join [root; serverID; "data"]) else Err ErrServerNotFound.

(** The loop over the components of [rel]. *)
Fixpoint reject_loop (current : string) (parts : list string) : M OS unit :=
match parts with
| [] => mret tt
| part :: parts =>
    if (part =s ".") || (part =s "") then reject_loop current parts
    else
      let current := Join [current; part] in
      info ← try (Lstat current);
      match info with
      | Err e => if IsNotExist e then mret tt else fail e
      | Ok n => if IsSymlink n then fail ErrPathOutsideRoot else reject_loop current parts
      end
end.

Definition rejectSymlinkComponents (base target : string) : M OS unit :=
match Rel base target with
| Err _ => fail ErrPathOutsideRoot
| Ok rel => reject_loop base (Split slash rel)
end.

Definition ResolvePath (serverID relPath : string) : M OS string :=
base ← lift_res (serverRoot serverID);
fail_if (IsAbs relPath || Contains relPath nul) ErrPathOutsideRoot;;
fail_if (Contains relPath "\") ErrPathOutsideRoot;;
let abs := Join [base; Clean relPath] in
match Rel base abs with
| Err _ => fail ErrPathOutsideRoot
| Ok rel =>
    fail_if ((rel =s "..") || HasPrefix rel "../") ErrPathOutsideRoot;;
    rejectSymlinkComponents base abs;;
    mret abs
end.

Definition ensureRoot (serverID : string) : M OS string :=
base ← lift_res (serverRoot serverID);
wrap "buat root server" [] (MkdirAll base);;
mret base.

(** [if os.IsNotExist(err) { return ErrNotFound }] *)
Definition not_found {A} (m : M OS A) : M OS A :=
r ← try m;
match r with
| Ok a => mret a
| Err e => fail (if IsNotExist e then ErrNotFound else e)
end.

Definition file_info (serverID abs : string) (entry : string * fnode) : FileInfo :=
mkFileInfo entry.1
  (match Rel (Join [root; serverID; "data"]) (Join [abs; entry.1]) with Ok c => c | Err _ => "" end)
  (IsDir entry.2) (Size entry.2) (mode_string entry.2).

Fixpoint list_loop (serverID abs : string) (es : list (string * fnode)) : M OS (list FileInfo) :=
match es with
| [] => mret []
| e :: es =>
    ctx_Err;;
    rest ← list_loop serverID abs es;
    mret (file_info serverID abs e :: rest)
end.

Definition List (serverID relPath : string) : M OS (list FileInfo) :=
ctx_Err;;
abs ← ResolvePath serverID relPath;
es ← not_found (ReadDir abs);
list_loop serverID abs es.

Definition Read (serverID relPath : string) : M OS fnode :=
ctx_Err;;
abs ← ResolvePath serverID relPath;
not_found (os_Open abs).

(** What follows [os.CreateTemp] in [Write], up to [tmp.Close]: the copy, and the rest. *)
Definition seal_temp (name : string) : M OS unit :=
temp_Chmod name 384;;
temp_Sync name;;
temp_Close name.
Definition fill_temp (name : string) (content : Reader) : M OS unit :=
io_Copy name content;;
seal_temp name.

(** [Write] up to the temporary file: the path it will get, and its name. *)
Definition write_prepare (serverID relPath : string) : M OS (string * string) :=
ctx_Err;;
ensureRoot serverID;;
abs ← ResolvePath serverID relPath;
MkdirAll (Dir abs);;
name ← CreateTemp (Dir abs) ".upload-" "";
mret (abs, name).

Definition Write (serverID relPath : string) (content : Reader) : M OS unit :=
an ← write_prepare serverID relPath;
defer (fill_temp an.2 content;; Rename an.2 an.1) (Remove an.2).

Definition Delete (serverID relPath : string) (recursive : bool) : M OS unit :=
ctx_Err;;
abs ← ResolvePath serverID relPath;
info ← not_found (Lstat abs);
if IsDir info && recursive then RemoveAll abs else Remove abs.

Definition Rename_ (serverID oldPath newPath : string) : M OS unit :=
ctx_Err;;
oldAbs ← ResolvePath serverID oldPath;
newAbs ← ResolvePath serverID newPath;
MkdirAll (Dir newAbs);;
Rename oldAbs newAbs.

Definition Copy (serverID srcPath dstPath : string) : M OS unit :=
ctx_Err;;
src ← Read serverID srcPath;
Write serverID dstPath (file_reader src).

Definition CreateDir (serverID relPath : string) : M OS unit :=
ctx_Err;;
abs ← ResolvePath serverID relPath;
MkdirAll abs.

(** *** [sftp.go]: the handlers of one session, for the [serverID] of its credential *)

Definition Fileread (serverID filepath : string) : M OS fnode :=
path ← ResolvePath serverID (TrimPrefix filepath "/");
os_Open path.

(** The open file is the path it was opened at. *)
Definition Filewrite (serverID filepath : string) : M OS string :=
path ← ResolvePath serverID (TrimPrefix filepath "/");
MkdirAll (Dir path);;
OpenCreate path 384;;
mret path.

(** The request server's use of it: it answers each write of the client, [(offset, data)],
    with its error, and goes on. *)
Definition sftp_put (serverID filepath : string) (writes : list (Z * string)) : M OS unit :=
path ← Filewrite serverID filepath;
for_each (λ w, ignore (WriteAt path w.2 w.1)) writes.

Definition Filecmd (serverID method filepath target : string) : M OS unit :=
let path := TrimPrefix filepath "/" in
if method =s "Mkdir" then CreateDir serverID path
else if method =s "Remove" then Delete serverID path false
else if method =s "Rmdir" then Delete serverID path true
else if method =s "Rename" then Rename_ serverID path (TrimPrefix target "/")
else mret tt.

Definition parseMode (mode : string) : Z := if HasPrefix mode "d" then 2^31 else 384.

Definition Filelist (serverID filepath : string) : M OS (list FileInfo) :=
List serverID (TrimPrefix filepath "/").
End Manager.

(** [sftpFileList.ListAt]: [Err io.EOF] at the end, else the entries copied into a
    buffer of [cap] entries. *)
Definition ListAt {A} (l : list A) (cap : nat) (offset : Z) : res (list A) :=
  if Z.of_nat (length l) <=? offset then Err (ESentinel io_EOF)
  else Ok (take cap (drop (Z.to_nat offset) l)).

(** The request server's use of it: read pages until the end of the list. *)
Fixpoint list_pages {A} (fuel : nat) (l : list A) (cap : nat) (offset : Z) : option (list A) :=
  match fuel with
  | O => None
  | S fuel =>
      match ListAt l cap offset with
      | Err _ => Some []
      | Ok page => (page ++.) <$> list_pages fuel l cap (offset + Z.of_nat (length page))
      end
  end.

Section SFTP.
(** [ssh.ParseAuthorizedKey] and [Marshal] of its result. *)
Context (parse_authorized_key : string → option string).

(** [PublicKeyCallback]: the server a user with [key] is let into. *)
Definition PublicKeyCallback (user key : string) : M DB string :=
c ← GetSFTPCredential user;
match parse_authorized_key (sc_PublicKey c) with
| None => fail (EExt "ssh: no key found")
| Some allowed =>
    if allowed =s key then mret (sc_ServerID c)
    else fail (Errorf "public key tidak cocok" [])
end.
End SFTP.

(** The operations a client can ask of the manager for one server. *)
Inductive FsOp :=
| OpList (p : string) | OpRead (p : string) | OpWrite (p : string) (content : Reader)
| OpDelete (p : string) (recursive : bool) | OpRename (p q : string) | OpCopy (p q : string)
| OpCreateDir (p : string) | OpFileread (p : string) | OpPut (p : string) (writes : list (Z * string))
| OpFilecmd (method p target : string) | OpFilelist (p : string).

Definition run_fs_op (root serverID : string) (op : FsOp) : M OS unit :=
  match op with
  | OpList p => List root serverID p;; mret tt
  | OpRead p => Read root serverID p;; mret tt
  | OpWrite p c => Write root serverID p c
  | OpDelete p r => Delete root serverID p r
  | OpRename p q => Rename_ root serverID p q
  | OpCopy p q => Copy root serverID p q
  | OpCreateDir p => CreateDir root serverID p
  | OpFileread p => Fileread root serverID p;; mret tt
  | OpPut p ws => sftp_put root serverID p ws
  | OpFilecmd m p q => Filecmd root serverID m p q
  | OpFilelist p => Filelist root serverID p;; mret tt
  end.
