(* ===== verification/FilesystemFacts.v ===== *)
(** * The manager's confinement: invariant, frame, and a rule per step

    [fs_inv] is what every operation of [Filesystem] relies on and keeps,
    [server_frame] is all it may change. *)

From S2P Require Import Prelude GoLib GoPath GoOS GoOSFacts GoOSRun Store Filesystem.
From Stdlib Require Import Ascii.

(** ** Definitions *)

(** The components of [root/<id>] and of [root/<id>/data]. *)
Definition server_dir (root id : string) : path := norm true (comps root) ++ [id].
Definition data_dir (root id : string) : path := server_dir root id ++ ["data"].

(** The tree is well-formed and the data directory is not reached through a link. *)
Definition fs_inv (root id : string) (o : OS) : Prop :=
  tree_ok (os_tree o) ∧ no_link (os_tree o) (data_dir root id).

(** All that changes is inside the server's directory, or a missing ancestor of it that
    became a directory. *)
Definition server_frame (root id : string) (t t' : tree) : Prop :=
  ∀ k, t' !! k = t !! k ∨ below (server_dir root id) k ∨
       (below k (server_dir root id) ∧ t !! k = None ∧ t' !! k = Some NDir).

(** A path [ResolvePath] has accepted: in the data directory, without a link on it. *)
Definition good (root id : string) (t : tree) (cs : path) (abs : string) : Prop :=
  abs = render true (data_dir root id ++ cs) ∧
  Forall comp_ok (data_dir root id ++ cs) ∧ plain (data_dir root id ++ cs) ∧
  no_link t (data_dir root id ++ cs).

(** ** Lemmas *)

Lemma valid_id_ok id : validServerID id = true → comp_ok id ∧ id ≠ "..".
Proof.
  unfold validServerID, matches_class1. rewrite andb_true_iff, bool_decide_eq_true.
  intros [H1 H2]. split; [split; [done|]; split|].
  - intros ->. done.
  - eapply bytes_all_impl; [|exact H2]. intros c Hc. apply bool_decide_eq_true. by intros ->.
  - intros ->. done.
Qed.

Section Confinement.
Context (root id : string).
Context (Hroot : IsAbs root = true) (Hid : validServerID id = true).

Local Abbreviation data := (data_dir root id).
Local Abbreviation server := (server_dir root id).
Local Abbreviation frame := (server_frame root id).
Local Abbreviation inv := (fs_inv root id).

Lemma server_ok : Forall comp_ok server ∧ plain server.
Proof.
destruct (valid_id_ok id Hid) as [H1 H2]. unfold server_dir. split.
- apply Forall_app. split; [|by constructor].
  apply norm_go_ok; [constructor|apply comps_ok].
- apply plain_app. split; [apply norm_plain|by constructor].
Qed.

Lemma data_ok : Forall comp_ok data ∧ plain data.
Proof.
destruct server_ok as [H1 H2]. unfold data_dir. split.
- apply Forall_app. split; [done|]. by constructor.
- apply plain_app. split; [done|]. by constructor.
Qed.

Lemma serverRoot_spec : serverRoot root id = Ok (render true data).
Proof.
unfold serverRoot. rewrite Hid. f_equal. destruct (valid_id_ok id Hid) as [Hc Hd].
assert (root ≠ "") as Hr by (intros ->; done).
rewrite Join_three; [|done|by destruct Hc|done]. unfold Clean.
rewrite (IsAbs_app root) by done. rewrite Hroot.
rewrite !comps_sep_app, (comps_comp id), (comps_comp "data") by done.
unfold norm. rewrite norm_go_app, (norm_go_plain _ _ ([id] ++ ["data"])) by (by repeat constructor).
rewrite rev_involutive. unfold data_dir, server_dir, norm. by rewrite <- app_assoc.
Qed.

Lemma frame_refl t : frame t t.
Proof. intros k. by left. Qed.

Lemma frame_trans t1 t2 t3 : frame t1 t2 → frame t2 t3 → frame t1 t3.
Proof.
intros H1 H2 k. destruct (H1 k) as [E1|[?|(B1 & N1 & D1)]]; [|auto|];
  destruct (H2 k) as [E2|[?|(B2 & N2 & D2)]]; auto.
all: first [left; congruence|right; right; split; [done|]; split; congruence].
Qed.

Lemma changes_frame t t' : changes (below server) t t' → frame t t'.
Proof. intros H k. destruct (H k); auto. Qed.

Lemma adds_dirs_frame p t t' : below server p → adds_dirs p t t' → frame t t'.
Proof.
intros Hp H k. destruct (H k) as [?|(B & N & D)]; [auto|].
destruct (prefix_weak_total k server p B Hp); [|auto]. right; right. done.
Qed.

Lemma below_data cs : below server (data ++ cs).
Proof. unfold data_dir, below. rewrite <- app_assoc. by apply prefix_app_r. Qed.

Lemma removelast_data cs : ∃ ds, removelast (data ++ cs) = server ++ ds.
Proof.
destruct cs as [|c cs _] using rev_ind.
- rewrite app_nil_r. unfold data_dir. rewrite removelast_last. exists []. by rewrite app_nil_r.
- rewrite app_assoc, removelast_last. unfold data_dir. rewrite <- app_assoc. eauto.
Qed.

Lemma data_not_nil cs : data ++ cs ≠ [].
Proof. unfold data_dir, server_dir. intros H. by apply (f_equal length) in H; rewrite !length_app in H; simpl in H; lia. Qed.

Lemma good_direct t cs abs : good root id t cs abs → direct abs ∧ comps abs = data ++ cs.
Proof.
intros (-> & H1 & H2 & _). unfold direct.
rewrite IsAbs_render, comps_render by done. done.
Qed.

Lemma good_same t t' cs abs : no_new_links t t' → good root id t cs abs → good root id t' cs abs.
Proof. intros H (H1 & H2 & H3 & H4). split; [done|]. repeat split; [done..|]. by eapply no_link_no_new. Qed.

Lemma good_Dir t cs abs :
good root id t cs abs →
direct (Dir abs) ∧ comps (Dir abs) = removelast (data ++ cs) ∧ no_link t (comps (Dir abs)) ∧
below server (comps (Dir abs)).
Proof.
intros (-> & H1 & H2 & H3). rewrite Dir_render by done.
destruct (snoc_removelast (data ++ cs) (data_not_nil cs)) as (p & c & E & Ep).
rewrite Ep. rewrite E in H1, H2, H3. apply Forall_app in H1 as [H1 _].
apply plain_app in H2 as [H2 _]. unfold direct. rewrite IsAbs_render, comps_render by done.
split; [done|]. split; [done|]. split.
- eapply no_link_prefix; [exact H3|]. by exists [c].
- destruct (removelast_data cs) as [ds Hds]. rewrite <- Ep, Hds. by exists ds.
Qed.
(** *** [ResolvePath] *)

Lemma reject_filter o cur parts :
reject_loop cur parts o = reject_loop cur (filter (λ c, is_comp c = true) parts) o.
Proof.
revert o cur. induction parts as [|c parts IH]; intros o cur; [done|].
rewrite filter_cons. assert (is_comp c = negb ((c =s ".") || (c =s ""))) as Hc.
{ unfold is_comp. by rewrite orb_comm. }
simpl. destruct ((c =s ".") || (c =s "")) eqn:E; simpl in Hc.
- rewrite decide_False by congruence. apply IH.
- rewrite decide_True by done. simpl. rewrite E.
  unfold mbind, M_bind. destruct (try _ o) as [[[n|e]|e] o1]; [|done|done].
  destruct (IsSymlink n); [done|apply IH].
Qed.

Lemma Join_render p c :
Forall comp_ok p → plain p → comp_ok c → c ≠ ".." → Join [render true p; c] = render true (p ++ [c]).
Proof.
intros H1 H2 H3 H4. rewrite Join_abs_eq; [|by apply IsAbs_render|by destruct H3].
rewrite comps_render, comps_comp by done. rewrite norm_plain_id; [done|].
apply plain_app. split; [done|by constructor].
Qed.

Lemma reject_loop_spec cs p o r o' :
Forall comp_ok (p ++ cs) → plain (p ++ cs) → tree_ok (os_tree o) → no_link (os_tree o) p →
reject_loop (render true p) cs o = (r, o') →
os_tree o' = os_tree o ∧ (r = Ok tt → no_link (os_tree o) (p ++ cs)).
Proof.
revert p o. induction cs as [|c cs IH]; intros p o H1 H2 Ht Hl; simpl.
- intros [= <- <-]. by rewrite app_nil_r.
- assert (Forall comp_ok (p ++ [c]) ∧ plain (p ++ [c])) as [H1' H2'].
  { change (c :: cs) with ([c] ++ cs) in H1, H2. rewrite app_assoc in H1, H2.
    apply Forall_app in H1 as [? _]. by apply plain_app in H2 as [? _]. }
  assert (comp_ok c ∧ c ≠ "..") as [Hc Hd].
  { apply Forall_app in H1' as [_ H]. apply plain_app in H2' as [_ H'].
    split; [by inversion H|by inversion H']. }
  assert ((c =s ".") || (c =s "") = false) as ->.
  { destruct Hc as (Hc1 & Hc2 & _). apply orb_false_iff. by rewrite !String.eqb_neq. }
  pose proof H1 as [Hp _]%Forall_app. rewrite Join_render; [|done| |done|done]; last first.
  { by apply plain_app in H2 as [? _]. }
  unfold mbind, M_bind, try. destruct (Lstat (render true (p ++ [c])) o) as [r1 o1] eqn:E.
  assert (os_tree o1 = os_tree o) as Ho1.
  { pose proof (reads_stat false (render true (p ++ [c])) o) as H. unfold Lstat in E.
    by rewrite E in H. }
  assert (comps (render true (p ++ [c])) = p ++ [c]) as Hcomps by (by apply comps_render).
  assert (p ++ [c] ≠ []) as Hne by (by destruct p).
  apply Lstat_effect in E; rewrite ?Hcomps in *; [|split; [by apply IsAbs_render|by rewrite Hcomps]
    |done|by apply no_link_above_snoc|done].
  destruct r1 as [n|e].
  + destruct (IsSymlink n) eqn:En; [intros [= <- <-]; split; [done|intros [=]]|].
    intros Hr. destruct (IH (p ++ [c]) o1) as [H5 H6]; rewrite ?Ho1 in *;
      rewrite <- ?app_assoc in *; simpl in *; auto.
    apply no_link_above_last; [by apply no_link_above_snoc|]. rewrite E. intros tg [= ->].
    discriminate.
  + destruct (IsNotExist e) eqn:Ee; [|intros [= <- <-]; split; [done|intros [=]]].
    unfold IsNotExist in Ee. apply bool_decide_eq_true in Ee. intros [= <- <-].
    split; [done|]. intros _ q d tg Hpre Hlk.
    destruct (prefix_weak_total (q ++ [d]) (p ++ [c]) (p ++ c :: cs)) as [Hq|Hq].
    * done.
    * by exists cs; rewrite <- app_assoc.
    * eapply (no_link_above_snoc _ p c Hl q d tg Hq); [|exact Hlk].
      intros Heq. rewrite Heq in Hlk. by rewrite E in Hlk.
    * eapply below_none in Hq; [|done|by apply E|done]. congruence.
Qed.

(** Without faults it accepts a path to something that is not a link. *)
Lemma reject_loop_run cs n o : ∀ p,
os_faults o = [] → tree_ok (os_tree o) → Forall comp_ok (p ++ cs) → plain (p ++ cs) →
os_tree o !! (p ++ cs) = Some n → IsSymlink n = false →
reject_loop (render true p) cs o = (Ok tt, o).
Proof.
induction cs as [|c cs IH]; intros p Hf Ht H1 H2 Hn Hl; [done|]. simpl.
rewrite cons_middle in H1, H2, Hn. rewrite app_assoc in H1, H2, Hn.
pose proof H1 as [H1' _]%Forall_app. pose proof H2 as [H2' _]%plain_app.
pose proof H1' as [Hp [Hc _]%Forall_cons]%Forall_app. pose proof H2' as [Pp [Pc _]%Forall_cons]%plain_app.
assert ((c =s ".") || (c =s "") = false) as ->.
{ destruct Hc as (Hc1 & Hc2 & _). apply orb_false_iff. by rewrite !String.eqb_neq. }
rewrite Join_render by done. unfold mbind, M_bind, try.
assert (∃ m, os_tree o !! (p ++ [c]) = Some m ∧ IsSymlink m = false) as (m & Hm & Hml).
{ destruct cs as [|d cs]; [rewrite app_nil_r in Hn; eauto|].
  exists NDir. split; [|done].
  assert (node_at (os_tree o) (p ++ [c]) = Some NDir) as H; [|by destruct p].
  eapply tree_ok_below; [done|exact Hn|by exists (d :: cs)|].
  intros Heq. apply (f_equal length) in Heq. rewrite !length_app in Heq. simpl in Heq. lia. }
rewrite (Lstat_at o Hf Ht _ m).
- rewrite Hml. by apply IH.
- unfold direct. by rewrite IsAbs_render, comps_render.
- rewrite comps_render by done. by destruct p.
- by rewrite comps_render.
- by intros tg ->.
Qed.

Lemma rejectSymlinkComponents_spec cs o r o' :
Forall comp_ok (data ++ cs) → plain (data ++ cs) → fs_inv root id o →
rejectSymlinkComponents (render true data) (render true (data ++ cs)) o = (r, o') →
os_tree o' = os_tree o ∧ (r = Ok tt → no_link (os_tree o) (data ++ cs)).
Proof.
intros H1 H2 [Ht Hl] H. pose proof H1 as [Hd Hcs]%Forall_app. pose proof H2 as [Pd Pcs]%plain_app.
pose proof (Rel_abs (render true data) (render true (data ++ cs))) as Hrel.
rewrite !IsAbs_render, !comps_render, strip_common_prefix in Hrel by done.
unfold rejectSymlinkComponents in H. rewrite Hrel in H by done. simpl in H.
rewrite reject_filter in H. change (filter _ _) with (comps (render false cs)) in H.
rewrite comps_render in H by done. by eapply reject_loop_spec.
Qed.

(** [ResolvePath] refuses a path for what it spells, or looks for links on one path inside. *)
Lemma ResolvePath_cases rel :
(∃ e, ∀ o, ResolvePath root id rel o = (Err e, o)) ∨
∃ cs, Forall comp_ok (data ++ cs) ∧ plain (data ++ cs) ∧ ∀ o, ResolvePath root id rel o =
  (rejectSymlinkComponents (render true data) (render true (data ++ cs));; mret (render true (data ++ cs))) o.
Proof.
destruct data_ok as [Hd Pd]. unfold ResolvePath. rewrite serverRoot_spec.
unfold lift_res, mbind at 1 6, M_bind at 1 6. unfold fail_if at 1 4.
destruct (IsAbs rel || Contains rel nul); [left; by eexists|]. simpl.
destruct (Contains rel "\"); [left; by eexists|]. simpl.
assert (Clean rel ≠ "") as Hne by apply render_not_empty, norm_ok.
rewrite Join_abs_eq by (done || by apply IsAbs_render). rewrite comps_render by done.
set (n := norm true (data ++ comps (Clean rel))).
assert (Forall comp_ok n) as Hn.
{ apply norm_go_ok; [constructor|]. apply Forall_app. split; [done|apply comps_ok]. }
assert (plain n) as Pn by apply norm_plain.
pose proof (Rel_abs (render true data) (render true n)) as Hrel.
rewrite !IsAbs_render, !comps_render in Hrel by done.
destruct (strip_common data n) as [b t] eqn:Es. rewrite Hrel by done.
apply strip_common_spec in Es as (p & E1 & E2 & _).
assert (Forall comp_ok (replicate (length b) ".." ++ t)) as Hbt.
{ apply Forall_app. split; [by apply Forall_replicate|]. rewrite E2 in Hn.
  by apply Forall_app in Hn as [_ ?]. }
pose proof (render_escapes _ Hbt) as Hesc. unfold fail_if.
destruct ((_ =s "..") || _); [left; by eexists|].
destruct b as [|x b]; [|by destruct Hesc as [_ Hesc]; discriminate Hesc].
rewrite app_nil_r in E1. subst p. rewrite E2 in *. right. by exists t.
Qed.

(** Whatever the requested path: nothing changes, and an accepted path is good. *)
Lemma ResolvePath_spec rel o r o' :
fs_inv root id o → ResolvePath root id rel o = (r, o') →
os_tree o' = os_tree o ∧
(∀ abs, r = Ok abs → ∃ cs, good root id (os_tree o) cs abs).
Proof.
intros Hinv. destruct (ResolvePath_cases rel) as [[e E]|(cs & Hc & Pc & E)]; rewrite E; [by intros [= <- <-]|].
unfold mbind, M_bind. destruct (rejectSymlinkComponents _ _ o) as [r1 o1] eqn:Er.
apply rejectSymlinkComponents_spec in Er as [Ho Hr]; [|done..].
destruct r1 as [[]|e]; intros [= <- <-]; [|done].
split; [done|]. intros abs [= <-]. exists cs. repeat split; auto.
Qed.

(** A path that was accepted once is accepted for as long as it names something that is no link. *)
Lemma ResolvePath_run rel o1 abs o2 o n :
ResolvePath root id rel o1 = (Ok abs, o2) → os_faults o = [] → tree_ok (os_tree o) →
os_tree o !! comps abs = Some n → IsSymlink n = false →
ResolvePath root id rel o = (Ok abs, o).
Proof.
intros E1 Hf Ht Hn Hl. destruct (ResolvePath_cases rel) as [[e E]|(cs & Hc & Pc & E)]; rewrite E in E1 |- *; [done|].
apply bind_inv in E1 as ([] & o3 & _ & [= <- _]). rewrite comps_render in Hn by done.
pose proof Hc as [Hd Hcs]%Forall_app. pose proof Pc as [Pd Pcs]%plain_app.
unfold mbind, M_bind. assert (rejectSymlinkComponents (render true data) (render true (data ++ cs)) o = (Ok tt, o)) as ->; [|done].
pose proof (Rel_abs (render true data) (render true (data ++ cs))) as Hrel.
rewrite !IsAbs_render, !comps_render, strip_common_prefix in Hrel by done.
unfold rejectSymlinkComponents. rewrite Hrel by done. simpl.
rewrite reject_filter. change (filter _ _) with (comps (render false cs)).
rewrite comps_render by done. by eapply reject_loop_run.
Qed.

Lemma ctx_Err_run o : os_faults o = [] → ctx_Err o = (Ok tt, o).
Proof. intros Hf. unfold ctx_Err. rewrite syscall_no_fault by done. by rewrite set_tree_id. Qed.

Lemma Read_run rel o1 abs o2 o n :
ResolvePath root id rel o1 = (Ok abs, o2) → os_faults o = [] → tree_ok (os_tree o) →
os_tree o !! comps abs = Some n → IsSymlink n = false →
Read root id rel o = (Ok n, o).
Proof.
intros E1 Hf Ht Hn Hl. pose proof (ResolvePath_run _ _ _ _ _ _ E1 Hf Ht Hn Hl) as E.
assert (direct abs ∧ comps abs ≠ []) as [Hd Hne].
{ destruct (ResolvePath_cases rel) as [[e E']|(cs & Hc & Pc & E')]; rewrite E' in E1; [done|].
  apply bind_inv in E1 as ([] & o3 & _ & [= <- _]).
  unfold direct. rewrite IsAbs_render, comps_render by done. split; [done|apply data_not_nil]. }
unfold Read, mbind, M_bind. rewrite ctx_Err_run, E by done.
unfold not_found, os_Open, Stat, stat_with, try, mbind, M_bind. rewrite syscall_no_fault by done.
rewrite resolve_entry; [|done|eapply reachable_existing; try done; by intros tg ->].
assert (node_at (os_tree o) (comps abs) = Some n) as -> by (by destruct (comps abs)). by rewrite set_tree_id.
Qed.

(** *** A rule per step *)

Section Steps.
Context (t0 : tree).

Definition step_inv (o : OS) : Prop := fs_inv root id o ∧ server_frame root id t0 (os_tree o).

Lemma step_inv_same o o' : os_tree o' = os_tree o → step_inv o → step_inv o'.
Proof. intros E [[H1 H2] H3]. unfold step_inv, fs_inv. by rewrite E. Qed.

Lemma step_inv_next o o' :
step_inv o → tree_ok (os_tree o') → no_link (os_tree o') data →
frame (os_tree o) (os_tree o') → step_inv o'.
Proof. intros [_ Hf] H1 H2 H3. split; [done|by eapply frame_trans]. Qed.

Lemma wp_reads {A} (m : M OS A) Q o :
reads m → step_inv o →
(∀ r o', os_tree o' = os_tree o → step_inv o' → Q r o') → wp m Q o.
Proof.
intros Hm Hi HQ. unfold wp. apply HQ; [apply Hm|]. eapply step_inv_same; [apply Hm|done].
Qed.

Lemma wp_ResolvePath rel Q o :
step_inv o →
(∀ abs cs o', os_tree o' = os_tree o → step_inv o' → good root id (os_tree o') cs abs → Q (Ok abs) o') →
(∀ e o', os_tree o' = os_tree o → step_inv o' → Q (Err e) o') →
wp (ResolvePath root id rel) Q o.
Proof.
intros Hi HQ HE. unfold wp. destruct (ResolvePath root id rel o) as [r o'] eqn:E. simpl.
apply ResolvePath_spec in E as [Ho Hr]; [|by destruct Hi].
assert (step_inv o') by (by eapply step_inv_same).
destruct r as [abs|e]; [|auto]. destruct (Hr abs eq_refl) as [cs Hg].
eapply HQ; [done..|]. by rewrite Ho.
Qed.

(** A directory is made at, or above, a good path. *)
Lemma wp_MkdirAll p cs abs Q o :
step_inv o → good root id (os_tree o) cs abs →
direct p → no_link (os_tree o) (comps p) → below server (comps p) →
(∀ r o', step_inv o' → good root id (os_tree o') cs abs → Q r o') →
wp (MkdirAll p) Q o.
Proof.
intros Hi Hg Hp Hl Hb HQ. unfold wp. destruct (MkdirAll p o) as [r o'] eqn:E. simpl.
apply MkdirAll_adds in E as [Ha Ht]; [|done..].
pose proof (adds_dirs_no_new_links _ _ _ Ha) as Hn. pose proof Hi as [[H1 H2] _].
apply HQ; [|by eapply good_same]. eapply step_inv_next; [done|auto| |by eapply adds_dirs_frame].
by eapply no_link_no_new.
Qed.

Lemma wp_MkdirAll_Dir cs abs Q o :
step_inv o → good root id (os_tree o) cs abs →
(∀ r o', step_inv o' → good root id (os_tree o') cs abs → Q r o') →
wp (MkdirAll (Dir abs)) Q o.
Proof.
intros Hi Hg HQ. destruct (good_Dir _ _ _ Hg) as (Hd & _ & Hl & Hb). by eapply wp_MkdirAll.
Qed.

Lemma wp_MkdirAll_good cs abs Q o :
step_inv o → good root id (os_tree o) cs abs →
(∀ r o', step_inv o' → good root id (os_tree o') cs abs → Q r o') →
wp (MkdirAll abs) Q o.
Proof.
intros Hi Hg HQ. destruct (good_direct _ _ _ Hg) as [Hd Hc]. eapply wp_MkdirAll; try done.
- rewrite Hc. by destruct Hg as (_ & _ & _ & ?).
- rewrite Hc. apply below_data.
Qed.

Lemma good_data o : step_inv o → good root id (os_tree o) [] (render true data).
Proof.
intros [[_ Hl] _]. destruct data_ok. unfold good. rewrite app_nil_r. done.
Qed.

(** A call that puts a file below the server's directory. *)
Lemma step_puts o o' p :
step_inv o → puts_file o o' p → below server (comps p) →
step_inv o' ∧ no_new_links (os_tree o) (os_tree o').
Proof.
intros Hi Hp Hb. pose proof (puts_file_links _ _ _ Hp) as Hn. split; [|done].
pose proof Hi as [[H1 H2] _]. eapply step_inv_next; [done|by eapply puts_file_ok| |].
- by eapply no_link_no_new.
- apply changes_frame. by eapply puts_file_changes.
Qed.

Lemma step_removes o o' p :
step_inv o → removes o o' p → below server (comps p) →
step_inv o' ∧ no_new_links (os_tree o) (os_tree o').
Proof.
intros Hi Hp Hb. pose proof (removes_links _ _ _ Hp) as Hn. split; [|done].
pose proof Hi as [[H1 H2] _]. eapply step_inv_next; [done|by eapply removes_ok| |].
- by eapply no_link_no_new.
- apply changes_frame. eapply removes_changes; [done|]. intros k Hk. unfold below in *. by etrans.
Qed.

(** A call on a good path that puts a file there. *)
Lemma wp_puts {A} (m : M OS A) cs abs Q o :
(∀ r o', no_link (os_tree o) (comps abs) → m o = (r, o') → puts_file o o' abs) →
step_inv o → good root id (os_tree o) cs abs →
(∀ r o', step_inv o' → good root id (os_tree o') cs abs → Q r o') → wp m Q o.
Proof.
intros Hm Hi Hg HQ. destruct (good_direct _ _ _ Hg) as [Hd Hc].
unfold wp. assert (puts_file o (snd (m o)) abs) as Hp.
{ eapply Hm; [|apply surjective_pairing]. rewrite Hc. by destruct Hg as (_ & _ & _ & ?). }
eapply step_puts in Hp as [Hi' Hn]; [|done|rewrite Hc; apply below_data].
apply HQ; [done|by eapply good_same].
Qed.

Lemma wp_removes (m : string → M OS unit) cs abs Q o :
(∀ r o', no_link_above (os_tree o) (comps abs) → m abs o = (r, o') → removes o o' abs) →
step_inv o → good root id (os_tree o) cs abs →
(∀ r o', step_inv o' → Q r o') → wp (m abs) Q o.
Proof.
intros Hm Hi Hg HQ. destruct (good_direct _ _ _ Hg) as [Hd Hc].
unfold wp. assert (removes o (snd (m abs o)) abs) as Hr.
{ eapply Hm; [|apply surjective_pairing]. rewrite Hc. apply no_link_weaken. by destruct Hg as (_ & _ & _ & ?). }
apply HQ. eapply step_removes; [done..|]. rewrite Hc. apply below_data.
Qed.
(** A rename to a good path, of something that is not a link if it becomes the data
directory itself. *)
Lemma step_Rename o o' p q cs r :
step_inv o → direct p → no_link_above (os_tree o) (comps p) → comps p ≠ [] →
below server (comps p) → good root id (os_tree o) cs q →
(∀ n, comps q = data → comps p ≠ comps q → os_tree o !! comps p = Some n →
    rename_check (os_tree o) (comps p) (comps q) n = None → IsSymlink n = false) →
Rename p q o = (r, o') → step_inv o'.
Proof.
intros Hi Hp Hlp Hp0 Hbp Hg Hn H. destruct (good_direct _ _ _ Hg) as [Hq Hc].
assert (no_link_above (os_tree o) (comps q)) as Hlq.
{ rewrite Hc. apply no_link_weaken. by destruct Hg as (_ & _ & _ & ?). }
assert (comps q ≠ []) as Hq0 by (rewrite Hc; apply data_not_nil).
pose proof Hi as [[H1 H2] _].
assert (tree_ok (os_tree o')) as Ht' by (by eapply (Rename_ok o o' p Hp q)).
eapply Rename_effect in H as [E|(n & Hpn & Hck & Hne & _ & E)];
[by eapply step_inv_same| |done..].
eapply step_inv_next; [done..| |].
- rewrite E. intros x c tg Hpre. rewrite lookup_move_tree.
destruct (decide (below (comps q) (x ++ [c]))) as [Hb|Hb].
+ assert (comps q = data) as Hqd.
  { apply (anti_symm prefix); [by etrans|]. rewrite Hc. by apply prefix_app_r. }
  assert (x ++ [c] = data) as Hx by (apply (anti_symm prefix); [done|by rewrite <- Hqd]).
  rewrite Hx, Hqd, drop_all, app_nil_r, Hpn.
  intros [= ->]. specialize (Hn _ Hqd Hne Hpn Hck). discriminate.
+ case_decide; [done|]. by apply H2.
- rewrite E. apply changes_frame, changes_move_tree; intros k Hk; unfold below in *.
+ by etrans.
+ etrans; [|exact Hk]. rewrite Hc. apply below_data.
Qed.

Lemma wp_Rename_good p q cs1 cs2 Q o :
step_inv o → good root id (os_tree o) cs1 p → good root id (os_tree o) cs2 q →
(∀ r o', step_inv o' → Q r o') → wp (Rename p q) Q o.
Proof.
intros Hi Hp Hq HQ. unfold wp. destruct (Rename p q o) as [r o'] eqn:E. simpl. apply HQ.
destruct (good_direct _ _ _ Hp) as [Hd Hc]. destruct (good_direct _ _ _ Hq) as [_ Hc2].
pose proof Hi as [[Ht _] _].
eapply (step_Rename o o' p q); try done; rewrite ?Hc.
- apply no_link_weaken. by destruct Hp as (_ & _ & _ & ?).
- apply data_not_nil.
- apply below_data.
- intros n Hqd Hne Hpn Hck. rewrite Hqd in *.
assert (node_at (os_tree o) data = Some NDir) as Hdir.
{ eapply tree_ok_below; [done|exact Hpn|by exists cs1|done]. }
unfold rename_check in Hck. rewrite Hdir in Hck. rewrite bool_decide_false in Hck.
+ by destruct n.
+ intros [x Hx]. apply Hne. apply (f_equal length) in Hx. rewrite !length_app in Hx.
  assert (cs1 = []) as -> by (destruct cs1; [done|simpl in Hx; lia]). by rewrite app_nil_r.
Qed.

(** The temporary file of [Write]. *)
Definition temp_of (t : tree) (cs : path) (name : string) : Prop :=
direct name ∧ no_link t (comps name) ∧
∃ c n, comps name = removelast (data ++ cs) ++ [c] ∧ HasPrefix c ".upload-" = true ∧
     t !! comps name = Some n ∧ IsRegular n = true.

Lemma temp_below t cs name : temp_of t cs name → below server (comps name) ∧ comps name ≠ [].
Proof.
intros (_ & _ & c & n & E & _). destruct (removelast_data cs) as [ds Hds].
rewrite E, Hds. split; [exists (ds ++ [c]); by rewrite app_assoc|by destruct (server ++ ds)].
Qed.

Lemma wp_CreateTemp cs abs Q o :
step_inv o → good root id (os_tree o) cs abs →
(∀ name o', step_inv o' → good root id (os_tree o') cs abs → temp_of (os_tree o') cs name →
          Q (Ok name) o') →
(∀ e o', step_inv o' → Q (Err e) o') →
wp (CreateTemp (Dir abs) ".upload-" "") Q o.
Proof.
intros Hi Hg HQ HE. destruct (good_Dir _ _ _ Hg) as (Hd & Hc & Hl & Hb).
unfold wp. destruct (CreateTemp _ _ _ o) as [r o'] eqn:E. simpl.
apply CreateTemp_effect in E; [|done|done|].
2:{ intros z. split; [split; [done|split; [done|]]|].
  - rewrite !bytes_all_app, FormatInt_no_slash. done.
  - done. }
destruct r as [name|e]; [|by apply HE, (step_inv_same o)].
destruct E as (Hdn & c & Hcok & Hpre & Hcn & Hnone & Hdir & Ho').
assert (puts_file o o' name) as Hp.
{ right. exists "", 384. rewrite Hcn in *. rewrite removelast_last.
split; [done|]. split; [by destruct (comps (Dir abs))|]. by rewrite Hnone. }
assert (below server (comps name)) as Hbn.
{ rewrite Hcn. unfold below in *. etrans; [exact Hb|]. by exists [c]. }
destruct (step_puts o o' name Hi Hp Hbn) as [Hi' Hn]. apply HQ; [done|by eapply good_same|].
split; [done|]. split.
- apply no_link_above_last.
+ rewrite Hcn. apply no_link_above_snoc. by eapply no_link_no_new.
+ intros tg. rewrite Ho', lookup_insert_eq. done.
- exists c, (NFile "" 384). rewrite <- Hc. rewrite Ho', lookup_insert_eq. done.
Qed.

(** Writing to the temporary file or changing its mode. *)
Lemma wp_temp_puts (m : M OS unit) cs abs name Q o :
(∀ r o', no_link (os_tree o) (comps name) → m o = (r, o') → puts_file o o' name) →
step_inv o → good root id (os_tree o) cs abs → temp_of (os_tree o) cs name →
(∀ r o', step_inv o' → good root id (os_tree o') cs abs → temp_of (os_tree o') cs name → Q r o') →
wp m Q o.
Proof.
intros Hm Hi Hg Ht HQ. unfold wp.
pose proof Ht as (Hd & Hl & c & n & Hc & Hpre & Hn & Hr).
pose proof (Hm _ _ Hl (surjective_pairing (m o))) as Hp.
revert Hp. generalize (fst (m o)), (snd (m o)). intros r o' Hp.
destruct (step_puts o o' name Hi Hp (proj1 (temp_below _ _ _ Ht))) as [Hi' Hnl].
apply HQ; [done|by eapply good_same|]. split; [done|]. split; [by eapply no_link_no_new|].
destruct Hp as [->|(f & m' & -> & _)]; [by exists c, n|].
exists c, (NFile f m'). rewrite lookup_insert_eq. done.
Qed.

Lemma wp_temp_reads {A} (m : M OS A) cs abs name Q o :
reads m → step_inv o → good root id (os_tree o) cs abs → temp_of (os_tree o) cs name →
(∀ r o', step_inv o' → good root id (os_tree o') cs abs → temp_of (os_tree o') cs name → Q r o') →
wp m Q o.
Proof.
intros Hm Hi Hg Ht HQ. apply wp_reads; [done..|]. intros r o' E Hi'.
apply HQ; [done|..]; by rewrite E.
Qed.

(** The rename of the temporary file leaves the way to it free of links. *)
Lemma wp_temp_Rename cs abs name Q o :
step_inv o → good root id (os_tree o) cs abs → temp_of (os_tree o) cs name →
(∀ r o', step_inv o' → no_link_above (os_tree o') (comps name) → Q r o') →
wp (Rename name abs) Q o.
Proof.
intros Hi Hg Ht HQ. unfold wp. destruct (Rename name abs o) as [r o'] eqn:E. simpl.
pose proof Ht as (Hd & Hl & c & n & Hc & Hpre & Hn & Hr).
pose proof (temp_below _ _ _ Ht) as [Hb Hne].
destruct (good_direct _ _ _ Hg) as [Hda Hca].
apply HQ.
- eapply (step_Rename o o' name abs); [done|done|by apply no_link_weaken|done..| |exact E].
intros n' _ _ Hn' _. rewrite Hn in Hn'. injection Hn' as <-. by destruct n.
- apply (Rename_effect o o' name Hd abs r Hda) in E as [->|(n' & _ & _ & _ & _ & ->)];
  [by apply no_link_weaken| |by apply no_link_weaken|].
+ intros x d tg Hx Hx'. rewrite lookup_move_tree.
  assert (x ++ [d] `prefix_of` removelast (data ++ cs)) as Hs.
  { rewrite Hc in Hx, Hx'. destruct Hx as [y Hy]. destruct y as [|z y _] using rev_ind.
    - rewrite app_nil_r in Hy. congruence.
    - rewrite app_assoc in Hy. apply app_inj_tail in Hy as [-> _]. by exists y. }
  assert (length (x ++ [d]) < length (data ++ cs))%nat as Hlen.
  { destruct (snoc_removelast (data ++ cs) (data_not_nil cs)) as (p & e & Ep & Ep').
    rewrite Ep' in Hs. apply prefix_length in Hs. rewrite Ep, (length_app p). simpl. lia. }
  assert (length (x ++ [d]) < length (comps name))%nat as Hlen2.
  { rewrite Hc, (length_app (removelast _)). apply prefix_length in Hs. simpl. lia. }
  rewrite !decide_False; [by apply Hl| |]; intros Hbd%prefix_length; rewrite ?Hca in *; lia.
+ rewrite Hca. apply no_link_weaken. by destruct Hg as (_ & _ & _ & ?).
Qed.
End Steps.
End Confinement.
