(* ===== verification/FilesystemSpec.v ===== *)
(** * What the file manager promises

    Isolation of a server's files under any sequence of manager and SFTP
    operations, what a read can return, atomic writes, and complete listings. *)

From S2P Require Import Prelude GoLib GoPath GoOS GoOSFacts Store Filesystem FilesystemFacts.

(** ** Definitions *)

(** A client of server [id] that performs operations one after the other. *)
Definition run_fs_ops (root id : string) (ops : list FsOp) : M OS unit :=
  for_each (λ op, ignore (run_fs_op root id op)) ops.

(** ** Lemmas *)

Lemma reads_ctx_Err : reads ctx_Err.
Proof. solve_reads. Qed.

Lemma reads_list_loop root id abs es : reads (list_loop root id abs es).
Proof.
  induction es as [|e es IH]; intros o; [done|]. simpl. unfold mbind, M_bind.
  pose proof (reads_ctx_Err o) as H. destruct (ctx_Err o) as [[[]|err] o1]; simpl in *; [|done].
  pose proof (IH o1) as H1. destruct (list_loop root id abs es o1) as [[l|err] o2]; simpl in *; congruence.
Qed.

Section Ops.
Context (root id : string).
Context (Hroot : IsAbs root = true) (Hid : validServerID id = true).
Context (t0 : tree).

Local Abbreviation I := (step_inv root id t0).

(** The computation keeps the invariant and the frame. *)
Definition op_safe {A} (m : M OS A) : Prop := ∀ o, I o → wp m (λ _ o', I o') o.

Ltac wp_read lem := rewrite wp_bind; apply (wp_reads root id t0); [apply lem|done|];
let r := fresh "r" in let o' := fresh "o" in let E := fresh "E" in let Hi := fresh "Hi" in
intros r o' E Hi; destruct r as [?|?]; [|exact Hi].
Ltac wp_resolve := rewrite wp_bind; apply (wp_ResolvePath root id Hroot Hid t0); [done| |intros; done].

Lemma safe_List p : op_safe (List root id p).
Proof.
intros o Hi. unfold List. wp_read reads_ctx_Err. wp_resolve.
intros abs cs o1 E1 Hi1 Hg. rewrite wp_bind. unfold not_found.
rewrite wp_bind, wp_try. apply (wp_reads root id t0); [apply reads_ReadDir|done|].
intros [es|e] o2 E2 Hi2; simpl; [|done]. rewrite wp_ret.
apply (wp_reads root id t0); [apply reads_list_loop|done|]. intros; done.
Qed.

Lemma wp_Read p Q o :
I o → (∀ r o', os_tree o' = os_tree o → I o' → Q r o') → wp (Read root id p) Q o.
Proof.
intros Hi HQ. unfold Read. rewrite wp_bind. apply (wp_reads root id t0); [apply reads_ctx_Err|done|].
intros [[]|e] o1 E1 Hi1; [|by apply HQ]. rewrite wp_bind.
apply (wp_ResolvePath root id Hroot Hid t0); [done| |intros; apply HQ; [by repeat (etrans; [eassumption|])|done]].
intros abs cs o2 E2 Hi2 Hg. unfold not_found. rewrite wp_bind, wp_try.
apply (wp_reads root id t0); [apply reads_stat|done|].
intros [n|e] o3 E3 Hi3; simpl; (apply HQ; [by repeat (etrans; [eassumption|])|done]).
Qed.

Lemma safe_copy_pieces cs abs name pieces : ∀ acc o,
I o → good root id (os_tree o) cs abs → temp_of root id (os_tree o) cs name →
wp (copy_pieces name acc pieces)
  (λ _ o', I o' ∧ good root id (os_tree o') cs abs ∧ temp_of root id (os_tree o') cs name) o.
Proof.
induction pieces as [|p pieces IH]; intros acc o Hi Hg Ht; simpl; [by rewrite wp_ret|].
rewrite wp_bind. destruct (p =s ""); [rewrite wp_ret; by apply IH|].
pose proof Ht as [Hd _]. eapply (wp_temp_puts root id); [|done..|].
{ intros r o' H. by apply WriteFile_effect. }
intros [[]|e] o1 Hi1 Hg1 Ht1; [by apply IH|done].
Qed.

(** Steps that keep the invariant, the target and the temporary file. *)
Definition temp_step (cs : path) (abs name : string) (m : M OS unit) (o : OS) : Prop :=
wp m (λ _ o', I o' ∧ good root id (os_tree o') cs abs ∧ temp_of root id (os_tree o') cs name) o.

Lemma safe_seal_temp cs abs name o :
I o → good root id (os_tree o) cs abs → temp_of root id (os_tree o) cs name →
temp_step cs abs name (seal_temp name) o.
Proof.
intros Hi Hg Ht. pose proof Ht as [Hd _]. unfold temp_step, seal_temp.
rewrite wp_bind. eapply (wp_temp_puts root id); [|done..|].
{ intros r o' H. by apply Chmod_effect. }
intros [[]|e] o2 Hi2 Hg2 Ht2; [|auto].
rewrite wp_bind. eapply (wp_temp_reads root id); [apply reads_temp_Sync|done..|].
intros [[]|e] o3 Hi3 Hg3 Ht3; [|auto].
eapply (wp_temp_reads root id); [apply reads_temp_Close|done..|]. auto.
Qed.

Lemma safe_fill_temp cs abs name content o :
I o → good root id (os_tree o) cs abs → temp_of root id (os_tree o) cs name →
temp_step cs abs name (fill_temp name content) o.
Proof.
intros Hi Hg Ht. unfold temp_step, fill_temp, io_Copy.
rewrite !wp_bind. eapply wp_mono; [by eapply safe_copy_pieces|].
intros r1 o1 (Hi1 & Hg1 & Ht1). destruct r1 as [[]|e]; [|auto].
rewrite wp_lift_res. destruct (rd_End content) as [[]|e]; [|auto]. by apply safe_seal_temp.
Qed.

Lemma safe_rename_temp cs abs name (m : M OS unit) o : temp_step cs abs name m o →
wp (m;; Rename name abs) (λ _ o', I o' ∧ no_link_above (os_tree o') (comps name)) o.
Proof.
intros Hm. rewrite wp_bind. unfold temp_step in Hm. eapply wp_mono; [exact Hm|].
intros [[]|e] o1 (Hi1 & Hg1 & Ht1).
- eapply (wp_temp_Rename root id); [done..|]. auto.
- split; [done|]. destruct Ht1 as (_ & H & _). by apply no_link_weaken.
Qed.

(** The second half of [Write] for any way to fill the temporary file. *)
Lemma safe_finish cs abs name (m : M OS unit) o :
temp_of root id (os_tree o) cs name → temp_step cs abs name m o →
wp (defer (m;; Rename name abs) (Remove name)) (λ _ o', I o') o.
Proof.
intros Ht Hm. unfold defer. rewrite wp_bind, wp_try.
eapply wp_mono; [by eapply safe_rename_temp|]. simpl. intros r0 o5 [Hi5 Hl5].
rewrite wp_bind, wp_ignore. unfold wp at 1. destruct (Remove name o5) as [r6 o6] eqn:E6. simpl.
rewrite wp_lift_res. apply Remove_effect in E6; [|by destruct Ht|done].
eapply (step_removes root id t0 o5 o6 name); [done|done|].
by eapply proj1, temp_below.
Qed.

Lemma safe_write_prepare p o : I o →
wp (write_prepare root id p) (λ r o', I o' ∧ ∀ abs name, r = Ok (abs, name) →
  ∃ cs, good root id (os_tree o') cs abs ∧ temp_of root id (os_tree o') cs name) o.
Proof.
intros Hi. unfold write_prepare. set (Q := λ r o', I o' ∧ _).
assert (∀ e o', I o' → Q (Err e) o') as HE by done.
assert (∀ cs abs name o', I o' → good root id (os_tree o') cs abs → temp_of root id (os_tree o') cs name →
  Q (Ok (abs, name)) o') as HQ by (intros; split; [done|]; intros ?? [= <- <-]; eauto).
clearbody Q. rewrite wp_bind. apply (wp_reads root id t0); [apply reads_ctx_Err|done|].
intros [[]|e] o1 _ Hi1; [|auto]. rewrite wp_bind. unfold ensureRoot.
rewrite wp_bind, wp_lift_res, serverRoot_spec, wp_bind, wp_wrap by done.
eapply (wp_MkdirAll_good root id); [done|by apply (good_data root id Hid t0)|].
intros [[]|e] o2 Hi2 _; [|auto]. rewrite wp_ret.
rewrite wp_bind. apply (wp_ResolvePath root id Hroot Hid t0); [done| |auto].
intros abs cs o3 _ Hi3 Hg3. rewrite wp_bind. eapply (wp_MkdirAll_Dir root id); [done..|].
intros [[]|e] o4 Hi4 Hg4; [|auto]. rewrite wp_bind.
eapply (wp_CreateTemp root id); [done|done| |auto]. intros name o5 Hi5 Hg5 Ht5. rewrite wp_ret. eauto.
Qed.

Lemma safe_Write p content : op_safe (Write root id p content).
Proof.
intros o Hi. unfold Write. rewrite wp_bind. eapply wp_mono; [by apply safe_write_prepare|].
intros [[abs name]|e] o4 [Hi4 H4]; [|done]. destruct (H4 abs name eq_refl) as (cs & Hg4 & Ht4).
eapply safe_finish; [done|]. by apply safe_fill_temp.
Qed.

Lemma safe_Delete p recursive : op_safe (Delete root id p recursive).
Proof.
intros o Hi. unfold Delete. wp_read reads_ctx_Err. wp_resolve.
intros abs cs o1 E1 Hi1 Hg1. rewrite wp_bind. unfold not_found.
rewrite wp_bind, wp_try. apply (wp_reads root id t0); [apply reads_stat|done|].
intros [n|e] o2 E2 Hi2; simpl; [|done]. rewrite wp_ret.
assert (good root id (os_tree o2) cs abs) as Hg by (by rewrite E2).
pose proof (good_direct root id _ _ _ Hg) as [Hd _].
destruct (IsDir n && recursive).
- eapply (wp_removes root id t0 RemoveAll); [|done|done|auto].
  intros r o' Hl. by apply RemoveAll_effect.
- eapply (wp_removes root id t0 Remove); [|done|done|auto].
  intros r o' Hl. by apply Remove_effect.
Qed.

Lemma safe_Rename p q : op_safe (Rename_ root id p q).
Proof.
intros o Hi. unfold Rename_. wp_read reads_ctx_Err. wp_resolve.
intros oldAbs cs1 o1 E1 Hi1 Hg1. wp_resolve. intros newAbs cs2 o2 E2 Hi2 Hg2. rewrite wp_bind.
assert (good root id (os_tree o2) cs1 oldAbs) as Hg1' by (by rewrite E2).
destruct (good_Dir root id _ _ _ Hg2) as (Hd & _ & Hl & Hb).
unfold wp at 1. destruct (MkdirAll (Dir newAbs) o2) as [r3 o3] eqn:E3. simpl.
apply MkdirAll_adds in E3 as [Ha Ht]; [|done..].
pose proof (adds_dirs_no_new_links _ _ _ Ha) as Hn. pose proof Hi2 as [[H1 H2] _].
assert (I o3) as Hi3.
{ eapply step_inv_next; [done|by apply Ht|by eapply no_link_no_new|by eapply adds_dirs_frame]. }
destruct r3 as [[]|e]; [|done].
eapply (wp_Rename_good root id); [done|by eapply good_same|by eapply good_same|auto].
Qed.

Lemma safe_Copy p q : op_safe (Copy root id p q).
Proof.
intros o Hi. unfold Copy. wp_read reads_ctx_Err. rewrite wp_bind. apply wp_Read; [done|].
intros [n|e] o1 _ Hi1; [|done]. by apply safe_Write.
Qed.

Lemma safe_CreateDir p : op_safe (CreateDir root id p).
Proof.
intros o Hi. unfold CreateDir. wp_read reads_ctx_Err. wp_resolve. intros abs cs o1 E1 Hi1 Hg.
eapply (wp_MkdirAll_good root id); [done..|]. auto.
Qed.

Lemma safe_Fileread p : op_safe (Fileread root id p).
Proof.
intros o Hi. unfold Fileread. wp_resolve. intros abs cs o1 E1 Hi1 Hg.
apply (wp_reads root id t0); [apply reads_stat|done|auto].
Qed.

Lemma safe_writes cs abs writes o :
I o → good root id (os_tree o) cs abs →
wp (for_each (λ w : Z * string, ignore (WriteAt abs w.2 w.1)) writes) (λ _ o', I o') o.
Proof.
revert o. induction writes as [|[off data] ws IH]; intros o Hi Hg; simpl; [by rewrite wp_ret|].
rewrite wp_bind, wp_ignore. pose proof (good_direct root id _ _ _ Hg) as [Hd _].
eapply (wp_puts root id); [|done..|by auto]. intros r o' Hl. by apply WriteAt_effect.
Qed.

Lemma safe_put p writes : op_safe (sftp_put root id p writes).
Proof.
intros o Hi. unfold sftp_put, Filewrite. rewrite wp_bind.
set (Q := λ r o', I o' ∧ ∀ path, r = Ok path → ∃ cs, good root id (os_tree o') cs path).
apply wp_mono with Q; [|intros [path|e] o' [Hi' H]; [destruct (H path eq_refl) as [cs Hg]; by eapply safe_writes|done]].
assert (∀ e o', I o' → Q (Err e) o') as HE by done.
wp_resolve. intros abs cs o1 E1 Hi1 Hg. rewrite wp_bind.
eapply (wp_MkdirAll_Dir root id); [done..|]. intros [[]|e] o2 Hi2 Hg2; [|auto].
rewrite wp_bind. pose proof (good_direct root id _ _ _ Hg2) as [Hd _].
eapply (wp_puts root id); [|done..|].
{ intros r o' Hl. by apply OpenCreate_effect. }
intros [[]|e] o3 Hi3 Hg3; [|auto]. rewrite wp_ret. split; [done|]. intros ? [= <-]. eauto.
Qed.

Lemma safe_then_ret {A} (m : M OS A) : op_safe m → op_safe (m;; mret tt).
Proof.
intros Hm o Hi. rewrite wp_bind. eapply wp_mono; [by apply Hm|]. intros [a|e] o' Hi'; done.
Qed.

Lemma safe_op op : op_safe (run_fs_op root id op).
Proof.
destruct op; simpl; auto using safe_List, safe_Write, safe_Delete, safe_Rename, safe_Copy,
  safe_CreateDir, safe_Fileread, safe_put, safe_then_ret.
- apply safe_then_ret. intros o Hi. apply wp_Read; auto.
- unfold Filecmd. repeat case_match;
    auto using safe_CreateDir, safe_Delete, safe_Rename. by intros o Hi.
- unfold Filelist. auto using safe_then_ret, safe_List.
Qed.
End Ops.

(** An operation for a server whose id is not valid changes nothing. *)
Section Invalid.
Context (root id : string).
Context (Hid : validServerID id = false).

Lemma invalid_resolve {A} rel (k : string → M OS A) : reads (ResolvePath root id rel ≫= k).
Proof. intros o. unfold ResolvePath, serverRoot. by rewrite Hid. Qed.

Lemma reads_bind {A B} (m : M OS A) (k : A → M OS B) :
reads m → (∀ a, reads (k a)) → reads (m ≫= k).
Proof.
intros Hm Hk o. unfold mbind, M_bind. pose proof (Hm o) as H.
destruct (m o) as [[a|e] o1]; simpl in *; [by rewrite (Hk a o1)|done].
Qed.

Lemma reads_ret {A} (a : A) : reads (mret a).
Proof. by intros o. Qed.

Lemma invalid_prepare p o :
  is_ok (fst (write_prepare root id p o)) = false ∧
  os_tree (snd (write_prepare root id p o)) = os_tree o.
Proof.
unfold write_prepare, mbind, M_bind, ensureRoot, serverRoot. rewrite Hid.
pose proof (reads_ctx_Err o) as H. by destruct (ctx_Err o) as [[[]|e] o1].
Qed.

Lemma invalid_op op : reads (run_fs_op root id op).
Proof.
assert (∀ {A} (m : M OS A), reads m → reads (ctx_Err;; m)) as Hctx.
{ intros A m Hm. apply reads_bind; [apply reads_ctx_Err|done]. }
assert (∀ {A} (m : M OS A), reads m → reads (m;; mret tt)) as Hret.
{ intros A m Hm. apply reads_bind; [done|intros; apply reads_ret]. }
assert (∀ p, reads (Read root id p)) as Hread.
{ intros p. apply Hctx, invalid_resolve. }
assert (∀ p c, reads (Write root id p c)) as Hwrite.
{ intros p c o. unfold Write, mbind, M_bind. pose proof (invalid_prepare p o) as [Hr Ho].
  by destruct (write_prepare root id p o) as [[x|e] o1]. }
assert (∀ p r, reads (Delete root id p r)) as Hdel.
{ intros p r. apply Hctx, invalid_resolve. }
assert (∀ p q, reads (Rename_ root id p q)) as Hren.
{ intros p q. apply Hctx, invalid_resolve. }
assert (∀ p, reads (CreateDir root id p)) as Hdir.
{ intros p. apply Hctx, invalid_resolve. }
assert (∀ p, reads (List root id p)) as Hlist.
{ intros p. apply Hctx, invalid_resolve. }
destruct op; simpl; auto.
- apply Hctx, reads_bind; auto.
- apply Hret, invalid_resolve.
- intros o. unfold sftp_put, Filewrite, ResolvePath, serverRoot. by rewrite Hid.
- unfold Filecmd. repeat case_match; auto using reads_ret.
- by apply Hret, Hlist.
Qed.
End Invalid.

Lemma run_fs_op_frame root id op o :
  IsAbs root = true → fs_inv root id o →
  fs_inv root id (snd (run_fs_op root id op o)) ∧
  server_frame root id (os_tree o) (os_tree (snd (run_fs_op root id op o))).
Proof.
  intros Hroot Hi. destruct (validServerID id) eqn:Hid.
  - apply (safe_op root id Hroot Hid (os_tree o) op o). split; [done|apply frame_refl].
  - pose proof (invalid_op root id Hid op o) as E. unfold fs_inv. rewrite E.
    split; [done|apply frame_refl].
Qed.

Lemma run_fs_ops_frame root id ops o :
  IsAbs root = true → fs_inv root id o →
  fs_inv root id (snd (run_fs_ops root id ops o)) ∧
  server_frame root id (os_tree o) (os_tree (snd (run_fs_ops root id ops o))).
Proof.
  intros Hroot. revert o. unfold run_fs_ops. induction ops as [|op ops IH]; intros o Hi.
  - split; [done|apply frame_refl].
  - simpl. unfold mbind, M_bind, ignore.
    pose proof (run_fs_op_frame root id op o Hroot Hi) as [Hi1 Hf1].
    destruct (run_fs_op root id op o) as [r o1]. simpl in *.
    destruct (IH o1 Hi1) as [Hi2 Hf2]. split; [done|by eapply frame_trans].
Qed.

Lemma server_dirs_apart root id id' k :
  id ≠ id' → below (server_dir root id) k → below (server_dir root id') k → False.
Proof.
  unfold below, server_dir. intros Hne [x ->] [y Hy]. rewrite <- !app_assoc in Hy.
  apply app_inv_head in Hy. simpl in Hy. by injection Hy.
Qed.

(** *** Writes *)

(** Copying into the temporary file changes nothing else; when it succeeds the file has what
    was read. *)
Lemma copy_pieces_effect name pieces : ∀ acc m o r o',
  direct name → no_link (os_tree o) (comps name) →
  os_tree o !! comps name = Some (NFile acc m) →
  copy_pieces name acc pieces o = (r, o') →
  changes (λ k, k = comps name) (os_tree o) (os_tree o') ∧
  no_link (os_tree o') (comps name) ∧
  (r = Ok tt → ∃ m', os_tree o' !! comps name = Some (NFile (acc +:+ String.concat "" pieces) m')).
Proof.
  induction pieces as [|p pieces IH]; intros acc m o r o' Hd Hl Hn.
  { intros [= <- <-]. split; [apply changes_refl|]. split; [done|]. intros _.
    exists m. by rewrite string_app_nil_r. }
  rewrite concat_cons. simpl. unfold mbind, M_bind.
  destruct (String.eqb_spec p "") as [->|Hp].
  { simpl. rewrite string_app_nil_r. by apply IH with m. }
  destruct (temp_Write name (acc +:+ p) o) as [r1 o1] eqn:E1.
  assert (puts_file o o1 name) as W1 by (by eapply WriteFile_effect).
  assert (changes (λ k, k = comps name) (os_tree o) (os_tree o1)) as C1 by (by eapply puts_file_changes).
  assert (no_link (os_tree o1) (comps name)) as Hl1.
  { eapply no_link_no_new; [by eapply puts_file_links|done]. }
  destruct r1 as [[]|e]; [|by intros [= <- <-]].
  destruct (WriteFile_Ok _ _ _ _ _ Hd Hl E1) as [m1 X1]. intros E2.
  apply IH with (m := m1) in E2 as (C2 & Hl2 & X2); [|done|done|by rewrite X1, lookup_insert_eq].
  split; [by eapply changes_trans|]. split; [done|]. by rewrite <- string_app_assoc.
Qed.

(** [m] changes only the file [name], and when it succeeds that is [data] with mode 0600. *)
Definition fills (name data : string) (m : M OS unit) (o : OS) : Prop :=
  wp m (λ r o', changes (λ k, k = comps name) (os_tree o) (os_tree o') ∧
    (r = Ok tt → os_tree o' !! comps name = Some (NFile data 384))) o.

Lemma seal_temp_fills name data m o :
  direct name → no_link (os_tree o) (comps name) → comps name ≠ [] →
  os_tree o !! comps name = Some (NFile data m) → fills name data (seal_temp name) o.
Proof.
  intros Hd Hl Hne Hn. unfold fills, wp, seal_temp, mbind, M_bind.
  destruct (temp_Chmod name 384 o) as [r2 o2] eqn:E2.
  assert (changes (λ k, k = comps name) (os_tree o) (os_tree o2)) as C2.
  { eapply puts_file_changes; [|done]. by apply (Chmod_effect o o2 name Hd 384 r2). }
  destruct r2 as [[]|e]; [|done].
  assert (os_tree o2 !! comps name = Some (NFile data 384)) as X2.
  { erewrite (Chmod_Ok name 384 o o2); [by rewrite lookup_insert_eq|done..]. }
  pose proof (reads_temp_Sync name o2) as R3.
  destruct (temp_Sync name o2) as [[[]|e] o3]; simpl in R3 |- *; [|by rewrite R3].
  pose proof (reads_temp_Close name o3) as R4. destruct (temp_Close name o3) as [r o4]. simpl in R4 |- *.
  by rewrite R4, R3.
Qed.

Lemma fill_temp_fills name content m o :
  direct name → no_link (os_tree o) (comps name) → comps name ≠ [] →
  os_tree o !! comps name = Some (NFile "" m) →
  fills name (String.concat "" (rd_Pieces content)) (fill_temp name content) o.
Proof.
  intros Hd Hl Hne Hn. unfold fills, wp, fill_temp, io_Copy, mbind, M_bind, lift_res.
  destruct (copy_pieces name "" (rd_Pieces content) o) as [r1 o1] eqn:E1.
  apply copy_pieces_effect with (m := m) in E1 as (C1 & Hl1 & X1); [|done..].
  destruct r1 as [[]|e]; [|done]. destruct (X1 eq_refl) as [m1 Hn1].
  destruct (rd_End content) as [[]|e]; [|done].
  pose proof (seal_temp_fills name _ m1 o1 Hd Hl1 Hne Hn1) as F. unfold fills, wp in F.
  destruct (seal_temp name o1) as [r o']. destruct F as [C2 X2]. split; [by eapply changes_trans|done].
Qed.

Lemma fill_temp_end name content o o' : fill_temp name content o = (Ok tt, o') → rd_End content = Ok tt.
Proof.
  intros (u & o1 & H & _)%bind_inv. unfold io_Copy in H. apply bind_inv in H as (u2 & o2 & _ & H).
  unfold lift_res in H. injection H as H _. rewrite H. by destruct u.
Qed.

(** The path [ResolvePath] returns. *)
Definition target (root id p : string) : path :=
  comps (Join [Join [root; id; "data"]; Clean p]).

Lemma ResolvePath_target root id p o abs o' :
  ResolvePath root id p o = (Ok abs, o') → comps abs = target root id p.
Proof.
  unfold ResolvePath, serverRoot. destruct (validServerID id); [|intros [=]].
  intros (base & o1 & [= <- <-] & H)%bind_inv.
  apply bind_inv in H as ([] & o2 & _ & H). apply bind_inv in H as ([] & o3 & _ & H).
  destruct (Rel _ _); [|discriminate H]. apply bind_inv in H as ([] & o4 & _ & H).
  apply bind_inv in H as ([] & o5 & _ & H). by injection H as <- _.
Qed.

Section WriteSteps.
Context (root id : string).
Context (Hroot : IsAbs root = true) (Hid : validServerID id = true).

(** The second half of [Write], whatever fills the temporary file. *)
Lemma write_finish t0 cs abs name (m : M OS unit) data o r o' :
good root id (os_tree o) cs abs → temp_of root id (os_tree o) cs name →
temp_step root id t0 cs abs name m o → fills name data m o →
defer (m;; Rename name abs) (Remove name) o = (r, o') →
match r with
| Err _ => changes (below (comps name)) (os_tree o) (os_tree o')
| Ok _ => (∃ o1, m o = (Ok tt, o1)) ∧
    (comps name ≠ comps abs → os_tree o' !! comps abs = Some (NFile data 384)) ∧
    changes (λ k, below (comps name) k ∨ k = comps abs) (os_tree o) (os_tree o')
end.
Proof.
intros Hg Ht F E1 H. pose proof Ht as (Hd & Hl & _).
pose proof (temp_below root id _ _ _ Ht) as [_ Hne].
destruct (good_direct root id _ _ _ Hg) as [Hda Hca].
pose proof (safe_rename_temp root id t0 cs abs name m o F) as W.
unfold temp_step, fills, wp in F, E1, W.
unfold defer, try, ignore, mbind, M_bind in H, W.
destruct (m o) as [r1 o1]. destruct F as (Hi1 & Hg1 & Ht1), E1 as [C1 X1].
simpl in *. assert (changes (below (comps name)) (os_tree o) (os_tree o1)) as C1'.
{ eapply changes_mono; [|exact C1]. intros k ->. apply below_refl. }
assert (∀ o2 o3 r3, no_link_above (os_tree o2) (comps name) → Remove name o2 = (r3, o3) →
  changes (below (comps name)) (os_tree o2) (os_tree o3)) as HR.
{ intros o2 o3 r3 Hl2 E3. exact (removes_changes o2 o3 name _ (Remove_effect o2 o3 name Hd r3 Hl2 E3) (λ k Hk, Hk)). }
destruct r1 as [[]|e].
- pose proof Ht1 as (_ & Hl1 & _).
  destruct (Rename name abs o1) as [r2 o2] eqn:E2. destruct W as [_ Hl2]. simpl in Hl2.
  destruct (Remove name o2) as [r3 o3] eqn:E3. specialize (HR _ _ _ Hl2 E3).
  specialize (X1 eq_refl).
  eapply Rename_file_effect with (mode := 384) in E2; try done.
  + destruct r2 as [[]|e]; simpl in H; injection H as <- <-.
    * split; [by eexists|]. destruct E2 as [[Hab E2]|(Hab & Xa & C2)].
      -- split; [done|]. eapply changes_mono; [by left|]. rewrite E2 in HR. by eapply changes_trans.
      -- split.
         ++ intros _. destruct (HR (comps abs)) as [->|Hb]; [done|]. exfalso. apply Hab.
            pose proof Ht as (_ & _ & c & n & Hcn & _).
            destruct (snoc_removelast (data_dir root id ++ cs) (data_not_nil root id cs))
              as (x & d & Ex & Ex'). rewrite Hca, Ex, Hcn, Ex' in *.
            destruct Hb as [z Hz]. destruct z as [|y z _] using rev_ind.
            { by rewrite app_nil_r in Hz. }
            apply (f_equal length) in Hz. rewrite !length_app in Hz. simpl in Hz. lia.
         ++ eapply changes_trans; [|eapply changes_trans].
            ** eapply changes_mono; [|exact C1']. auto.
            ** eapply changes_mono; [|exact C2]. intros k [->| ->]; [left; apply below_refl|by right].
            ** eapply changes_mono; [|exact HR]. auto.
    * rewrite E2 in HR. by eapply changes_trans.
  + destruct Hi1 as [[? _] _]. done.
  + rewrite Hca. apply data_not_nil.
  + by apply no_link_weaken.
  + rewrite Hca. apply no_link_weaken. by destruct Hg1 as (_ & _ & _ & ?).
- destruct (Remove name o1) as [r3 o3] eqn:E3. simpl in H. injection H as <- <-.
  destruct W as [_ Hl2]. eapply changes_trans; [exact C1'|by eapply HR].
Qed.
End WriteSteps.

(** The target and a temporary file that holds [acc] and is no part of what was there. *)
Definition prepared (root id p : string) (o o' : OS) (abs name acc : string) : Prop :=
  ∃ cs m, comps abs = target root id p ∧
    step_inv root id (os_tree o) o' ∧ good root id (os_tree o') cs abs ∧
    temp_of root id (os_tree o') cs name ∧ os_tree o' !! comps name = Some (NFile acc m) ∧
    ∀ k c m, os_tree o !! k = Some (NFile c m) → ¬ below (comps name) k.

(** What a [Write] of [content] leaves. *)
Definition write_post (root id p : string) (content : Reader) (o : OS) (r : res unit) (o' : OS) : Prop :=
  match r with
  | Err _ => files_kept (os_tree o) (os_tree o')
  | Ok _ => rd_End content = Ok tt ∧
      (os_tree o' !! target root id p = Some (NFile (String.concat "" (rd_Pieces content)) 384) ∨
       ∃ c, last (target root id p) = Some c ∧ HasPrefix c ".upload-" = true) ∧
      ∀ k c m, k ≠ target root id p →
        os_tree o !! k = Some (NFile c m) → os_tree o' !! k = Some (NFile c m)
  end.

(** The first half of [Write], up to the temporary file. *)
Lemma write_prepare_spec root id p o r o' :
  IsAbs root = true → validServerID id = true → fs_inv root id o →
  write_prepare root id p o = (r, o') →
  files_kept (os_tree o) (os_tree o') ∧
  ∀ abs name, r = Ok (abs, name) → prepared root id p o o' abs name "".
Proof.
  intros Hroot Hid Hi. unfold write_prepare, ensureRoot. rewrite serverRoot_spec by done.
  unfold mbind, M_bind, lift_res, wrap. simpl. pose proof (reads_ctx_Err o) as H1.
  destruct (ctx_Err o) as [[[]|e] o1]; simpl in H1.
  2:{ intros [= <- <-]. split; [rewrite H1; by intros ?|done]. }
  assert (step_inv root id (os_tree o) o1) as Hs1.
  { eapply step_inv_same; [exact H1|]. split; [done|apply frame_refl]. }
  pose proof (good_data root id Hid _ _ Hs1) as Hg0. destruct (good_direct root id _ _ _ Hg0) as [Hd0 Hc0].
  assert (no_link (os_tree o1) (comps (render true (data_dir root id)))) as Hl0.
  { rewrite Hc0. by destruct Hg0 as (_ & _ & _ & ?). }
  pose proof (wp_MkdirAll_good root id (os_tree o) [] _ (λ _ o', step_inv root id (os_tree o) o') o1
    Hs1 Hg0 (λ _ _ Hi _, Hi)) as W2. unfold wp in W2.
  destruct (MkdirAll (render true (data_dir root id)) o1) as [r2 o2] eqn:E2. simpl in W2.
  apply MkdirAll_files in E2; [|done..]. rewrite H1 in E2.
  destruct r2 as [[]|e]; [|by intros [= <- <-]].
  unfold mret at 1, M_ret at 1. cbv beta iota zeta.
  destruct (ResolvePath root id p o2) as [r3 o3] eqn:E3. pose proof E3 as E3'.
  apply (ResolvePath_spec root id Hroot Hid p o2 _ o3 (proj1 W2)) in E3 as [T3 G3].
  assert (files_kept (os_tree o) (os_tree o3)) as K3 by (by rewrite T3).
  assert (step_inv root id (os_tree o) o3) as Hs3 by (by eapply step_inv_same).
  destruct r3 as [abs|e]; [|by intros [= <- <-]].
  destruct (G3 abs eq_refl) as [cs Hg3]. rewrite <- T3 in Hg3.
  apply ResolvePath_target in E3'.
  destruct (good_Dir root id _ _ _ Hg3) as (Hd & Hcd & Hl & Hb).
  pose proof (wp_MkdirAll_Dir root id (os_tree o) cs abs (λ _ o', step_inv root id (os_tree o) o' ∧
    good root id (os_tree o') cs abs) o3 Hs3 Hg3 (λ _ _ Hi Hg, conj Hi Hg)) as W4. unfold wp in W4.
  destruct (MkdirAll (Dir abs) o3) as [r4 o4] eqn:E4. destruct W4 as [Hs4 Hg4]. simpl in Hs4, Hg4.
  apply MkdirAll_files in E4; [|done..].
  assert (files_kept (os_tree o) (os_tree o4)) as K4 by (by eapply files_kept_trans).
  destruct r4 as [[]|e]; [|by intros [= <- <-]].
  destruct (good_Dir root id _ _ _ Hg4) as (_ & _ & Hl4 & _).
  pose proof (wp_CreateTemp root id (os_tree o) cs abs (λ r o', ∀ name, r = Ok name →
    step_inv root id (os_tree o) o' ∧ good root id (os_tree o') cs abs ∧ temp_of root id (os_tree o') cs name)
    o4 Hs4 Hg4) as W5. unfold wp in W5.
  destruct (CreateTemp (Dir abs) ".upload-" "" o4) as [r5 o5] eqn:E5. simpl in W5.
  apply CreateTemp_effect in E5; [|done|done|].
  2:{ intros z. split; [split; [done|split; [done|]]|done].
      rewrite !bytes_all_app, FormatInt_no_slash. done. }
  destruct r5 as [name|e]; [|intros [= <- <-]; split; [by rewrite E5|done]].
  edestruct W5 as (Hs5 & Hg5 & Ht5); [by intros n o6 ? ? ? n' [= <-]|by intros ? ? ? ? [=]|done|].
  destruct E5 as (_ & c & _ & _ & Hcn & Hnone & _ & Eo5).
  assert (∀ k f m, os_tree o !! k = Some (NFile f m) → ¬ below (comps name) k) as Hnb.
  { intros k f m Hk%K4 Hbk. destruct Hs4 as [[Hok _] _].
    rewrite (below_none _ _ _ Hok Hnone Hbk) in Hk; [done|]. rewrite Hcn. by destruct (comps (Dir abs)). }
  intros [= <- <-]. split.
  - intros k f m Hk. rewrite Eo5. simpl. rewrite lookup_insert_ne; [by apply K4|].
    intros Heq. apply (Hnb k f m Hk). rewrite Heq. apply below_refl.
  - intros abs' name' [= <- <-]. exists cs, 384. do 4 (split; [done|]). split; [|done].
    rewrite Eo5. by rewrite lookup_insert_eq.
Qed.

(** The second half of [Write], after the first. *)
Lemma write_finish_post root id p (m : M OS unit) data abs name acc o o1 r o' :
  files_kept (os_tree o) (os_tree o1) → prepared root id p o o1 abs name acc →
  (∀ cs m', good root id (os_tree o1) cs abs → temp_of root id (os_tree o1) cs name →
     step_inv root id (os_tree o) o1 → os_tree o1 !! comps name = Some (NFile acc m') →
     temp_step root id (os_tree o) cs abs name m o1 ∧ fills name data m o1) →
  defer (m;; Rename name abs) (Remove name) o1 = (r, o') →
  write_post root id p (mkReader [data] (fst (m o1))) o r o'.
Proof.
  intros K (cs & m' & Hta & Hs & Hg & Ht & He & Hnew) Hm H. destruct (Hm cs m' Hg Ht Hs He) as [HS HF].
  pose proof (write_finish root id _ _ _ _ m data _ _ _ Hg Ht HS HF H) as W. destruct r as [[]|e]; simpl.
  - destruct W as ([o2 ->] & Hd & C). split; [done|]. rewrite <- Hta. split.
    + destruct (decide (comps name = comps abs)) as [Heq|Hne]; [|left; auto].
      right. destruct Ht as (_ & _ & c & n & Hcn & Hp & _). exists c. split; [|done].
      by rewrite <- Heq, Hcn, last_snoc.
    + intros k c n Hk Hn. destruct (C k) as [->|[Hb|Hb]]; [by apply K| |done]. by destruct (Hnew k c n Hn).
  - intros k c n Hn. destruct (W k) as [->|Hb]; [by apply K|]. by destruct (Hnew k c n Hn).
Qed.

Lemma Write_post root id p content o r o' :
  IsAbs root = true → fs_inv root id o → Write root id p content o = (r, o') →
  write_post root id p content o r o'.
Proof.
  intros Hroot Hi. unfold Write, mbind, M_bind. destruct (validServerID id) eqn:Hid.
  - destruct (write_prepare root id p o) as [r1 o1] eqn:E1.
    apply write_prepare_spec in E1 as [K P]; [|done..]. destruct r1 as [[abs name]|e]; [|by intros [= <- <-]].
    simpl. intros H. eapply (write_finish_post _ _ _ (fill_temp name content)
      (String.concat "" (rd_Pieces content))) in H; [|done|by apply P|].
    + destruct r as [[]|e]; [|done]. destruct H as (Hend & H). split; [|done].
      destruct (fill_temp name content o1) as [[[]|e] o2] eqn:E2; [|done]. by eapply fill_temp_end.
    + intros cs m Hg Ht Hs He. split; [by apply safe_fill_temp|]. pose proof Ht as (Hd & Hl & _).
      apply (fill_temp_fills _ _ m); [done..| |done]. by eapply proj2, temp_below.
  - pose proof (invalid_prepare root id Hid p o) as [Hr Ho].
    destruct (write_prepare root id p o) as [[x|e] o1]; simpl in *; [done|]. intros [= <- <-].
    simpl. rewrite Ho. by intros ?.
Qed.

(** ** Properties *)

(** C7. Whatever sequence of manager and SFTP operations a client of one server asks
    for, with whatever paths, and whatever calls fail: the files of every other server,
    and everything else outside [root/<id>], stay exactly as they are; at most missing
    ancestors of that directory are created.  The premise is that the file system is
    well-formed and [root/<id>/data] is not reached through a link, and it still holds
    afterwards. *)
Theorem fs_isolation (root id : string) (ops : list FsOp) (o : OS) :
  IsAbs root = true → fs_inv root id o →
  let o' := snd (run_fs_ops root id ops o) in
  fs_inv root id o' ∧
  (∀ k, ¬ below (server_dir root id) k → ¬ below k (server_dir root id) →
        os_tree o' !! k = os_tree o !! k) ∧
  (∀ k n, below k (server_dir root id) → k ≠ server_dir root id → os_tree o !! k = Some n →
        os_tree o' !! k = Some n) ∧
  (∀ id' k, id' ≠ id → below (server_dir root id') k → os_tree o' !! k = os_tree o !! k).
Proof.
  intros Hroot Hi. destruct (run_fs_ops_frame root id ops o Hroot Hi) as [Hi' Hf]. simpl.
  split; [done|]. split; [|split].
  - intros k H1 H2. destruct (Hf k) as [?|[?|(? & _)]]; [done|by exfalso..].
  - intros k n Hk Hne Hn. destruct (Hf k) as [->|[Hb|(_ & Hb & _)]]; [done| |congruence].
    exfalso. by apply Hne, (anti_symm prefix).
  - intros id' k Hne Hk. destruct (Hf k) as [?|[Hb|(Hb & _)]]; [done| |].
    + exfalso. by eapply (server_dirs_apart root id id').
    + exfalso. eapply (server_dirs_apart root id id' (server_dir root id)); [done|done|].
      unfold below in *. by etrans.
Qed.

(** A read that succeeds returns a node of the server's own data directory. *)
Theorem read_confined (root id p : string) (o o' : OS) (n : fnode) :
  IsAbs root = true → fs_inv root id o → Read root id p o = (Ok n, o') →
  ∃ cs, node_at (os_tree o) (data_dir root id ++ cs) = Some n ∧ plain cs.
Proof.
  intros Hroot Hi. destruct (validServerID id) eqn:Hid.
  - unfold Read, mbind, M_bind. pose proof (reads_ctx_Err o) as H0.
    destruct (ctx_Err o) as [[[]|e] o1]; simpl in H0; [|intros [=]].
    assert (fs_inv root id o1) as Hi1 by (unfold fs_inv; by rewrite H0).
    destruct (ResolvePath root id p o1) as [[abs|e] o2] eqn:E2; [|intros [=]].
    apply (ResolvePath_spec root id Hroot Hid p o1 _ o2 Hi1) in E2 as [H2 Hg].
    destruct (Hg abs eq_refl) as [cs Hg']. unfold not_found, mbind, M_bind, try.
    destruct (os_Open abs o2) as [[n'|e] o3] eqn:E3; [|by destruct (IsNotExist e); intros [=]].
    intros [= -> ->]. exists cs.
    apply syscall_inv in E3 as [(e & [=] & _)|(n2 & t & H & [= <-] & _)]. simpl in H.
    destruct (good_direct root id _ _ _ Hg') as [Hd Hc].
    destruct (resolve _ _ _) as [k|] eqn:Er; [|done].
    apply resolve_no_link in Er as [-> _]; [|done|].
    + rewrite Hc, H2, H0 in H. destruct (node_at _ _) eqn:En; [|done]. simplify_eq.
      split; [done|]. destruct Hg' as (_ & _ & Hp & _). by apply plain_app in Hp as [_ ?].
    + simpl. rewrite Hc, H2. by destruct Hg' as (_ & _ & _ & ?).
  - intros H. exfalso. unfold Read, mbind, M_bind, ResolvePath, serverRoot in H.
    rewrite Hid in H. by destruct (ctx_Err o) as [[[]|e] o1].
Qed.

(** C8. [Write] is all or nothing.  When it fails, every regular file of the whole file
    system is as before.  When it succeeds, the target holds exactly the contents read,
    with mode 0600, and every other regular file is as before; the one exception is a
    target that is itself the temporary name it drew. *)
Theorem write_atomic (root id p : string) (content : Reader) (o o' : OS) (r : res unit) :
  IsAbs root = true → fs_inv root id o → Write root id p content o = (r, o') →
  match r with
  | Err _ => files_kept (os_tree o) (os_tree o')
  | Ok _ => rd_End content = Ok tt ∧
      (os_tree o' !! target root id p = Some (NFile (String.concat "" (rd_Pieces content)) 384) ∨
       ∃ c, last (target root id p) = Some c ∧ HasPrefix c ".upload-" = true) ∧
      ∀ k c m, k ≠ target root id p →
        os_tree o !! k = Some (NFile c m) → os_tree o' !! k = Some (NFile c m)
  end.
Proof. exact (Write_post root id p content o r o'). Qed.

(** Reading a directory listing page by page, with any page size, gives every entry
    once and in order, in at most as many requests as there are entries plus one. *)
Theorem list_pages_complete {A} (l : list A) (cap : nat) :
  (0 < cap)%nat → list_pages (S (length l)) l cap 0 = Some l.
Proof.
  intros Hcap.
  assert (∀ fuel n, (n ≤ length l)%nat → (length l - n < fuel)%nat →
    list_pages fuel l cap (Z.of_nat n) = Some (drop n l)) as H.
  { induction fuel as [|fuel IH]; intros n Hn Hf; [lia|]. simpl. unfold ListAt.
    destruct (Z.leb_spec (Z.of_nat (length l)) (Z.of_nat n)) as [Hle|Hlt].
    - rewrite drop_ge by lia. done.
    - rewrite Nat2Z.id, length_take, length_drop.
      set (k := (cap `min` (length l - n))%nat). assert (0 < k ≤ length l - n)%nat as Hk by lia.
      rewrite <- Nat2Z.inj_add, IH by lia. simpl. f_equal.
      rewrite <- (drop_drop l k n). assert (take cap (drop n l) = take k (drop n l)) as ->.
      { destruct (decide (cap ≤ length l - n)%nat) as [Hc|Hc].
        - f_equal. unfold k. lia.
        - rewrite !take_ge; [done|rewrite length_drop; lia..]. }
      apply take_drop. }
  apply (H (S (length l)) 0%nat); lia.
Qed.

(** *** Witnesses *)

(** Two servers; [a] has a link in its data directory that leads to [b]'s secret. *)
Definition two_servers : OS := mkOS (list_to_map [
    (["srv"], NDir); (["srv"; "a"], NDir); (["srv"; "a"; "data"], NDir);
    (["srv"; "a"; "data"; "old"], NFile "v1" 384);
    (["srv"; "a"; "data"; "way"], NLink "/srv/b/data");
    (["srv"; "b"], NDir); (["srv"; "b"; "data"], NDir);
    (["srv"; "b"; "data"; "secret"], NFile "s" 384)]) [] [7; 8] [].

Lemma two_servers_inv : fs_inv "/srv" "a" two_servers.
Proof.
  split; [apply tree_okb_ok|apply no_linkb_ok]; vm_compute; reflexivity.
Qed.

Definition attack : list FsOp := [
  OpDelete "way/secret" false; OpWrite "../../b/data/secret" (mkReader ["x"] (Ok tt)); OpDelete ".." true;
  OpRename "old" "way/old"; OpFilecmd "Remove" "/way/secret" ""; OpWrite "old" (mkReader ["v"; "2"] (Ok tt))].

Lemma fs_isolation_witness :
  os_tree (snd (run_fs_ops "/srv" "a" attack two_servers)) !! ["srv"; "b"; "data"; "secret"] =
  Some (NFile "s" 384).
Proof.
  destruct (fs_isolation "/srv" "a" attack two_servers eq_refl two_servers_inv) as (_ & _ & _ & H).
  rewrite (H "b"); [vm_compute; reflexivity|discriminate|].
  exists ["data"; "secret"]. vm_compute. reflexivity.
Defined.

Lemma read_confined_witness :
  ∃ cs, node_at (os_tree two_servers) (data_dir "/srv" "a" ++ cs) = Some (NFile "v1" 384) ∧ plain cs.
Proof.
  eapply (read_confined "/srv" "a" "x/../old" two_servers); [reflexivity|exact two_servers_inv|].
  vm_compute. reflexivity.
Defined.

Definition two_pieces : Reader := mkReader ["v"; "2"] (Ok tt).

Lemma write_atomic_witness :
  let o' := snd (Write "/srv" "a" "old" two_pieces two_servers) in
  os_tree o' !! ["srv"; "a"; "data"; "old"] = Some (NFile "v2" 384).
Proof.
  pose proof (write_atomic "/srv" "a" "old" two_pieces two_servers
    (snd (Write "/srv" "a" "old" two_pieces two_servers)) (Ok tt) eq_refl two_servers_inv) as H.
  destruct H as (_ & [H|(c & H & H')] & _).
  - vm_compute. reflexivity.
  - vm_compute in H. vm_compute. exact H.
  - vm_compute in H. injection H as <-. discriminate H'.
Defined.

Lemma list_pages_complete_witness : list_pages 4 ["a"; "b"; "c"] 2 0 = Some ["a"; "b"; "c"].
Proof. apply (list_pages_complete ["a"; "b"; "c"] 2). lia. Defined.
