(* ===== verification/Runtime.v ===== *)
(** * Container runtimes ([internal/runtime])

    The interface as a class over the engine's state, the in-memory engine, and
    the translation the Docker engine makes of specifications, inspections and
    statistics.  The Docker client is a parameter. *)

From S2P Require Import Prelude GoLib GoPath GoOS.
From Stdlib Require Import QArith Ascii.
#[local] Open Scope Z_scope.

(** ** Definitions *)

Record ContainerSpec := mkSpec {
  cs_ServerID : string; cs_Image : string; cs_Command : list string;
  cs_Env : list (string * string);
  cs_CPULimit : Z; cs_MemoryLimit : Z; cs_PIDLimit : Z;
  cs_WorkingDir : string; cs_MountSource : string; cs_SeccompProfile : string;
  cs_AppArmorProfile : string; cs_SELinuxLabel : string;
  cs_UserNamespace : bool; cs_PermissiveSandbox : bool }.

Inductive ContainerStatus := StatusNone | StatusRunning | StatusStopped | StatusCrashed.

#[global] Instance ContainerStatus_eq_dec : EqDecision ContainerStatus.
Proof. solve_decision. Defined.

(** [CPUPercent] is the exact quotient; the code rounds it to a [float64]. *)
Record Stats := mkStats {
  st_CPUPercent : Q; st_MemoryUsedMB : Z; st_MemoryLimitMB : Z; st_NetRxBytes : Z; st_NetTxBytes : Z }.

(** [runtime.Runtime]; the channel of [Logs] as the lines that arrive on it before it is
    closed. *)
Class Runtime (RT : Type) := {
  rt_BuildImage : string → string → M RT unit;
  rt_Create : ContainerSpec → M RT string;
  rt_Start : string → M RT unit;
  rt_Stop : string → Z → M RT unit;
  rt_Restart : string → M RT unit;
  rt_Delete : string → bool → M RT unit;
  rt_Status : string → M RT ContainerStatus;
  rt_Stats : string → M RT Stats;
  rt_Exec : string → list string → M RT string;
  rt_Logs : string → bool → M RT (list string) }.

(** *** [fake.go] *)

Record fake := mkFake { containers : gmap string ContainerStatus; seq : Z }.

Definition NewFake : fake := mkFake ∅ 0.

Definition fake_missing : error := Errorf "container tidak ditemukan" [].

Definition fake_Create (spec : ContainerSpec) : M fake string := λ f,
  let n := seq f + 1 in
  let id := "fake-" +:+ FormatInt n in
  (Ok id, mkFake (<[id := StatusStopped]> (containers f)) n).

Definition fake_set (id : string) (st : ContainerStatus) : M fake unit := λ f,
  match containers f !! id with
  | None => (Err fake_missing, f)
  | Some _ => (Ok tt, mkFake (<[id := st]> (containers f)) (seq f))
  end.

Definition fake_Delete (id : string) (force : bool) : M fake unit := λ f,
  (Ok tt, mkFake (delete id (containers f)) (seq f)).

Definition fake_Status (id : string) : M fake ContainerStatus := λ f,
  match containers f !! id with
  | None => (Err fake_missing, f)
  | Some st => (Ok st, f)
  end.

Definition fake_runtime : Runtime fake := {|
  rt_BuildImage := λ _ _, mret tt;
  rt_Create := fake_Create;
  rt_Start := λ id, fake_set id StatusRunning;
  rt_Stop := λ id _, fake_set id StatusStopped;
  rt_Restart := λ id, fake_set id StatusRunning;
  rt_Delete := fake_Delete;
  rt_Status := fake_Status;
  rt_Stats := λ _, mret (mkStats 0 0 0 0 0);
  rt_Exec := λ _ _, mret "";
  rt_Logs := λ _ _, mret [] |}.
#[global] Existing Instance fake_runtime.

(** *** [docker/docker.go], [docker/stats.go], [docker/build.go] *)

(** [container.Config] and [container.HostConfig], the fields that are set. *)
Record DockerConfig := mkDockerConfig {
  dc_Image : string; dc_Cmd : list string; dc_Env : list string; dc_WorkingDir : string;
  dc_Labels : list (string * string);
  hc_Memory : Z; hc_NanoCPUs : Z; hc_PidsLimit : Z;
  hc_SecurityOpt : list string; hc_UsernsMode : string; hc_Binds : list string }.

(** [container.State] of an inspection. *)
Record DockerState := mkDockerState { ds_Running : bool; ds_OOMKilled : bool; ds_ExitCode : Z }.

(** The statistics document, as decoded: [uint64] and [uint32] counters. *)
Record dockerStats := mkDockerStats {
  sd_TotalUsage : Z; sd_SystemUsage : Z; sd_OnlineCPUs : Z;
  sd_PreTotalUsage : Z; sd_PreSystemUsage : Z;
  sd_Usage : Z; sd_Limit : Z;
  sd_Networks : list (Z * Z) }.

Definition uint64 (z : Z) : Z := z mod 2^64.

Definition safeInt64 (value : Z) : Z := if 2^63 - 1 <? value then 2^63 - 1 else value.

(** [k+"="+v] for each entry of the map, in its iteration order. *)
Definition envList (env : list (string * string)) : list string :=
  (λ kv, kv.1 +:+ "=" +:+ kv.2) <$> env.

(** [docker_config spec profile]: the request of [Create], [profile] being the contents
    of the seccomp profile if one is named. *)
Definition docker_config (spec : ContainerSpec) (profile : option string) : DockerConfig :=
  mkDockerConfig (cs_Image spec) (cs_Command spec) (envList (cs_Env spec)) (cs_WorkingDir spec)
    [("oikos.server_id", cs_ServerID spec)]
    (cs_MemoryLimit spec) (wrap64 (cs_CPULimit spec * 1000000)) (cs_PIDLimit spec)
    (match profile with Some p => ["seccomp=" +:+ p] | None => [] end ++
     (if (cs_AppArmorProfile spec =? "")%string then [] else ["apparmor=" +:+ cs_AppArmorProfile spec]) ++
     (if (cs_SELinuxLabel spec =? "")%string then [] else ["label=" +:+ cs_SELinuxLabel spec]))
    (if cs_UserNamespace spec then "private" else "")
    (if (cs_MountSource spec =? "")%string then [] else [cs_MountSource spec +:+ ":/data"]).

(** [Status] of what an inspection shows. *)
Definition docker_status (st : option DockerState) : ContainerStatus :=
  match st with
  | None => StatusStopped
  | Some s =>
      if ds_Running s then StatusRunning
      else if ds_OOMKilled s then StatusCrashed
      else if bool_decide (ds_ExitCode s ∈ [0; 137; 143]) then StatusStopped else StatusCrashed
  end.

Definition docker_stats (s : dockerStats) : Stats :=
  let cpuDelta := uint64 (sd_TotalUsage s - sd_PreTotalUsage s) in
  let sysDelta := uint64 (sd_SystemUsage s - sd_PreSystemUsage s) in
  let cpus := if sd_OnlineCPUs s =? 0 then 1 else sd_OnlineCPUs s in
  let rx := foldl (λ a n, uint64 (a + n.1)) 0 (sd_Networks s) in
  let tx := foldl (λ a n, uint64 (a + n.2)) 0 (sd_Networks s) in
  mkStats (if (0 <? sysDelta) && (0 <? cpuDelta)
           then inject_Z (cpuDelta * cpus * 100) / inject_Z sysDelta else 0)
    (safeInt64 (sd_Usage s / 1024 / 1024)) (safeInt64 (sd_Limit s / 1024 / 1024))
    (safeInt64 rx) (safeInt64 tx).

Section Docker.
(** The client: its state and its calls. *)
Context {D : Type}.
Context (ContainerCreate : DockerConfig → string → M D string).
Context (ContainerStart ContainerRestart : string → M D unit).
Context (ContainerStop : string → Z → M D unit).
Context (ContainerRemove : string → bool → M D unit).
Context (ContainerInspect : string → M D (option DockerState)).
(** Bodies and streams are the bytes they give; [StdCopy] separates a multiplexed stream. *)
Context (ContainerStats : string → M D string) (json_Decode : string → res dockerStats).
Context (ContainerExecCreate : string → list string → M D string).
Context (ContainerExecAttach : string → M D string).
Context (ContainerExecInspect : string → M D Z).
Context (ContainerLogs : string → bool → M D string).
Context (StdCopy : string → string * option error).
Context (TarWithOptions : string → M OS string).
Context (ImageBuild : string → string → string → M D (res string)).
Context (NewClientWithOpts : option string → res D) (client_Ping : M D unit).

(** The engine: the client and the file system the seccomp profile is read from. *)
Record dockerRuntime := mkDocker { dk_cli : D; dk_os : OS }.

Definition on_cli {A} (m : M D A) : M dockerRuntime A :=
  zoom dk_cli (λ c d, mkDocker c (dk_os d)) m.
Definition on_os {A} (m : M OS A) : M dockerRuntime A :=
  zoom dk_os (λ o d, mkDocker (dk_cli d) o) m.

Definition docker_Create (spec : ContainerSpec) : M dockerRuntime string :=
  profile ← (if (cs_SeccompProfile spec =? "")%string then mret None
             else p ← wrap "read seccomp profile" [] (on_os (ReadFile (cs_SeccompProfile spec)));
                  mret (Some p));
  wrap "container create" []
    (on_cli (ContainerCreate (docker_config spec profile) ("oikos-" +:+ cs_ServerID spec))).

Definition docker_Start (id : string) : M dockerRuntime unit :=
  wrap "container start" [] (on_cli (ContainerStart id)).
Definition docker_Stop (id : string) (timeout : Z) : M dockerRuntime unit :=
  wrap "container stop" [] (on_cli (ContainerStop id timeout)).
Definition docker_Restart (id : string) : M dockerRuntime unit :=
  wrap "container restart" [] (on_cli (ContainerRestart id)).
Definition docker_Delete (id : string) (force : bool) : M dockerRuntime unit :=
  wrap "container delete" [] (on_cli (ContainerRemove id force)).
Definition docker_Status (id : string) : M dockerRuntime ContainerStatus :=
  st ← wrap "container inspect" [] (on_cli (ContainerInspect id));
  mret (docker_status st).
Definition docker_Stats (id : string) : M dockerRuntime Stats :=
  body ← wrap "container stats" [] (on_cli (ContainerStats id));
  s ← wrap "decode stats" [] (lift_res (json_Decode body));
  mret (docker_stats s).

(** The output of a command that fails is returned with the error; no caller looks at it. *)
Definition docker_Exec (id : string) (cmd : list string) : M dockerRuntime string :=
  exec ← wrap "exec create" [] (on_cli (ContainerExecCreate id cmd));
  reader ← wrap "exec attach" [] (on_cli (ContainerExecAttach exec));
  out ← wrap "exec baca output" []
    (lift_res (match StdCopy reader with (out, None) => Ok out | (_, Some e) => Err e end));
  code ← wrap "exec inspect" [] (on_cli (ContainerExecInspect exec));
  fail_if (negb (code =? 0)) (Errorf "exec exit code %d" [FormatInt code]);;
  mret out.

(** The lines of [Logs]: the scanner ends at a line that does not fit its buffer. *)
Definition log_buffer : nat := Z.to_nat (1024 * 1024).

Fixpoint trim_line_end (s : string) : string :=
  match s with
  | "" => ""
  | String c s =>
      let rest := trim_line_end s in
      if (rest =? "")%string && (bool_decide (code c = 10) || bool_decide (code c = 13)) then "" else String c rest
  end.

Fixpoint scan_lines (lines : list string) : list string :=
  match lines with
  | [] => []
  | [last] => if (last =? "")%string || (log_buffer <=? String.length last)%nat then [] else [trim_line_end last]
  | line :: lines =>
      if (log_buffer <=? String.length line)%nat then [] else trim_line_end line :: scan_lines lines
  end.

Definition docker_Logs (id : string) (follow : bool) : M dockerRuntime (list string) :=
  reader ← wrap "container logs" [] (on_cli (ContainerLogs id follow));
  mret (scan_lines (Split "010"%char (fst (StdCopy reader)))).

Definition docker_BuildImage (dockerfilePath imageTag : string) : M dockerRuntime unit :=
  buildCtx ← wrap "build context" [] (on_os (TarWithOptions (Dir dockerfilePath)));
  body ← wrap "image build" [] (on_cli (ImageBuild buildCtx imageTag (Base dockerfilePath)));
  wrap "baca output build" [] (lift_res body);;
  mret tt.

(** [New]: an empty host stands for the environment's. *)
Definition host_option (host : string) : option string := if (host =? "")%string then None else Some host.
Definition docker_New (host : string) (o : OS) : res dockerRuntime :=
  match NewClientWithOpts (host_option host) with
  | Err e => Err (Errorw "docker client" [] e)
  | Ok cli => Ok (mkDocker cli o)
  end.
Definition docker_Ping (host : string) : res unit :=
  match NewClientWithOpts (host_option host) with
  | Err e => Err (Errorw "docker client" [] e)
  | Ok cli => fst (wrap "docker ping" [] client_Ping cli)
  end.

Definition docker_runtime : Runtime dockerRuntime := {|
  rt_BuildImage := docker_BuildImage;
  rt_Create := docker_Create;
  rt_Start := docker_Start;
  rt_Stop := docker_Stop;
  rt_Restart := docker_Restart;
  rt_Delete := docker_Delete;
  rt_Status := docker_Status;
  rt_Stats := docker_Stats;
  rt_Exec := docker_Exec;
  rt_Logs := docker_Logs |}.
End Docker.

(** ** Properties *)

(** The statistics fit [int64] whatever the engine reports: memory is rounded down to
    whole MiB, network counters saturate instead of turning negative, and the processor
    share is never negative. *)
Theorem docker_stats_bounds (s : dockerStats) :
  0 ≤ sd_Usage s < 2^64 → 0 ≤ sd_Limit s < 2^64 → 0 ≤ sd_OnlineCPUs s →
  let r := docker_stats s in
  (0 <= st_CPUPercent r)%Q ∧
  (0 ≤ st_MemoryUsedMB r ∧ st_MemoryUsedMB r * 2^20 ≤ sd_Usage s < (st_MemoryUsedMB r + 1) * 2^20) ∧
  (0 ≤ st_MemoryLimitMB r ∧ st_MemoryLimitMB r * 2^20 ≤ sd_Limit s < (st_MemoryLimitMB r + 1) * 2^20) ∧
  0 ≤ st_NetRxBytes r < 2^63 ∧ 0 ≤ st_NetTxBytes r < 2^63.
Proof.
  assert (∀ z, 0 ≤ z < 2^64 → 0 ≤ safeInt64 (z / 1024 / 1024) ∧
    safeInt64 (z / 1024 / 1024) * 2^20 ≤ z < (safeInt64 (z / 1024 / 1024) + 1) * 2^20) as Hmem.
  { intros z Hz. assert (z / 1024 / 1024 = z / 2^20) as -> by (by rewrite Z.div_div).
    pose proof (Z.mul_div_le z (2^20) ltac:(lia)). pose proof (Z.mul_succ_div_gt z (2^20) ltac:(lia)).
    pose proof (Z.div_pos z (2^20) ltac:(lia) ltac:(lia)). unfold safeInt64.
    destruct (Z.ltb_spec (2^63 - 1) (z / 2^20)); lia. }
  assert (∀ z, 0 ≤ z → 0 ≤ safeInt64 z < 2^63) as Hsafe.
  { intros z Hz. unfold safeInt64. destruct (Z.ltb_spec (2^63 - 1) z); lia. }
  assert (∀ (f : Z * Z → Z) l a, 0 ≤ a → 0 ≤ foldl (λ a n, uint64 (a + f n)) a l) as Hsum.
  { intros f l. induction l as [|n l IH]; intros a Ha; simpl; [done|]. apply IH.
    unfold uint64. apply Z.mod_pos_bound. lia. }
  intros Hu Hl Hc. unfold docker_stats. cbv zeta. simpl. split.
  - destruct (0 <? _) eqn:E1; [|done]. destruct (0 <? uint64 (sd_TotalUsage s - _)) eqn:E2; [|done].
    apply Z.ltb_lt in E1, E2. simpl. apply Qle_shift_div_l.
    + unfold Qlt. simpl. lia.
    + unfold Qle. simpl. destruct (Z.eqb_spec (sd_OnlineCPUs s) 0); nia.
  - split; [by apply Hmem|]. split; [by apply Hmem|].
    split; apply Hsafe; [apply (Hsum fst)|apply (Hsum snd)]; lia.
Qed.

Lemma docker_stats_bounds_witness :
  st_MemoryUsedMB (docker_stats (mkDockerStats 10 20 0 3 30 (5 * 2^20 + 7) (2^63) [(2^64 - 1, 1); (5, 2^63)])) = 5 ∧
  0 ≤ st_NetTxBytes (docker_stats (mkDockerStats 10 20 0 3 30 (5 * 2^20 + 7) (2^63) [(2^64 - 1, 1); (5, 2^63)])) < 2^63.
Proof.
  split; [vm_compute; reflexivity|].
  apply (docker_stats_bounds (mkDockerStats 10 20 0 3 30 (5 * 2^20 + 7) (2^63) [(2^64 - 1, 1); (5, 2^63)]));
    simpl; lia.
Defined.
