(* ===== verification/Resource.v ===== *)
(** * Resource limits ([internal/resource])

    Limits are written to and read from the files of a cgroup v2 directory.
    The kernel shows what was written followed by a newline. *)

From S2P Require Import Prelude GoLib GoPath GoOS GoOSFacts.
From Stdlib Require Import Ascii.

(** ** Definitions *)

(** Ceilings; zero is unlimited. *)
Record Limits := mkLimits { CPUMillicores : Z; MemoryBytes : Z; PIDMax : Z }.

#[global] Instance Limits_eq_dec : EqDecision Limits.
Proof. solve_decision. Defined.

(** [resource.LimitEnforcer] *)
Class LimitEnforcer (E : Type) := {
  Apply : string → Limits → M E unit;
  ReadBack : string → M E Limits }.

Definition writeCgroupFile (dir name content : string) : M OS unit :=
  wrap "tulis %s" [name] (WriteFile (Join [dir; name]) content 420).

Definition readCgroupFile (dir name : string) : M OS string :=
  wrap "baca %s" [name] (ReadFile (Join [dir; name])).

(** [lim.CPUMillicores*100] in [int64], against a period of 100000. *)
Definition cpu_max (millicores : Z) : string := FormatInt (wrap64 (millicores * 100)) +:+ " 100000".

Definition ApplyLimits (dir : string) (lim : Limits) : M OS unit :=
  (if 0 <? CPUMillicores lim then writeCgroupFile dir "cpu.max" (cpu_max (CPUMillicores lim)) else mret tt);;
  (if 0 <? MemoryBytes lim then writeCgroupFile dir "memory.max" (FormatInt (MemoryBytes lim)) else mret tt);;
  (if 0 <? PIDMax lim then writeCgroupFile dir "pids.max" (FormatInt (PIDMax lim)) else mret tt).

Definition wrap_res {A} (fmt : string) (r : res A) : res A :=
  match r with Ok a => Ok a | Err e => Err (Errorw fmt [] e) end.

(** [quota / 100] truncates towards zero. *)
Definition parse_cpu (cpu : string) : res Z :=
  match Fields cpu with
  | [] => Ok 0
  | f :: _ =>
      if (f =? "max")%string then Ok 0
      else match wrap_res "parse cpu.max" (ParseInt f) with
           | Ok quota => Ok (Z.quot quota 100)
           | Err e => Err e
           end
  end.

Definition parse_max (name s : string) : res Z :=
  if (TrimSpace s =? "max")%string then Ok 0
  else wrap_res ("parse " +:+ name) (ParseInt (TrimSpace s)).

Definition ReadLimits (dir : string) : M OS Limits :=
  cpu ← readCgroupFile dir "cpu.max";
  cpu ← lift_res (parse_cpu cpu);
  mem ← readCgroupFile dir "memory.max";
  mem ← lift_res (parse_max "memory.max" mem);
  pids ← readCgroupFile dir "pids.max";
  pids ← lift_res (parse_max "pids.max" pids);
  mret (mkLimits cpu mem pids).

Definition DetectCgroupVersion : M OS string :=
  r ← try (Stat "/sys/fs/cgroup/cgroup.controllers");
  mret (if is_ok r then "v2" else "v1").

(** [filepath.WalkDir] visits in the lexical order of the components; links are not
    followed. *)
Fixpoint path_leb (a b : path) : bool :=
  match a, b with
  | [], _ => true
  | _ :: _, [] => false
  | x :: a, y :: b => if (x =? y)%string then path_leb a b else String.leb x y
  end.

Definition walk_dirs (root : string) (o : OS) : list string :=
  match resolve o false root with
  | Err _ => []
  | Ok k =>
      (λ p, Join (root :: drop (length k) p)) <$>
      isort path_leb
        (fst <$> filter (λ kn, below k kn.1 ∧ kn.2 = NDir) (map_to_list (os_tree o)))
  end.

(** The callback: [(exact, partial)]. *)
Definition cgroup_step (containerID short : string) (acc : string * string) (p : string)
    : string * string :=
  let '(exact, partial) := acc in
  if negb (exact =? "")%string && negb (partial =? "")%string then acc
  else
    let base := Base p in
    if (base =? "docker-" +:+ containerID +:+ ".scope")%string || (base =? containerID)%string
    then (p, partial)
    else if (partial =? "")%string && (base =? short)%string then (exact, p)
    else acc.

Definition short_id (containerID : string) : string :=
  if (12 <? String.length containerID)%nat then String.substring 0 12 containerID else containerID.

Definition FindContainerCgroup (root containerID : string) : M OS string :=
  dirs ← gets (walk_dirs root);
  let short := short_id containerID in
  let '(exact, partial) := foldl (cgroup_step containerID short) ("", "") dirs in
  if negb (exact =? "")%string then mret exact
  else if negb (partial =? "")%string then mret partial
  else fail (Errorf "cgroup untuk container %s tidak ditemukan" [short]).

(** The Linux enforcer, and the one of every other platform. *)
Definition LinuxLimitEnforcer : LimitEnforcer OS := {|
  Apply := ApplyLimits; ReadBack := ReadLimits |}.
#[global] Existing Instance LinuxLimitEnforcer.

Definition UnsupportedLimitEnforcer : LimitEnforcer OS := {|
  Apply := λ _ _, fail (ESentinel resource_ErrNotSupported);
  ReadBack := λ _, fail (ESentinel resource_ErrNotSupported) |}.

(** The three files of the cgroup directory [dir] hold these contents. *)
Definition cgroup_files (o : OS) (dir cpu mem pids : string) : Prop :=
  file_at (os_tree o) (Join [dir; "cpu.max"]) cpu ∧
  file_at (os_tree o) (Join [dir; "memory.max"]) mem ∧
  file_at (os_tree o) (Join [dir; "pids.max"]) pids.

Definition newline : string := String "010" "".

(** ** Lemmas *)

Lemma trim_right_newline s :
  bytes_all (λ c, negb (is_space c)) s = true → s ≠ "" → trim_right (s +:+ newline) = s.
Proof.
  induction s as [|c s IH]; [done|]. simpl. rewrite andb_true_iff, negb_true_iff. intros [Hc Hs] _.
  destruct s as [|d s].
  - change (trim_right ("" +:+ newline)) with "". simpl. by rewrite Hc.
  - rewrite IH by done. done.
Qed.

Lemma TrimSpace_newline s :
  bytes_all (λ c, negb (is_space c)) s = true → s ≠ "" → TrimSpace (s +:+ newline) = s.
Proof.
  intros Hs Hne. unfold TrimSpace. destruct s as [|c s]; [done|]. simpl in Hs.
  apply andb_true_iff in Hs as [Hc Hs]. simpl. rewrite negb_true_iff in Hc. rewrite Hc.
  change (String c (s +:+ newline)) with (String c s +:+ newline).
  apply trim_right_newline; [|done]. simpl. by rewrite Hc.
Qed.

Lemma FormatInt_not_max z : (FormatInt z =? "max")%string = false ∧ FormatInt z ≠ "".
Proof.
  destruct (FormatInt_head z) as (c & s & E & _).
  assert (bytes_all (λ c, is_digit c || bool_decide (c = "-"%char)) (FormatInt z) = true) as H.
  { unfold FormatInt. set (d := Z.to_int z). clearbody d.
    assert (∀ u, bytes_all (λ c, is_digit c || bool_decide (c = "-"%char))
      (DecimalString.NilEmpty.string_of_uint u) = true) as Hu by (induction u; simpl; done).
    assert (∀ u, bytes_all (λ c, is_digit c || bool_decide (c = "-"%char))
      (DecimalString.NilZero.string_of_uint u) = true) as Hz by (intros []; simpl; try done; apply Hu).
    destruct d as [u|u]; simpl; apply Hz. }
  split; [|by rewrite E]. apply String.eqb_neq. intros Heq. by rewrite Heq in H.
Qed.

Lemma parse_max_shown name z :
  0 ≤ z < 2^63 →
  parse_max name ((if 0 <? z then FormatInt z else "max") +:+ newline) = Ok z.
Proof.
  intros Hz. unfold parse_max. destruct (Z.ltb_spec 0 z).
  - destruct (FormatInt_not_max z) as [H1 H2].
    rewrite TrimSpace_newline, H1, ParseInt_FormatInt; [done| |apply FormatInt_no_space|done].
    unfold in_int64. lia.
  - assert (z = 0) as -> by lia. done.
Qed.

Lemma Fields_word w s :
  bytes_all (λ c, negb (is_space c)) w = true → w ≠ "" → (∃ c t, s = String c t ∧ is_space c = true) →
  head (Fields (w +:+ s)) = Some w.
Proof.
  intros Hw Hne (c & t & -> & Hc). unfold Fields. rewrite fields_go_word by done. simpl.
  rewrite Hc, bool_decide_false by done. done.
Qed.

Lemma parse_cpu_shown m :
  0 ≤ m → m * 100 < 2^63 →
  parse_cpu ((if 0 <? m then cpu_max m else "max 100000") +:+ newline) = Ok m.
Proof.
  intros Hm Hb. destruct (Z.ltb_spec 0 m).
  - unfold parse_cpu, cpu_max. rewrite wrap64_id by (unfold in_int64; lia).
    rewrite string_app_assoc. destruct (FormatInt_not_max (m * 100)) as [H1 H2].
    pose proof (Fields_word (FormatInt (m * 100)) (" 100000" +:+ newline)
      (FormatInt_no_space _) H2) as HF.
    destruct (Fields _) as [|f fs]; simpl in HF; [by specialize (HF ltac:(by repeat eexists))|].
    injection HF as ->; [|by repeat eexists].
    rewrite H1, ParseInt_FormatInt by (unfold in_int64; lia). simpl. by rewrite Z.quot_mul.
  - assert (m = 0) as -> by lia. done.
Qed.

Lemma file_at_comps t p q c d : file_at t p c → file_at t q d → c ≠ d → comps p ≠ comps q.
Proof. intros (_ & _ & _ & m & H) (_ & _ & _ & m' & H') Hne Heq. rewrite Heq in H. congruence. Qed.

(** One conditional write of [ApplyLimits]. *)
Lemma write_limit o dir name old new (b : bool) :
  os_faults o = [] → tree_ok (os_tree o) → file_at (os_tree o) (Join [dir; name]) old →
  ∃ o', (if b then writeCgroupFile dir name new else mret tt) o = (Ok tt, o') ∧
    os_faults o' = [] ∧ tree_ok (os_tree o') ∧
    file_at (os_tree o') (Join [dir; name]) (if b then new else old) ∧
    ∀ q d, comps q ≠ comps (Join [dir; name]) → file_at (os_tree o) q d → file_at (os_tree o') q d.
Proof.
  intros Hf Ht Hfile. destruct b; [|by exists o].
  destruct (WriteFile_at o _ old new 420 Hf Ht Hfile) as (o' & E & H).
  exists o'. unfold writeCgroupFile. by rewrite (wrap_Ok _ _ _ _ _ _ E).
Qed.

Lemma ApplyLimits_files o dir lim :
  os_faults o = [] → tree_ok (os_tree o) → cgroup_files o dir "max 100000" "max" "max" →
  comps (Join [dir; "memory.max"]) ≠ comps (Join [dir; "pids.max"]) →
  ∃ o', ApplyLimits dir lim o = (Ok tt, o') ∧ os_faults o' = [] ∧ tree_ok (os_tree o') ∧
    cgroup_files o' dir
      (if 0 <? CPUMillicores lim then cpu_max (CPUMillicores lim) else "max 100000")
      (if 0 <? MemoryBytes lim then FormatInt (MemoryBytes lim) else "max")
      (if 0 <? PIDMax lim then FormatInt (PIDMax lim) else "max").
Proof.
  intros Hf Ht (Hc & Hm & Hp) Hne.
  pose proof (file_at_comps _ _ _ _ _ Hc Hm ltac:(done)) as N1.
  pose proof (file_at_comps _ _ _ _ _ Hc Hp ltac:(done)) as N2.
  destruct (write_limit o dir "cpu.max" _ (cpu_max (CPUMillicores lim)) (0 <? CPUMillicores lim) Hf Ht Hc)
    as (o1 & E1 & Hf1 & Ht1 & Hc1 & K1).
  apply (K1 _ _ (not_eq_sym N1)) in Hm. apply (K1 _ _ (not_eq_sym N2)) in Hp.
  destruct (write_limit o1 dir "memory.max" _ (FormatInt (MemoryBytes lim)) (0 <? MemoryBytes lim) Hf1 Ht1 Hm)
    as (o2 & E2 & Hf2 & Ht2 & Hm2 & K2).
  apply (K2 _ _ N1) in Hc1. apply (K2 _ _ (not_eq_sym Hne)) in Hp.
  destruct (write_limit o2 dir "pids.max" _ (FormatInt (PIDMax lim)) (0 <? PIDMax lim) Hf2 Ht2 Hp)
    as (o3 & E3 & Hf3 & Ht3 & Hp3 & K3).
  apply (K3 _ _ N2) in Hc1. apply (K3 _ _ Hne) in Hm2.
  exists o3. unfold ApplyLimits. rewrite (bind_Ok _ _ _ _ _ E1), (bind_Ok _ _ _ _ _ E2), E3. done.
Qed.

Lemma readCgroupFile_at o dir name c :
  os_faults o = [] → tree_ok (os_tree o) → file_at (os_tree o) (Join [dir; name]) c →
  readCgroupFile dir name o = (Ok c, o).
Proof. intros Hf Ht H. unfold readCgroupFile. by apply wrap_Ok, ReadFile_at. Qed.

Lemma ReadLimits_files o dir cpu mem pids lim :
  os_faults o = [] → tree_ok (os_tree o) → cgroup_files o dir cpu mem pids →
  parse_cpu cpu = Ok (CPUMillicores lim) → parse_max "memory.max" mem = Ok (MemoryBytes lim) →
  parse_max "pids.max" pids = Ok (PIDMax lim) → ReadLimits dir o = (Ok lim, o).
Proof.
  intros Hf Ht (Hc & Hm & Hp) P1 P2 P3. unfold ReadLimits, lift_res.
  rewrite (bind_Ok _ _ _ _ _ (readCgroupFile_at _ _ _ _ Hf Ht Hc)), P1.
  rewrite (bind_Ok _ _ _ _ _ (eq_refl : (Ok (CPUMillicores lim), o) = _)).
  rewrite (bind_Ok _ _ _ _ _ (readCgroupFile_at _ _ _ _ Hf Ht Hm)), P2.
  rewrite (bind_Ok _ _ _ _ _ (eq_refl : (Ok (MemoryBytes lim), o) = _)).
  rewrite (bind_Ok _ _ _ _ _ (readCgroupFile_at _ _ _ _ Hf Ht Hp)), P3. by destruct lim.
Qed.

(** ** Properties *)

(** Limits survive the cgroup files.  On a fresh cgroup [ApplyLimits] succeeds, and
    from any state that shows what it wrote with a newline after it, as the kernel does,
    [ReadLimits] returns the same limits, zero as unlimited, up to the bound where
    [CPUMillicores*100] still fits [int64]. *)
Theorem limits_roundtrip (dir : string) (lim : Limits) (o : OS) :
  0 ≤ CPUMillicores lim → CPUMillicores lim * 100 < 2^63 →
  0 ≤ MemoryBytes lim < 2^63 → 0 ≤ PIDMax lim < 2^63 →
  os_faults o = [] → tree_ok (os_tree o) → cgroup_files o dir "max 100000" "max" "max" →
  comps (Join [dir; "memory.max"]) ≠ comps (Join [dir; "pids.max"]) →
  ∃ o1 cpu mem pids, ApplyLimits dir lim o = (Ok tt, o1) ∧ cgroup_files o1 dir cpu mem pids ∧
    ∀ o2, os_faults o2 = [] → tree_ok (os_tree o2) →
      cgroup_files o2 dir (cpu +:+ newline) (mem +:+ newline) (pids +:+ newline) →
      ReadLimits dir o2 = (Ok lim, o2).
Proof.
  intros H1 H2 H3 H4 Hf Ht Hfiles Hne.
  destruct (ApplyLimits_files o dir lim Hf Ht Hfiles Hne) as (o1 & E & _ & _ & H).
  exists o1. do 3 eexists. split; [exact E|]. split; [exact H|]. intros o2 Hf2 Ht2 Hc2.
  eapply ReadLimits_files; [done|done|exact Hc2|..].
  - by apply parse_cpu_shown.
  - by apply parse_max_shown.
  - by apply parse_max_shown.
Qed.

(** A fresh cgroup. *)
Definition cgroup_os (a b c : string) : OS := mkOS (list_to_map [
  (["cg"], NDir); (["cg"; "cpu.max"], NFile a 420); (["cg"; "memory.max"], NFile b 420);
  (["cg"; "pids.max"], NFile c 420)]) [] [] [].

Lemma cgroup_os_ok a b c : tree_ok (os_tree (cgroup_os a b c)) ∧ cgroup_files (cgroup_os a b c) "/cg" a b c.
Proof.
  split; [apply tree_okb_ok; vm_compute; reflexivity|].
  split; [|split]; (split; [split; [reflexivity|by repeat constructor]|]);
    (split; [apply no_linkb_ok; vm_compute; reflexivity|]); (split; [vm_compute; discriminate|]);
    exists 420; vm_compute; reflexivity.
Qed.

Lemma limits_roundtrip_witness :
  ReadLimits "/cg" (cgroup_os ("150000 100000" +:+ newline) ("1073741824" +:+ newline) ("max" +:+ newline))
  = (Ok (mkLimits 1500 (2^30) 0),
     cgroup_os ("150000 100000" +:+ newline) ("1073741824" +:+ newline) ("max" +:+ newline)).
Proof.
  destruct (limits_roundtrip "/cg" (mkLimits 1500 (2^30) 0) (cgroup_os "max 100000" "max" "max"))
    as (o1 & cpu & mem & pids & E & (H1 & H2 & H3) & H);
    [vm_compute; discriminate|vm_compute; reflexivity|simpl; lia|simpl; lia|reflexivity
    |apply cgroup_os_ok|apply cgroup_os_ok|vm_compute; discriminate|].
  apply (f_equal snd) in E. simpl in E. subst o1.
  apply H; [reflexivity|apply cgroup_os_ok|].
  destruct H1 as (_ & _ & _ & m1 & H1), H2 as (_ & _ & _ & m2 & H2), H3 as (_ & _ & _ & m3 & H3).
  vm_compute in H1, H2, H3.
  injection H1 as <- _. injection H2 as <- _. injection H3 as <- _. apply cgroup_os_ok.
Defined.
