(* ===== verification/World.v ===== *)
(** * The state the daemon's managers share ([cmd/oikos/daemon.go])

    The lifecycle, the tunnel manager, the crash observer and the healer work on
    one database, one event bus, one file system; the container engine, the
    Panel and the frpc process are behind interfaces. *)

From S2P Require Import Prelude GoLib GoPath GoOS Store Bus Runtime.

(** ** Definitions *)

(** [tunnel.PortMapping], [tunnel.TunnelStatus], [tunnel.Assignment] *)
Record PortMapping := mkMapping {
  pm_TunnelID : string; pm_ServerID : string; pm_LocalPort : Z; pm_RemotePort : Z;
  pm_Protocol : string }.

#[global] Instance PortMapping_eq_dec : EqDecision PortMapping.
Proof. solve_decision. Defined.

Definition TunnelPending : string := "pending".
Definition TunnelConnected : string := "connected".
Definition TunnelDisconnected : string := "disconnected".
Definition TunnelError : string := "error".

Record Assignment := mkAssignment {
  as_TunnelID : string; as_RemotePort : Z; as_Status : string }.

#[global] Instance Assignment_eq_dec : EqDecision Assignment.
Proof. solve_decision. Defined.

(** [tunnel.PanelAllocator] *)
Class PanelAllocator (P : Type) := {
  alloc_Register : PortMapping → M P Assignment;
  alloc_Release : PortMapping → M P unit }.

(** What a receive from [Wait()] gives: nothing yet, a value, or a closed channel. *)
Inductive wait_result := WaitBlocks | WaitValue | WaitClosed.

(** [tunnel.ProcessController] *)
Class ProcessController (C : Type) := {
  proc_Start : string → M C unit;
  proc_Stop : M C unit;
  proc_Reload : string → M C unit;
  proc_Wait : M C wait_result }.

Record World (RT P C : Type) := mkWorld {
  w_db : DB;
  w_bus : EventBus;
  w_os : OS;
  w_rt : RT;                             (* the container engine *)
  w_panel : P;                           (* the Panel, as its clients see it *)
  w_proc : C;                            (* the frpc process *)
  w_maps : gmap string PortMapping;      (* FrpManager.mappings *)
  w_closed : bool;                       (* FrpManager.closed *)
  w_manual : gset string }.              (* Lifecycle.manualStops *)
Arguments mkWorld {RT P C}.
Arguments w_db {RT P C}.
Arguments w_bus {RT P C}.
Arguments w_os {RT P C}.
Arguments w_rt {RT P C}.
Arguments w_panel {RT P C}.
Arguments w_proc {RT P C}.
Arguments w_maps {RT P C}.
Arguments w_closed {RT P C}.
Arguments w_manual {RT P C}.

Section World.
Context {RT P C : Type}.
Local Abbreviation W := (World RT P C).

Definition put_db (x : DB) (w : W) : W :=
  mkWorld x (w_bus w) (w_os w) (w_rt w) (w_panel w) (w_proc w) (w_maps w) (w_closed w) (w_manual w).
Definition put_bus (x : EventBus) (w : W) : W :=
  mkWorld (w_db w) x (w_os w) (w_rt w) (w_panel w) (w_proc w) (w_maps w) (w_closed w) (w_manual w).
Definition put_os (x : OS) (w : W) : W :=
  mkWorld (w_db w) (w_bus w) x (w_rt w) (w_panel w) (w_proc w) (w_maps w) (w_closed w) (w_manual w).
Definition put_rt (x : RT) (w : W) : W :=
  mkWorld (w_db w) (w_bus w) (w_os w) x (w_panel w) (w_proc w) (w_maps w) (w_closed w) (w_manual w).
Definition put_panel (x : P) (w : W) : W :=
  mkWorld (w_db w) (w_bus w) (w_os w) (w_rt w) x (w_proc w) (w_maps w) (w_closed w) (w_manual w).
Definition put_proc (x : C) (w : W) : W :=
  mkWorld (w_db w) (w_bus w) (w_os w) (w_rt w) (w_panel w) x (w_maps w) (w_closed w) (w_manual w).
Definition put_maps (x : gmap string PortMapping) (w : W) : W :=
  mkWorld (w_db w) (w_bus w) (w_os w) (w_rt w) (w_panel w) (w_proc w) x (w_closed w) (w_manual w).
Definition put_closed (x : bool) (w : W) : W :=
  mkWorld (w_db w) (w_bus w) (w_os w) (w_rt w) (w_panel w) (w_proc w) (w_maps w) x (w_manual w).
Definition put_manual (x : gset string) (w : W) : W :=
  mkWorld (w_db w) (w_bus w) (w_os w) (w_rt w) (w_panel w) (w_proc w) (w_maps w) (w_closed w) x.

Definition db {A} (m : M DB A) : M W A := zoom w_db put_db m.
Definition os {A} (m : M OS A) : M W A := zoom w_os put_os m.
Definition rt {A} (m : M RT A) : M W A := zoom w_rt put_rt m.
Definition panel {A} (m : M P A) : M W A := zoom w_panel put_panel m.
Definition proc {A} (m : M C A) : M W A := zoom w_proc put_proc m.

(** [bus.Publish(orchestrator.Event{Type: typ, ServerID: serverID})] *)
Definition publish (typ serverID : string) : M W unit :=
  modify (λ w, put_bus (Publish (mkEvent typ serverID) (w_bus w)) w).
End World.

(** [tunnel.Manager], the part the lifecycle calls. *)
Record TunnelManager (W : Type) := mkTunnelManager {
  tm_RegisterPort : PortMapping → M W Assignment;
  tm_ReleaseServer : string → M W unit }.
Arguments mkTunnelManager {W}.
Arguments tm_RegisterPort {W}.
Arguments tm_ReleaseServer {W}.
