(* ===== verification/Tunnel.v ===== *)
(** * Tunnels ([internal/tunnel])

    The Panel's allocator, the frpc configuration, the frpc process and the
    manager that ties them to the store; the tunnel healer; network groups. *)

From S2P Require Import Prelude Interleave GoLib GoPath GoOS Store Bus Runtime World.

(** ** Definitions *)

(** *** [allocator.go] *)

Record RegisterTunnelRequest := mkRegisterReq {
  rq_NodeId : string; rq_ServerId : string; rq_LocalPort : Z; rq_Protocol : string }.
Record RegisterTunnelResponse := mkRegisterResp {
  rp_TunnelId : string; rp_RemotePort : Z; rp_Status : string }.

Definition validateLocalPort (port : Z) : res unit :=
  if (port <? 1) || (65535 <? port) then Err (Errorf "local port %d di luar range" [FormatInt port])
  else Ok tt.

(** [int32(port)] *)
Definition int32 (z : Z) : Z := (z + 2^31) mod 2^32 - 2^31.

Definition protoPort (port : Z) : res Z :=
  match validateLocalPort port with Err e => Err e | Ok _ => Ok (int32 port) end.

Definition valid_protocol (p : string) : bool := (p =s "tcp") || (p =s "udp").

Section Panel.
(** The Panel's [TunnelServiceClient]. *)
Context {P : Type}.
Context (RegisterTunnel : RegisterTunnelRequest → M P RegisterTunnelResponse).
Context (ReleaseTunnel : RegisterTunnelRequest → M P unit).
Context (nodeID : string).

Definition panel_Register (m : PortMapping) : M P Assignment :=
  fail_if ((pm_ServerID m =s "") || negb (is_ok (validateLocalPort (pm_LocalPort m))))
    (Errorf "mapping tunnel tidak valid" []);;
  fail_if (negb (valid_protocol (pm_Protocol m)))
    (Errorf "protocol %q tidak didukung" [pm_Protocol m]);;
  localPort ← lift_res (protoPort (pm_LocalPort m));
  resp ← wrap "register tunnel ke panel" []
    (RegisterTunnel (mkRegisterReq nodeID (pm_ServerID m) localPort (pm_Protocol m)));
  fail_if ((rp_TunnelId resp =s "") || (rp_RemotePort resp <? 1) || (65535 <? rp_RemotePort resp))
    (Errorf "assignment panel tidak valid" []);;
  mret (mkAssignment (rp_TunnelId resp) (rp_RemotePort resp)
          (if rp_Status resp =s "" then TunnelPending else rp_Status resp)).

Definition panel_Release (m : PortMapping) : M P unit :=
  lift_res (validateLocalPort (pm_LocalPort m));;
  localPort ← lift_res (protoPort (pm_LocalPort m));
  wrap "release tunnel ke panel" []
    (ReleaseTunnel (mkRegisterReq nodeID (pm_ServerID m) localPort (pm_Protocol m))).

(** [NewPanelAllocator] *)
Definition NewPanelAllocator : PanelAllocator P := {|
  alloc_Register := panel_Register; alloc_Release := panel_Release |}.
End Panel.

(** *** [config.go] *)

Record FRPConfig := mkFRPConfig {
  fc_ServerAddr : string; fc_ServerPort : Z; fc_Token : string; fc_ConfigPath : string;
  fc_BinaryPath : string; fc_RemotePortMin : Z; fc_RemotePortMax : Z }.

Record frpProxy := mkProxy {
  fx_Name : string; fx_Type : string; fx_LocalIP : string; fx_LocalPort : Z; fx_RemotePort : Z }.

(** [frpFile], with [frpAuth] in place. *)
Record frpFile := mkFrpFile {
  ff_ServerAddr : string; ff_ServerPort : Z; ff_AuthMethod : string; ff_AuthToken : string;
  ff_Proxies : list frpProxy }.

Definition port_ok (p : Z) : bool := negb ((p <? 1) || (65535 <? p)).

Definition proxy_of (m : PortMapping) : res frpProxy :=
  if (pm_TunnelID m =s "") || (pm_ServerID m =s "")
  then Err (Errorf "id tunnel/server wajib diisi" [])
  else if negb (valid_protocol (pm_Protocol m))
  then Err (Errorf "protocol %q tidak didukung" [pm_Protocol m])
  else if negb (port_ok (pm_LocalPort m)) || negb (port_ok (pm_RemotePort m))
  then Err (Errorf "port tunnel %s tidak valid" [pm_TunnelID m])
  else Ok (mkProxy ("oikos-" +:+ pm_ServerID m +:+ "-" +:+ pm_TunnelID m) (pm_Protocol m)
             "127.0.0.1" (pm_LocalPort m) (pm_RemotePort m)).

Fixpoint proxies_of (ms : list PortMapping) : res (list frpProxy) :=
  match ms with
  | [] => Ok []
  | m :: ms => match proxy_of m with
               | Err e => Err e
               | Ok p => match proxies_of ms with Err e => Err e | Ok ps => Ok (p :: ps) end
               end
  end.

Definition sort_mappings (ms : list PortMapping) : list PortMapping :=
  isort (λ a b, String.leb (pm_TunnelID a) (pm_TunnelID b)) ms.

Section Config.
(** [toml.Marshal] *)
Context (toml_Marshal : frpFile → res string).

Definition GenerateConfig (cfg : FRPConfig) (mappings : list PortMapping) : res string :=
  if (fc_ServerAddr cfg =s "") || negb (port_ok (fc_ServerPort cfg))
  then Err (Errorf "server frp tidak valid" [])
  else match proxies_of (sort_mappings mappings) with
       | Err e => Err e
       | Ok proxies => toml_Marshal (mkFrpFile (fc_ServerAddr cfg) (fc_ServerPort cfg) "token"
                                       (fc_Token cfg) proxies)
       end.
End Config.

(** [WriteConfigAtomic] after [os.CreateTemp]. *)
Definition fill_config (tmpName data : string) : M OS unit :=
  wrap "permission config" [] (temp_Chmod tmpName 384);;
  wrap "tulis config" [] (temp_Write tmpName data);;
  wrap "sync config" [] (temp_Sync tmpName);;
  wrap "tutup config" [] (temp_Close tmpName).

Definition WriteConfigAtomic (path data : string) : M OS unit :=
  fail_if (path =s "") (Errorf "path config kosong" []);;
  wrap "buat direktori config" [] (MkdirAll (Dir path));;
  tmpName ← wrap "buat temporary config" [] (CreateTemp (Dir path) ".frpc-" ".tmp");
  defer (fill_config tmpName data;; wrap "rename config" [] (Rename tmpName path))
    (Remove tmpName).

(** *** [process.go] *)

(** The [wait] channel of a process: still running, its exit not yet read, read. *)
Inductive exit_state := Running | Exited | Drained.

(** [osProcessController]: [cmd] with its [wait], every process that is alive, the next
    process id, and the outcomes of starting and stopping processes. *)
Record osProcessController := mkProc {
  pc_cmd : option (nat * exit_state);
  pc_alive : gset nat;
  pc_next : nat;
  pc_faults : faults }.

Definition os_Start (configPath : string) : M osProcessController unit := λ c,
  match pc_cmd c with
  | Some _ => (Ok tt, c)
  | None =>
      let '(flt, fs) := next_fault (pc_faults c) in
      match flt with
      | Some e => (Err (Errorw "start frpc" [] e), mkProc None (pc_alive c) (pc_next c) fs)
      | None => (Ok tt, mkProc (Some (pc_next c, Running)) ({[pc_next c]} ∪ pc_alive c)
                          (S (pc_next c)) fs)
      end
  end.

(** The critical section of [Stop]: the command is taken from the controller. *)
Definition os_take : M osProcessController (option nat) := λ c,
  (Ok (fst <$> pc_cmd c), mkProc None (pc_alive c) (pc_next c) (pc_faults c)).

(** The rest of [Stop], without the lock: SIGTERM, then SIGKILL after five seconds, and the wait
    for the end; a fault is the context ending first, which leaves the process to itself. *)
Definition os_end (cmd : option nat) : M osProcessController unit := λ c,
  match cmd with
  | None => (Ok tt, c)
  | Some pid =>
      let '(flt, fs) := next_fault (pc_faults c) in
      match flt with
      | Some e => (Err e, mkProc (pc_cmd c) (pc_alive c) (pc_next c) fs)
      | None => (Ok tt, mkProc (pc_cmd c) (pc_alive c ∖ {[pid]}) (pc_next c) fs)
      end
  end.

(** [Stop] when nothing comes between, as under the lock of the manager. *)
Definition os_Stop : M osProcessController unit :=
  cmd ← os_take; os_end cmd.

Definition os_Reload (configPath : string) : M osProcessController unit :=
  os_Stop;; os_Start configPath.

(** [Stop] and [Reload] beside other calls: they do not hold the lock while they wait. *)
Definition os_stop_steps : Proc osProcessController unit :=
  cmd ← act os_take; act (os_end cmd).
Definition os_reload_steps (configPath : string) : Proc osProcessController unit :=
  os_stop_steps ;; act (os_Start configPath).

(** A receive from [Wait()]. *)
Definition os_Wait : M osProcessController wait_result := λ c,
  match pc_cmd c with
  | None => (Ok WaitClosed, c)
  | Some (_, Running) => (Ok WaitBlocks, c)
  | Some (pid, Exited) => (Ok WaitValue, mkProc (Some (pid, Drained)) (pc_alive c) (pc_next c) (pc_faults c))
  | Some (_, Drained) => (Ok WaitClosed, c)
  end.

(** A process ends by itself; frpc does. *)
Definition os_exit (pid : nat) (c : osProcessController) : osProcessController :=
  mkProc (match pc_cmd c with
          | Some (p, Running) => Some (p, if bool_decide (p = pid) then Exited else Running)
          | cmd => cmd
          end) (pc_alive c ∖ {[pid]}) (pc_next c) (pc_faults c).
Definition os_crash (c : osProcessController) : osProcessController :=
  match pc_cmd c with
  | Some (pid, Running) => os_exit pid c
  | _ => c
  end.

Definition os_process : ProcessController osProcessController := {|
  proc_Start := os_Start; proc_Stop := os_Stop; proc_Reload := os_Reload; proc_Wait := os_Wait |}.
#[global] Existing Instance os_process.

(** [NewOSProcessController]: no command yet; the processes of the node live on. *)
Definition NewOSProcessController (c : osProcessController) : osProcessController :=
  mkProc None (pc_alive c) (pc_next c) (pc_faults c).

(** [fakeProcessController]: the calls it counted. *)
Record fakeProcessController := mkFakeProc { fp_starts : Z; fp_reloads : Z; fp_stops : Z }.

Definition fake_process : ProcessController fakeProcessController := {|
  proc_Start := λ _, modify (λ p, mkFakeProc (fp_starts p + 1) (fp_reloads p) (fp_stops p));
  proc_Stop := modify (λ p, mkFakeProc (fp_starts p) (fp_reloads p) (fp_stops p + 1));
  proc_Reload := λ _, modify (λ p, mkFakeProc (fp_starts p) (fp_reloads p + 1) (fp_stops p));
  proc_Wait := mret WaitBlocks |}.
#[global] Existing Instance fake_process.

(** *** [frp.go] *)

Section FrpManager.
Context {RT P C : Type} `{!PanelAllocator P} `{!ProcessController C}.
Context (toml_Marshal : frpFile → res string).
Context (cfg : FRPConfig).

Local Abbreviation W := (World RT P C).

(** [m.emit]: the daemon's [publish] callback puts the event on the bus. *)
Definition emit (typ serverID : string) : M W unit := publish typ serverID.

Definition rebuildLocked : M W unit :=
  mappings ← gets (λ w, (map_to_list (w_maps w)).*2);
  data ← lift_res (GenerateConfig toml_Marshal cfg mappings);
  os (WriteConfigAtomic (fc_ConfigPath cfg) data);;
  match mappings with
  | [] => proc proc_Stop
  | [_] => proc (proc_Start (fc_ConfigPath cfg))
  | _ => proc (proc_Reload (fc_ConfigPath cfg))
  end.

Definition tunnel_of (mapping : PortMapping) (a : Assignment) : Tunnel :=
  mkTunnel (as_TunnelID a) (pm_ServerID mapping) (pm_LocalPort mapping) (as_RemotePort a)
    (pm_Protocol mapping) (as_Status a) zeroTime.

Definition assigned (mapping : PortMapping) (a : Assignment) : PortMapping :=
  mkMapping (as_TunnelID a) (pm_ServerID mapping) (pm_LocalPort mapping) (as_RemotePort a)
    (pm_Protocol mapping).

(** [RegisterPort] once the store has no usable assignment. *)
Definition register_new (mapping : PortMapping) : M W Assignment :=
  a ← panel (alloc_Register mapping);
  wrap "simpan tunnel" [] (db (SaveTunnel (tunnel_of mapping a)));;
  modify (λ w, put_maps (<[as_TunnelID a := assigned mapping a]> (w_maps w)) w);;
  r ← try rebuildLocked;
  match r with
  | Err e =>
      ignore (db (UpdateTunnelStatus (as_TunnelID a) TunnelError));;
      emit "tunnel.disconnected" (pm_ServerID mapping);;
      fail e
  | Ok _ =>
      emit "tunnel.connected" (pm_ServerID mapping);;
      mret a
  end.

Definition RegisterPort (mapping : PortMapping) : M W Assignment :=
  old ← try (db (GetTunnelByMapping (pm_ServerID mapping) (pm_LocalPort mapping) (pm_Protocol mapping)));
  match old with
  | Ok t =>
      if 0 <? tn_RemotePort t then mret (mkAssignment (tn_ID t) (tn_RemotePort t) (tn_Status t))
      else register_new mapping
  | Err _ => register_new mapping
  end.

Definition mapping_of (t : Tunnel) : PortMapping :=
  mkMapping (tn_ID t) (tn_ServerID t) (tn_LocalPort t) (tn_RemotePort t) (tn_Protocol t).

(** The body of the loops of [ReleasePort] and [ReleaseServer]. *)
Definition release_one (serverID : string) (t : Tunnel) : M W unit :=
  panel (alloc_Release (mapping_of t));;
  db (DeleteTunnelByMapping serverID (tn_LocalPort t) (tn_Protocol t));;
  modify (λ w, put_maps (delete (tn_ID t) (w_maps w)) w);;
  emit "tunnel.disconnected" serverID.

Definition ReleasePort (serverID : string) (localPort : Z) : M W unit :=
  tunnels ← db (ListTunnels serverID);
  for_each (λ t, if tn_LocalPort t =? localPort then release_one serverID t else mret tt) tunnels;;
  rebuildLocked.

Definition ReleaseServer (serverID : string) : M W unit :=
  tunnels ← db (ListTunnels serverID);
  for_each (release_one serverID) tunnels;;
  rebuildLocked.

Definition FrpStatus (serverID : string) : M W (list string) :=
  tunnels ← db (ListTunnels serverID);
  mret (tn_Status <$> tunnels).

Definition Reload : M W unit := rebuildLocked.

Definition Close : M W unit :=
  modify (put_closed true);;
  proc proc_Stop.

(** One turn of [Watch] at [attempt]: [None] when it returns, else the next attempt.
    Receiving blocks while frpc runs; the backoff timer is not state. *)
Definition watch_turn (attempt : Z) : M W (option Z) :=
  ev ← proc proc_Wait;
  match ev with
  | WaitBlocks => mret (Some attempt)
  | WaitClosed => mret None
  | WaitValue =>
      emit "tunnel.disconnected" "";;
      r ← try Reload;
      mret (Some (if is_ok r then 0 else attempt + 1))
  end.

(** [NewFrpManager]: no mapping in memory, and a new process controller. *)
Definition NewFrpManager (new_process : C → C) : M W unit :=
  modify (λ w, put_maps ∅ (put_closed false (put_proc (new_process (w_proc w)) w))).

(** The manager as the lifecycle sees it. *)
Definition FrpTunnels : TunnelManager W := mkTunnelManager RegisterPort ReleaseServer.
End FrpManager.

(** [time.Second << min(attempt-1, 4)], capped. *)
Definition backoff (attempt : Z) : Z :=
  let attempt := if attempt <? 1 then 1 else attempt in
  let d := wrap64 (Z.shiftl time_Second (Z.min (attempt - 1) 4)) in
  if 30 * time_Second <? d then 30 * time_Second else d.

(** *** [factory.go] *)

Record FRPRuntimeConfig := mkFRPRuntime {
  rc_FRPBinary : string; rc_FRPConfig : string; rc_FRPServerAddr : string; rc_FRPServerPort : Z;
  rc_FRPToken : string; rc_FRPRemotePortMin : Z; rc_FRPRemotePortMax : Z }.

Definition executable (n : fnode) : bool :=
  match n with NFile _ m => negb (Z.land m 73 =? 0) | _ => true end.

(** The configuration [NewFromConfig] gives the manager; [have] says that an allocator and
    a store are passed. *)
Definition NewFromConfig (have : bool) (cfg : FRPRuntimeConfig) : M OS FRPConfig :=
  fail_if (rc_FRPBinary cfg =s "") (Errorf "runtime.frp_binary wajib diisi" []);;
  info ← wrap "frpc tidak tersedia" [] (Stat (rc_FRPBinary cfg));
  fail_if (negb (executable info)) (Errorf "frpc bukan executable: %s" [rc_FRPBinary cfg]);;
  fail_if (rc_FRPConfig cfg =s "") (Errorf "runtime.frp_config wajib diisi" []);;
  MkdirAll (Dir (rc_FRPConfig cfg));;
  fail_if (negb have) (Errorf "allocator dan store tunnel wajib diisi" []);;
  mret (mkFRPConfig (rc_FRPServerAddr cfg) (rc_FRPServerPort cfg) (rc_FRPToken cfg)
          (rc_FRPConfig cfg) (rc_FRPBinary cfg) (rc_FRPRemotePortMin cfg) (rc_FRPRemotePortMax cfg)).

(** *** [selfheal.go] *)

(** [TunnelSelfHealer]: its counters, with the state of its manager. *)
Record TunnelSelfHealer (W : Type) := mkHealer { th_world : W; th_attempt : Z; th_failed : bool }.
Arguments mkHealer {W}.
Arguments th_world {W}.
Arguments th_attempt {W}.
Arguments th_failed {W}.

(** [Start]: [None] when the fuel is exhausted.  [reload] is the manager's; [ctx_Err] is the error
    of the context once it is done; [ctx] says of each turn whether it is seen done at the
    top of the loop, and while the timer of the backoff runs. *)
Fixpoint healer_Start {W} (reload : M W unit) (ctx_Err : error) (ctx : list (bool * bool)) (fuel : nat)
    (h : TunnelSelfHealer W) : option (res unit * TunnelSelfHealer W) :=
  match fuel with
  | O => None
  | S fuel =>
      let '(at_top, at_timer) := default (false, false) (head ctx) in
      if at_top : bool then Some (Err ctx_Err, h) else
      match reload (th_world h) with
      | (Ok _, w) => Some (Ok tt, mkHealer w 0 (th_failed h))
      | (Err e, w) =>
          let attempt := th_attempt h + 1 in
          if 5 <? attempt
          then Some (Err (Errorw "tunnel recovery berhenti setelah 5 percobaan" [] e),
                     mkHealer w attempt true)
          else if at_timer : bool then Some (Err ctx_Err, mkHealer w attempt (th_failed h))
          else healer_Start reload ctx_Err (tail ctx) fuel (mkHealer w attempt (th_failed h))
      end
  end.

(** *** [mesh.go] *)

Record MemberSpec := mkMemberSpec { ms_NodeID : string; ms_PrivateIP : string }.
Record NetworkGroupAssignment := mkGroupAssignment {
  ga_GroupID : string; ga_Name : string; ga_RelayAddr : string; ga_RelayPort : Z;
  ga_PrivateIP : string; ga_Members : list MemberSpec }.

Section Mesh.
(** [netip.ParseAddr]: the error of an invalid address. *)
Context (ParseAddr : string → option error).

Definition check_ip (ip : string) : res unit :=
  match ParseAddr ip with
  | Some e => Err (Errorw "private ip %q tidak valid" [ip] e)
  | None => Ok tt
  end.

Definition validateAssignment (a : NetworkGroupAssignment) : res unit :=
  if (ga_GroupID a =s "") || (ga_Name a =s "")
  then Err (Errorf "group_id dan name wajib diisi" [])
  else if (ga_RelayAddr a =s "") || negb (port_ok (ga_RelayPort a))
  then Err (Errorf "relay endpoint tidak valid" [])
  else check_ip (ga_PrivateIP a).

Fixpoint member_rows (groupID : string) (ms : list MemberSpec) : res (list NetworkGroupMember) :=
  match ms with
  | [] => Ok []
  | m :: ms =>
      if ms_NodeID m =s "" then Err (Errorf "node member kosong" [])
      else match check_ip (ms_PrivateIP m) with
           | Err e => Err e
           | Ok _ => match member_rows groupID ms with
                     | Err e => Err e
                     | Ok rs => Ok (mkMember groupID (ms_NodeID m) (ms_PrivateIP m) :: rs)
                     end
           end
  end.

Definition Assign (a : NetworkGroupAssignment) : M DB unit :=
  lift_res (validateAssignment a);;
  wrap "simpan network group" [] (SaveNetworkGroup (mkNetworkGroup (ga_GroupID a) (ga_Name a)));;
  members ← lift_res (member_rows (ga_GroupID a) (ga_Members a));
  wrap "simpan member network group" [] (ReplaceNetworkGroupMembers (ga_GroupID a) members).

Definition Members (groupID : string) : M DB (list MemberSpec) :=
  ms ← ListNetworkGroupMembers groupID;
  mret ((λ m, mkMemberSpec (nm_NodeID m) (nm_PrivateIP m)) <$> ms).

Definition ReleaseMember (groupID nodeID : string) : M DB unit :=
  fail_if ((groupID =s "") || (nodeID =s "")) (Errorf "group_id dan node_id wajib diisi" []);;
  DeleteNetworkGroupMember groupID nodeID.
End Mesh.
