(* ===== verification/TunnelFacts.v ===== *)
(** * Facts about the tunnel manager

    Atomic replacement of the frpc configuration, and what one rebuild does. *)

From S2P Require Import Prelude GoLib GoPath GoOS GoOSFacts AtomicFile Store Bus Runtime World Tunnel.

(** ** Definitions *)

(** The file name of the configuration is not one of its temporary names. *)
Definition config_name_ok (p : string) : Prop :=
  ∀ c, last (comps p) = Some c → HasPrefix c ".frpc-" = false.

(** ** Lemmas *)

Lemma temp_config_ok z :
  comp_ok (".frpc-" +:+ FormatInt z +:+ ".tmp") ∧ ".frpc-" +:+ FormatInt z +:+ ".tmp" ≠ "..".
Proof.
  split; [split; [done|split; [done|]]|done].
  rewrite !bytes_all_app, FormatInt_no_slash. done.
Qed.

(** Filling the temporary configuration: only that file changes. *)
Lemma fill_config_fills name data :
  direct name → comps name ≠ [] → fills name data (fill_config name data).
Proof.
  intros Hd Hne o r o' Hl Ht. unfold fill_config, mbind, M_bind.
  destruct (wrap _ _ (temp_Chmod name 384) o) as [r1 o1] eqn:E1.
  assert (puts_file o o1 name) as W1.
  { unfold wrap, temp_Chmod in E1. destruct (Chmod name 384 o) as [r1' o1'] eqn:E.
    assert (o1' = o1) as -> by (destruct r1'; congruence). by apply (Chmod_effect o o1 name Hd 384 r1'). }
  pose proof (puts_file_ok _ _ _ W1 Ht) as T1. pose proof (puts_file_links _ _ _ W1) as N1.
  pose proof (puts_file_changes _ _ _ (λ k, k = comps name) W1 eq_refl) as C1.
  destruct r1 as [u1|e]; [|by intros [= <- <-]].
  assert (no_link (os_tree o1) (comps name)) as Hl1 by (by eapply no_link_no_new).
  destruct (wrap _ _ (temp_Write name data) o1) as [r2 o2] eqn:E2.
  assert (puts_file o1 o2 name ∧ (r2 = Ok tt → ∃ m, os_tree o2 !! comps name = Some (NFile data m)))
    as [W2 X2].
  { unfold wrap, temp_Write in E2. destruct (WriteFile name data 384 o1) as [r2' o2'] eqn:E.
    assert (o2' = o2) as -> by (destruct r2'; congruence). split.
    - by apply (WriteFile_effect o1 o2 name Hd data 384 r2').
    - intros ->. destruct r2' as [[]|]; [|congruence].
      destruct (WriteFile_Ok _ _ _ _ _ Hd Hl1 E) as [m ->]. exists m. by rewrite lookup_insert_eq. }
  pose proof (puts_file_ok _ _ _ W2 T1) as T2.
  pose proof (no_new_links_trans _ _ _ N1 (puts_file_links _ _ _ W2)) as N2.
  pose proof (changes_trans _ _ _ _ C1 (puts_file_changes _ _ _ (λ k, k = comps name) W2 eq_refl)) as C2.
  destruct r2 as [[]|e]; [|intros [= <- <-]; by repeat split].
  unfold wrap. pose proof (reads_temp_Sync name o2) as R3.
  destruct (temp_Sync name o2) as [[[]|e] o3]; simpl in R3; [|intros [= <- <-]; by rewrite R3].
  pose proof (reads_temp_Close name o3) as R4.
  destruct (temp_Close name o3) as [[[]|e] o4]; simpl in R4; intros [= <- <-]; rewrite R4, R3;
    repeat split; try done; intros [=]; auto.
Qed.

Lemma WriteConfigAtomic_effect path data o r o' :
  sound_path (os_tree o) path → config_name_ok path →
  WriteConfigAtomic path data o = (r, o') →
  (∀ k c m, r ≠ Ok tt ∨ k ≠ comps path →
     os_tree o !! k = Some (NFile c m) → os_tree o' !! k = Some (NFile c m)) ∧
  (r = Ok tt → ∃ m, os_tree o' !! comps path = Some (NFile data m)).
Proof.
  intros Hs Hcfg. destruct (sound_Dir _ _ Hs) as (Hdd & Hld & b & Hb).
  destruct (sound_direct _ _ Hs) as (Hdp & _ & Hlp). pose proof Hs as [Ht _].
  unfold WriteConfigAtomic. unfold fail_if at 1. unfold mbind at 1, M_bind at 1.
  destruct (path =s ""); simpl; [by intros [= <- <-]|].
  unfold mbind at 1, M_bind at 1.
  destruct (wrap _ _ (MkdirAll (Dir path)) o) as [r1 o1] eqn:E1.
  apply wrap_eq in E1 as (r1' & E1 & _).
  pose proof (MkdirAll_files _ _ _ _ Hdd Hld E1) as K1.
  apply MkdirAll_adds in E1 as [A1 T1]; [|done..].
  pose proof (adds_dirs_no_new_links _ _ _ A1) as N1.
  destruct r1 as [u1|e]; [|intros [= <- <-]; split; [intros k c m _; apply K1|intros [=]]].
  intros H.
  assert (∃ r', (name ← CreateTemp (Dir path) ".frpc-" ".tmp";
    defer (fill_config name data;; wrap "rename config" [] (Rename name path)) (Remove name)) o1 = (r', o') ∧
    (r = Ok tt ↔ r' = Ok tt)) as (r' & H' & Hr).
  { revert H. unfold mbind, M_bind, wrap at 1. destruct (CreateTemp _ _ _ o1) as [[name|e] o2]; [by eauto|].
    intros [= <- <-]. by eexists. }
  assert (no_link (os_tree o1) (comps (Dir path) ++ [b])) as Hl1.
  { rewrite <- Hb. by eapply no_link_no_new. }
  assert (HasPrefix b ".frpc-" = false) as Hb'.
  { apply Hcfg. by rewrite Hb, last_snoc. }
  destruct (atomic_replace (comps (Dir path)) b (Dir path) path ".frpc-" ".tmp" data
    (λ name, fill_config name data) (λ name, wrap "rename config" [] (Rename name path)) o1 r' o'
    Hdd eq_refl (no_link_no_new _ _ _ N1 Hld) Hdp Hb Hl1 (T1 Ht) temp_config_ok Hb'
    (λ name, fill_config_fills name data) (λ name, renames_wrap name path _ _) H') as (_ & _ & K2 & X2).
  rewrite Hb. split; [|intros E; apply X2, Hr, E].
  intros k c m Hk Hn. apply K1 in Hn. destruct (K2 k _ Hn) as [[E1' ->]|?]; [|done].
  apply Hr in E1'. by destruct Hk.
Qed.

(** *** Configurations *)

(** What a mapping must be, and its entry in the configuration. *)
Definition mapping_valid (m : PortMapping) : Prop :=
  pm_TunnelID m ≠ "" ∧ pm_ServerID m ≠ "" ∧ (pm_Protocol m = "tcp" ∨ pm_Protocol m = "udp") ∧
  1 ≤ pm_LocalPort m ≤ 65535 ∧ 1 ≤ pm_RemotePort m ≤ 65535.
Definition mapping_entry (m : PortMapping) : frpProxy :=
  mkProxy ("oikos-" +:+ pm_ServerID m +:+ "-" +:+ pm_TunnelID m) (pm_Protocol m) "127.0.0.1"
    (pm_LocalPort m) (pm_RemotePort m).

Lemma port_ok_spec p : port_ok p = true ↔ 1 ≤ p ≤ 65535.
Proof. unfold port_ok. lia. Qed.

Lemma valid_protocol_spec p : valid_protocol p = true ↔ p = "tcp" ∨ p = "udp".
Proof. unfold valid_protocol. by rewrite orb_true_iff, !String.eqb_eq. Qed.

Lemma proxy_of_spec m p : proxy_of m = Ok p ↔ mapping_valid m ∧ p = mapping_entry m.
Proof.
  unfold proxy_of, mapping_valid. rewrite <- valid_protocol_spec, <- !port_ok_spec.
  destruct (String.eqb_spec (pm_TunnelID m) ""); [by split; [|intros [[? _] _]]|].
  destruct (String.eqb_spec (pm_ServerID m) ""); [by split; [|intros [(_ & ? & _) _]]|]. simpl.
  destruct (valid_protocol _); simpl; [|by split; [|intros [(_ & _ & ? & _) _]]].
  destruct (port_ok (pm_LocalPort m)); simpl; [|by split; [|intros [(_ & _ & _ & ? & _) _]]].
  destruct (port_ok (pm_RemotePort m)); simpl; [|by split; [|intros [(_ & _ & _ & _ & ?) _]]].
  split; [by intros [= <-]|]. by intros [_ ->].
Qed.

Lemma proxies_of_spec ms ps : proxies_of ms = Ok ps ↔ Forall mapping_valid ms ∧ ps = mapping_entry <$> ms.
Proof.
  revert ps. induction ms as [|m ms IH]; intros ps; simpl.
  { split; [by intros [= <-]|]. by intros [_ ->]. }
  rewrite Forall_cons. destruct (proxy_of m) as [p|e] eqn:E.
  - apply proxy_of_spec in E as [Hv ->]. destruct (proxies_of ms) as [ps'|e].
    + destruct (proj1 (IH ps') eq_refl) as [Hf ->]. split; [by intros [= <-]|]. by intros [_ ->].
    + split; [done|]. intros [[_ Hf] _]. pose proof (proj2 (IH _) (conj Hf eq_refl)). congruence.
  - split; [done|]. intros [[Hv _] _].
    pose proof (proj2 (proxy_of_spec m _) (conj Hv eq_refl)). congruence.
Qed.

Lemma sort_mappings_perm l1 l2 :
  l1 ≡ₚ l2 → NoDup (pm_TunnelID <$> l1) → sort_mappings l1 = sort_mappings l2.
Proof.
  intros Hp Hnd. unfold sort_mappings.
  set (le := λ a b, String.leb (pm_TunnelID a) (pm_TunnelID b)).
  assert (∀ l, StronglySorted (λ a b, le a b = true) (isort le l)) as Hs.
  { intros l. apply Sorted_StronglySorted.
    - intros a b c. unfold le. apply string_leb_trans.
    - apply isort_sorted. intros a b. apply string_leb_total. }
  apply (StronglySorted_unique_strong (λ a b, le a b = true)); [|apply Hs..|by rewrite !isort_perm].
  intros a b Ha Hb H1 H2. rewrite elem_of_isort in Ha, Hb. rewrite <- Hp in Hb.
  assert (pm_TunnelID a = pm_TunnelID b) as Heq by (by apply string_leb_antisym).
  apply list_elem_of_lookup in Ha as [i Hi], Hb as [j Hj].
  assert (i = j) as ->; [|congruence].
  eapply NoDup_lookup; [exact Hnd|by rewrite list_lookup_fmap, Hi|].
  by rewrite list_lookup_fmap, Hj, Heq.
Qed.
