(* ===== verification/TunnelSpec.v ===== *)
(** * What the tunnel manager promises

    Valid and deterministic configurations, replaced atomically; assignments
    that are kept; complete release; the limits of the frpc supervision. *)

From S2P Require Import Prelude GoLib GoPath GoOS GoOSFacts AtomicFile Store StoreFacts StoreSpec Bus Runtime World Tunnel TunnelFacts.

(** ** Definitions *)

(** What the manager relies on when it asks the Panel for an assignment. *)
Class PanelAllocatorOk (P : Type) `{!PanelAllocator P} :=
  alloc_valid : ∀ m (p p' : P) a, alloc_Register m p = (Ok a, p') →
    as_TunnelID a ≠ "" ∧ 1 ≤ as_RemotePort a ≤ 65535 ∧ as_Status a ≠ "".

Section Synced.
Context {RT P C : Type} (toml_Marshal : frpFile → res string) (cfg : FRPConfig).

(** The configuration file holds exactly the mappings in memory. *)
Definition config_synced (w : World RT P C) : Prop :=
  ∃ data m, GenerateConfig toml_Marshal cfg ((map_to_list (w_maps w)).*2) = Ok data ∧
            os_tree (w_os w) !! comps (fc_ConfigPath cfg) = Some (NFile data m).
End Synced.

(** ** Lemmas *)

(** The Panel's allocator validates what it is asked and what it is answered. *)
Lemma panel_Register_valid {P} (reg : RegisterTunnelRequest → M P RegisterTunnelResponse) node m p p' a :
  panel_Register reg node m p = (Ok a, p') →
  as_TunnelID a ≠ "" ∧ 1 ≤ as_RemotePort a ≤ 65535 ∧ as_Status a ≠ "".
Proof.
  unfold panel_Register. intros ([] & p1 & _ & H)%bind_inv.
  apply bind_inv in H as ([] & p2 & _ & H). apply bind_inv in H as (lp & p3 & _ & H).
  apply bind_inv in H as (resp & p4 & _ & H). apply bind_inv in H as ([] & p5 & H5 & H).
  unfold fail_if in H5. destruct (_ || _ || _) eqn:E; [discriminate|].
  injection H as <- _. simpl. rewrite !orb_false_iff in E. destruct E as [[E1 E2] E3].
  apply String.eqb_neq in E1. split; [done|]. split; [lia|].
  destruct (String.eqb_spec (rp_Status resp) ""); done.
Qed.

#[global] Instance NewPanelAllocator_ok {P} (reg : RegisterTunnelRequest → M P RegisterTunnelResponse) rel node :
  PanelAllocatorOk P (PanelAllocator0 := NewPanelAllocator reg rel node).
Proof. intros m p p' a. apply panel_Register_valid. Qed.

(** The row [SaveTunnel] leaves is the one [GetTunnelByMapping] finds. *)
Lemma SaveTunnel_Get t d d' :
  db_faults d = [] → SaveTunnel t d = (Ok tt, d') →
  db_faults d' = [] ∧ ∃ t', GetTunnelByMapping (tn_ServerID t) (tn_LocalPort t) (tn_Protocol t) d' = (Ok t', d') ∧
    tn_ID t' = tn_ID t ∧ tn_RemotePort t' = tn_RemotePort t ∧ tn_Status t' = tn_Status t.
Proof.
  intros Hf H. apply exec_Ok in H as (fs & H & Hfs & Ht). rewrite Hf in Hfs. injection Hfs as <-.
  simpl in H. set (same := same_mapping _ _ _) in *.
  destruct (tunnel_clash _ _ _); [done|].
  assert (db_faults d' = [] ∧ has_table d' "tunnels" = true ∧
    ∃ r, first_row (select_where same (db_tunnels d')) = Ok r ∧ tr_id r = tn_ID t ∧
      null_int (tr_remote_port r) = tn_RemotePort t ∧ tr_status r = tn_Status t) as (Hf' & Ht' & r & Hr & E1 & E2 & E3).
  { assert (null_int (nullableInt (tn_RemotePort t)) = tn_RemotePort t) as Hn.
    { unfold nullableInt. by destruct (Z.eqb_spec (tn_RemotePort t) 0). }
    simpl in Ht. rewrite andb_true_r in Ht.
    destruct (existsb same (db_tunnels d)) eqn:Ex; [|destruct (fk_check _ _); [|done]];
      injection H as <-; simpl; (split; [done|]); (split; [exact Ht|]).
    - apply existsb_true in Ex as (r & Hr & Hs). revert Hr. clear -Hs Hn.
      induction (db_tunnels d) as [|x l IH]; [by intros ?%elem_of_nil|]. intros Hr.
      csimpl. unfold select_where in *. rewrite filter_cons. destruct (same x) eqn:Ex.
      + assert (same (mkTunnelRow (tn_ID t) (tr_server_id x) (tr_local_port x)
          (nullableInt (tn_RemotePort t)) (tr_protocol x) (tn_Status t) (tr_last_connected x)) = true) as Hx.
        { exact Ex. }
        rewrite decide_True by exact Hx. eexists. split; [reflexivity|]. done.
      + rewrite decide_False by congruence. apply IH.
        apply elem_of_cons in Hr as [->|]; [congruence|done].
    - unfold select_where. rewrite filter_app.
      assert (filter (λ r, same r = true) (db_tunnels d) = []) as ->.
      { rewrite existsb_false in Ex. clear -Ex. induction (db_tunnels d) as [|x l IH]; [done|].
        rewrite filter_cons, decide_False by (rewrite Ex; [done|left]). apply IH. intros. apply Ex. by right. }
      rewrite filter_cons, decide_True; [eexists; split; [reflexivity|done]|].
      unfold same, same_mapping. simpl. by rewrite !String.eqb_refl, Z.eqb_refl. }
  split; [done|]. exists (scan_tunnel r). unfold GetTunnelByMapping.
  rewrite query_no_fault by (simpl; rewrite ?Ht'; done). fold same. rewrite Hr. done.
Qed.

Section FrpSpec.
Context {RT P C : Type} `{!PanelAllocator P} `{!ProcessController C}.
Context (toml_Marshal : frpFile → res string) (cfg : FRPConfig).

Local Abbreviation W := (World RT P C).
Local Abbreviation path := (fc_ConfigPath cfg).
Local Abbreviation rebuild := (rebuildLocked (RT:=RT) toml_Marshal cfg).

(** A rebuild touches the file system and the process only. *)
Lemma rebuild_frame (w w' : W) r :
  rebuild w = (r, w') →
  w_db w' = w_db w ∧ w_bus w' = w_bus w ∧ w_maps w' = w_maps w ∧ w_rt w' = w_rt w ∧
  w_panel w' = w_panel w ∧ w_manual w' = w_manual w.
Proof.
  unfold rebuildLocked, mbind, M_bind, gets, lift_res, os, proc, zoom. cbv beta iota zeta.
  destruct (GenerateConfig _ _ _) as [data|e]; [|by intros [= <- <-]].
  destruct (WriteConfigAtomic _ _ _) as [[[]|e] o1]; [|by intros [= <- <-]].
  destruct (map_to_list (w_maps w)).*2 as [|m1 [|m2 ms]]; case_match; by intros [= <- <-].
Qed.

Lemma rebuild_synced (w w' : W) :
  sound_path (os_tree (w_os w)) path → config_name_ok path →
  rebuild w = (Ok tt, w') → config_synced toml_Marshal cfg w'.
Proof.
  intros Hs Hn H. pose proof (rebuild_frame _ _ _ H) as (_ & _ & Hm & _).
  unfold config_synced. rewrite Hm. revert H.
  unfold rebuildLocked, mbind, M_bind, gets, lift_res, os, proc, zoom. cbv beta iota zeta.
  destruct (GenerateConfig _ _ _) as [data|e] eqn:Eg; [|intros [=]].
  destruct (WriteConfigAtomic _ _ _) as [[[]|e] o1] eqn:Ew; [|intros [=]].
  apply WriteConfigAtomic_effect in Ew as [_ Ew]; [|done..]. destruct (Ew eq_refl) as [m Hm'].
  destruct (map_to_list (w_maps w)).*2 as [|m1 [|m2 ms]];
    case_match; intros [= _ <-]; exists data, m; done.
Qed.

Lemma register_new_Ok mapping (w w' : W) a :
  register_new toml_Marshal cfg mapping w = (Ok a, w') →
  ∃ (p : P) d w1, alloc_Register mapping (w_panel w) = (Ok a, p) ∧
    SaveTunnel (tunnel_of mapping a) (w_db w) = (Ok tt, d) ∧
    rebuild (put_maps (<[as_TunnelID a := assigned mapping a]> (w_maps w)) (put_db d (put_panel p w)))
      = (Ok tt, w1) ∧
    w' = put_bus (Publish (mkEvent "tunnel.connected" (pm_ServerID mapping)) (w_bus w1)) w1.
Proof.
  unfold register_new. intros (a' & w1 & H1 & H)%bind_inv.
  apply bind_inv in H as ([] & w2 & H2 & H). apply wrap_inv in H2.
  apply bind_inv in H as ([] & w3 & H3 & H). apply bind_inv in H as (r & w4 & H4 & H).
  unfold panel, zoom in H1. destruct (alloc_Register mapping (w_panel w)) as [ra p] eqn:Ea.
  injection H1 as -> <-. unfold db, zoom in H2. simpl in H2.
  destruct (SaveTunnel _ _) as [rs d] eqn:Es. injection H2 as -> <-.
  injection H3 as <-. unfold try in H4.
  destruct (rebuild _) as [rr w5] eqn:Er in H4. injection H4 as <- <-.
  destruct rr as [[]|e].
  - apply bind_inv in H as ([] & w6 & H6 & H). injection H as <- <-. injection H6 as <-.
    by exists p, d, w5.
  - apply bind_inv in H as ([] & w6 & _ & H). apply bind_inv in H as ([] & w7 & _ & H). discriminate H.
Qed.

(** The lookup that starts [RegisterPort] leaves the rest of the world alone. *)
Lemma RegisterPort_cases mapping (w w' : W) a :
  db_faults (w_db w) = [] → RegisterPort toml_Marshal cfg mapping w = (Ok a, w') →
  (w' = w ∧ ∃ t, GetTunnelByMapping (pm_ServerID mapping) (pm_LocalPort mapping) (pm_Protocol mapping)
      (w_db w) = (Ok t, w_db w) ∧ 0 < tn_RemotePort t ∧ a = mkAssignment (tn_ID t) (tn_RemotePort t) (tn_Status t)) ∨
  register_new toml_Marshal cfg mapping w = (Ok a, w').
Proof.
  intros Hf. unfold RegisterPort, mbind, M_bind, try, db, zoom.
  destruct (GetTunnelByMapping _ _ _ _) as [r d] eqn:E.
  assert (d = w_db w) as ->.
  { apply query_state in E. rewrite Hf in E. subst d. apply set_faults_nil. done. }
  assert (put_db (w_db w) w = w) as -> by (by destruct w).
  destruct r as [t|e]; [|by right].
  destruct (Z.ltb_spec 0 (tn_RemotePort t)); [|by right].
  intros [= <- <-]. left. split; [done|]. by exists t.
Qed.

(** What [RegisterPort] answers when it succeeds: the recorded tunnel, with nothing changed but the
    outcomes of the database, or a new one. *)
Definition answered (m : PortMapping) (a : Assignment) (w w' : W) : Prop :=
  ∃ t db', GetTunnelByMapping (pm_ServerID m) (pm_LocalPort m) (pm_Protocol m) (w_db w) = (Ok t, db') ∧
    0 < tn_RemotePort t ∧ a = mkAssignment (tn_ID t) (tn_RemotePort t) (tn_Status t) ∧ w' = put_db db' w.

Lemma RegisterPort_synced m (w w' : W) a :
  sound_path (os_tree (w_os w)) path → config_name_ok path →
  RegisterPort toml_Marshal cfg m w = (Ok a, w') →
  config_synced toml_Marshal cfg w' ∧ w_maps w' = <[as_TunnelID a := assigned m a]> (w_maps w) ∨
  answered m a w w'.
Proof.
  intros Hs Hn H. unfold RegisterPort in H. apply bind_inv in H as (old & w0 & H0 & H).
  assert (∃ db', GetTunnelByMapping (pm_ServerID m) (pm_LocalPort m) (pm_Protocol m) (w_db w) = (old, db') ∧ w0 = put_db db' w)
    as (db' & Hg & ->).
  { unfold try, db, zoom in H0. destruct (GetTunnelByMapping _ _ _ _) as [r d]. injection H0 as <- <-. by exists d. }
  assert (register_new toml_Marshal cfg m (put_db db' w) = (Ok a, w') ∨ answered m a w w') as [Hnew|]; [|left|by right].
  { destruct old as [t|e]; [|by left]. destruct (Z.ltb_spec 0 (tn_RemotePort t)); [|by left].
    injection H as <- <-. right. by exists t, db'. }
  apply register_new_Ok in Hnew as (p & d & w1 & _ & _ & Hr & ->).
  pose proof (rebuild_frame _ _ _ Hr) as (_ & _ & Hm & _). split; [|exact Hm].
  apply rebuild_synced in Hr; done.
Qed.

Lemma answered_same m a (w w' : W) : db_faults (w_db w) = [] → answered m a w w' → w' = w.
Proof.
  intros Hf (t & d & Hg & _ & _ & ->). apply query_state in Hg. rewrite Hf in Hg. subst d.
  rewrite set_faults_nil by done. by destruct w.
Qed.

(** *** Release *)

Lemma release_one_Ok serverID t (w w' : W) :
  release_one serverID t w = (Ok tt, w') →
  (∀ r, r ∈ db_tunnels (w_db w') ↔
        r ∈ db_tunnels (w_db w) ∧ same_mapping serverID (tn_LocalPort t) (tn_Protocol t) r = false) ∧
  w_maps w' = delete (tn_ID t) (w_maps w) ∧ w_os w' = w_os w.
Proof.
  unfold release_one. intros ([] & w1 & H1 & H)%bind_inv.
  apply bind_inv in H as ([] & w2 & H2 & H). apply bind_inv in H as ([] & w3 & H3 & H).
  unfold panel, zoom in H1. destruct (alloc_Release _ _) as [ra p]. injection H1 as -> <-.
  unfold db, zoom in H2. destruct (DeleteTunnelByMapping _ _ _ _) as [rd d] eqn:Ed.
  injection H2 as -> <-. injection H3 as <-. injection H as <-. simpl.
  apply exec_Ok in Ed as (fs & [= <-] & _). split; [|done]. intros r. simpl.
  rewrite elem_of_delete_where. tauto.
Qed.

Lemma release_all_Ok serverID ts (w w' : W) :
  for_each (release_one serverID) ts w = (Ok tt, w') →
  (∀ r, r ∈ db_tunnels (w_db w') ↔ r ∈ db_tunnels (w_db w) ∧
        ∀ t, t ∈ ts → same_mapping serverID (tn_LocalPort t) (tn_Protocol t) r = false) ∧
  (∀ id, w_maps w' !! id = if bool_decide (id ∈ tn_ID <$> ts) then None else w_maps w !! id) ∧
  w_os w' = w_os w.
Proof.
  revert w. induction ts as [|t ts IH]; intros w H; simpl in H.
  - injection H as <-. split; [set_solver|]. by split.
  - apply bind_inv in H as ([] & w1 & H1 & H).
    apply release_one_Ok in H1 as (D1 & M1 & O1). apply IH in H as (D2 & M2 & O2).
    split; [|split; [|congruence]].
    + intros r. rewrite D2, D1. split; [intros [[? ?] Hts]|intros [? Hts]].
      * split; [done|]. by intros t' [->|?]%elem_of_cons; [|apply Hts].
      * split; [split; [done|]; apply Hts; by left|]. intros t' ?. apply Hts. by right.
    + intros id. rewrite M2, M1. rewrite fmap_cons.
      rewrite (bool_decide_ext (id ∈ tn_ID t :: (tn_ID <$> ts)) (id = tn_ID t ∨ id ∈ tn_ID <$> ts))
        by apply elem_of_cons.
      rewrite bool_decide_or. destruct (decide (id = tn_ID t)) as [->|Hne].
      * rewrite lookup_delete_eq, (bool_decide_eq_true_2 (_ = _)) by done. by case_bool_decide.
      * by rewrite lookup_delete_ne, (bool_decide_eq_false_2 (_ = _)) by done.
Qed.
Lemma release_port_maps serverID p ts (w w' : W) :
  for_each (λ t, if tn_LocalPort t =? p then release_one serverID t else mret tt) ts w = (Ok tt, w') →
  w_os w' = w_os w.
Proof.
  revert w. induction ts as [|t ts IH]; intros w H; simpl in H; [by injection H as <-|].
  apply bind_inv in H as ([] & w1 & H1 & H). apply IH in H. destruct (_ =? _).
  - apply release_one_Ok in H1 as (_ & _ & O1). congruence.
  - injection H1 as <-. done.
Qed.
End FrpSpec.

(** ** Properties *)

Section Properties.
Context {RT P C : Type} `{!PanelAllocator P} `{!ProcessController C}.
Context (toml_Marshal : frpFile → res string) (cfg : FRPConfig).

Local Abbreviation W := (World RT P C).
Local Abbreviation path := (fc_ConfigPath cfg).

(** C14.  The frpc configuration is a function of the set of mappings.  However the Go map is
    iterated, the outcome is the same, errors included.  It is a configuration exactly when the
    relay's address and all mappings are valid, and then it is the encoding of the relay, the
    token and one entry for each mapping, with its name, protocol and both ports, in the order of
    their tunnel ids. *)
Theorem GenerateConfig_canonical ms ms' :
  NoDup (pm_TunnelID <$> ms) → ms ≡ₚ ms' →
  GenerateConfig toml_Marshal cfg ms' = GenerateConfig toml_Marshal cfg ms ∧
  ∃ sorted, sorted ≡ₚ ms ∧ Sorted (λ a b, String.leb (pm_TunnelID a) (pm_TunnelID b) = true) sorted ∧
    ∀ data, GenerateConfig toml_Marshal cfg ms = Ok data ↔
      fc_ServerAddr cfg ≠ "" ∧ 1 ≤ fc_ServerPort cfg ≤ 65535 ∧ Forall mapping_valid ms ∧
      toml_Marshal (mkFrpFile (fc_ServerAddr cfg) (fc_ServerPort cfg) "token" (fc_Token cfg)
                      (mapping_entry <$> sorted)) = Ok data.
Proof.
  intros Hnd Hp. unfold GenerateConfig. rewrite <- (sort_mappings_perm _ _ Hp Hnd).
  split; [done|]. exists (sort_mappings ms). assert (sort_mappings ms ≡ₚ ms) as Hs by apply isort_perm.
  split; [done|]. split; [apply isort_sorted; intros a b; apply string_leb_total|]. intros data.
  rewrite <- port_ok_spec. destruct (String.eqb_spec (fc_ServerAddr cfg) ""); [by split; [|naive_solver]|].
  destruct (port_ok (fc_ServerPort cfg)); [|by split; [|naive_solver]]. simpl.
  destruct (proxies_of (sort_mappings ms)) as [ps|e] eqn:E.
  - apply proxies_of_spec in E as [Hv ->]. rewrite Hs in Hv. naive_solver.
  - split; [done|]. intros (_ & _ & Hv & _). rewrite <- Hs in Hv.
    pose proof (proj2 (proxies_of_spec _ _) (conj Hv eq_refl)). congruence.
Qed.

(** C15.  The file frpc reads follows the mappings in memory, whatever statements of the store fail.
    An operation that succeeds and changes the mappings leaves the file as their configuration:
    [RegisterPort] with the new mapping added, [ReleasePort], [ReleaseServer] and [Reload].  A
    [RegisterPort] that answers a recorded tunnel changes neither the mappings nor the file: if
    they agreed before, they agree after it. *)
Theorem frp_config_synced (w w' : W) :
  sound_path (os_tree (w_os w)) path → config_name_ok path →
  (∀ m a, RegisterPort toml_Marshal cfg m w = (Ok a, w') →
     (config_synced toml_Marshal cfg w' ∧ w_maps w' = <[as_TunnelID a := assigned m a]> (w_maps w) ∨
      answered m a w w') ∧
     (config_synced toml_Marshal cfg w → config_synced toml_Marshal cfg w')) ∧
  (∀ s p, ReleasePort toml_Marshal cfg s p w = (Ok tt, w') → config_synced toml_Marshal cfg w') ∧
  (∀ s, ReleaseServer toml_Marshal cfg s w = (Ok tt, w') → config_synced toml_Marshal cfg w') ∧
  (Reload toml_Marshal cfg w = (Ok tt, w') → config_synced toml_Marshal cfg w').
Proof.
  intros Hs Hn. split; [|split; [|split]].
  - intros m a H. apply RegisterPort_synced in H; [|done..]. split; [done|].
    destruct H as [[H _]|(t & d & _ & _ & _ & ->)]; [by intros _|done].
  - intros s p H. apply bind_inv in H as (ts & w1 & H1 & H). apply bind_inv in H as ([] & w2 & H2 & H).
    apply release_port_maps in H2. apply rebuild_synced in H; [done| |done]. rewrite H2.
    unfold db, zoom in H1. destruct (ListTunnels _ _). by injection H1 as _ <-.
  - intros s H. apply bind_inv in H as (ts & w1 & H1 & H). apply bind_inv in H as ([] & w2 & H2 & H).
    apply release_all_Ok in H2 as (_ & _ & H2). apply rebuild_synced in H; [done| |done]. rewrite H2.
    unfold db, zoom in H1. destruct (ListTunnels _ _). by injection H1 as _ <-.
  - by apply rebuild_synced.
Qed.

(** Registering a port is idempotent: once [RegisterPort] has answered an assignment, asking
    again answers the same one and changes nothing, in the store, the Panel or frpc. *)
Theorem RegisterPort_idempotent `{!PanelAllocatorOk P} m (w w' : W) a :
  db_faults (w_db w) = [] →
  RegisterPort toml_Marshal cfg m w = (Ok a, w') →
  RegisterPort toml_Marshal cfg m w' = (Ok a, w').
Proof.
  intros Hf H. pose proof H as H0.
  apply (RegisterPort_cases toml_Marshal cfg m w w' a Hf) in H. destruct H as [[-> _]|H]; [exact H0|].
  apply register_new_Ok in H as (p & d & w1 & Ha & Hsave & Hr & ->).
  apply rebuild_frame in Hr as (Hdb & _). apply alloc_valid in Ha as (_ & Hp & _).
  apply SaveTunnel_Get in Hsave as (Hf' & t & Hg & E1 & E2 & E3); [|done].
  unfold RegisterPort, mbind, M_bind, try, db, zoom. simpl in *. rewrite Hdb, Hg.
  assert ((0 <? tn_RemotePort t) = true) as -> by lia.
  unfold mret, M_ret. rewrite E1, E2, E3. destruct a, w1. simpl in *. by subst.
Qed.

(** [ReleaseServer] releases everything: when it succeeds the server has no tunnel row left,
    the rows of other servers are untouched, its mappings are gone from memory, and the
    configuration frpc reads no longer lists them. *)
Theorem ReleaseServer_complete s (w w' : W) :
  sound_path (os_tree (w_os w)) path → config_name_ok path → db_faults (w_db w) = [] →
  ReleaseServer toml_Marshal cfg s w = (Ok tt, w') →
  (∀ r, r ∈ db_tunnels (w_db w') ↔ r ∈ db_tunnels (w_db w) ∧ tr_server_id r ≠ s) ∧
  (∀ r, r ∈ db_tunnels (w_db w) → tr_server_id r = s → w_maps w' !! tr_id r = None) ∧
  (∀ id m, w_maps w' !! id = Some m → w_maps w !! id = Some m) ∧
  config_synced toml_Marshal cfg w'.
Proof.
  intros Hs Hn Hf H. apply bind_inv in H as (ts & w1 & H1 & H).
  apply bind_inv in H as ([] & w2 & H2 & H).
  unfold db, zoom in H1. destruct (ListTunnels s (w_db w)) as [r0 d] eqn:E. injection H1 as -> <-.
  pose proof (query_state _ _ _ _ _ E) as Hd. rewrite Hf in Hd. simpl in Hd.
  rewrite set_faults_nil in Hd by done. subst d.
  apply query_Ok in E. injection E as <-.
  apply release_all_Ok in H2 as (D & Mp & O). simpl in *.
  pose proof (rebuild_frame _ _ _ _ _ H) as (Hdb & _ & Hm & _).
  rewrite Hdb, Hm.
  assert (∀ t, t ∈ scan_tunnel <$> isort (λ a b, tr_local_port a <=? tr_local_port b)
      (select_where (λ r, tr_server_id r =s s) (db_tunnels (w_db w))) ↔
      ∃ r, t = scan_tunnel r ∧ r ∈ db_tunnels (w_db w) ∧ tr_server_id r = s) as Hts.
  { intros t. rewrite list_elem_of_fmap. f_equiv. intros r. rewrite elem_of_isort.
    unfold select_where. rewrite list_elem_of_filter, String.eqb_eq. tauto. }
  split; [|split; [|split]].
  - intros r. rewrite D. split; intros [Hr Hne]; (split; [done|]).
    + intros Hsr. specialize (Hne (scan_tunnel r)). rewrite Hts in Hne.
      specialize (Hne (ex_intro _ r (conj eq_refl (conj Hr Hsr)))).
      unfold same_mapping in Hne. simpl in Hne.
      rewrite Hsr, !String.eqb_refl, Z.eqb_refl in Hne. done.
    + intros t _. unfold same_mapping. by rewrite (proj2 (String.eqb_neq _ _) Hne).
  - intros r Hr Hsr. rewrite Mp. rewrite bool_decide_eq_true_2; [done|].
    apply list_elem_of_fmap. exists (scan_tunnel r). split; [done|]. apply Hts. eauto.
  - intros id m. rewrite Mp. case_bool_decide; [intros [=]|done].
  - apply rebuild_synced in H; [done| |done]. by rewrite O.
Qed.
End Properties.

(** *** The frpc process *)

Section Watch.
Context {RT P : Type} `{!PanelAllocator P}.
Context (toml_Marshal : frpFile → res string) (cfg : FRPConfig).

(** A first mapping was registered: frpc was started, and runs. *)
Lemma register_started mapping (w w1 : World RT P osProcessController) a :
  w_maps w = ∅ → pc_cmd (w_proc w) = None →
  RegisterPort toml_Marshal cfg mapping w = (Ok a, w1) → w_maps w1 ≠ ∅ →
  size (w_maps w1) = 1%nat ∧
  w_proc w1 = mkProc (Some (pc_next (w_proc w), Running)) ({[pc_next (w_proc w)]} ∪ pc_alive (w_proc w))
                (S (pc_next (w_proc w))) (pc_faults (w_proc w1)).
Proof.
  intros Hm Hc H Hne. unfold RegisterPort in H. apply bind_inv in H as (old & w' & Hold & H).
  assert (w_maps w' = w_maps w ∧ w_proc w' = w_proc w) as [Em Ep].
  { unfold try, db, zoom in Hold. destruct (GetTunnelByMapping _ _ _ _) as [r d]. by injection Hold as _ <-. }
  assert (register_new toml_Marshal cfg mapping w' = (Ok a, w1)) as Hnew.
  { destruct old as [t|e]; [|done]. destruct (0 <? tn_RemotePort t); [|done]. injection H as _ <-. congruence. }
  clear H Hold. rewrite <- Ep, <- Em in *. clear w Em Ep. rename w' into w.
  unfold register_new in Hnew. apply bind_inv in Hnew as (asg & w2 & H2 & H). apply bind_inv in H as ([] & w3 & H3 & H).
  apply wrap_inv in H3. apply bind_inv in H as ([] & w4 & [= <-] & H). apply bind_inv in H as (rb & w5 & H5 & H).
  assert (w_maps w3 = w_maps w ∧ w_proc w3 = w_proc w) as [Em Ep].
  { unfold panel, db, zoom in H2, H3. destruct (alloc_Register _ _) as [r2 p2]. injection H2 as _ <-.
    destruct (SaveTunnel _ _) as [r3 d3]. by injection H3 as _ <-. }
  destruct rb as [[]|e]; [|by apply bind_inv in H as (? & ? & _ & H); apply bind_inv in H as (? & ? & _ & [=])].
  apply bind_inv in H as ([] & w6 & [= <-] & [= _ <-]). simpl.
  unfold try in H5. destruct (rebuildLocked _ _ _) as [[[]|e] w7] eqn:Er; simplify_eq.
  unfold rebuildLocked in Er. apply bind_inv in Er as (ms & w8 & [= <- <-] & Er). simpl in Er.
  assert (w_maps w3 = ∅) as Em3 by congruence. rewrite Em3 in Er. rewrite insert_empty, map_to_list_singleton in Er. simpl in Er.
  apply bind_inv in Er as (data & w9 & [= _ <-] & Er). apply bind_inv in Er as ([] & w10 & H10 & Er).
  unfold os, zoom in H10. destruct (WriteConfigAtomic _ _ _) as [r10 o10]. injection H10 as _ <-.
  unfold proc, zoom in Er. simpl in Er. rewrite Ep in Er. unfold os_Start in Er. rewrite Hc in Er.
  destruct (next_fault _) as [[e|] fs]; [by injection Er|]. injection Er as <-. simpl.
  split; [apply map_size_singleton|done].
Qed.

(** What the supervision does after frpc died: with one mapping [rebuildLocked] calls
    [Start], which does nothing while the dead command is held, so no frpc runs afterwards
    and the next turn ends the watch; with two or more it reloads, and when the reload
    succeeds a new frpc runs. *)
Theorem watch_after_crash (w w1 : World RT P osProcessController) pid attempt r :
  0 ≤ attempt → pc_cmd (w_proc w) = Some (pid, Exited) → pc_alive (w_proc w) = ∅ →
  watch_turn toml_Marshal cfg attempt w = (r, w1) →
  (size (w_maps w) = 1%nat →
     pc_alive (w_proc w1) = ∅ ∧ ∀ n, fst (watch_turn toml_Marshal cfg n w1) = Ok None) ∧
  ((2 ≤ size (w_maps w))%nat → r = Ok (Some 0) →
     ∃ pid', pc_cmd (w_proc w1) = Some (pid', Running) ∧ pc_alive (w_proc w1) = {[pid']}).
Proof.
  intros Hat Hc Ha H.
  assert (length (map_to_list (w_maps w)).*2 = size (w_maps w)) as Hlen
    by (rewrite length_fmap; apply length_map_to_list).
  unfold watch_turn, proc, zoom, mbind, M_bind in H. simpl in H. unfold os_Wait in H.
  rewrite Hc in H. unfold emit, publish, modify, try, Reload, rebuildLocked, gets, lift_res, os, zoom,
    mbind, M_bind in H. simpl in H.
  destruct (GenerateConfig _ _ _) as [data|e].
  2:{ injection H as <- <-. simpl. split; [|intros _ [=]; lia]. intros _. split; [done|].
      intros n. reflexivity. }
  destruct (WriteConfigAtomic _ _ _) as [[[]|e] o1].
  2:{ injection H as <- <-. simpl. split; [|intros _ [=]; lia]. intros _. split; [done|].
      intros n. reflexivity. }
  destruct (map_to_list (w_maps w)).*2 as [|m1 [|m2 ms]]; simpl in Hlen.
  - split; intros ?; lia.
  - injection H as <- <-. simpl. split; [|intros ?; lia]. intros _. split; [done|].
    intros n. reflexivity.
  - split; [intros ?; lia|]. intros _ ->. revert H. unfold proc, zoom. simpl.
    unfold os_Reload, os_Stop, os_take, os_end, os_Start, mbind, M_bind. simpl.
    destruct (next_fault _) as [[e|] fs]; simpl; [intros [= ? <-]; lia|].
    destruct (next_fault fs) as [[e|] fs']; simpl; [intros [= ? <-]; lia|intros [= <-]].
    simpl. eexists. split; [done|]. rewrite Ha. set_solver.
Qed.

End Watch.

(** C20. The tunnel healer always ends, after at most six reloads, in one of three ways.  A reload
    succeeded, and the counter is back at zero.  Or the healer has given up: the last reload
    failed, its error is returned, more than five failed attempts are behind it, and the
    failure is recorded.  Or the context was done, at the top of the loop or during a
    backoff: its error is returned, and no failure is recorded. *)
Theorem healer_terminates {W} (reload : M W unit) ctx_Err ctx (h : TunnelSelfHealer W) :
  0 ≤ th_attempt h →
  ∃ r h', healer_Start reload ctx_Err ctx 6 h = Some (r, h') ∧
    ((r = Ok tt ∧ (∃ w, reload w = (Ok tt, th_world h')) ∧ th_attempt h' = 0 ∧ th_failed h' = th_failed h) ∨
     (∃ w e, reload w = (Err e, th_world h') ∧ r = Err (Errorw "tunnel recovery berhenti setelah 5 percobaan" [] e) ∧
        th_attempt h' = Z.max 6 (th_attempt h + 1) ∧ th_failed h' = true) ∨
     (r = Err ctx_Err ∧ Exists (λ c, c.1 || c.2 = true) ctx ∧
        th_attempt h ≤ th_attempt h' ≤ Z.max 5 (th_attempt h) ∧ th_failed h' = th_failed h)).
Proof.
  intros Ha. assert (6 - th_attempt h ≤ Z.of_nat 6) as Hf by lia. assert (0 < 6)%nat as Hp by lia.
  revert Hf Hp. generalize 6%nat as fuel. intros fuel. revert ctx h Ha.
  induction fuel as [|fuel IH]; intros ctx h Ha Hf Hp; [lia|]. simpl.
  destruct (default (false, false) (head ctx)) as [top timer] eqn:Ec.
  assert (top || timer = true → Exists (λ c, c.1 || c.2 = true) ctx) as Hctx.
  { intros Ht. destruct ctx as [|c ctx]; simpl in Ec; [by simplify_eq|]. left. by subst c. }
  destruct top; [eexists _, _; split; [done|right; right]; split_and!; [done|auto|lia|lia|done]|].
  destruct (reload (th_world h)) as [[[]|e] w] eqn:Er.
  { eexists _, _. split; [done|left]. simpl. eauto. }
  destruct (Z.ltb_spec 5 (th_attempt h + 1)) as [Hl|Hl].
  { eexists _, _. split; [done|right; left]. exists (th_world h), e. simpl. split_and!; [done|done|lia|done]. }
  destruct timer; [eexists _, _; split; [done|right; right]; simpl; split_and!; [done|auto|lia|lia|done]|].
  destruct (IH (tail ctx) (mkHealer w (th_attempt h + 1) (th_failed h))) as (r & h' & E & Hr); [simpl; lia..|].
  exists r, h'. split; [done|]. destruct Hr as [Hr|[(w' & e' & H1 & H2 & H3 & H4)|(H1 & H2 & H3 & H4)]]; [by left| |].
  - right. left. exists w', e'. simpl in H3. split_and!; [done|done|lia|done].
  - right. right. simpl in H3, H4. split_and!; [done| |lia|lia|done].
    destruct ctx; simpl in H2; [by apply Exists_nil in H2|by right].
Qed.

(** ** Witnesses *)

Definition toml_names (f : frpFile) : res string := Ok (String.concat "," (fx_Name <$> ff_Proxies f)).

Definition sample_cfg : FRPConfig := mkFRPConfig "relay" 7000 "tok" "/run/frpc.toml" "/bin/frpc" 20000 30000.

(** A Panel that hands out ports in sequence. *)
#[local] Instance counting_panel : PanelAllocator Z := {|
  alloc_Register := λ m p, if 65000 <? Z.abs p then (Err (Errorf "penuh" []), p)
    else (Ok (mkAssignment ("t" +:+ pm_Protocol m +:+ FormatInt (pm_LocalPort m)) (Z.abs p + 1) "pending"), p + 1);
  alloc_Release := λ _ p, (Ok tt, p) |}.

#[local] Instance counting_panel_ok : PanelAllocatorOk Z.
Proof.
  intros m p p' a. simpl. destruct (Z.ltb_spec 65000 (Z.abs p)); [done|]. intros [= <- _]. simpl.
  split; [done|]. split; [lia|done].
Qed.

Definition run_os : OS := mkOS (list_to_map [(["run"], NDir)]) [] [1; 2; 3; 4; 5; 6] [].

Definition sample_world : World unit Z osProcessController :=
  mkWorld server_db NewEventBus run_os tt 20000 (mkProc None ∅ 0 []) ∅ false ∅.

Definition game : PortMapping := mkMapping "" "s1" 25565 0 "tcp".
Definition query_port : PortMapping := mkMapping "" "s1" 25565 0 "udp".

Definition one_port : World unit Z osProcessController :=
  snd (RegisterPort toml_names sample_cfg game sample_world).
Definition two_ports : World unit Z osProcessController :=
  snd (RegisterPort toml_names sample_cfg query_port one_port).

Lemma sound_render t p cs c :
  tree_okb t = true → p = render true (cs ++ [c]) → Forall comp_ok (cs ++ [c]) →
  plain (cs ++ [c]) → no_linkb t (cs ++ [c]) = true → sound_path t p.
Proof. intros H1 H2 H3 H4 H5. split; [by apply tree_okb_ok|]. exists cs, c. repeat split; auto. by apply no_linkb_ok. Qed.

Ltac solve_sound :=
  apply (sound_render _ _ ["run"] "frpc.toml");
    [vm_compute; reflexivity|vm_compute; reflexivity|repeat constructor; done
    |vm_compute; repeat constructor; done|vm_compute; reflexivity].

Lemma sample_sound : sound_path (os_tree (w_os sample_world)) (fc_ConfigPath sample_cfg).
Proof. solve_sound. Qed.

Lemma two_ports_sound : sound_path (os_tree (w_os two_ports)) (fc_ConfigPath sample_cfg).
Proof. solve_sound. Qed.

Lemma sample_name : config_name_ok (fc_ConfigPath sample_cfg).
Proof. intros c. vm_compute. by intros [= <-]. Qed.

Lemma GenerateConfig_canonical_witness :
  GenerateConfig toml_names sample_cfg
    [mkMapping "t2" "s1" 2 20002 "udp"; mkMapping "t1" "s1" 1 20001 "tcp"] = Ok "oikos-s1-t1,oikos-s1-t2".
Proof.
  destruct (GenerateConfig_canonical toml_names sample_cfg
    [mkMapping "t1" "s1" 1 20001 "tcp"; mkMapping "t2" "s1" 2 20002 "udp"]
    [mkMapping "t2" "s1" 2 20002 "udp"; mkMapping "t1" "s1" 1 20001 "tcp"]) as [H _].
  - repeat constructor; set_solver.
  - apply Permutation_swap.
  - rewrite H. vm_compute. reflexivity.
Defined.

Lemma frp_config_synced_witness : config_synced toml_names sample_cfg one_port.
Proof.
  destruct (frp_config_synced toml_names sample_cfg sample_world one_port
    sample_sound sample_name) as [H _].
  destruct (H game (mkAssignment "ttcp25565" 20001 "pending")) as [[[H' _]|(t & d & Hg & _)] _].
  - unfold one_port. destruct (RegisterPort _ _ _ _) as [r w] eqn:E.
    apply (f_equal fst) in E. vm_compute in E. simpl in E. by subst r.
  - exact H'.
  - vm_compute in Hg. discriminate Hg.
Defined.

Lemma RegisterPort_idempotent_witness :
  fst (RegisterPort toml_names sample_cfg game one_port) = Ok (mkAssignment "ttcp25565" 20001 "pending").
Proof.
  rewrite (RegisterPort_idempotent toml_names sample_cfg game sample_world one_port
    (mkAssignment "ttcp25565" 20001 "pending") eq_refl); [reflexivity|].
  unfold one_port. destruct (RegisterPort _ _ _ sample_world) as [r w] eqn:E.
  apply (f_equal fst) in E. vm_compute in E. simpl in E. by subst r.
Defined.

Lemma ReleaseServer_complete_witness :
  w_maps (snd (ReleaseServer toml_names sample_cfg "s1" two_ports)) !! "ttcp25565" = None.
Proof.
  destruct (ReleaseServer_complete toml_names sample_cfg "s1" two_ports
    (snd (ReleaseServer toml_names sample_cfg "s1" two_ports)) two_ports_sound sample_name)
    as (_ & H & _).
  - vm_compute. reflexivity.
  - destruct (ReleaseServer _ _ _ two_ports) as [r w] eqn:E.
    apply (f_equal fst) in E. vm_compute in E. simpl in E. by subst r.
  - apply (H (mkTunnelRow "ttcp25565" "s1" 25565 (Some 20001) "tcp" "pending" None)); [|reflexivity].
    vm_compute. left.
Defined.

(** frpc of [one_port] has died. *)
Definition crashed : World unit Z osProcessController :=
  put_proc (os_crash (w_proc one_port)) one_port.

Lemma watch_after_crash_witness :
  pc_alive (w_proc (snd (watch_turn toml_names sample_cfg 0 crashed))) = ∅.
Proof.
  refine (proj1 (proj1 (watch_after_crash toml_names sample_cfg crashed
    (snd (watch_turn toml_names sample_cfg 0 crashed)) 0 0
    (fst (watch_turn toml_names sample_cfg 0 crashed)) _ _ _ _) _)).
  - lia.
  - vm_compute. reflexivity.
  - vm_compute. reflexivity.
  - apply surjective_pairing.
  - vm_compute. reflexivity.
Defined.

Lemma healer_terminates_witness :
  let reload := fail (S:=Z) (Errorf "x" []) in
  let gone := Errorf "context canceled" [] in
  (∃ r h', healer_Start reload gone [] 6 (mkHealer 0 0 false) = Some (r, h') ∧ th_failed h' = true) ∧
  (∃ h', healer_Start reload gone [(false, false); (false, true)] 6 (mkHealer 0 0 false) = Some (Err gone, h') ∧ th_failed h' = false).
Proof.
  intros reload gone. split.
  - destruct (healer_terminates reload gone [] (mkHealer 0 0 false)) as (r & h' & H & Hr); [simpl; lia|].
    exists r, h'. split; [exact H|]. destruct Hr as [(-> & [w Hw] & _)|[(w & e & _ & _ & _ & Hr)|(_ & Hr & _)]]; [discriminate Hw|exact Hr|].
    by apply Exists_nil in Hr.
  - destruct (healer_terminates reload gone [(false, false); (false, true)] (mkHealer 0 0 false)) as (r & h' & H & Hr); [simpl; lia|].
    exists h'. vm_compute in H. injection H as <- <-. split; [vm_compute; reflexivity|].
    destruct Hr as [(Hr & _)|[(w & e & _ & Hr & _)|(_ & _ & _ & Hr)]]; [discriminate Hr|discriminate Hr|exact Hr].
Defined.
