(* ===== verification/ProcessSpec.v ===== *)
(** * What becomes of the frpc processes

    How many can be alive, whatever calls of the controller overlap, and how long one lives. *)

From S2P Require Import Prelude Interleave GoLib GoOS World Store Tunnel TunnelSpec.

(** ** Definitions *)

Local Abbreviation C := osProcessController.

(** The calls of the controller, each with a number of its own while it is served. *)
Definition process_call (l : Pool C nat unit) (k : nat) (p : Proc C unit) : Prop :=
  (k ∉ l.*1) ∧
  ((∃ path, p = act (os_Start path)) ∨ p = os_stop_steps ∨ (∃ path, p = os_reload_steps path) ∨
   p = (_ ← act os_Wait; mret tt)).

(** Processes end when they like. *)
Definition exits (c c' : C) : Prop := ∃ pid, c' = os_exit pid c.

(** The process the controller holds, if it runs. *)
Definition held (c : C) : gset nat :=
  match pc_cmd c with Some (pid, Running) => {[pid]} | _ => ∅ end.

(** The process of its command, running or not. *)
Definition owned (c : C) : gset nat := match pc_cmd c with Some (pid, _) => {[pid]} | None => ∅ end.

(** How many starts and stops are yet to be cut short. *)
Definition faults_left (fs : faults) : nat := length (filter is_Some fs).

(** The processes that stops in progress have taken, and those whose stop was cut short. *)
Record Taken := mkTaken { tk_by : gmap nat nat; tk_stray : gset nat }.

Definition taker (g : Taken) (_ : C) (k : nat) : option nat := tk_by g !! k.

Definition taken (g : Taken) : gset nat := map_img (tk_by g).

Record accounted_for (limit : nat) (g : Taken) (c : C) : Prop := mk_accounted_for {
  af_alive : pc_alive c ⊆ held c ∪ taken g ∪ tk_stray g;
  af_held : held c ⊆ pc_alive c;
  af_apart : owned c ## taken g;
  af_fresh : ∀ pid, pid ∈ owned c ∪ taken g → (pid < pc_next c)%nat;
  af_stray : (size (tk_stray g) + faults_left (pc_faults c) ≤ limit)%nat }.

(** ** Lemmas *)

Lemma failures_next fs : match next_fault fs with
  | (Some _, fs') => faults_left fs = S (faults_left fs') | (None, fs') => faults_left fs = faults_left fs' end.
Proof. destruct fs as [|[e|] fs]; reflexivity. Qed.

Lemma taken_insert k pid g : tk_by g !! k = None →
  taken (mkTaken (<[k := pid]> (tk_by g)) (tk_stray g)) = {[pid]} ∪ taken g.
Proof. intros H. unfold taken. simpl. by rewrite map_img_insert_notin_L by done. Qed.

Lemma taken_cases k pid g x : tk_by g !! k = Some pid →
  x ∈ taken g → x = pid ∨ x ∈ map_img (SA:=gset nat) (delete k (tk_by g)).
Proof.
  intros Hk [j Hj]%elem_of_map_img. destruct (decide (j = k)) as [->|Hne]; [left; congruence|].
  right. apply elem_of_map_img. exists j. by rewrite lookup_delete_ne.
Qed.

Lemma taken_delete k g : map_img (SA:=gset nat) (delete k (tk_by g)) ⊆ taken g.
Proof. intros x [j [_ Hj]%lookup_delete_Some]%elem_of_map_img. apply elem_of_map_img. by exists j. Qed.

Lemma size_union_le (X Y : gset nat) : (size (X ∪ Y) ≤ size X + size Y)%nat.
Proof. rewrite size_union_alt. pose proof (subseteq_size (Y ∖ X) Y). set_solver by lia. Qed.

Lemma map_img_size_le (m : gmap nat nat) : (size (map_img (SA:=gset nat) m) ≤ size m)%nat.
Proof.
  induction m as [|k v m Hk IH] using map_ind; [by rewrite map_img_empty_L|].
  rewrite map_img_insert_notin_L, map_size_insert_None by done.
  pose proof (size_union_le {[v]} (map_img m)) as H. rewrite size_singleton in H. lia.
Qed.

Lemma size_list_to_set_le (ks : list nat) : (size (list_to_set ks : gset nat) ≤ length ks)%nat.
Proof.
  induction ks as [|k ks IH]; [done|simpl].
  pose proof (size_union_le {[k]} (list_to_set ks)) as H. rewrite size_singleton in H. lia.
Qed.

Section Calls.
Context (limit : nat).
Local Abbreviation holds := (rg taker (accounted_for limit)).

Ltac calls := constructor; unfold held, owned in *; simpl.

Lemma rg_Start k path : holds k (act (os_Start path)) (λ _ v, v = None) None.
Proof.
  apply rg_act. intros g c [Ha Hh Hd Hf Hs] Hv. unfold wp, os_Start, held, owned in *.
  destruct (pc_cmd c) as [cmd|] eqn:Ec.
  { exists g. split; [calls; rewrite ?Ec; done|done]. }
  pose proof (failures_next (pc_faults c)) as Hn. destruct (next_fault _) as [[e|] fs']; simpl.
  - exists g. split; [|done]. calls; [done|done|done|done|lia].
  - exists g. split; [|done]. calls; [set_solver|set_solver| | |lia].
    + intros x ->%elem_of_singleton Hx. specialize (Hf (pc_next c)). set_solver by lia.
    + intros x [->%elem_of_singleton|Hx]%elem_of_union; [lia|]. specialize (Hf x). set_solver by lia.
Qed.

Lemma rg_take k : holds k (act os_take) (λ r v, r = Ok v) None.
Proof.
  apply rg_act. intros g c [Ha Hh Hd Hf Hs] Hv. unfold taker in Hv. unfold wp, os_take, held, owned in *. simpl.
  destruct (pc_cmd c) as [[pid st]|] eqn:Ec; simpl.
  - exists (mkTaken (<[k := pid]> (tk_by g)) (tk_stray g)). split; [|split].
    + calls; rewrite ?taken_insert by done; [destruct st; set_solver|set_solver|set_solver| |done].
      intros x Hx. apply Hf. set_solver.
    + intros k' Hk. unfold taker. simpl. by rewrite lookup_insert_ne.
    + unfold taker. simpl. by rewrite lookup_insert_eq.
  - exists g. split; [|split; [done|by unfold taker; rewrite Hv]]. calls; [done|set_solver|done|done|done].
Qed.

Lemma rg_end k pid : holds k (act (os_end pid)) (λ _ v, v = None) pid.
Proof.
  apply rg_act. intros g c [Ha Hh Hd Hf Hs] Hv. unfold taker in Hv. unfold wp, os_end.
  destruct pid as [pid|]; [|by exists g].
  pose proof (failures_next (pc_faults c)) as Hn. pose proof (taken_delete k g) as Hdel.
  pose proof (λ x, taken_cases k pid g x Hv) as Hcase.
  assert (pid ∈ taken g) as Hpid by (apply elem_of_map_img; by exists k).
  destruct (next_fault _) as [[e|] fs']; simpl.
  - exists (mkTaken (delete k (tk_by g)) ({[pid]} ∪ tk_stray g)). split; [|split].
    + calls; unfold taken in *; simpl; [|done|set_solver|set_solver|].
      * intros x Hx. specialize (Hcase x). set_solver.
      * pose proof (size_union_le {[pid]} (tk_stray g)) as Hu. rewrite size_singleton in Hu. lia.
    + intros k' Hk. unfold taker. simpl. by rewrite lookup_delete_ne.
    + unfold taker. simpl. by rewrite lookup_delete_eq.
  - exists (mkTaken (delete k (tk_by g)) (tk_stray g)). split; [|split].
    + calls; unfold taken in *; simpl; [| |set_solver|set_solver|lia].
      * intros x Hx. specialize (Hcase x). set_solver.
      * destruct (pc_cmd c) as [[p []]|]; set_solver.
    + intros k' Hk. unfold taker. simpl. by rewrite lookup_delete_ne.
    + unfold taker. simpl. by rewrite lookup_delete_eq.
Qed.

Lemma rg_Wait k : holds k (_ ← act os_Wait; mret tt) (λ _ v, v = None) None.
Proof.
  apply rg_bind. apply rg_act. intros g c [Ha Hh Hd Hf Hs] Hv. unfold wp, os_Wait, held, owned in *.
  exists g. destruct (pc_cmd c) as [[p []]|] eqn:Ec; simpl; (split; [|done]); calls; rewrite ?Ec; done.
Qed.

Lemma rg_stop k : holds k os_stop_steps (λ _ v, v = None) None.
Proof.
  apply rg_bind. eapply rg_mono; [apply rg_take|]. intros r v ->. apply rg_end.
Qed.

Lemma rg_call l k p : process_call l k p → holds k p (λ _ v, v = None) None.
Proof.
  intros [_ [[path ->]|[->|[[path ->]| ->]]]]; [apply rg_Start|apply rg_stop| |apply rg_Wait].
  apply rg_bind. eapply rg_mono; [apply rg_stop|]. intros [[]|e] v ->; [apply rg_Start|done].
Qed.

Lemma exits_accounted g c c' : accounted_for limit g c → exits c c' → accounted_for limit g c'.
Proof.
  intros [Ha Hh Hd Hf Hs] [pid ->]. unfold os_exit. calls; [| | | |done].
  all: destruct (pc_cmd c) as [[p []]|]; repeat case_bool_decide; set_solver.
Qed.
End Calls.

(** ** How many there can be *)

(** C16. How many frpc processes there can be.  Starts, stops, reloads and waits overlap as they
    like, a stop releases the lock before its process has ended, processes end when they like and
    contexts cut starts and stops short.  The process the controller holds is alive; beside it,
    and beside those that a controller of an earlier daemon left behind, at most one is alive
    for each call that is still in progress and one for each that was cut short.  When no call
    is in progress, none was cut short and nothing was left behind, the held one is the only one. *)
Theorem frpc_processes_bounded l c0 c : pc_cmd c0 = None →
  rtc (serve process_call exits) ([], c0) (l, c) →
  held c ⊆ pc_alive c ∧
  (size (pc_alive c ∖ held c) ≤
     size (pc_alive c0) + length l + (faults_left (pc_faults c0) - faults_left (pc_faults c)))%nat.
Proof.
  intros Hc Hr. set (limit := (size (pc_alive c0) + faults_left (pc_faults c0))%nat).
  assert (served taker (accounted_for limit) (λ _ v, v = None) (l, c)) as (g & [Ha Hh _ _ Hs] & _ & _ & Hout).
  { assert (served taker (accounted_for limit) (λ _ v, v = None) ([] : Pool C nat unit, c0)) as H0.
    { exists (mkTaken ∅ (pc_alive c0)). split; [|split; [constructor|split; [by intros ? ? ?%elem_of_nil|done]]].
      constructor; unfold held, owned, taken, limit; simpl; rewrite ?Hc, ?map_img_empty_L; set_solver by lia. }
    clearbody limit. remember ([] : Pool C nat unit, c0) as st0 eqn:E0. clear E0. revert H0.
    induction Hr as [|st1 st2 st3 Hst _ IH]; [done|]. intros H0. apply IH. revert Hst H0. apply served_serve.
    - intros l' k p Hp. split; [by destruct Hp|]. intros v ->. by eapply rg_call.
    - intros g c1 c2 Ha He. exists g. split; [by eapply exits_accounted|done]. }
  split; [done|]. simpl in *. unfold limit in Hs.
  assert (size (pc_alive c ∖ held c) ≤ size (taken g ∪ tk_stray g))%nat as H1 by (apply subseteq_size; set_solver).
  assert (size (taken g) ≤ length l)%nat as H2.
  { unfold taken. etrans; [apply map_img_size_le|]. rewrite <- size_dom.
    transitivity (size (list_to_set l.*1 : gset nat)).
    - apply subseteq_size. intros k [pid Hk]%elem_of_dom. apply elem_of_list_to_set.
      destruct (decide (k ∈ l.*1)) as [|Hn]; [done|]. specialize (Hout k Hn). unfold taker in Hout. congruence.
    - rewrite <- (length_fmap fst l). apply size_list_to_set_le. }
  pose proof (size_union_le (taken g) (tk_stray g)). lia.
Qed.

(** ** Requests and the frpc they start *)

Section Requests.
Context {RT P : Type} `{!PanelAllocator P}.
Context (toml_Marshal : frpFile → res string).
Context (cfg : FRPConfig).

Local Abbreviation W := (World RT P osProcessController).






(** A call adds no process but those it starts. *)
Definition grows (c0 c : C) : Prop :=
  (pc_next c0 ≤ pc_next c)%nat ∧
  ∀ pid, pid ∈ pc_alive c → pid ∈ pc_alive c0 ∨ (pc_next c0 ≤ pid < pc_next c)%nat.

Lemma keeps_grows_Start c0 path : keeps (grows c0) (os_Start path).
Proof.
  intros c [Hn Ha]. unfold os_Start, grows. destruct (pc_cmd c); [done|].
  destruct (next_fault _) as [[e|] fs]; simpl; [done|]. split; [lia|].
  intros pid [->%elem_of_singleton|Hp]%elem_of_union; [right; lia|].
  destruct (Ha pid Hp); [by left|right; lia].
Qed.

Lemma keeps_grows_Stop c0 : keeps (grows c0) os_Stop.
Proof.
  intros c [Hn Ha]. unfold os_Stop, os_take, os_end, grows, mbind, M_bind. simpl.
  destruct (fst <$> pc_cmd c) as [pid|]; simpl; [|done].
  destruct (next_fault _) as [[e|] fs]; simpl; split; try done. intros p Hp. apply Ha. set_solver.
Qed.

Local Abbreviation grown c0 := (λ w : W, grows c0 (w_proc w)).

Lemma keeps_grows_proc c0 {A} (m : M C A) : keeps (grows c0) m → keeps (grown c0) (proc m).
Proof. intros H. apply keeps_zoom. intros w Hw. by apply H. Qed.
Lemma keeps_grows_db c0 {A} (m : M DB A) : keeps (grown c0) (db m).
Proof. by apply keeps_zoom. Qed.
Lemma keeps_grows_os c0 {A} (m : M OS A) : keeps (grown c0) (os m).
Proof. by apply keeps_zoom. Qed.
Lemma keeps_grows_panel c0 {A} (m : M P A) : keeps (grown c0) (panel m).
Proof. by apply keeps_zoom. Qed.
Lemma keeps_grows_emit c0 typ s : keeps (grown c0) (emit typ s).
Proof. by apply keeps_modify. Qed.
Lemma keeps_grows_maps c0 f : keeps (grown c0) (modify (λ w : W, put_maps (f w) w)).
Proof. by apply keeps_modify. Qed.
#[local] Hint Resolve keeps_grows_Start keeps_grows_Stop keeps_grows_proc keeps_grows_db keeps_grows_os
  keeps_grows_panel keeps_grows_emit keeps_grows_maps : keeps.

Lemma keeps_grows_rebuild c0 : keeps (grown c0) (rebuildLocked toml_Marshal cfg).
Proof. unfold rebuildLocked. solve_keeps. all: apply keeps_grows_proc; unfold proc_Reload, os_Reload; simpl; solve_keeps. Qed.
#[local] Hint Resolve keeps_grows_rebuild : keeps.




End Requests.

(** ** Witnesses *)

#[local] Existing Instance counting_panel.

(** A start, and a stop that has taken its process and waits for its end when a second start
    comes: two processes run. *)
Definition two_processes : Pool C nat unit * C :=
  ([(1, act (os_end (Some 0)))], mkProc (Some (1, Running)) {[1; 0]} 2 [])%nat.

Lemma overlap_reached : rtc (serve process_call exits) ([], mkProc None ∅ 0 []) two_processes.
Proof.
  assert (∀ l k, k ∉ l.*1 → process_call l k (act (os_Start "/run/frpc.toml"))) as Hstart.
  { intros l k Hk. split; [done|]. left. by eexists. }
  etrans; [eapply serve_alone, (Hstart [] 0%nat); set_solver|].
  eapply rtc_l; [apply (serve_start _ _ [] _ 1%nat os_stop_steps)|]; [split; [set_solver|by right; left]|].
  etrans; [apply (serve_turns process_call exits [0]%nat)|].
  etrans; [eapply serve_alone, (Hstart _ 2%nat); set_solver|]. apply rtc_refl.
Qed.

Lemma frpc_processes_bounded_witness :
  let c := snd two_processes in pc_alive c = {[0; 1]}%nat ∧ (size (pc_alive c ∖ held c) ≤ 1)%nat.
Proof.
  cbv zeta. split; [apply (bool_decide_eq_true_1 _); vm_compute; reflexivity|].
  eapply Nat.le_trans.
  - refine (proj2 (frpc_processes_bounded (fst two_processes) (mkProc None ∅ 0 []) (snd two_processes) eq_refl _)).
    rewrite <- surjective_pairing. apply overlap_reached.
  - apply Nat.leb_le. vm_compute. reflexivity.
Defined.

