(* ===== verification/Orchestrator.v ===== *)
(** * The orchestrator ([internal/orchestrator])

    The server lifecycle over the store, the container engine and the tunnel
    manager; the restart policy; the ports of an egg.  (The event bus and
    the event recorder are in [Bus], the crash observer and the goroutines of the healer in
    [Healer].) *)

From S2P Require Import Prelude GoLib GoPath GoOS Config Store Bus Runtime Resource World.

(** ** Definitions *)

(** *** [lifecycle.go], [state.go] *)

(** The environment of a server, in the order the Go map is iterated. *)
Definition Env : Type := list (string * string).

Section Lifecycle.
Context {RT P C : Type} `{!Runtime RT}.
Local Abbreviation W := (World RT P C).

(** [json.Marshal] of a [map[string]string], and its inverse. *)
Context (json_Marshal : Env → res string) (json_Unmarshal : string → res Env).

(** [Lifecycle.tunnels], [Lifecycle.ports] *)
Context (tunnels : option (TunnelManager W)).
Definition PortProvider : Type := string → M W (list PortMapping).
Context (ports : option PortProvider).

Definition with_server (id : string) (m : PortMapping) : PortMapping :=
  mkMapping (pm_TunnelID m) id (pm_LocalPort m) (pm_RemotePort m) (pm_Protocol m).

(** The loop over an egg's ports: on a failure the server is deleted again. *)
Definition register_ports (tm : TunnelManager W) (id : string) (mappings : list PortMapping) : M W unit :=
  for_each (λ mapping,
    r ← try (tm_RegisterPort tm (with_server id mapping));
    match r with
    | Ok _ => mret tt
    | Err e => ignore (db (Store.DeleteServer id));; fail (Errorw "register tunnel" [] e)
    end) mappings.

(** [uuid] is the fresh [uuid.NewString()]. *)
Definition CreateServer (uuid name eggID startup : string) (env : Env) : M W string :=
  envJSON ← wrap "encode env" [] (lift_res (json_Marshal env));
  wrap "registrasi egg" [] (db (EnsureEgg (Store.mkEgg eggID eggID "" "")));;
  wrap "simpan server" [] (db (Store.CreateServer
    (mkServer uuid name eggID "" "installing" startup envJSON 0 zeroTime)));;
  wrap "update status" [] (db (UpdateServerStatus uuid "stopped"));;
  match tunnels, ports with
  | Some tm, Some pp =>
      r ← try (pp eggID);
      match r with
      | Err e => ignore (db (Store.DeleteServer uuid));; fail (Errorw "ambil port egg" [] e)
      | Ok mappings => register_ports tm uuid mappings
      end
  | _, _ => mret tt
  end;;
  publish "server.created" uuid;;
  mret uuid.

Definition getServer (id : string) : M W Server := db (Store.GetServer id).
Definition setStatus (id status : string) : M W unit := db (UpdateServerStatus id status).

Definition set_manual (id : string) : M W unit := modify (λ w, put_manual ({[id]} ∪ w_manual w) w).
Definition clear_manual (id : string) : M W unit := modify (λ w, put_manual (w_manual w ∖ {[id]}) w).

Definition has_limits (r : res ResourceLimits) : option ResourceLimits :=
  match r with
  | Ok lim => if (0 <? rl_CPULimit lim) || (0 <? rl_MemoryLimitMB lim) || (0 <? rl_PIDLimit lim)
              then Some lim else None
  | Err _ => None
  end.

Definition memory_bytes (lim : ResourceLimits) : Z :=
  wrap64 (wrap64 (rl_MemoryLimitMB lim * 1024) * 1024).

Definition server_spec (s : Server) (env : Env) (lim : option ResourceLimits) : ContainerSpec :=
  let cpu := match lim with Some l => rl_CPULimit l | None => 0 end in
  let mem := match lim with Some l => memory_bytes l | None => 0 end in
  let pids := match lim with Some l => rl_PIDLimit l | None => 0 end in
  mkSpec (sv_ID s) ("oikos/" +:+ sv_EggID s) (Fields (sv_StartupCommand s)) env cpu mem pids
    "" "" "" "" "" false false.

(** The container of a server, created on its first start. *)
Definition ensure_container (id : string) (s : Server) (lim : option ResourceLimits) : M W string :=
  if negb (sv_ContainerID s =s "") then mret (sv_ContainerID s)
  else
    env ← wrap "decode env" [] (lift_res (json_Unmarshal (sv_Environment s)));
    containerID ← wrap "runtime create" [] (rt (rt_Create (server_spec s env lim)));
    wrap "simpan container id" [] (db (SetServerContainer id containerID));;
    mret containerID.

Definition apply_limits (containerID : string) (lim : ResourceLimits) : M OS unit :=
  v ← DetectCgroupVersion;
  if negb (v =s "v2") then mret tt
  else
    r ← try (FindContainerCgroup "/sys/fs/cgroup" containerID);
    match r with
    | Err _ => mret tt
    | Ok cg => wrap "terapkan limit" []
                 (ApplyLimits cg (mkLimits (rl_CPULimit lim) (memory_bytes lim) (rl_PIDLimit lim)))
    end.

Definition StartServer (id : string) : M W unit :=
  clear_manual id;;
  s ← wrap "ambil server" [] (getServer id);
  limErr ← try (db (GetResourceLimits id));
  let lim := has_limits limErr in
  containerID ← ensure_container id s lim;
  wrap "runtime start" [] (rt (rt_Start containerID));;
  wrap "update status" [] (setStatus id "running");;
  match lim with Some l => os (apply_limits containerID l) | None => mret tt end;;
  publish "server.started" id.

Definition StopServer (id : string) : M W unit :=
  s ← wrap "ambil server" [] (getServer id);
  (if negb (sv_ContainerID s =s "") then
     set_manual id;;
     r ← try (rt (rt_Stop (sv_ContainerID s) 10));
     match r with
     | Err e => clear_manual id;; fail (Errorw "runtime stop" [] e)
     | Ok _ => mret tt
     end
   else mret tt);;
  wrap "update status" [] (setStatus id "stopped");;
  publish "server.stopped" id.

(** [LoadAndDelete] *)
Definition IsManualStop (id : string) : M W bool :=
  b ← gets (λ w, bool_decide (id ∈ w_manual w));
  clear_manual id;;
  mret b.

Definition RestartServer (id : string) : M W unit :=
  s ← wrap "ambil server" [] (getServer id);
  fail_if (sv_ContainerID s =s "") (Errorf "server %s belum punya container" [id]);;
  wrap "runtime restart" [] (rt (rt_Restart (sv_ContainerID s)));;
  wrap "update status" [] (setStatus id "running");;
  publish "server.restarted" id.

Definition DeleteServer (id : string) : M W unit :=
  s ← wrap "ambil server" [] (getServer id);
  (if negb (sv_ContainerID s =s "")
   then wrap "runtime delete" [] (rt (rt_Delete (sv_ContainerID s) true)) else mret tt);;
  match tunnels with
  | Some tm => wrap "release tunnel" [] (tm_ReleaseServer tm id)
  | None => mret tt
  end;;
  wrap "hapus server" [] (db (Store.DeleteServer id));;
  publish "server.deleted" id.

Definition setLastCrash (id : string) : M W unit :=
  now ← gets (λ w, db_now (w_db w));
  db (SetLastCrash id now).

End Lifecycle.

(** *** [restart_policy.go] *)

Record RestartPolicy := mkPolicy {
  MaxRetries : Z; BackoffBase : Z; BackoffMax : Z; StableResetAfter : Z }.

Definition DefaultRestartPolicy : RestartPolicy :=
  mkPolicy 5 (5 * time_Second) (5 * 60 * time_Second) (5 * 60 * time_Second).

(** The loop; [n] is what is left of [attempt]. *)
Fixpoint double_until (max : Z) (n : nat) (d : Z) : Z :=
  match n with
  | O => d
  | S n => if d <? max then double_until max n (wrap64 (d * 2)) else d
  end.

Definition NextBackoff (p : RestartPolicy) (attempt : Z) : Z :=
  let attempt := if attempt <? 0 then 0 else attempt in
  let d := double_until (BackoffMax p) (Z.to_nat attempt) (BackoffBase p) in
  if BackoffMax p <? d then BackoffMax p else d.

(** *** [egg_ports.go] *)

Section EggPorts.
(** [yaml.Unmarshal] *)
Context (yaml_Unmarshal : string → res Config.Egg).

Fixpoint egg_mappings (ports : list EggPort) : res (list PortMapping) :=
  match ports with
  | [] => Ok []
  | port :: ports =>
      if negb (ep_Protocol port =s "tcp") && negb (ep_Protocol port =s "udp")
      then Err (Errorf "protocol egg %q tidak valid" [ep_Protocol port])
      else match egg_mappings ports with
           | Err e => Err e
           | Ok ms => Ok (mkMapping "" "" (ep_Default port) 0 (ep_Protocol port) :: ms)
           end
  end.

(** [EggPortProvider{Root: root}.Ports] *)
Definition Ports (root eggID : string) : M OS (list PortMapping) :=
  e ← wrap "load egg %s" [eggID] (LoadDir yaml_Unmarshal (Join [root; eggID]));
  lift_res (Validate e);;
  lift_res (egg_mappings (egg_Ports e)).
End EggPorts.
