(* ===== verification/Requests.v ===== *)
(** * Concurrent lifecycle requests ([internal/orchestrator/lifecycle.go])

    The gRPC server handles every request in its own goroutine and the lifecycle takes no lock,
    so its operations interleave: each is here the sequence of its calls.  A call is one step:
    the store and the tunnel manager have their own lock, the engine serves one call at a
    time, [manualStops] is a [sync.Map]; the cgroup files of a container, written on its
    start, are one step. *)

From S2P Require Import Prelude Interleave GoLib GoPath GoOS Config Store Bus Runtime Resource World Orchestrator.

(** ** Definitions *)

Section Requests.
Context {RT P C : Type} `{!Runtime RT}.
Local Abbreviation W := (World RT P C).
Context (json_Marshal : Env → res string) (json_Unmarshal : string → res Env).
Context (tunnels : option (TunnelManager W)) (ports : option (PortProvider (RT:=RT) (P:=P) (C:=C))).

Definition register_steps (tm : TunnelManager W) (id : string) (mappings : list PortMapping) : Proc W unit :=
  for_steps (λ mapping,
    r ← act (try (tm_RegisterPort tm (with_server id mapping)));
    match r with
    | Ok _ => mret tt
    | Err e => act (ignore (db (Store.DeleteServer id))) ;; abort (Errorw "register tunnel" [] e)
    end) mappings.

Definition create_steps (uuid name eggID startup : string) (env : Env) : Proc W string :=
  envJSON ← act (wrap "encode env" [] (lift_res (json_Marshal env)));
  act (wrap "registrasi egg" [] (db (EnsureEgg (Store.mkEgg eggID eggID "" "")))) ;;
  act (wrap "simpan server" [] (db (Store.CreateServer
    (mkServer uuid name eggID "" "installing" startup envJSON 0 zeroTime)))) ;;
  act (wrap "update status" [] (db (UpdateServerStatus uuid "stopped"))) ;;
  match tunnels, ports with
  | Some tm, Some pp =>
      r ← act (try (pp eggID));
      match r with
      | Err e => act (ignore (db (Store.DeleteServer uuid))) ;; abort (Errorw "ambil port egg" [] e)
      | Ok mappings => register_steps tm uuid mappings
      end
  | _, _ => mret tt
  end ;;
  act (publish "server.created" uuid) ;;
  mret uuid.

Definition container_steps (id : string) (s : Server) (lim : option ResourceLimits) : Proc W string :=
  if negb (sv_ContainerID s =s "") then mret (sv_ContainerID s)
  else
    env ← act (wrap "decode env" [] (lift_res (json_Unmarshal (sv_Environment s))));
    containerID ← act (wrap "runtime create" [] (rt (rt_Create (server_spec s env lim))));
    act (wrap "simpan container id" [] (db (SetServerContainer id containerID))) ;;
    mret containerID.

Definition start_steps (id : string) : Proc W unit :=
  act (clear_manual id) ;;
  s ← act (wrap "ambil server" [] (getServer id));
  limErr ← act (try (db (GetResourceLimits id)));
  let lim := has_limits limErr in
  containerID ← container_steps id s lim;
  act (wrap "runtime start" [] (rt (rt_Start containerID))) ;;
  act (wrap "update status" [] (setStatus id "running")) ;;
  match lim with Some l => act (os (apply_limits containerID l)) | None => mret tt end ;;
  act (publish "server.started" id).

Definition stop_steps (id : string) : Proc W unit :=
  s ← act (wrap "ambil server" [] (getServer id));
  (if negb (sv_ContainerID s =s "") then
     act (set_manual id) ;;
     r ← act (try (rt (rt_Stop (sv_ContainerID s) 10)));
     match r with
     | Err e => act (clear_manual id) ;; abort (Errorw "runtime stop" [] e)
     | Ok _ => mret tt
     end
   else mret tt) ;;
  act (wrap "update status" [] (setStatus id "stopped")) ;;
  act (publish "server.stopped" id).

Definition restart_steps (id : string) : Proc W unit :=
  s ← act (wrap "ambil server" [] (getServer id));
  (if sv_ContainerID s =s "" then abort (Errorf "server %s belum punya container" [id]) else mret tt) ;;
  act (wrap "runtime restart" [] (rt (rt_Restart (sv_ContainerID s)))) ;;
  act (wrap "update status" [] (setStatus id "running")) ;;
  act (publish "server.restarted" id).

Definition delete_steps (id : string) : Proc W unit :=
  s ← act (wrap "ambil server" [] (getServer id));
  (if negb (sv_ContainerID s =s "")
   then act (wrap "runtime delete" [] (rt (rt_Delete (sv_ContainerID s) true))) else mret tt) ;;
  match tunnels with
  | Some tm => act (wrap "release tunnel" [] (tm_ReleaseServer tm id))
  | None => mret tt
  end ;;
  act (wrap "hapus server" [] (db (Store.DeleteServer id))) ;;
  act (publish "server.deleted" id).

(** The requests of the lifecycle; the server each is about. *)
Inductive LifecycleOp :=
| OpCreate (uuid name eggID startup : string) (env : Env)
| OpStart (id : string) | OpStop (id : string) | OpRestart (id : string) | OpDelete (id : string).

Definition about (op : LifecycleOp) : string :=
  match op with
  | OpCreate uuid _ _ _ _ => uuid
  | OpStart id | OpStop id | OpRestart id | OpDelete id => id
  end.

(** Served alone, and as a goroutine. *)
Definition run_lifecycle (op : LifecycleOp) : M W unit :=
  match op with
  | OpCreate uuid name eggID startup env =>
      CreateServer json_Marshal tunnels ports uuid name eggID startup env ;; mret tt
  | OpStart id => StartServer json_Unmarshal id
  | OpStop id => StopServer id
  | OpRestart id => RestartServer id
  | OpDelete id => DeleteServer tunnels id
  end.

Definition request (op : LifecycleOp) : Proc W unit :=
  match op with
  | OpCreate uuid name eggID startup env => create_steps uuid name eggID startup env ;; mret tt
  | OpStart id => start_steps id
  | OpStop id => stop_steps id
  | OpRestart id => restart_steps id
  | OpDelete id => delete_steps id
  end.
End Requests.
