(* ===== verification/RequestsSpec.v ===== *)
(** * What concurrent lifecycle requests keep

    A request that is served alone does what the operation does; requests for different servers
    together keep the agreement of the store with the engine. *)

From S2P Require Import Prelude Interleave GoLib GoPath GoOS GoOSFacts Config Store Migrations StoreFacts StoreSpec Bus Runtime Resource World Tunnel TunnelFacts TunnelSpec Orchestrator Requests.

(** ** Definitions *)

(** What a server sees of the state: its rows, with their container and status, and the
    containers that were created for it. *)
Record view := mkView { vw_rows : list (option string * string); vw_containers : gmap string ContainerStatus }.

(** The recorded status agrees with the engine: running exactly if the container runs.  A recorded
    container exists, unless a deletion was cut short after it had removed it ([gone]). *)
Definition row_agrees (gone : Prop) (cs : gmap string ContainerStatus) (r : option string * string) : Prop :=
  match r.1 with
  | None => r.2 ≠ "running"
  | Some c => match cs !! c with
              | Some st => st = StatusRunning ↔ r.2 = "running"
              | None => gone
              end
  end.
(** And no container without its server: every container that was created for the server and is
    still there is recorded in its row. *)
Definition covered (cs : gmap string ContainerStatus) (recorded : list (option string)) : Prop :=
  ∀ c, is_Some (cs !! c) → Some c ∈ recorded.
Definition server_ok (gone : Prop) (v : view) : Prop :=
  Forall (row_agrees gone (vw_containers v)) (vw_rows v) ∧ covered (vw_containers v) (vw_rows v).*1.

Section View.
Context {P C : Type}.
Local Abbreviation W := (World fake P C).

(** Which server each container was created for. *)
Abbreviation Owners := (gmap string string).

Definition view_of (own : Owners) (w : W) (id : string) : view :=
  mkView ((λ r, (sr_container_id r, sr_status r)) <$> select_where (λ r, sr_id r =s id) (db_servers (w_db w)))
    (filter (λ kv, own !! kv.1 = Some id) (containers (w_rt w))).

(** A server has one row, a recorded container was created for it, the next container id is new. *)
Record well_owned (own : Owners) (w : W) : Prop := mk_owned {
  wo_faults : db_faults (w_db w) = [];
  wo_table : has_table (w_db w) "servers" = true;
  wo_pk : NoDup (sr_id <$> db_servers (w_db w));
  wo_row : ∀ r c, r ∈ db_servers (w_db w) → sr_container_id r = Some c → c ≠ "" ∧ own !! c = Some (sr_id r);
  wo_names : ∀ c, is_Some (own !! c) → ∃ n, n ≤ seq (w_rt w) ∧ c = "fake-" +:+ FormatInt n;
  wo_dom : ∀ c, is_Some (containers (w_rt w) !! c) → is_Some (own !! c) }.

(** A computation that leaves the servers and the engine alone. *)
Definition quiet {A} (m : M W A) : Prop := ∀ w, db_faults (w_db w) = [] →
  let w' := snd (m w) in
  db_faults (w_db w') = [] ∧ has_table (w_db w') "servers" = has_table (w_db w) "servers" ∧
  db_servers (w_db w') = db_servers (w_db w) ∧ w_rt w' = w_rt w.

(** What the lifecycle needs of the tunnel manager and the egg's ports; a deletion is cut short when
    the release of the ports can fail. *)
Class QuietTunnels (gone : Prop) (tunnels : option (TunnelManager W))
    (ports : option (PortProvider (RT:=fake) (P:=P) (C:=C))) := {
  quiet_register : ∀ tm m, tunnels = Some tm → quiet (tm_RegisterPort tm m);
  quiet_release : ∀ tm id, tunnels = Some tm → quiet (tm_ReleaseServer tm id);
  gone_release : ∀ tm id w, tunnels = Some tm → gone ∨ is_ok (fst (tm_ReleaseServer tm id w)) = true;
  quiet_ports : ∀ pp egg, ports = Some pp → quiet (pp egg) }.
End View.

(** ** Lemmas *)

Section Alone.
Context {RT P C : Type} `{!Runtime RT}.
Local Abbreviation W := (World RT P C).
Context (json_Marshal : Env → res string) (json_Unmarshal : string → res Env).
Context (tunnels : option (TunnelManager W)) (ports : option (PortProvider (RT:=RT) (P:=P) (C:=C))).

(** Step by step: the same call, then the rest. *)
Ltac same := repeat first
  [ reflexivity
  | apply alone_act
  | apply alone_for_steps; intros
  | apply alone_seq; intros
  | case_match ].

Lemma create_alone uuid name eggID startup env (w : W) :
  alone (create_steps json_Marshal tunnels ports uuid name eggID startup env) w =
  CreateServer json_Marshal tunnels ports uuid name eggID startup env w.
Proof. revert w. unfold create_steps, CreateServer, register_steps, register_ports. same. Qed.

Lemma start_alone id (w : W) : alone (start_steps json_Unmarshal id) w = StartServer json_Unmarshal id w.
Proof. revert w. unfold start_steps, StartServer, container_steps, ensure_container. same. Qed.

Lemma stop_alone id (w : W) : alone (stop_steps id : Proc W unit) w = StopServer id w.
Proof. revert w. unfold stop_steps, StopServer. same. Qed.

Lemma restart_alone id (w : W) : alone (restart_steps id : Proc W unit) w = RestartServer id w.
Proof. revert w. unfold restart_steps, RestartServer, fail_if. same. Qed.

Lemma delete_alone id (w : W) : alone (delete_steps tunnels id) w = DeleteServer tunnels id w.
Proof. revert w. unfold delete_steps, DeleteServer. same. Qed.


Lemma alone_request op (w : W) :
  alone (request json_Marshal json_Unmarshal tunnels ports op) w =
  run_lifecycle json_Marshal json_Unmarshal tunnels ports op w.
Proof.
  destruct op; unfold request, run_lifecycle;
    auto using start_alone, stop_alone, restart_alone, delete_alone.
  apply alone_seq; [apply create_alone|done].
Qed.
End Alone.

(** *** The rules of the calls *)

Section Calls.
Context {P C : Type}.
Local Abbreviation W := (World fake P C).
Local Abbreviation holds := (rg (S:=W) view_of well_owned).

(** A step that the view of no server shows. *)
Lemma rg_quiet {A} id (m : M W A) (Q : res A → view → Prop) v :
  quiet m → (∀ w, Q (fst (m w)) v) → holds id (act m) Q v.
Proof.
  intros Hm HQ. apply rg_act. intros own w Hw Hv. destruct (Hm w (wo_faults _ _ Hw)) as (Hf & Ht & Hs & Hr).
  unfold wp. assert (∀ k, view_of own (snd (m w)) k = view_of own w k) as Hview.
  { intros k. unfold view_of. by rewrite Hs, Hr. }
  exists own. rewrite Hview, Hv. split; [|by split].
  destruct Hw. constructor; rewrite ?Hs, ?Hr, ?Ht; done.
Qed.
Lemma rg_wrap {A} id fmt args (m : M W A) (Q : res A → view → Prop) v :
  holds id (act m) (λ r v', match r with Ok a => Q (Ok a) v' | Err e => Q (Err (Errorw fmt args e)) v' end) v →
  holds id (act (wrap fmt args m)) Q v.
Proof.
  intros H own w Hw Hv. destruct (H own w Hw Hv) as (own' & H1 & H2 & H3). exists own'.
  unfold wrap. simpl in *. by destruct (m w) as [[a|e] w'].
Qed.

Lemma rg_try {A} id (m : M W A) (Q : res (res A) → view → Prop) v :
  holds id (act m) (λ r, Q (Ok r)) v → holds id (act (try m)) Q v.
Proof.
  intros H own w Hw Hv. destruct (H own w Hw Hv) as (own' & H1 & H2 & H3). exists own'.
  unfold try. simpl in *. by destruct (m w) as [r w'].
Qed.

Lemma rg_ignore {A} id (m : M W A) (Q : res unit → view → Prop) v :
  holds id (act m) (λ _, Q (Ok tt)) v → holds id (act (ignore m)) Q v.
Proof.
  intros H own w Hw Hv. destruct (H own w Hw Hv) as (own' & H1 & H2 & H3). exists own'.
  unfold ignore. simpl in *. by destruct (m w) as [r w'].
Qed.

(** *** Statements on the rows of a server *)

Definition pair_of (r : server_row) : option string * string := (sr_container_id r, sr_status r).
Definition rows_of (id : string) (d : DB) : list (option string * string) :=
  pair_of <$> select_where (λ r, sr_id r =s id) (db_servers d).

Lemma select_update_other id id' g rows :
  id' ≠ id → (∀ r, sr_id (g r) = sr_id r) →
  select_where (λ r, sr_id r =s id') (update_where (λ r, sr_id r =s id) g rows) =
  select_where (λ r, sr_id r =s id') rows.
Proof.
  intros Hne Hg. unfold select_where, update_where. induction rows as [|r rows IH]; [done|].
  rewrite fmap_cons, !filter_cons, IH. destruct (String.eqb_spec (sr_id r) id) as [E|E]; [|done].
  rewrite Hg, E. rewrite (proj2 (String.eqb_neq id id')) by congruence. done.
Qed.

Lemma select_update id g rows :
  (∀ r, sr_id (g r) = sr_id r) →
  select_where (λ r, sr_id r =s id) (update_where (λ r, sr_id r =s id) g rows) =
  g <$> select_where (λ r, sr_id r =s id) rows.
Proof.
  intros Hg. unfold select_where, update_where. induction rows as [|r rows IH]; [done|].
  rewrite fmap_cons, !filter_cons, IH. destruct (String.eqb_spec (sr_id r) id) as [E|E].
  - rewrite Hg, E, String.eqb_refl. done.
  - by rewrite (proj2 (String.eqb_neq _ _) E).
Qed.

Lemma select_delete_id id id' rows :
  select_where (λ r, sr_id r =s id') (delete_where (λ r, sr_id r =s id) rows) =
  if decide (id' = id) then [] else select_where (λ r : server_row, sr_id r =s id') rows.
Proof.
  unfold select_where, delete_where. induction rows as [|r rows IH]; [by case_decide|].
  rewrite !filter_cons. destruct (String.eqb_spec (sr_id r) id) as [E|E]; simpl; rewrite ?filter_cons, IH.
  - case_decide as Hd; [done|]. rewrite (proj2 (String.eqb_neq _ _)) by congruence. done.
  - case_decide as Hd; [|done]. subst id'. by rewrite (proj2 (String.eqb_neq _ _) E).
Qed.

Lemma select_one id rows r l :
  NoDup (sr_id <$> rows) → select_where (λ r, sr_id r =s id) rows = r :: l → l = [] ∧ r ∈ rows ∧ sr_id r = id.
Proof.
  intros Hnd E. assert (∀ x, x ∈ r :: l → x ∈ rows ∧ sr_id x = id) as Hin.
  { intros x. rewrite <- E, elem_of_select_where. by intros [?%String.eqb_eq ?]. }
  destruct (Hin r) as [Hr Hid]; [by left|]. split; [|done]. destruct l as [|x l]; [done|].
  destruct (Hin x) as [Hx Hidx]; [by right; left|].
  assert (NoDup (r :: x :: l)) as [Hnot _]%NoDup_cons.
  { rewrite <- E. apply NoDup_filter. by eapply NoDup_fmap_1. }
  destruct Hnot. assert (r = x) as ->; [|by left]. by apply (key_unique sr_id rows); [..|congruence].
Qed.

(** A statement that changes the rows of [id] only. *)
Lemma rows_step own (w : W) id d' :
  well_owned own w → db_faults d' = [] → has_table d' "servers" = true → NoDup (sr_id <$> db_servers d') →
  (∀ r c, r ∈ db_servers d' → sr_container_id r = Some c → c ≠ "" ∧ own !! c = Some (sr_id r)) →
  (∀ id', id' ≠ id → rows_of id' d' = rows_of id' (w_db w)) →
  well_owned own (put_db d' w) ∧ (∀ k, k ≠ id → view_of own (put_db d' w) k = view_of own w k) ∧
  view_of own (put_db d' w) id = mkView (rows_of id d') (vw_containers (view_of own w id)).
Proof.
  intros Hw Hf Ht Hpk Hrow Hoth. split; [by destruct Hw|]. split; [|done].
  intros k Hk. unfold view_of. f_equal. by apply Hoth.
Qed.

Lemma rg_exec id (f : DB → res DB) (Q : res unit → view → Prop) v :
  (∀ own (w : W), well_owned own w → view_of own w id = v →
     match f (w_db w) with
     | Ok d' => (db_faults d' = [] ∧ has_table d' "servers" = true ∧ NoDup (sr_id <$> db_servers d') ∧
         (∀ r c, r ∈ db_servers d' → sr_container_id r = Some c → c ≠ "" ∧ own !! c = Some (sr_id r)) ∧
         (∀ id', id' ≠ id → rows_of id' d' = rows_of id' (w_db w))) ∧
         Q (Ok tt) (mkView (rows_of id d') (vw_containers v))
     | Err e => Q (Err e) v
     end) →
  holds id (act (db (exec ["servers"] f))) Q v.
Proof.
  intros H. apply rg_act. intros own w Hw Hv. specialize (H own w Hw Hv).
  unfold db. wp_simpl. unfold wp. rewrite exec_no_fault by (simpl; rewrite ?(wo_faults _ _ Hw), ?(wo_table _ _ Hw); done).
  destruct (f (w_db w)) as [d'|e]; simpl.
  - destruct H as [(H1 & H2 & H3 & H4 & H5) HQ]. destruct (rows_step own w id d') as (Hw' & Ho & Hv'); [done..|].
    exists own. split; [done|]. split; [done|]. by rewrite Hv', Hv.
  - replace (put_db (w_db w) w) with w by (by destruct w). exists own. by rewrite Hv.
Qed.

Lemma fmap_pairs (g : server_row → server_row) (h : option string * string → option string * string)
    (rows : list server_row) :
  (∀ r, pair_of (g r) = h (pair_of r)) → pair_of <$> (g <$> rows) = h <$> (pair_of <$> rows).
Proof. intros H. rewrite <- !list_fmap_compose. apply list_fmap_ext. intros i r _. apply H. Qed.

Lemma rg_setStatus id st (Q : res unit → view → Prop) v :
  Q (Ok tt) (mkView ((λ x, (x.1, st)) <$> vw_rows v) (vw_containers v)) →
  holds id (act (setStatus id st)) Q v.
Proof.
  intros HQ. unfold setStatus, UpdateServerStatus. apply rg_exec. intros own w Hw Hv. simpl.
  set (g := λ r, mkServerRow (sr_id r) _ _ _ _ _ _ _ _ _ _). split; [split; [|split; [|split; [|split]]]|].
  - apply (wo_faults _ _ Hw).
  - apply (wo_table _ _ Hw).
  - rewrite fmap_update_where by done. apply (wo_pk _ _ Hw).
  - intros r c (x & -> & Hx)%list_elem_of_fmap. pose proof (wo_row _ _ Hw x c Hx). by case_match.
  - intros id' Hne. unfold rows_of. simpl. f_equal. by apply select_update_other.
  - unfold rows_of. simpl. rewrite select_update by done. subst v. simpl in HQ.
    rewrite (fmap_pairs g (λ x, (x.1, st))) by done. exact HQ.
Qed.

Lemma rg_setContainer id c (Q : res unit → view → Prop) v :
  c ≠ "" → is_Some (vw_containers v !! c) →
  Q (Ok tt) (mkView ((λ x, (Some c, x.2)) <$> vw_rows v) (vw_containers v)) →
  holds id (act (db (SetServerContainer id c))) Q v.
Proof.
  intros Hc0 Hc HQ. unfold SetServerContainer. apply rg_exec. intros own w Hw Hv. simpl.
  assert (own !! c = Some id) as Hown.
  { subst v. simpl in Hc. destruct Hc as [st Hc]. by apply map_lookup_filter_Some in Hc as [_ ?]. }
  set (g := λ r, mkServerRow (sr_id r) _ _ _ _ _ _ _ _ _ _). split; [split; [|split; [|split; [|split]]]|].
  - apply (wo_faults _ _ Hw).
  - apply (wo_table _ _ Hw).
  - rewrite fmap_update_where by done. apply (wo_pk _ _ Hw).
  - intros r c' (x & -> & Hx)%list_elem_of_fmap. pose proof (wo_row _ _ Hw x c' Hx) as H.
    destruct (String.eqb_spec (sr_id x) id) as [E|E]; [|done]. simpl. intros [= <-]. by rewrite E.
  - intros id' Hne. unfold rows_of. simpl. f_equal. by apply select_update_other.
  - unfold rows_of. simpl. rewrite select_update by done. subst v. simpl in HQ.
    rewrite (fmap_pairs g (λ x, (Some c, x.2))) by done. exact HQ.
Qed.

Lemma rg_delete_row id (Q : res unit → view → Prop) v :
  Q (Ok tt) (mkView [] (vw_containers v)) → holds id (act (db (Store.DeleteServer id))) Q v.
Proof.
  intros HQ. unfold Store.DeleteServer. apply rg_exec. intros own w Hw Hv. simpl.
  set (d' := if db_fk _ then _ else _).
  assert (db_faults d' = [] ∧ has_table d' "servers" = true ∧
    db_servers d' = delete_where (λ r, sr_id r =s id) (db_servers (w_db w))) as (Hf & Ht & Hs).
  { subst d'. destruct Hw. by destruct (db_fk (w_db w)). }
  unfold rows_of. rewrite Hf, Ht, Hs, select_delete_id, decide_True by done.
  split; [split; [|split; [|split; [|split]]]|]; try done.
  - apply NoDup_delete_where, (wo_pk _ _ Hw).
  - intros r c [_ Hr]%elem_of_delete_where. by apply (wo_row _ _ Hw).
  - intros id' Hne. by rewrite select_delete_id, decide_False by done.
Qed.

Lemma rg_insert_row id s (Q : res unit → view → Prop) v :
  sv_ID s = id → sv_ContainerID s = "" → (∀ e, Q (Err e) v) →
  (vw_rows v = [] → Q (Ok tt) (mkView [(None, sv_Status s)] (vw_containers v))) →
  holds id (act (db (Store.CreateServer s))) Q v.
Proof.
  intros Hid Hc HE HQ. unfold Store.CreateServer. apply rg_exec. intros own w Hw Hv. simpl.
  rewrite Hid, Hc. destruct (server_exists (w_db w) id) eqn:Hex; [apply HE|].
  destruct (fk_check _ _); [|apply HE]. simpl. set (r0 := mkServerRow _ _ _ _ _ _ _ _ _ _ _).
  assert (∀ r, r ∈ db_servers (w_db w) → sr_id r ≠ id) as Hnew.
  { intros r Hr. unfold server_exists in Hex. rewrite existsb_false in Hex. by apply String.eqb_neq, Hex. }
  assert (∀ id', rows_of id' (set_servers (db_servers (w_db w) ++ [r0]) (w_db w)) =
    rows_of id' (w_db w) ++ if decide (id' = id) then [pair_of r0] else []) as Hrows.
  { intros id'. unfold rows_of, select_where. simpl. rewrite filter_app, fmap_app. f_equal.
    rewrite filter_cons, filter_nil. simpl. case_decide as H1; case_decide as H2; try done.
    - by rewrite (proj1 (String.eqb_eq _ _) H1) in H2.
    - subst id'. by rewrite String.eqb_refl in H1. }
  assert (rows_of id (w_db w) = []) as Hnil.
  { unfold rows_of. destruct (select_where _ _) as [|r l] eqn:E; [done|].
    destruct (select_one id _ r l (wo_pk _ _ Hw) E) as (_ & Hr & Hr'). by destruct (Hnew r Hr). }
  rewrite Hrows, Hnil, decide_True by done. split; [split; [|split; [|split; [|split]]]|apply HQ; by subst v]; try done.
  - apply (wo_faults _ _ Hw).
  - apply (wo_table _ _ Hw).
  - rewrite fmap_app. apply NoDup_app. split; [apply (wo_pk _ _ Hw)|]. split; [|apply NoDup_singleton].
    intros x (r & -> & Hr)%list_elem_of_fmap Hx%list_elem_of_singleton. by apply (Hnew r Hr).
  - intros r c [Hr| ->%list_elem_of_singleton]%elem_of_app; [by apply (wo_row _ _ Hw)|done].
  - intros id' Hne. by rewrite Hrows, decide_False, app_nil_r by done.
Qed.

(** The row that is read is the one that is seen. *)
Lemma rg_getServer id (Q : res Server → view → Prop) v :
  (∀ e, Q (Err e) v) →
  (∀ s x, vw_rows v = [x] → sv_ContainerID s = null_string x.1 → x.1 ≠ Some "" → Q (Ok s) v) →
  holds id (act (getServer id)) Q v.
Proof.
  intros HE HQ. apply rg_act. intros own w Hw Hv. unfold getServer, GetServer, db. wp_simpl. unfold wp.
  rewrite query_no_fault by (simpl; rewrite ?(wo_faults _ _ Hw), ?(wo_table _ _ Hw); done).
  cbn [fst snd]. assert (put_db (w_db w) w = w) as -> by (by destruct w). exists own. rewrite Hv. split; [done|]. split; [done|].
  destruct (select_where _ (db_servers (w_db w))) as [|r l] eqn:E; simpl; [apply HE|].
  destruct (select_one id _ r l (wo_pk _ _ Hw) E) as (-> & Hr & _).
  apply HQ with (pair_of r); [|done|].
  - subst v. simpl. by rewrite E.
  - simpl. intros Hc. by destruct (wo_row _ _ Hw r "" Hr Hc).
Qed.

(** *** Calls of the engine *)

Lemma engine_step own own' (w : W) id f' :
  well_owned own w → own ⊆ own' → seq (w_rt w) ≤ seq f' →
  (∀ c, is_Some (own' !! c) → ∃ n, n ≤ seq f' ∧ c = "fake-" +:+ FormatInt n) →
  (∀ c, is_Some (containers f' !! c) → is_Some (own' !! c)) →
  (∀ c, own' !! c ≠ Some id → own' !! c = own !! c ∧ containers f' !! c = containers (w_rt w) !! c) →
  well_owned own' (put_rt f' w) ∧ (∀ k, k ≠ id → view_of own' (put_rt f' w) k = view_of own w k).
Proof.
  intros Hw Hsub Hseq Hn Hd Hoth. split.
  - destruct Hw. constructor; try done. simpl. intros r c Hr Hc. destruct (wo_row0 r c Hr Hc). split; [done|].
    by eapply lookup_weaken.
  - intros k Hk. unfold view_of. f_equal. apply map_eq. intros c. apply option_eq. intros st.
    rewrite !map_lookup_filter_Some. simpl. split; intros [H1 H2].
    + destruct (Hoth c) as [E1 E2]; [congruence|]. by rewrite <- E1, <- E2.
    + assert (own' !! c = Some k) as H3 by (by eapply lookup_weaken).
      destruct (Hoth c) as [E1 E2]; [congruence|]. by rewrite E2.
Qed.

(** A container of the server, in the engine or in its row only. *)
Definition mine (v : view) (c : string) : Prop := is_Some (vw_containers v !! c) ∨ Some c ∈ (vw_rows v).*1.

Lemma mine_owned own (w : W) id c : well_owned own w → mine (view_of own w id) c → own !! c = Some id.
Proof.
  intros Hw [[st [_ H]%map_lookup_filter_Some]|Hr]; [done|]. simpl in Hr. rewrite <- list_fmap_compose in Hr.
  apply list_elem_of_fmap in Hr as (r & Hc & [Hid%String.eqb_eq Hr]%elem_of_select_where).
  destruct (wo_row _ _ Hw r c Hr) as [_ H]; [done|]. by rewrite <- Hid.
Qed.

Lemma rg_set id c st (Q : res unit → view → Prop) v :
  mine v c → (∀ e, vw_containers v !! c = None → Q (Err e) v) →
  (is_Some (vw_containers v !! c) → Q (Ok tt) (mkView (vw_rows v) (<[c := st]> (vw_containers v)))) →
  holds id (act (rt (fake_set c st))) Q v.
Proof.
  intros Hm HE HQ. apply rg_act. intros own w Hw Hv. unfold rt. wp_simpl. unfold wp, fake_set. subst v.
  pose proof (mine_owned own w id c Hw Hm) as Hown.
  destruct (containers (w_rt w) !! c) as [st0|] eqn:Hc; cbn [fst snd].
  - destruct (engine_step own own w id (mkFake (<[c := st]> (containers (w_rt w))) (seq (w_rt w)))) as [Hw' Ho]; try done.
    + apply (wo_names _ _ Hw).
    + intros c'. simpl. destruct (decide (c' = c)) as [->|Hne]; [by rewrite Hown|].
      rewrite lookup_insert_ne by done. apply (wo_dom _ _ Hw).
    + intros c' Hne. split; [done|]. simpl. apply lookup_insert_ne. congruence.
    + exists own. split; [done|]. split; [done|]. unfold view_of. simpl. rewrite map_filter_insert_True by done.
      apply HQ. exists st0. by apply map_lookup_filter_Some.
  - assert (put_rt (w_rt w) w = w) as -> by (by destruct w). exists own. split; [done|]. split; [done|].
    apply HE. apply map_lookup_filter_None. by left.
Qed.

Lemma rg_engine_delete id c force (Q : res unit → view → Prop) v :
  mine v c → Q (Ok tt) (mkView (vw_rows v) (delete c (vw_containers v))) →
  holds id (act (rt (fake_Delete c force))) Q v.
Proof.
  intros Hm HQ. apply rg_act. intros own w Hw Hv. unfold rt. wp_simpl. unfold wp, fake_Delete. subst v.
  pose proof (mine_owned own w id c Hw Hm) as Hown. simpl.
  destruct (engine_step own own w id (mkFake (delete c (containers (w_rt w))) (seq (w_rt w)))) as [Hw' Ho]; try done.
  - apply (wo_names _ _ Hw).
  - intros c'. simpl. intros [st [_ H]%lookup_delete_Some]. apply (wo_dom _ _ Hw). by exists st.
  - intros c' Hne. split; [done|]. simpl. apply lookup_delete_ne. congruence.
  - exists own. split; [done|]. split; [done|]. unfold view_of. simpl. by rewrite map_filter_delete.
Qed.

Lemma rg_create id spec (Q : res string → view → Prop) v :
  (∀ c, c ≠ "" → vw_containers v !! c = None →
     Q (Ok c) (mkView (vw_rows v) (<[c := StatusStopped]> (vw_containers v)))) →
  holds id (act (rt (fake_Create spec))) Q v.
Proof.
  intros HQ. apply rg_act. intros own w Hw Hv. unfold rt. wp_simpl. unfold wp, fake_Create. subst v.
  cbn [fst snd]. set (c := "fake-" +:+ FormatInt (seq (w_rt w) + 1)). assert (own !! c = None) as Hnew.
  { apply eq_None_not_Some. intros Hc. destruct (wo_names _ _ Hw c Hc) as (n & Hn & E).
    apply string_app_inj_l, FormatInt_inj in E. lia. }
  destruct (engine_step own (<[c := id]> own) w id
    (mkFake (<[c := StatusStopped]> (containers (w_rt w))) (seq (w_rt w) + 1))) as [Hw' Ho]; try done.
  - by apply insert_subseteq.
  - simpl. lia.
  - intros c'. simpl. destruct (decide (c' = c)) as [->|Hne].
    + intros _. exists (seq (w_rt w) + 1). split; [lia|done].
    + rewrite lookup_insert_ne by done. intros Hc. destruct (wo_names _ _ Hw c' Hc) as (n & Hn & E). exists n. split; [lia|exact E].
  - intros c'. simpl. destruct (decide (c' = c)) as [->|Hne]; [rewrite !lookup_insert_eq; by eexists|].
    rewrite !lookup_insert_ne by done. apply (wo_dom _ _ Hw).
  - intros c' Hne. simpl. destruct (decide (c' = c)) as [->|Hne']; [by rewrite lookup_insert_eq in Hne|].
    by rewrite !lookup_insert_ne by done.
  - exists (<[c := id]> own). split; [done|]. split; [done|].
    assert (view_of (<[c := id]> own) (put_rt (mkFake (<[c := StatusStopped]> (containers (w_rt w))) (seq (w_rt w) + 1)) w) id =
      mkView (vw_rows (view_of own w id)) (<[c := StatusStopped]> (vw_containers (view_of own w id)))) as ->.
    + unfold view_of. simpl. f_equal. rewrite map_filter_insert_True by (simpl; by rewrite lookup_insert_eq).
      apply map_eq. intros c'. destruct (decide (c' = c)) as [->|Hne]; [by rewrite !lookup_insert_eq|].
      rewrite !lookup_insert_ne by done. apply option_eq. intros st. rewrite !map_lookup_filter_Some. simpl.
      by rewrite lookup_insert_ne by done.
    + apply HQ; [done|]. apply map_lookup_filter_None. right. simpl. congruence.
Qed.

(** *** Quiet calls *)

Lemma quiet_lift {A} (r : res A) : quiet (lift_res r : M W A).
Proof. by intros w Hf. Qed.
Lemma quiet_clear id : quiet (clear_manual id : M W unit).
Proof. by intros w Hf. Qed.
Lemma quiet_set id : quiet (set_manual id : M W unit).
Proof. by intros w Hf. Qed.
Lemma quiet_publish typ id : quiet (publish typ id : M W unit).
Proof. by intros w Hf. Qed.
Lemma quiet_os {A} (m : M OS A) : quiet (os m : M W A).
Proof. intros w Hf. unfold os, zoom. by destruct (m (w_os w)). Qed.

Lemma quiet_db {A} (m : M DB A) :
  (∀ d, db_faults d = [] → db_faults (snd (m d)) = [] ∧ db_schema (snd (m d)) = db_schema d ∧
        db_servers (snd (m d)) = db_servers d) → quiet (db m : M W A).
Proof.
  intros Hm w Hf. unfold db, zoom. specialize (Hm (w_db w) Hf). destruct (m (w_db w)) as [r d].
  simpl in *. destruct Hm as (H1 & H2 & H3). unfold has_table. by rewrite H2.
Qed.

Lemma quiet_query {A} tbls (f : DB → res A) : quiet (db (query tbls f) : M W A).
Proof.
  apply quiet_db. intros d Hf. destruct (query tbls f d) as [r d'] eqn:E. apply query_state in E as ->.
  rewrite Hf. done.
Qed.

Lemma quiet_EnsureEgg e : quiet (db (EnsureEgg e) : M W unit).
Proof.
  apply quiet_db. intros d Hf. unfold EnsureEgg, exec. rewrite Hf. simpl. rewrite set_faults_nil by done.
  destruct (has_table d "eggs"); simpl; [|done]. by destruct (egg_exists d (eg_ID e)).
Qed.

Lemma quiet_wrap {A} fmt args (m : M W A) : quiet m → quiet (wrap fmt args m).
Proof. intros Hm w Hf. specialize (Hm w Hf). unfold wrap. by destruct (m w) as [[a|e] w']. Qed.
Lemma quiet_try {A} (m : M W A) : quiet m → quiet (try m).
Proof. intros Hm w Hf. specialize (Hm w Hf). unfold try. by destruct (m w) as [r w']. Qed.

End Calls.

Create HintDb quiet.
#[export] Hint Resolve quiet_lift quiet_clear quiet_set quiet_publish quiet_os quiet_query quiet_EnsureEgg
  quiet_wrap quiet_try : quiet.

(** A call that no view shows, and what follows it. *)
Ltac rg_skip := apply rg_bind, rg_quiet;
  [eauto with quiet|let w := fresh "w" in intros w; match goal with |- context [fst (?m w)] => destruct (fst (m w)) end].

Section Requests.
Context {P C : Type}.
Local Abbreviation W := (World fake P C).
Local Abbreviation holds := (rg (S:=W) view_of well_owned).
Context (json_Marshal : Env → res string) (json_Unmarshal : string → res Env).
Context (gone : Prop).
Context (tunnels : option (TunnelManager W)) (ports : option (PortProvider (RT:=fake) (P:=P) (C:=C))).
Context `{!QuietTunnels gone tunnels ports}.

Local Abbreviation ok := (server_ok gone).

Lemma ok_row cs x : ok (mkView [x] cs) ↔ row_agrees gone cs x ∧ covered cs [x.1].
Proof. unfold server_ok. simpl. by rewrite Forall_singleton. Qed.

Lemma covered_insert c st cs : covered cs [Some c] → covered (<[c := st]> cs) [Some c].
Proof. intros H c' [->|[_ Hc]]%lookup_insert_is_Some; [by left|by apply H]. Qed.

Lemma covered_none cs : covered cs [None] → cs = ∅.
Proof.
  intros H. apply map_empty. intros c. apply eq_None_not_Some. intros Hc.
  by apply H in Hc as [Hx|Hx%elem_of_nil]%elem_of_cons.
Qed.

Lemma covered_delete c cs : covered cs [Some c] → delete c cs = ∅.
Proof.
  intros H. apply map_empty. intros c'. apply eq_None_not_Some. intros [Hne Hc]%lookup_delete_is_Some.
  by apply H in Hc as [[= ->]|Hx%elem_of_nil]%elem_of_cons.
Qed.

Lemma covered_empty l : covered ∅ l.
Proof. intros c. rewrite lookup_empty. by intros []. Qed.
#[local] Hint Resolve covered_insert covered_empty : core.

(** The end of a request: the event. *)
Lemma rg_publish typ id v : ok v → holds id (act (publish typ id)) (λ _, ok) v.
Proof. intros Hv. by apply rg_quiet; [apply quiet_publish|]. Qed.

(** A status that agrees with the container is recorded, and what follows. *)
Lemma rg_finish id st cs x y (rest : Proc W unit) :
  row_agrees gone cs (x, st) → covered cs [x] → (∀ v, ok v → holds id rest (λ _, ok) v) →
  holds id (act (wrap "update status" [] (setStatus id st)) ;; rest) (λ _, ok) (mkView [(x, y)] cs).
Proof. intros H Hc Hrest. apply rg_bind, rg_wrap, rg_setStatus, Hrest. by apply ok_row. Qed.

(** A call that puts the container in a state, with what follows. *)
Lemma rg_container id c st cs y fmt args (rest : unit → Proc W unit) :
  ok (mkView [(Some c, y)] cs) →
  holds id (rest tt) (λ _, ok) (mkView [(Some c, y)] (<[c := st]> cs)) →
  holds id (act (wrap fmt args (rt (fake_set c st))) ≫= rest) (λ _, ok) (mkView [(Some c, y)] cs).
Proof. intros Hok Hrest. apply rg_bind, rg_wrap, rg_set; [right; by left|done|]. intros _. exact Hrest. Qed.

(** The row that is read, in a server that is [ok]. *)
Lemma rg_read id v (rest : Server → Proc W unit) :
  ok v →
  (∀ s c y cs, c ≠ "" → sv_ContainerID s = c → ok (mkView [(Some c, y)] cs) →
     holds id (rest s) (λ _, ok) (mkView [(Some c, y)] cs)) →
  (∀ s y cs, sv_ContainerID s = "" → ok (mkView [(None, y)] cs) → holds id (rest s) (λ _, ok) (mkView [(None, y)] cs)) →
  holds id (act (wrap "ambil server" [] (getServer id)) ≫= rest) (λ _, ok) v.
Proof.
  intros Hok HS HN. apply rg_bind, rg_wrap, rg_getServer; [done|].
  intros s [[c|] y] Hrows Hs Hne; destruct v as [rows cs]; simpl in Hrows; subst rows; [|by apply HN].
  apply HS; [|done..]. simpl in Hne. congruence.
Qed.

Lemma running_agrees c cs : row_agrees gone (<[c := StatusRunning]> cs) (Some c, "running").
Proof. unfold row_agrees. simpl. by rewrite lookup_insert_eq. Qed.

Lemma stop_ok id v : ok v → holds id (stop_steps id) (λ _, ok) v.
Proof.
  intros Hok. unfold stop_steps. apply rg_read; [done|intros s c y cs Hc -> Hv|intros s y cs -> Hv].
  - rewrite (proj2 (String.eqb_neq c "") Hc). simpl negb. apply rg_bind. rg_skip; [|done].
    apply rg_bind, rg_try, rg_set; [right; by left| |].
    + intros e _. by rg_skip.
    + intros _. apply ok_row in Hv as [_ Hv]. apply rg_finish; [|by apply covered_insert|by apply rg_publish].
      unfold row_agrees. simpl. by rewrite lookup_insert_eq.
  - apply ok_row in Hv as [_ Hv]. simpl. apply rg_finish; [done|done|by apply rg_publish].
Qed.

Lemma restart_ok id v : ok v → holds id (restart_steps id) (λ _, ok) v.
Proof.
  intros Hok. unfold restart_steps. apply rg_read; [done|intros s c y cs Hc -> Hv|intros s y cs -> Hv; done].
  rewrite (proj2 (String.eqb_neq c "") Hc). apply rg_container; [done|]. apply ok_row in Hv as [_ Hv].
  apply rg_finish; [apply running_agrees|by apply covered_insert|by apply rg_publish].
Qed.

(** The end of a deletion. *)
Lemma delete_rest id rows :
  (gone → ok (mkView rows ∅)) →
  holds id (match tunnels with
    | Some tm => act (wrap "release tunnel" [] (tm_ReleaseServer tm id)) | None => mret tt end ;;
    act (wrap "hapus server" [] (db (Store.DeleteServer id))) ;; act (publish "server.deleted" id)) (λ _, ok) (mkView rows ∅).
Proof.
  intros Hv. assert (holds id (act (wrap "hapus server" [] (db (Store.DeleteServer id))) ;;
    act (publish "server.deleted" id)) (λ _, ok) (mkView rows ∅)) as Hrest.
  { apply rg_bind, rg_wrap, rg_delete_row, rg_publish. by split; [apply Forall_nil|apply covered_empty]. }
  pose proof (λ tm w, gone_release (QuietTunnels:=QuietTunnels0) tm id w) as Hgone.
  pose proof (λ tm, quiet_release (QuietTunnels:=QuietTunnels0) tm id) as Hquiet.
  destruct tunnels as [tm|]; [|exact Hrest]. apply rg_bind, rg_wrap, rg_quiet; [by apply Hquiet|]. intros w.
  destruct (Hgone tm w eq_refl) as [Hg|Hr].
  - destruct (fst _); [exact Hrest|by apply Hv].
  - by destruct (fst (tm_ReleaseServer tm id w)).
Qed.

Lemma delete_ok id v : ok v → holds id (delete_steps tunnels id) (λ _, ok) v.
Proof.
  intros Hok. unfold delete_steps. apply rg_read; [done|intros s c y cs Hc -> Hv|intros s y cs -> Hv].
  - rewrite (proj2 (String.eqb_neq c "") Hc). apply rg_bind, rg_wrap, rg_engine_delete; [right; by left|].
    apply ok_row in Hv as [_ Hv]. cbn [vw_rows vw_containers]. rewrite (covered_delete c cs Hv).
    apply delete_rest. intros Hg. apply ok_row. split; [|done]. unfold row_agrees. simpl. by rewrite lookup_empty.
  - pose proof (proj2 (proj1 (ok_row _ _) Hv)) as Hn. apply covered_none in Hn as ->. by apply delete_rest.
Qed.

(** The end of a start. *)
Lemma start_rest id c lim y cs :
  ok (mkView [(Some c, y)] cs) →
  holds id (act (wrap "runtime start" [] (rt (rt_Start c))) ;;
    act (wrap "update status" [] (setStatus id "running")) ;;
    match lim with Some l => act (os (apply_limits c l)) | None => mret tt end ;;
    act (publish "server.started" id)) (λ _, ok) (mkView [(Some c, y)] cs).
Proof.
  intros Hok. apply rg_container; [done|]. apply ok_row in Hok as [_ Hok].
  apply rg_finish; [apply running_agrees|by apply covered_insert|]. intros v Hv.
  destruct lim; [|by apply rg_publish]. rg_skip; [by apply rg_publish|done].
Qed.

Lemma start_ok id v : ok v → holds id (start_steps json_Unmarshal id) (λ _, ok) v.
Proof.
  intros Hok. unfold start_steps. rg_skip; [|done].
  apply rg_read; [done|intros s c y cs Hc Hs Hv|intros s y cs Hs Hv].
  - rg_skip; [|done]. cbv zeta. unfold container_steps. rewrite Hs, (proj2 (String.eqb_neq c "") Hc).
    by apply start_rest.
  - rg_skip; [|done]. cbv zeta. unfold container_steps. rewrite Hs. simpl negb. cbv iota. apply rg_bind.
    rg_skip; [|done]. apply rg_bind, rg_wrap, rg_create. intros c Hc Hnew.
    apply rg_bind, rg_wrap, rg_setContainer; [done|simpl; rewrite lookup_insert_eq; by eexists|]. simpl.
    apply ok_row in Hv as [Hv Hn]. apply covered_none in Hn as ->.
    apply start_rest, ok_row. split; [|by apply covered_insert]. unfold row_agrees. simpl. rewrite lookup_insert_eq.
    unfold row_agrees in Hv. simpl in Hv. split; [done|]. intros Hy. by destruct Hv.
Qed.

(** A server whose creation failed has no row left, and no container. *)
Lemma rg_undo {A} id (e : error) rows (Q : res A → view → Prop) :
  Q (Err e) (mkView [] ∅) →
  holds id (act (ignore (db (Store.DeleteServer id))) ;; abort e) Q (mkView rows ∅).
Proof. intros HQ. apply rg_bind, rg_ignore, rg_delete_row, HQ. Qed.

Lemma create_ok uuid name eggID startup env v :
  ok v → holds uuid (create_steps json_Marshal tunnels ports uuid name eggID startup env) (λ _, ok) v.
Proof.
  intros Hok. unfold create_steps. rg_skip; [|done]. rg_skip; [|done].
  apply rg_bind, rg_wrap, rg_insert_row; [done..|]. intros Hrows. cbv beta iota.
  destruct v as [rows cs]. simpl in Hrows. subst rows.
  assert (cs = ∅) as ->.
  { apply covered_none. intros c Hc. destruct Hok as [_ Hok]. by apply Hok, elem_of_nil in Hc. }
  apply rg_bind, rg_wrap, rg_setStatus. cbn [vw_rows vw_containers sv_Status fmap list_fmap fst].
  assert (ok (mkView [] ∅)) as Hnil by (split; [apply Forall_nil_2|apply covered_empty]).
  apply rg_bind. apply rg_mono with (Q := λ _, ok).
  2:{ intros [u|e] v' Hv'; [|done]. apply rg_bind. eapply rg_mono; [by apply rg_publish|]. by intros [u'|e]. }
  set (I := λ v, v = mkView [(None, "stopped")] ∅).
  assert (∀ v, I v → ok v) as Hnew by (intros ? ->; by apply ok_row).
  pose proof (λ tm m, quiet_register (QuietTunnels:=QuietTunnels0) tm m) as Hreg.
  pose proof (λ pp, quiet_ports (QuietTunnels:=QuietTunnels0) pp eggID) as Hports.
  destruct tunnels as [tm|], ports as [pp|]; try by apply Hnew.
  apply rg_bind, rg_try, rg_quiet; [by apply Hports|]. intros w2.
  destruct (fst (pp eggID w2)) as [mappings|e]; [|by apply rg_undo].
  unfold register_steps. apply rg_for_steps with (I := I); [|done|done].
  intros m v' _ ->. apply rg_bind, rg_try, rg_quiet; [by apply Hreg|]. intros w3.
  destruct (fst _); [done|by apply rg_undo].
Qed.

Lemma request_ok op v :
  ok v → holds (about op) (request json_Marshal json_Unmarshal tunnels ports op) (λ _, ok) v.
Proof.
  destruct op; unfold request, about; auto using start_ok, stop_ok, restart_ok, delete_ok.
  intros Hv. apply rg_bind. eapply rg_mono; [by apply create_ok|]. by intros [].
Qed.
End Requests.

(** *** The tunnel manager and the ports of the daemon are quiet *)

Section FrpQuiet.
Context {P C : Type} `{!PanelAllocator P} `{!ProcessController C}.
Local Abbreviation W := (World fake P C).
Context (toml_Marshal : frpFile → res string) (cfg : FRPConfig) (yaml_Unmarshal : string → res Config.Egg).

(** The state as [quiet] sees it. *)
Definition calm (b : bool) (rows : list server_row) (f : fake) (w : W) : Prop :=
  db_faults (w_db w) = [] ∧ has_table (w_db w) "servers" = b ∧ db_servers (w_db w) = rows ∧ w_rt w = f.

Lemma quiet_keeps {A} (m : M W A) : (∀ b rows f, keeps (calm b rows f) m) → quiet m.
Proof. intros H w Hf. by apply (H (has_table (w_db w) "servers") (db_servers (w_db w)) (w_rt w) w). Qed.

Section Calm.
Context (b : bool) (rows : list server_row) (f : fake).
Local Abbreviation still := (calm b rows f).

Lemma calm_exec tbls g :
  (∀ d d', g d = Ok d' → db_faults d' = db_faults d ∧ db_schema d' = db_schema d ∧ db_servers d' = db_servers d) →
  keeps still (db (exec tbls g)).
Proof.
  intros Hg w (Hf & Ht & Hr & Hrt). unfold db, zoom, exec. rewrite Hf. simpl. rewrite set_faults_nil by done.
  destruct (forallb _ tbls); simpl; [|by repeat split].
  destruct (g (w_db w)) as [d'|e] eqn:E; simpl; [|by repeat split].
  destruct (Hg _ _ E) as (H1 & H2 & H3). unfold calm, has_table in *. simpl. rewrite H1, H2, H3. done.
Qed.

Lemma calm_query {A} tbls (g : DB → res A) : keeps still (db (query tbls g)).
Proof.
  intros w (Hf & Ht & Hr & Hrt). unfold db, zoom. destruct (query tbls g (w_db w)) as [r d] eqn:E.
  apply query_state in E as ->. rewrite Hf. done.
Qed.

Lemma calm_SaveTunnel t : keeps still (db (SaveTunnel t)).
Proof. apply calm_exec. intros d d' HO. cbv zeta in HO. repeat case_match; try done; by injection HO as <-. Qed.
Lemma calm_DeleteTunnel id port proto : keeps still (db (DeleteTunnelByMapping id port proto)).
Proof. apply calm_exec. by intros d d' [= <-]. Qed.
Lemma calm_TunnelStatus id st : keeps still (db (UpdateTunnelStatus id st)).
Proof. apply calm_exec. by intros d d' [= <-]. Qed.
Lemma calm_GetTunnel id port proto : keeps still (db (GetTunnelByMapping id port proto)).
Proof. apply calm_query. Qed.
Lemma calm_ListTunnels id : keeps still (db (ListTunnels id)).
Proof. apply calm_query. Qed.

Lemma calm_os {A} (m : M OS A) : keeps still (os m).
Proof. apply keeps_zoom. intros w Hw. exact Hw. Qed.
Lemma calm_panel {A} (m : M P A) : keeps still (panel m).
Proof. apply keeps_zoom. intros w Hw. exact Hw. Qed.
Lemma calm_proc {A} (m : M C A) : keeps still (proc m).
Proof. apply keeps_zoom. intros w Hw. exact Hw. Qed.
Lemma calm_maps g : keeps still (modify (λ w, put_maps (g w) w)).
Proof. by apply keeps_modify. Qed.
Lemma calm_emit typ id : keeps still (emit typ id).
Proof. unfold emit, publish. by apply keeps_modify. Qed.
End Calm.

#[local] Hint Resolve calm_SaveTunnel calm_DeleteTunnel calm_TunnelStatus calm_GetTunnel calm_ListTunnels
  calm_os calm_panel calm_proc calm_maps calm_emit : keeps.

(** The daemon's tunnel manager and its ports; a release can fail. *)
#[global] Instance frp_quiet root :
  QuietTunnels True (Some (FrpTunnels toml_Marshal cfg)) (Some (λ eggID, os (Ports yaml_Unmarshal root eggID))).
Proof.
  assert (∀ b rows f, keeps (calm b rows f) (rebuildLocked toml_Marshal cfg)) as Hrebuild.
  { intros b rows f. unfold rebuildLocked. solve_keeps. }
  split.
  - intros tm m [= <-]. apply quiet_keeps. intros b rows f. simpl. unfold RegisterPort, register_new. solve_keeps.
  - intros tm id [= <-]. apply quiet_keeps. intros b rows f. simpl. unfold ReleaseServer, release_one. solve_keeps.
  - intros. by left.
  - intros pp egg [= <-]. apply quiet_os.
Qed.
End FrpQuiet.

(** Without tunnels no deletion is cut short. *)
#[global] Instance no_tunnels_quiet {P C} : QuietTunnels (P:=P) (C:=C) False None None.
Proof. by split. Qed.

(** *** All of them together *)

Section Together.
Context {P C : Type}.
Local Abbreviation W := (World fake P C).
Context (json_Marshal : Env → res string) (json_Unmarshal : string → res Env).
Context (gone : Prop).
Context (tunnels : option (TunnelManager W)) (ports : option (PortProvider (RT:=fake) (P:=P) (C:=C))).

(** A request comes for a server that none is working on. *)
Definition one_each (l : Pool W string unit) (id : string) (p : Proc W unit) : Prop :=
  (id ∉ l.*1) ∧ ∃ op, about op = id ∧ p = request json_Marshal json_Unmarshal tunnels ports op.

(** Requests come as they like. *)
Definition any_request (l : Pool W string unit) (id : string) (p : Proc W unit) : Prop :=
  ∃ op, about op = id ∧ p = request json_Marshal json_Unmarshal tunnels ports op.

(** The rest of the daemon: it leaves the engine, and of the servers the id, the container and the
    status. *)
Definition other_work (w w' : W) : Prop :=
  (db_faults (w_db w) = [] → db_faults (w_db w') = []) ∧
  has_table (w_db w') "servers" = has_table (w_db w) "servers" ∧
  ((λ r, (sr_id r, sr_container_id r, sr_status r)) <$> db_servers (w_db w')) =
  ((λ r, (sr_id r, sr_container_id r, sr_status r)) <$> db_servers (w_db w)) ∧
  w_rt w' = w_rt w.

Lemma rows_of_key id rows rows' :
  (λ r, (sr_id r, sr_container_id r, sr_status r)) <$> rows = (λ r, (sr_id r, sr_container_id r, sr_status r)) <$> rows' →
  pair_of <$> select_where (λ r, sr_id r =s id) rows = pair_of <$> select_where (λ r, sr_id r =s id) rows'.
Proof.
  unfold select_where. revert rows'. induction rows as [|r rows IH]; intros [|r' rows']; try done.
  rewrite !fmap_cons, !filter_cons. intros [= E1 E2 E3 E4]. rewrite E1.
  specialize (IH rows' E4). case_match; [|done]. rewrite !fmap_cons, IH. unfold pair_of. by rewrite E2, E3.
Qed.

Lemma other_work_views own w w' :
  well_owned own w → other_work w w' → well_owned own w' ∧ ∀ k, view_of own w' k = view_of own w k.
Proof.
  intros [] (Hf & Ht & Hrows & Hrt). split.
  - constructor; rewrite ?Hrt, ?Ht; auto.
    + apply (f_equal (fmap (fst ∘ fst))) in Hrows. rewrite <- !list_fmap_compose in Hrows.
      change (sr_id <$> db_servers (w_db w') = sr_id <$> db_servers (w_db w)) in Hrows. by rewrite Hrows.
    + intros r c Hr Hc.
      assert ((sr_id r, sr_container_id r, sr_status r) ∈
        (λ r, (sr_id r, sr_container_id r, sr_status r)) <$> db_servers (w_db w)) as (r0 & E & Hr0)%list_elem_of_fmap.
      { rewrite <- Hrows. by apply (list_elem_of_fmap_2 (λ r, (sr_id r, sr_container_id r, sr_status r))). }
      injection E as E1 E2 E3. rewrite E1. apply wo_row0; [done|by rewrite <- E2].
  - intros k. unfold view_of. rewrite Hrt. f_equal. by apply rows_of_key.
Qed.

(** Requests served one after the other. *)
Lemma serve_ops ops w :
  rtc (serve one_each other_work) ([], w)
    ([], snd (for_each (λ op, ignore (run_lifecycle json_Marshal json_Unmarshal tunnels ports op)) ops w)).
Proof.
  revert w. induction ops as [|op ops IH]; intros w; [apply rtc_refl|]. simpl. unfold mbind, M_bind, ignore.
  rewrite <- alone_request. etrans; [apply (serve_alone one_each other_work (request json_Marshal json_Unmarshal tunnels ports op) (about op))|].
  { split; [apply not_elem_of_nil|]. by exists op. }
  destruct (alone _ w) as [r w1]. apply IH.
Qed.

Context `{!QuietTunnels gone tunnels ports}.

Lemma reachable_served w0 st :
  w_db w0 = fresh_db → w_rt w0 = NewFake →
  rtc (serve one_each other_work) ([], w0) st →
  served view_of well_owned (λ _, server_ok gone) st.
Proof.
  intros Hd Hrt. revert st. apply rtc_ind_r.
  - exists ∅. simpl. split; [|split; [apply NoDup_nil_2|split]].
    + constructor; rewrite ?Hd, ?Hrt; try done; simpl.
      * apply NoDup_nil_2.
      * by intros r c Hr%elem_of_nil.
      * intros c. rewrite lookup_empty. by intros [].
      * intros c. rewrite lookup_empty. by intros [].
    + by intros k p Hp%elem_of_nil.
    + intros k _. unfold server_ok, view_of. rewrite Hd, Hrt. split; [apply Forall_nil_2|]. simpl.
      rewrite map_filter_empty. apply covered_empty.
  - intros st st' _ Hst Hs. eapply (served_serve view_of well_owned); [| |exact Hst|exact Hs].
    + intros l k p [Hk (op & <- & ->)]. split; [done|]. intros v Hv. by apply (request_ok _ _ gone).
    + intros own w w' Hw Ho. exists own. by apply other_work_views.
Qed.
End Together.

(** What [served] says of a row. *)
Lemma served_agrees {P C : Type} gone (l : Pool (World fake P C) string unit) (w : World fake P C) r :
  served view_of well_owned (λ _, server_ok gone) (l, w) → r ∈ db_servers (w_db w) →
  (∀ r' c, r' ∈ db_servers (w_db w) → sr_container_id r = Some c → sr_container_id r' = Some c → r' = r) ∧
  (sr_id r ∉ l.*1 → row_agrees gone (containers (w_rt w)) (pair_of r)).
Proof.
  intros (own & Hw & _ & _ & Hok) Hr. simpl in *. split.
  - intros r' c Hr' Hc Hc'. destruct (wo_row _ _ Hw r c Hr Hc) as [_ H1].
    destruct (wo_row _ _ Hw r' c Hr' Hc') as [_ H2].
    apply (key_unique sr_id (db_servers (w_db w))); [apply (wo_pk _ _ Hw)|done..|congruence].
  - intros Hid. destruct (Hok (sr_id r) Hid) as [Hok' _]. clear Hok. rename Hok' into Hok. rewrite Forall_forall in Hok.
    assert (pair_of r ∈ vw_rows (view_of own w (sr_id r))) as Hin.
    { simpl. apply list_elem_of_fmap. exists r. split; [done|]. apply elem_of_select_where. by rewrite String.eqb_refl. }
    specialize (Hok _ Hin). unfold row_agrees in *. simpl in *.
    destruct (sr_container_id r) as [c|] eqn:Hc; [|done]. simpl in *.
    destruct (wo_row _ _ Hw r c Hr Hc) as [_ Hown].
    destruct (containers (w_rt w) !! c) as [st|] eqn:Hst.
    + assert (filter (λ kv, own !! kv.1 = Some (sr_id r)) (containers (w_rt w)) !! c = Some st) as E
        by (by apply map_lookup_filter_Some).
      by rewrite E in Hok.
    + assert (filter (λ kv, own !! kv.1 = Some (sr_id r)) (containers (w_rt w)) !! c = None) as E
        by (apply map_lookup_filter_None; by left).
      by rewrite E in Hok.
Qed.


(** *** A start and a stop at once *)

Section Race.
Context {P C : Type} (id c : string).
Local Abbreviation W := (World fake P C).

(** The server [id] has the container [c], which exists, and no limits. *)
Record at_hand (w : W) (recorded : string) (st : ContainerStatus) : Prop := mk_at_hand {
  ah_faults : db_faults (w_db w) = [];
  ah_table : has_table (w_db w) "servers" = true;
  ah_row : rows_of id (w_db w) = [(Some c, recorded)];
  ah_container : containers (w_rt w) !! c = Some st;
  ah_limits : has_limits (fst (GetResourceLimits id (w_db w))) = None }.

Lemma next_getServer w y st : at_hand w y st →
  ∃ s, sv_ContainerID s = c ∧ wrap "ambil server" [] (getServer id) w = (Ok s, w).
Proof.
  intros [Hf Ht Hr _ _]. unfold wrap, getServer, db, zoom, GetServer.
  rewrite query_no_fault by (simpl; rewrite ?Hf, ?Ht; done). unfold rows_of in Hr.
  destruct (select_where _ _) as [|r [|]]; [done| |done]. injection Hr as Hr _.
  exists (scan_server r). split; [simpl; by rewrite Hr|by destruct w].
Qed.

Lemma next_limits w y st : at_hand w y st →
  ∃ r, has_limits r = None ∧ try (db (GetResourceLimits id)) w = (Ok r, w).
Proof.
  intros [Hf _ _ _ Hl]. unfold try, db, zoom. exists (fst (GetResourceLimits id (w_db w))). split; [done|].
  destruct (GetResourceLimits id (w_db w)) as [r d] eqn:E. unfold GetResourceLimits in E. apply query_state in E as ->.
  rewrite Hf. simpl. rewrite set_faults_nil by done. by destruct w.
Qed.

Lemma next_engine fmt w y st st' : at_hand w y st →
  ∃ w', wrap fmt [] (rt (fake_set c st')) w = (Ok tt, w') ∧ at_hand w' y st'.
Proof.
  intros [Hf Ht Hr Hc Hl]. unfold wrap, rt, zoom, fake_set. rewrite Hc. eexists. split; [done|].
  constructor; simpl; try done. apply lookup_insert_eq.
Qed.

Lemma next_stop w y st : at_hand w y st →
  ∃ w', try (rt (rt_Stop c 10)) w = (Ok (Ok tt), w') ∧ at_hand w' y StatusStopped.
Proof.
  intros (w' & E & Hw)%(next_engine "" w y st StatusStopped). exists w'. split; [|done].
  unfold wrap in E. unfold try. simpl. by destruct (rt _ w) as [[[]|e] w1]; simplify_eq.
Qed.

Lemma next_status w y st y' : at_hand w y st →
  ∃ w', wrap "update status" [] (setStatus id y') w = (Ok tt, w') ∧ at_hand w' y' st.
Proof.
  intros [Hf Ht Hr Hc Hl]. unfold wrap, setStatus, db, zoom, UpdateServerStatus.
  rewrite exec_no_fault by (simpl; rewrite ?Hf, ?Ht; done). eexists. split; [done|]. constructor; simpl; try done.
  - unfold rows_of. simpl. rewrite select_update by done. rewrite (fmap_pairs _ (λ x, (x.1, y'))) by done.
  fold (rows_of id (w_db w)). by rewrite Hr.
  - revert Hl. unfold GetResourceLimits, query. simpl. rewrite Hf. unfold has_table. simpl. by case_match.
Qed.

Lemma next_publish typ w y st : at_hand w y st → ∃ w', publish typ id w = (Ok tt, w') ∧ at_hand w' y st.
Proof. intros []. eexists. split; [done|]. by constructor. Qed.
Lemma next_clear w y st : at_hand w y st → ∃ w', clear_manual id w = (Ok tt, w') ∧ at_hand w' y st.
Proof. intros []. eexists. split; [done|]. by constructor. Qed.
Lemma next_set w y st : at_hand w y st → ∃ w', set_manual id w = (Ok tt, w') ∧ at_hand w' y st.
Proof. intros []. eexists. split; [done|]. by constructor. Qed.

Context (json_Marshal : Env → res string) (json_Unmarshal : string → res Env).
Context (tunnels : option (TunnelManager W)) (ports : option (PortProvider (RT:=fake) (P:=P) (C:=C))).
Local Abbreviation served_from := (rtc (serve (any_request json_Marshal json_Unmarshal tunnels ports) other_work)).

(** Both requests end well, with the record and the container in disagreement. *)
Definition ends_apart (st : Pool W string unit * W) : Prop :=
  ∃ w', served_from st ([(id, Done (Ok tt)); (id, Done (Ok tt))], w') ∧ at_hand w' "running" StatusStopped.

(** The next call of the start, at the head, and of the stop. *)
Lemma start_next {X} (m : M W X) k l w r w' :
  m w = (r, w') → ends_apart ((id, k r) :: l, w') → ends_apart ((id, Step m k) :: l, w).
Proof.
  intros Hm (z & Hs & Hz). exists z. split; [|done]. eapply rtc_l; [apply (serve_step _ _ [])|]. simpl. by rewrite Hm.
Qed.
Lemma stop_next {X} (m : M W X) k p l w r w' :
  m w = (r, w') → ends_apart (p :: (id, k r) :: l, w') → ends_apart (p :: (id, Step m k) :: l, w).
Proof.
  intros Hm (z & Hs & Hz). exists z. split; [|done]. eapply rtc_l; [apply (serve_step _ _ [p])|]. simpl. by rewrite Hm.
Qed.

Ltac next how E :=
  let x := fresh "x" in let H1 := fresh "E" in let H2 := fresh "E" in
  destruct E as (x & H1 & H2); eapply how; [first [exact H1|exact H2]|]; cbn [fst snd].

Lemma start_stop_race (w : W) y st : c ≠ "" → at_hand w y st →
  ends_apart ([(id, start_steps json_Unmarshal id); (id, stop_steps id)], w).
Proof.
  intros Hne Hw. unfold start_steps, stop_steps, container_steps.
  next @start_next (next_clear w y st Hw). next @start_next (next_getServer x y st E0).
  next @start_next (next_limits x y st E0). cbv zeta. rewrite E1, E3, (proj2 (String.eqb_neq c "") Hne).
  next @start_next (next_engine "runtime start" x y st StatusRunning E0).
  next @stop_next (next_getServer x2 y StatusRunning E6). rewrite E7, (proj2 (String.eqb_neq c "") Hne).
  next @stop_next (next_set x2 y StatusRunning E6). next @stop_next (next_stop x4 y StatusRunning E10).
  next @stop_next (next_status x5 y StatusStopped "stopped" E12).
  next @stop_next (next_publish "server.stopped" x6 "stopped" StatusStopped E14).
  next @start_next (next_status x7 "stopped" StatusStopped "running" E16).
  next @start_next (next_publish "server.started" x8 "running" StatusStopped E18).
  exists x9. split; [apply rtc_refl|exact E20].
Qed.
End Race.

(** *** Concrete requests *)

Definition no_env (_ : Env) : res string := Ok "{}".
Definition decode_env (_ : string) : res Env := Ok [].

Definition empty_world : World fake Z osProcessController :=
  mkWorld fresh_db NewEventBus run_os NewFake 20000 (mkProc None ∅ 0 []) ∅ false ∅.

Definition busy : list LifecycleOp := [
  OpCreate "a" "A" "mc" "java" []; OpCreate "b" "B" "mc" "java" []; OpStart "a"; OpStart "b";
  OpStop "a"; OpRestart "c"; OpStart "a"; OpDelete "b"].

Abbreviation busy_world :=
  (snd (for_each (λ op, ignore (run_lifecycle no_env decode_env None None op)) busy empty_world)).

Definition busy_row : server_row := mkServerRow "a" "A" "mc" (Some "fake-1") "running" "java" "{}" 0 0 0 None.

Lemma busy_rows : db_servers (w_db busy_world) = [busy_row].
Proof. vm_compute. reflexivity. Qed.

(** A stopped server; a start and a stop of it at once. *)
Definition stopped_world : World fake Z osProcessController :=
  snd (for_each (λ op, ignore (run_lifecycle no_env decode_env None None op))
    [OpCreate "a" "A" "mc" "java" []; OpStart "a"; OpStop "a"] empty_world).
Definition raced (op1 op2 : LifecycleOp) (is_ : list nat) (w : World fake Z osProcessController) :
    Pool (World fake Z osProcessController) string unit * World fake Z osProcessController :=
  turns is_ ([(about op1, request no_env decode_env None None op1); (about op2, request no_env decode_env None None op2)], w).

(** Two starts of a new server make two containers, and the first runs for ever. *)
Example two_starts_leak :
  let w := snd (raced (OpStart "a") (OpStart "a") [0; 1; 0; 1; 0; 1; 0; 1; 0; 1; 0; 1; 0; 1; 0; 1; 0; 1]%nat
    (snd (run_lifecycle no_env decode_env None None (OpCreate "a" "A" "mc" "java" []) empty_world))) in
  sr_container_id <$> db_servers (w_db w) = [Some "fake-2"] ∧
  containers (w_rt w) !! "fake-1" = Some StatusRunning ∧ containers (w_rt w) !! "fake-2" = Some StatusRunning.
Proof. vm_compute. repeat split. Qed.

(** ** Properties *)


(** The recorded status agrees with the engine: from an empty store and an engine without
    containers, after any requests, served one after the other and failing or not, a server is
    recorded as running exactly if its container runs, no two servers share a container, and
    the container of every server that has one exists. *)
Theorem status_agrees_with_engine {P C : Type} json_Marshal json_Unmarshal
    (ops : list LifecycleOp) (w : World fake P C) :
  w_db w = fresh_db → w_rt w = NewFake →
  let w' := snd (for_each (λ op, ignore (run_lifecycle json_Marshal json_Unmarshal None None op)) ops w) in
  ∀ r, r ∈ db_servers (w_db w') →
    (sr_status r = "running" ↔
       ∃ c, sr_container_id r = Some c ∧ containers (w_rt w') !! c = Some StatusRunning) ∧
    (∀ c, sr_container_id r = Some c → is_Some (containers (w_rt w') !! c)) ∧
    (∀ r' c, r' ∈ db_servers (w_db w') → sr_container_id r = Some c → sr_container_id r' = Some c → r' = r).
Proof.
  intros Hd Hrt w' r Hr.
  destruct (served_agrees False [] w' r) as [Hown Hag]; [|done|].
  { eapply (reachable_served json_Marshal json_Unmarshal False None None w); [done..|]. apply serve_ops. }
  specialize (Hag (not_elem_of_nil _)). unfold row_agrees in Hag. simpl in Hag.
  destruct (sr_container_id r) as [c|]; [destruct (containers (w_rt w') !! c) as [st|] eqn:E; [|done]|].
  - split; [|split; [by intros ? [= <-]; eexists|exact Hown]]. rewrite <- Hag. split; [|by intros (? & [= <-] & ?); congruence].
    intros ->. by exists c.
  - split; [split; [done|by intros (? & ? & _)]|]. by split.
Qed.


(** C23. Nothing keeps two requests for the same server apart, and together they can break the
    agreement.  Whatever state the daemon is in: for every server without limits whose recorded
    container exists there is an order of the steps of one start and one stop, which come when
    nothing else is in progress, after which both have succeeded and the server is recorded as
    running while its container is stopped. *)
Theorem race_breaks_agreement {P C : Type} json_Marshal json_Unmarshal tunnels ports (w : World fake P C) id r c st :
  db_faults (w_db w) = [] → has_table (w_db w) "servers" = true →
  select_where (λ r, sr_id r =s id) (db_servers (w_db w)) = [r] → sr_container_id r = Some c → c ≠ "" →
  containers (w_rt w) !! c = Some st → has_limits (fst (GetResourceLimits id (w_db w))) = None →
  ∃ w' r',
    rtc (serve (any_request json_Marshal json_Unmarshal tunnels ports) other_work)
      ([], w) ([(id, Done (Ok tt)); (id, Done (Ok tt))], w') ∧
    select_where (λ r, sr_id r =s id) (db_servers (w_db w')) = [r'] ∧ sr_status r' = "running" ∧
    sr_container_id r' = Some c ∧ containers (w_rt w') !! c = Some StatusStopped.
Proof.
  intros Hf Ht Hr Hc Hne Hst Hl.
  destruct (start_stop_race id c json_Marshal json_Unmarshal tunnels ports w (sr_status r) st) as (w' & Hs & [_ _ Hrow Hstop _]);
    [done|constructor; try done; unfold rows_of; rewrite Hr; simpl; unfold pair_of; by rewrite Hc|].
  exists w'. unfold rows_of in Hrow. destruct (select_where _ (db_servers (w_db w'))) as [|r' [|]]; [done| |done]. injection Hrow as H1 H2.
  exists r'. split_and!; try done.
  eapply rtc_l; [apply (serve_start _ _ [] _ id (stop_steps id))|]; [by exists (OpStop id)|].
  eapply rtc_l; [apply (serve_start _ _ _ _ id (start_steps json_Unmarshal id))|]; [by exists (OpStart id)|]. exact Hs.
Qed.

(** ** Witnesses *)

Lemma status_agrees_with_engine_witness :
  containers (w_rt busy_world) !! "fake-1" = Some StatusRunning.
Proof.
  pose proof (status_agrees_with_engine no_env decode_env busy empty_world eq_refl eq_refl busy_row) as H.
  cbv zeta in H. rewrite busy_rows in H.
  destruct (proj1 (proj1 (H (list_elem_of_here _ _))) eq_refl) as (c & Hc & Hrun).
  injection Hc as <-. exact Hrun.
Defined.





(** The stopped server, and a start and a stop of it. *)
Lemma race_breaks_agreement_witness :
  ∃ (w' : World fake Z osProcessController) r', select_where (λ r, sr_id r =s "a") (db_servers (w_db w')) = [r'] ∧ sr_status r' = "running" ∧
    sr_container_id r' = Some "fake-1" ∧ containers (w_rt w') !! "fake-1" = Some StatusStopped.
Proof.
  destruct (race_breaks_agreement no_env decode_env None None stopped_world "a"
    (mkServerRow "a" "A" "mc" (Some "fake-1") "stopped" "java" "{}" 0 0 0 None) "fake-1" StatusStopped)
    as (w' & r' & _ & H).
  all: try (vm_compute; reflexivity).
  - intros [=].
  - exists w', r'. exact H.
Defined.
