(* ===== verification/OrchestratorSpec.v ===== *)
(** * What the orchestrator promises

    Deletion, and the back-off.  ([RequestsSpec] has the agreement of the recorded status with the
    engine, [ObserverSpec] the detection of crashes, [HealerSpec] the goroutines of
    self-healing.) *)

From S2P Require Import Prelude GoLib GoPath GoOS GoOSFacts Config Store Migrations StoreFacts StoreSpec Bus Runtime Resource World Tunnel TunnelFacts TunnelSpec Orchestrator Requests RequestsSpec.

(** ** Lemmas *)

(** *** The back-off *)

Lemma double_until_min max n d :
  0 < d → max < 2^62 → Z.min max (double_until max n d) = Z.min max (d * 2 ^ Z.of_nat n).
Proof.
  revert d. induction n as [|n IH]; intros d Hd Hm; [simpl; lia|].
  rewrite Nat2Z.inj_succ, Z.pow_succ_r by lia. simpl. assert (0 < 2 ^ Z.of_nat n) by lia.
  destruct (Z.ltb_spec d max).
  - rewrite wrap64_id by (unfold in_int64; lia). rewrite IH by lia. f_equal. ring.
  - rewrite !Z.min_l; nia.
Qed.

(** The back-off doubles with each attempt up to its maximum, without overflow; a negative
    attempt counts as zero. *)
Theorem NextBackoff_exponential (p : RestartPolicy) (attempt : Z) :
  0 < BackoffBase p → BackoffMax p < 2^62 →
  NextBackoff p attempt = Z.min (BackoffMax p) (BackoffBase p * 2 ^ Z.max 0 attempt) ∧
  (∀ attempt', attempt ≤ attempt' → NextBackoff p attempt ≤ NextBackoff p attempt').
Proof.
  intros Hb Hm.
  assert (∀ a, NextBackoff p a = Z.min (BackoffMax p) (BackoffBase p * 2 ^ Z.max 0 a)) as HE.
  { intros a. unfold NextBackoff. cbv zeta.
    pose proof (double_until_min (BackoffMax p) (Z.to_nat (if a <? 0 then 0 else a)) (BackoffBase p) Hb Hm) as Hd.
    replace (Z.of_nat (Z.to_nat (if a <? 0 then 0 else a))) with (Z.max 0 a) in Hd
      by (destruct (Z.ltb_spec a 0); lia).
    rewrite <- Hd. destruct (Z.ltb_spec (BackoffMax p) (double_until (BackoffMax p)
      (Z.to_nat (if a <? 0 then 0 else a)) (BackoffBase p))); lia. }
  split; [apply HE|]. intros a' Ha. rewrite !HE.
  assert (2 ^ Z.max 0 attempt ≤ 2 ^ Z.max 0 a') by (apply Z.pow_le_mono_r; lia). nia.
Qed.

Lemma NextBackoff_exponential_witness : NextBackoff DefaultRestartPolicy 3 = 40 * time_Second.
Proof.
  rewrite (proj1 (NextBackoff_exponential DefaultRestartPolicy 3 ltac:(done) ltac:(done))). reflexivity.
Defined.

(** *** Deletion *)

(** What the lifecycle relies on when the tunnel manager releases a server: the rows of the
    servers stay and the store keeps its integrity. *)
Class TunnelManagerOk {W : Type} (getdb : W → DB) (tm : TunnelManager W) := {
  release_rows : ∀ id w, db_servers (getdb (snd (tm_ReleaseServer tm id w))) = db_servers (getdb w);
  release_wf : ∀ id w, wf (getdb w) → wf (getdb (snd (tm_ReleaseServer tm id w))) }.

Section Deletion.
Context {RT P C : Type} `{!Runtime RT}.
Local Abbreviation W := (World RT P C).

(** C35.  [DeleteServer] is all or retriable: when it succeeds nothing in the store refers to the
    server any more; when it fails, at the engine, the tunnels or the store, every server is
    still recorded, so the deletion can be repeated; and [server.deleted] is published exactly
    in the first case. *)
Theorem DeleteServer_retriable (tunnels : option (TunnelManager W)) id (w w' : W) r :
  match tunnels with Some tm => TunnelManagerOk w_db tm | None => True end →
  wf (w_db w) → DeleteServer tunnels id w = (r, w') →
  match r with
  | Ok _ => server_gone id (w_db w') ∧ ∃ b, w_bus w' = Publish (mkEvent "server.deleted" id) b
  | Err _ => db_servers (w_db w') = db_servers (w_db w)
  end.
Proof.
  intros Htm Hwf. unfold DeleteServer, getServer, db, zoom, wrap, mbind, M_bind.
  destruct (Store.GetServer id (w_db w)) as [[s|e] d0] eqn:Eg; apply query_state in Eg; subst d0;
    [|intros [= <- <-]; done].
  set (w0 := put_db _ w). assert (wf (w_db w0)) as Hwf0 by (by apply wf_set_faults).
  assert (db_servers (w_db w0) = db_servers (w_db w)) as Hs0 by done.
  set (del := if negb (sv_ContainerID s =s "") then _ else _).
  assert (w_db (snd (del w0)) = w_db w0) as Hdel.
  { unfold del, rt, zoom. destruct (negb _); [|done]. by destruct (rt_Delete _ _ _) as [[u|e] x]. }
  clearbody w0. destruct (del w0) as [[u|e] w1]; simpl in Hdel; [|intros [= <- <-]; by rewrite Hdel].
  assert (∃ r2 w2, match tunnels with
      | Some tm => λ s0, match tm_ReleaseServer tm id s0 with
          | (Ok a, s') => (Ok a, s') | (Err e, s') => (Err (Errorw "release tunnel" [] e), s') end
      | None => mret tt end w1 = (r2, w2) ∧ db_servers (w_db w2) = db_servers (w_db w) ∧ wf (w_db w2))
    as (r2 & w2 & -> & Hs2 & Hwf2).
  { destruct tunnels as [tm|].
    - pose proof (release_rows id w1) as H1. pose proof (release_wf id w1) as H2. simpl in H1, H2.
      destruct (tm_ReleaseServer tm id w1) as [[u2|e2] w2]; simpl in *; eexists _, _; (split; [reflexivity|]);
        (split; [by rewrite H1, Hdel|apply H2; by rewrite Hdel]).
    - eexists _, _. split; [reflexivity|]. by rewrite Hdel. }
  destruct r2 as [u2|e2]; [|intros [= <- <-]; done].
  destruct (Store.DeleteServer id (w_db w2)) as [[u3|e3] d3] eqn:Ed; simpl.
  - destruct u3. intros [= <- <-]. simpl. split; [|by eexists].
    apply exec_Ok in Ed as (fs & Ed & _). simpl in Ed. rewrite (wf_fk _ Hwf2) in Ed.
    injection Ed as <-. unfold server_gone. simpl.
    repeat split; try (by intros [? _]%fmap_delete_key).
    intros (x & [Hx _]%elem_of_delete_where & E)%list_elem_of_omap.
    by rewrite bool_decide_eq_false in Hx.
  - intros [= <- <-]. simpl. apply exec_Err in Ed as ->. simpl. done.
Qed.
End Deletion.

(** The frp manager keeps its side. *)
#[global] Instance FrpTunnels_ok {RT P C} `{!PanelAllocator P} `{!ProcessController C} toml_Marshal cfg :
  TunnelManagerOk (W := World RT P C) w_db (FrpTunnels toml_Marshal cfg).
Proof.
  assert (∀ (I : DB → Prop), (∀ d fs, I d → I (set_faults fs d)) →
    (∀ s p pr d, I d → I (snd (DeleteTunnelByMapping s p pr d))) →
    ∀ id (w : World RT P C), I (w_db w) → I (w_db (snd (ReleaseServer toml_Marshal cfg id w)))) as HI.
  { intros I Hfs Hdel id. change (keeps (λ w : World RT P C, I (w_db w)) (ReleaseServer toml_Marshal cfg id)).
    unfold ReleaseServer. apply keeps_bind.
    { apply keeps_zoom. intros w Hw. simpl. destruct (ListTunnels _ _) as [r d] eqn:E.
      apply query_state in E as ->. by apply Hfs. }
    intros ts. apply keeps_bind.
    { apply keeps_for_each. intros t. unfold release_one. solve_keeps.
      - apply keeps_zoom. by intros w Hw.
      - apply keeps_zoom. intros w Hw. by apply Hdel.
      - by apply keeps_modify.
      - by apply keeps_modify. }
    intros _ w Hw. destruct (rebuildLocked _ _ w) as [r w'] eqn:E.
    simpl. apply TunnelSpec.rebuild_frame in E as (-> & _). done. }
  constructor.
  - intros id w. apply (HI (λ d, db_servers d = db_servers (w_db w))); [done| |done].
    intros s p pr d Hd. unfold DeleteTunnelByMapping. destruct (exec _ _ d) as [[u|e] d'] eqn:E.
    + destruct u. apply exec_Ok in E as (fs & [= <-] & _). done.
    + apply exec_Err in E as ->. done.
  - intros id w. apply HI; [intros; by apply wf_set_faults|]. intros s p pr d. apply keeps_DeleteTunnel.
Qed.

(** ** Witnesses *)

#[local] Existing Instance counting_panel.

Definition tunnel_world : World fake Z osProcessController :=
  mkWorld server_db NewEventBus run_os NewFake 20000 (mkProc None ∅ 0 []) ∅ false ∅.

Lemma DeleteServer_retriable_witness :
  server_gone "s1" (w_db (snd (DeleteServer (Some (FrpTunnels toml_names sample_cfg)) "s1" tunnel_world))).
Proof.
  pose proof (DeleteServer_retriable (Some (FrpTunnels toml_names sample_cfg)) "s1" tunnel_world
    (snd (DeleteServer (Some (FrpTunnels toml_names sample_cfg)) "s1" tunnel_world))
    (fst (DeleteServer (Some (FrpTunnels toml_names sample_cfg)) "s1" tunnel_world))
    (FrpTunnels_ok _ _) server_db_wf (surjective_pairing _)) as H.
  assert (fst (DeleteServer (Some (FrpTunnels toml_names sample_cfg)) "s1" tunnel_world) = Ok tt) as E.
  { vm_compute. reflexivity. }
  rewrite E in H. exact (proj1 H).
Defined.

(** A second port the Panel refuses: the server is deleted again, but the first port stays
    mapped and its Panel assignment taken. *)
Definition two_port_egg (_ : string) : M (World fake Z osProcessController) (list PortMapping) :=
  mret [mkMapping "" "" 25565 0 "tcp"; mkMapping "" "" 25575 0 "tcp"].

Lemma failed_create_leaks_mapping :
  let '(r, w) := CreateServer no_env (Some (FrpTunnels toml_names sample_cfg)) (Some two_port_egg)
    "a" "A" "mc" "java" [] (put_panel 65000 empty_world) in
  is_ok r = false ∧ db_servers (w_db w) = [] ∧ db_tunnels (w_db w) = [] ∧
  map_to_list (w_maps w) = [("ttcp25565", mkMapping "ttcp25565" "a" 25565 65001 "tcp")].
Proof. vm_compute. repeat split. Qed.
