(* ===== verification/Healer.v ===== *)
(** * The goroutines of self-healing ([internal/orchestrator/crash_observer.go], [selfheal.go])

    The crash observer and the handlers of the healer run beside the requests of the
    lifecycle: each is here the sequence of its calls.  The healer starts a goroutine for every
    crash, so several can work on one server. *)

From S2P Require Import Prelude Interleave GoLib Store Bus Runtime World Orchestrator.

(** ** Definitions *)

(** *** [crash_observer.go] *)

Section Observer.
Context {RT P C : Type} `{!Runtime RT}.
Local Abbreviation W := (World RT P C).
Local Abbreviation Seen := (gmap string ContainerStatus).

Definition report_steps (id : string) : Proc W unit :=
  manual ← act (IsManualStop id);
  if (manual : bool) then mret tt
  else act (ignore (setLastCrash id)) ;; act (publish "server.crashed" id).

Definition observe_steps (previous : Seen) (server : Server) : Proc W Seen :=
  if sv_ContainerID server =s "" then mret previous
  else
    r ← act (try (rt (rt_Status (sv_ContainerID server))));
    match r with
    | Err _ => mret previous
    | Ok status =>
        (if bool_decide (previous !! sv_ID server = Some StatusRunning) &&
            negb (bool_decide (status = StatusRunning))
         then report_steps (sv_ID server) else mret tt) ;;
        mret (<[sv_ID server := status]> previous)
    end.

Fixpoint observe_all_steps (previous : Seen) (servers : list Server) : Proc W Seen :=
  match servers with
  | [] => mret previous
  | s :: ss => previous ← observe_steps previous s; observe_all_steps previous ss
  end.

(** One tick of [Run]. *)
Definition tick_steps (previous : Seen) : Proc W Seen :=
  r ← act (try (db ListServers));
  match r with
  | Err _ => mret previous
  | Ok servers => observe_all_steps previous servers
  end.
End Observer.

(** *** [selfheal.go] *)

(** [SelfHealer], with the state of the daemon it works on: [manual]. *)
Record SelfHealer (W : Type) := mkSelfHealer { sh_world : W; sh_manual : gset string }.
Arguments mkSelfHealer {W}.
Arguments sh_world {W}.
Arguments sh_manual {W}.

Definition put_world {W} (w : W) (h : SelfHealer W) : SelfHealer W := mkSelfHealer w (sh_manual h).

Definition MarkManualStop {W} (serverID : string) : M (SelfHealer W) unit :=
  modify (λ h, mkSelfHealer (sh_world h) ({[serverID]} ∪ sh_manual h)).

(** The critical section at the start of [handle]. *)
Definition take_manual {W} (serverID : string) : M (SelfHealer W) bool := λ h,
  (Ok (bool_decide (serverID ∈ sh_manual h)), mkSelfHealer (sh_world h) (sh_manual h ∖ {[serverID]})).

Section SelfHealer.
Context {RT P C : Type}.
Local Abbreviation W := (World RT P C).
(** [SelfHealer.lifecycle] *)
Context (restart : string → Proc W unit).
Context (policy : RestartPolicy).
(** SQLite's [json_valid] *)
Context (json_valid : string → bool).
(** The wait for a back-off: whether it ends by its timer ([true]) or by the context. *)
Context (sleep : Z → M W bool).

(** [db.SaveEvent] of a recovery; [nano] is [time.Now().UnixNano()]. *)
Definition save_recovery (id typ serverID severity message : string) : M W unit :=
  now ← gets (λ w, db_now (w_db w));
  db (SaveEvent json_valid (mkStoreEvent id serverID typ severity message "{}" now)).

(** [handle] once the manual mark has been taken. *)
Definition recover_steps (nano : Z) (serverID : string) : Proc W unit :=
  s ← act (try (db (GetServer serverID)));
  match s with
  | Err _ => mret tt
  | Ok s =>
      if MaxRetries policy <=? sv_RestartCount s then
        act (ignore (db (UpdateServerStatus serverID "crash_looping"))) ;;
        act (ignore (save_recovery ("recovery-failed-" +:+ FormatInt nano)
          "server.recovery_failed" serverID "error" "restart limit reached"))
      else
        fired ← act (sleep (NextBackoff policy (sv_RestartCount s)));
        if negb fired then mret tt
        else
          r ← attempt (restart serverID);
          match r with
          | Err _ => mret tt
          | Ok _ =>
              act (ignore (db (IncrementRestartCount serverID))) ;;
              act (ignore (save_recovery ("recovered-" +:+ FormatInt nano)
                "server.recovered" serverID "info" "server restarted"))
          end
  end.

Definition handle_steps (nano : Z) (serverID : string) : Proc (SelfHealer W) unit :=
  manual ← act (take_manual serverID);
  if (manual : bool) then mret tt else within sh_world put_world (recover_steps nano serverID).

(** The loop of [Start]: [go h.handle(ctx, ev.ServerID)] for every crash it receives; each goroutine
    has a number of its own, and those of [serverID] that are at work at once are below [k]. *)
Definition goes (k : nat) (serverID : string) (l : Pool (SelfHealer W) nat unit) (i : nat)
    (p : Proc (SelfHealer W) unit) : Prop :=
  (i ∉ l.*1) ∧ (i < k)%nat ∧ ∃ nano, p = handle_steps nano serverID.
End SelfHealer.
