(* ===== verification/ObserverSpec.v ===== *)
(** * What the crash observer promises

    The observer beside anything: requests, handlers and other work between any two of its calls. *)

From S2P Require Import Prelude Interleave GoLib GoPath GoOS Store Migrations StoreFacts Bus Runtime World Tunnel TunnelFacts TunnelSpec Orchestrator Requests RequestsSpec Healer.

(** ** Definitions *)

Section Observer.
Context {RT P C : Type} `{!Runtime RT}.
Local Abbreviation W := (World RT P C).
Local Abbreviation Seen := (gmap string ContainerStatus).

(** The crashes that the calls publish, in their order. *)
Inductive reported : list (W * W) → list string → Prop :=
| reported_end : reported [] []
| reported_none w w' tr ids : w_bus w' = w_bus w → reported tr ids → reported ((w, w') :: tr) ids
| reported_one w w' tr id ids :
    w_bus w' = Publish (mkEvent "server.crashed" id) (w_bus w) →
    reported tr ids → reported ((w, w') :: tr) (id :: ids).

(** One of the calls finds the mark of a manual stop, and removes it. *)
Definition excused (tr : list (W * W)) (id : string) : Prop :=
  Exists (λ c, id ∈ w_manual c.1 ∧ id ∉ w_manual c.2) tr.

(** From the state before a tick to the one after it the server was seen to go down. *)
Definition went_down (previous seen : Seen) (id : string) : Prop :=
  previous !! id = Some StatusRunning ∧ ∃ st, seen !! id = Some st ∧ st ≠ StatusRunning.

(** One of the calls asks the engine for the container of the server; what is known then. *)
Definition reads (previous seen : Seen) (tr : list (W * W)) (s : Server) : Prop :=
  if sv_ContainerID s =s "" then seen !! sv_ID s = previous !! sv_ID s
  else ∃ c, c ∈ tr ∧ seen !! sv_ID s =
    match fst (rt_Status (sv_ContainerID s) (w_rt c.1)) with Ok st => Some st | Err _ => previous !! sv_ID s end.

(** ** Lemmas *)

Lemma reported_app tr1 ids1 tr2 ids2 :
  reported tr1 ids1 → reported tr2 ids2 → reported (tr1 ++ tr2) (ids1 ++ ids2).
Proof. intros H1 H2. induction H1; simpl; eauto using reported. Qed.

Lemma excused_app tr1 tr2 id : excused (tr1 ++ tr2) id ↔ excused tr1 id ∨ excused tr2 id.
Proof. apply Exists_app. Qed.

(** What the check of one server does. *)
Record checked (previous seen : Seen) (tr : list (W * W)) (ids : list string) (s : Server) : Prop := mk_checked {
  ck_reported : reported tr ids;
  ck_ids : ids = [] ∨ ids = [sv_ID s];
  ck_spec : sv_ID s ∈ ids ↔ went_down previous seen (sv_ID s) ∧ ¬ excused tr (sv_ID s);
  ck_reads : reads previous seen tr s;
  ck_others : ∀ id, id ≠ sv_ID s → seen !! id = previous !! id ∧ ¬ excused tr id }.

Lemma quiet_calls (tr : list (W * W)) : Forall (λ c, w_bus c.2 = w_bus c.1 ∧ w_manual c.2 = w_manual c.1) tr →
  reported tr [] ∧ ∀ id, ¬ excused tr id.
Proof.
  induction 1 as [|[w w'] tr [Hb Hm] _ [IH1 IH2]]; [split; [constructor|by intros id ?%Exists_nil]|].
  split; [by apply reported_none|]. intros id [[H1 H2]|H]%Exists_cons; [|by apply (IH2 id)]. simpl in *. congruence.
Qed.

Lemma report_calls id tr r : calls (report_steps id) tr r →
  r = Ok tt ∧ ∃ ids, reported tr ids ∧ (ids = [] ∨ ids = [id]) ∧ (id ∈ ids ↔ ¬ excused tr id) ∧
    ∀ id', id' ≠ id → ¬ excused tr id'.
Proof.
  unfold report_steps. intros (tr1 & tr2 & r1 & -> & (w & -> & ->)%calls_act & H2)%calls_bind.
  change (fst (IsManualStop id w)) with (Ok (bool_decide (id ∈ w_manual w))) in H2.
  change (snd (IsManualStop id w)) with (put_manual (w_manual w ∖ {[id]}) w).
  set (w' := put_manual _ w).
  assert (∀ id', id' ≠ id → ¬ excused [(w, w')] id') as Ho.
  { intros id' Hne [[Hi Hn]|H]%Exists_cons; [|by apply Exists_nil in H]. apply Hn. simpl. set_solver. }
  case_bool_decide as Hm.
  - destruct H2 as [-> ->]. split; [done|]. exists []. split; [apply reported_none; [done|constructor]|].
    split; [by left|]. split; [|exact Ho]. split; [by intros ?%elem_of_nil|]. intros []. apply Exists_cons. left. simpl. set_solver.
  - apply calls_bind in H2 as (tr3 & tr4 & r3 & -> & (w1 & -> & ->)%calls_act & H4).
    unfold ignore, setLastCrash, gets, db, zoom, mbind, M_bind in H4 |- *. cbn [fst snd] in H4 |- *.
    destruct (SetLastCrash _ _ _) as [r4 d4]. cbn [fst snd] in H4 |- *. apply calls_act in H4 as (w2 & -> & ->).
    split; [done|]. exists [id].
    assert (∀ id', ¬ excused [(w1, put_db d4 w1); (w2, snd (publish "server.crashed" id w2))] id') as Hq.
    { intros id' [[H1 H2]|[[H1 H2]|H]%Exists_cons]%Exists_cons; [done..|by apply Exists_nil in H]. }
    split; [apply reported_none; [done|]; apply reported_none; [done|]; apply reported_one; [done|constructor]|].
    split; [by right|]. split.
    + split; [|by left]. intros _ [[H1 _]|H]%Exists_cons; [by apply Hm|by apply (Hq id)].
    + intros id' Hne [H|H]%(excused_app [_]); [by apply (Ho id')|by apply (Hq id')].
Qed.

Lemma observe_calls previous s tr r : calls (observe_steps previous s) tr r →
  ∃ seen ids, r = Ok seen ∧ checked previous seen tr ids s.
Proof.
  unfold observe_steps. destruct (sv_ContainerID s =s "") eqn:Ec.
  { intros [-> ->]. exists previous, []. split; [done|]. constructor; [constructor|by left| | |].
    - split; [by intros ?%elem_of_nil|]. intros [(H1 & st & H2 & H3) _]. congruence.
    - unfold reads. by rewrite Ec.
    - intros id _. split; [done|by intros ?%Exists_nil]. }
  intros (tr1 & tr2 & r1 & -> & (w & -> & ->)%calls_act & H2)%calls_bind.
  unfold try, rt, zoom in H2 |- *. pose proof (eq_refl (fst (rt_Status (sv_ContainerID s) (w_rt w)))) as Hst.
  destruct (rt_Status _ _) as [rst f] eqn:Er; cbn [fst snd app] in H2, Hst |- *.
  assert (∀ tr' ids, reported tr' ids → reported ((w, put_rt f w) :: tr') ids) as Hrep.
  { intros tr' ids. by apply reported_none. }
  assert (∀ tr' id, excused ((w, put_rt f w) :: tr') id ↔ excused tr' id) as Hexc.
  { intros tr' id. unfold excused. rewrite Exists_cons. simpl. naive_solver. }
  assert (∀ seen, seen !! sv_ID s = match rst with Ok st => Some st | Err _ => previous !! sv_ID s end →
    ∀ tr', reads previous seen ((w, put_rt f w) :: tr') s) as Hreads.
  { intros seen Hs tr'. unfold reads. rewrite Ec. exists (w, put_rt f w). split; [by left|]. simpl. by rewrite Er. }
  destruct rst as [st|e].
  2:{ destruct H2 as [-> ->]. exists previous, []. split; [done|]. constructor; [apply Hrep; constructor|by left| |by apply Hreads|].
    - split; [by intros ?%elem_of_nil|]. intros [(H1 & st & H2 & H3) _]. congruence.
    - intros id _. split; [done|]. rewrite Hexc. by intros ?%Exists_nil. }
  apply calls_bind in H2 as (tr3 & tr4 & r3 & -> & H3 & H4). set (seen := <[sv_ID s := st]> previous).
  assert (seen !! sv_ID s = Some st) as Hseen by apply lookup_insert_eq.
  assert (∀ id, id ≠ sv_ID s → seen !! id = previous !! id) as Hother by (intros; by apply lookup_insert_ne).
  destruct (bool_decide (previous !! sv_ID s = Some StatusRunning) && _) eqn:Efall.
  - apply andb_true_iff in Efall as [Hrun%bool_decide_eq_true Hdown%negb_true_iff%bool_decide_eq_false].
    apply report_calls in H3 as (-> & ids & Hr & Hids & Hiff & Ho). destruct H4 as [-> ->]. rewrite app_nil_r.
    exists seen, ids. split; [done|]. constructor; [by apply Hrep|done| |by apply Hreads|].
    + rewrite Hexc, Hiff. split; [|by intros [_ ?]]. intros Hn. split; [|done]. split; [done|]. by exists st.
    + intros id Hne. rewrite Hexc. split; [by apply Hother|by apply Ho].
  - destruct H3 as [-> ->]. destruct H4 as [-> ->]. exists seen, []. split; [done|].
    constructor; [apply Hrep; constructor|by left| |by apply Hreads|].
    + split; [by intros ?%elem_of_nil|]. intros [(H1 & st' & H2 & H3) _]. rewrite Hseen in H2. injection H2 as <-.
      rewrite bool_decide_eq_true_2, bool_decide_eq_false_2 in Efall by done. discriminate.
    + intros id Hne. rewrite Hexc. split; [by apply Hother|by intros ?%Exists_nil].
Qed.

(** The check of all of them: what was seen of each is there at the end. *)
Lemma observe_all_calls ss previous tr r : NoDup (sv_ID <$> ss) → calls (observe_all_steps previous ss) tr r →
  ∃ seen ids, r = Ok seen ∧ reported tr ids ∧ NoDup ids ∧
    (∀ id, id ∈ ids ↔ id ∈ (sv_ID <$> ss) ∧ went_down previous seen id ∧ ¬ excused tr id) ∧
    (∀ s, s ∈ ss → reads previous seen tr s) ∧
    (∀ id, id ∉ (sv_ID <$> ss) → seen !! id = previous !! id ∧ ¬ excused tr id).
Proof.
  revert previous tr. induction ss as [|s ss IH]; intros previous tr Hnd H.
  { destruct H as [-> ->]. exists previous, []. split; [done|]. split; [constructor|]. split; [constructor|].
    split; [|split; [by intros ? ?%elem_of_nil|by intros id _; split; [|intros ?%Exists_nil]]].
    intros id. rewrite elem_of_nil. split; [done|]. by intros [?%elem_of_nil _]. }
  rewrite fmap_cons in Hnd |- *. apply NoDup_cons in Hnd as [Hs Hnd].
  apply calls_bind in H as (tr1 & tr2 & r1 & -> & H1 & H2).
  apply observe_calls in H1 as (seen1 & ids1 & -> & [Hr1 Hids1 Hiff1 Hread1 Ho1]).
  apply IH in H2 as (seen & ids2 & -> & Hr2 & Hn2 & Hiff2 & Hread2 & Ho2); [|done].
  assert (∀ id, id ∈ ids1 → id = sv_ID s) as Hin1.
  { intros id Hid. destruct Hids1 as [->| ->]; [by apply elem_of_nil in Hid|by apply list_elem_of_singleton in Hid]. }
  destruct (Ho2 (sv_ID s) Hs) as [Hsame Hnot].
  exists seen, (ids1 ++ ids2). split; [done|]. split; [by apply reported_app|]. split; [|split; [|split]].
  - apply NoDup_app. split; [destruct Hids1 as [->| ->]; [constructor|apply NoDup_singleton]|]. split; [|done].
    intros id ->%Hin1 [Hid _]%Hiff2. done.
  - intros id. rewrite elem_of_app, elem_of_cons. destruct (decide (id = sv_ID s)) as [->|Hne].
    + rewrite Hiff1, Hiff2. unfold went_down. rewrite Hsame, excused_app. naive_solver.
    + destruct (Ho1 id Hne) as [H1 H2]. rewrite Hiff2. unfold went_down. rewrite H1, excused_app. naive_solver.
  - intros x [->|Hx]%elem_of_cons.
    + unfold reads in *. rewrite Hsame. destruct (sv_ContainerID s =s ""); [done|]. destruct Hread1 as (c & Hc & Hv).
      exists c. split; [|done]. apply elem_of_app. by left.
    + specialize (Hread2 x Hx). unfold reads in *.
      assert (seen1 !! sv_ID x = previous !! sv_ID x) as Hx1.
      { apply Ho1. intros Heq. apply Hs. rewrite <- Heq. by apply list_elem_of_fmap_2. }
      rewrite Hx1 in Hread2. destruct (sv_ContainerID x =s ""); [done|]. destruct Hread2 as (c & Hc & Hv).
      exists c. split; [|done]. apply elem_of_app. by right.
  - intros id [Hne Hid]%not_elem_of_cons. destruct (Ho1 id Hne) as [H1 H2], (Ho2 id Hid) as [H3 H4].
    split; [congruence|]. by intros [?|?]%excused_app.
Qed.
End Observer.

(** ** Properties *)

(** C24. A tick of the crash observer, with anything between its calls: requests, the handlers of the
    healer, other statements; whatever the engine answers and whatever calls fail.  It asks the
    engine for every listed server that has a container, and remembers the answer.  It publishes [server.crashed] exactly for the servers that ran when they were last seen, are
    seen not to run now, and whose mark of a manual stop it does not find, and publishes it once
    for each; a mark that it finds is used up.  So a later tick reports the server again only
    after one has seen it run.  When the list cannot be read nothing is reported or forgotten. *)
Theorem crash_reported_once {RT P C : Type} `{!Runtime RT} previous (w w' : World RT P C) tr r :
  calls (tick_steps previous) ((w, w') :: tr) r → NoDup (sr_id <$> db_servers (w_db w)) →
  ∃ seen ids, r = Ok seen ∧ reported ((w, w') :: tr) ids ∧ NoDup ids ∧
    (∀ id, id ∈ ids ↔ went_down previous seen id ∧ ¬ excused tr id) ∧
    match fst (ListServers (w_db w)) with
    | Err _ => seen = previous ∧ tr = []
    | Ok ss => (∀ s, s ∈ ss → reads previous seen tr s) ∧
               (∀ id, id ∉ (sv_ID <$> ss) → seen !! id = previous !! id)
    end.
Proof.
  intros H Hnd. destruct H as [-> H]. unfold try, db, zoom in H |- *.
  destruct (ListServers (w_db w)) as [rl d] eqn:El. cbn [fst snd] in H |- *.
  assert (∀ ids, reported tr ids → reported ((w, put_db d w) :: tr) ids) as Hrep by (intros; by apply reported_none).
  destruct rl as [ss|e].
  2:{ destruct H as [-> ->]. exists previous, []. split; [done|]. split; [apply Hrep; constructor|]. split; [constructor|].
      split; [|done]. intros id. split; [by intros ?%elem_of_nil|]. intros [(H1 & st & H2 & H3) _]. congruence. }
  assert (NoDup (sv_ID <$> ss)) as Hss.
  { pose proof El as Es. unfold ListServers in El, Es. apply query_state in Es. apply query_Ok in El as [= <-].
    rewrite isort_perm, <- list_fmap_compose. by subst d. }
  apply observe_all_calls in H as (seen & ids & -> & Hr & Hn & Hiff & Hread & Ho); [|done].
  exists seen, ids. split; [done|]. split; [by apply Hrep|]. split; [done|]. split; [|split; [done|by apply Ho]].
  intros id. rewrite Hiff. split; [by intros [_ ?]|]. intros [Hd Hx]. split; [|done].
  destruct (decide (id ∈ (sv_ID <$> ss))) as [|Hnot]; [done|]. destruct (Ho id Hnot) as [Hs _].
  destruct Hd as (H1 & st & H2 & H3). congruence.
Qed.

(** ** Witnesses *)

(** A server that runs, and whose container then dies. *)
Definition down_world : World fake Z osProcessController :=
  put_rt (mkFake (<["fake-1" := StatusCrashed]> (containers (w_rt busy_world))) 2) busy_world.

Definition ran : gmap string ContainerStatus := <["a" := StatusRunning]> ∅.

(** A tick that is alone. *)
Fixpoint trace_alone {S A} (p : Proc S A) (s : S) : list (S * S) :=
  match p with Done _ => [] | Step m k => (s, snd (m s)) :: trace_alone (k (fst (m s))) (snd (m s)) end.

Lemma calls_alone {S A} (p : Proc S A) s : calls p (trace_alone p s) (fst (alone p s)).
Proof. revert s. induction p as [r|X m k IH]; intros s; [done|]. split; [done|apply IH]. Qed.

Lemma crash_reported_once_witness :
  ∃ seen (ids : list string), fst (alone (tick_steps ran) down_world) = Ok seen ∧ ("a" ∈ ids ↔
    went_down ran seen "a" ∧ ¬ excused (tail (trace_alone (tick_steps ran) down_world)) "a").
Proof.
  destruct (crash_reported_once ran down_world (snd (try (db ListServers) down_world))
    (tail (trace_alone (tick_steps ran) down_world)) (fst (alone (tick_steps ran) down_world))) as (seen & ids & H1 & _ & _ & H2 & _).
  - exact (calls_alone (tick_steps ran) down_world).
  - vm_compute. repeat constructor. intros H%elem_of_nil. exact H.
  - exists seen, ids. split; [exact H1|exact (H2 "a")].
Defined.

(** And it is reported. *)
Example crash_is_reported : match alone (tick_steps ran) down_world with
  | (Ok seen, w) => seen !! "a" = Some StatusCrashed ∧ w_bus w = Publish (mkEvent "server.crashed" "a") (w_bus down_world)
  | _ => False
  end.
Proof. vm_compute. done. Qed.
