(* ===== verification/HealerSpec.v ===== *)
(** * What self-healing keeps

    The handlers of the healer together restart a server a bounded number of times; what the
    observer can take for a crash, and what it misses, while requests are served. *)

From S2P Require Import Prelude Interleave GoLib GoPath GoOS GoOSFacts Config Store Migrations StoreFacts StoreSpec Bus Runtime World Tunnel TunnelFacts TunnelSpec Orchestrator Requests RequestsSpec OrchestratorSpec Healer.

(** ** Definitions *)

(** Where a handler is: it has read a count below the limit ([Passed]), or has restarted the server
    and not yet counted that ([Restarted]). *)
Inductive Phase := Idle | Passed | Restarted.
#[global] Instance Phase_eq_dec : EqDecision Phase.
Proof. solve_decision. Defined.

(** Which handlers are in these phases. *)
Record Tickets := mkTickets { tk_passed : gset nat; tk_restarted : gset nat }.

Definition phase (g : Tickets) (i : nat) : Phase :=
  if decide (i ∈ tk_passed g) then Passed
  else if decide (i ∈ tk_restarted g) then Restarted else Idle.

Definition put_in (v ph : Phase) (i : nat) (X : gset nat) : gset nat :=
  if decide (v = ph) then {[i]} ∪ X else X ∖ {[i]}.
Definition move (i : nat) (v : Phase) (g : Tickets) : Tickets :=
  mkTickets (put_in v Passed i (tk_passed g)) (put_in v Restarted i (tk_restarted g)).

Definition is_at (v ph : Phase) : Z :=
  match v, ph with Idle, Idle | Passed, Passed | Restarted, Restarted => 1 | _, _ => 0 end.

Section Counting.
Context (json_valid : string → bool).

(** The healer's restart count of a server. *)
Definition count_of (id : string) (d : DB) : option Z :=
  sr_restart_count <$> head (select_where (λ r, sr_id r =s id) (db_servers d)).

(** The database is usable. *)
Definition healthy (d : DB) : Prop := db_faults d = [] ∧ has_table d "servers" = true.

(** An operation that leaves the counts alone. *)
Definition calm (id : string) (d d' : DB) : Prop :=
  (healthy d → healthy d') ∧ count_of id d' = count_of id d.

Lemma head_update {R} (p : R → bool) g (t : list R) :
  (∀ r, p (g r) = p r) → head (select_where p (update_where p g t)) = g <$> head (select_where p t).
Proof.
  intros Hg. unfold select_where, update_where. induction t as [|r t IH]; [done|]. csimpl.
  rewrite !filter_cons. destruct (p r) eqn:E.
  - by rewrite !decide_True by (rewrite ?Hg; done).
  - rewrite !decide_False by congruence. done.
Qed.

Lemma UpdateServerStatus_calm id id' st d r d' :
  healthy d → UpdateServerStatus id' st d = (r, d') → r = Ok tt ∧ calm id d d'.
Proof.
  intros [Hf Ht]. unfold UpdateServerStatus. rewrite exec_no_fault by (simpl; rewrite ?Ht; done).
  intros [= <- <-]. split; [done|]. split; [done|]. unfold count_of. simpl.
  unfold select_where, update_where. induction (db_servers d) as [|x l IH]; [done|]. csimpl.
  rewrite !filter_cons. destruct (sr_id x =s id'); simpl.
  - destruct (sr_id x =s id); [done|apply IH].
  - destruct (sr_id x =s id); [done|apply IH].
Qed.

Lemma SaveEvent_calm id e d r d' : healthy d → SaveEvent json_valid e d = (r, d') → calm id d d'.
Proof.
  intros [Hf Ht]. unfold SaveEvent, fail_if, mbind, M_bind.
  destruct (_ || _); [by intros [= <- <-]|]. simpl.
  rewrite query_no_fault by done. simpl. destruct (json_valid _); simpl; [|by intros [= <- <-]].
  unfold exec. rewrite Hf. simpl. rewrite set_faults_nil by done.
  destruct (_ && true); [|by intros [= <- <-]]. destruct (existsb _ _); [by intros [= <- <-]|].
  destruct (fk_check _ _); by intros [= <- <-].
Qed.

Lemma Increment_spec id d : healthy d →
  let d' := snd (IncrementRestartCount id d) in
  healthy d' ∧ count_of id d' = (λ n, n + 1) <$> count_of id d.
Proof.
  intros [Hf Ht]. unfold IncrementRestartCount. rewrite exec_no_fault by (simpl; rewrite ?Ht; done).
  split; [done|]. unfold count_of. simpl. rewrite head_update by done. by destruct (head _).
Qed.

Lemma GetServer_count id d : healthy d →
  match GetServer id d with
  | (Ok s, d') => d' = d ∧ count_of id d = Some (sv_RestartCount s)
  | (Err _, d') => d' = d
  end.
Proof.
  intros [Hf Ht]. unfold GetServer. rewrite query_no_fault by (simpl; rewrite ?Ht; done).
  unfold count_of, first_row. destruct (select_where _ _) as [|r l]; done.
Qed.

End Counting.

(** *** Tickets *)

Lemma elem_of_put_in v ph i X j : j ∈ put_in v ph i X ↔ (j = i ∧ v = ph) ∨ (j ≠ i ∧ j ∈ X).
Proof. unfold put_in. case_decide; destruct (decide (j = i)); set_solver. Qed.

Lemma size_put_in v ph i X :
  Z.of_nat (size (put_in v ph i X)) = Z.of_nat (size X) + is_at v ph - (if decide (i ∈ X) then 1 else 0).
Proof.
  unfold put_in. replace (is_at v ph) with (if decide (v = ph) then 1 else 0) by (by destruct v, ph).
  assert (Z.of_nat (size (X ∖ {[i]})) = Z.of_nat (size X) - (if decide (i ∈ X) then 1 else 0)) as Hd.
  { case_decide as Hi; [|replace (X ∖ {[i]}) with X by set_solver; lia].
    rewrite size_difference by set_solver. rewrite size_singleton.
    assert (size X ≠ 0%nat) by (intros E%size_empty_inv; set_solver). lia. }
  destruct (decide (v = ph)); [|lia]. replace ({[i]} ∪ X) with ({[i]} ∪ X ∖ {[i]})
    by (apply leibniz_equiv; intros j; destruct (decide (j = i)); set_solver).
  rewrite size_union by set_solver. rewrite size_singleton. lia.
Qed.

Lemma phase_passed g i : tk_passed g ## tk_restarted g →
  (if decide (i ∈ tk_passed g) then 1 else 0) = is_at (phase g i) Passed ∧
  (if decide (i ∈ tk_restarted g) then 1 else 0) = is_at (phase g i) Restarted.
Proof.
  intros Hd. unfold phase. destruct (decide (i ∈ tk_passed g)); [|by case_decide].
  rewrite decide_False by set_solver. done.
Qed.

Lemma phase_move i v g j : phase (move i v g) j = if decide (j = i) then v else phase g j.
Proof.
  unfold phase, move. simpl. rewrite (decide_ext _ _ _ _ (elem_of_put_in v Passed i (tk_passed g) j)).
  rewrite (decide_ext _ _ _ _ (elem_of_put_in v Restarted i (tk_restarted g) j)).
  repeat case_decide; destruct v; naive_solver.
Qed.

Section Healer.
Context {RT P C : Type} `{!Runtime RT}.
Local Abbreviation W := (World RT P C).

(** How often the engine restarted the container of the server. *)
Context (calls : RT → Z).
Context (restart_calls : ∀ c e r e', rt_Restart c e = (r, e') →
  calls e' ≤ calls e + match r with Ok _ => 1 | Err _ => 0 end).
Context (policy : RestartPolicy) (json_valid : string → bool) (id : string).

(** The database stays usable, the count of the server grows by [d] at least, and the engine
    restarts it [c] times at most. *)
Definition spends (d c : Z) (w w' : W) : Prop :=
  (healthy (w_db w) → healthy (w_db w') ∧
     ∀ n, count_of id (w_db w) = Some n → ∃ n', count_of id (w_db w') = Some n' ∧ n + d ≤ n') ∧
  calls (w_rt w') ≤ calls (w_rt w) + c.

(** What else happens in the daemon. *)
Definition calm_work (h h' : SelfHealer W) : Prop := spends 0 0 (sh_world h) (sh_world h').

(** The waits of the handlers. *)
Context (sleep : Z → M W bool) (sleep_calm : ∀ d w, spends 0 0 w (snd (sleep d w))).

(** How a handler may change its phase. *)
Definition legal (v v' : Phase) (w w' : W) : Prop :=
  match v, v' with
  | Idle, Passed => spends 0 0 w w' ∧ ∃ n, count_of id (w_db w) = Some n ∧ n < MaxRetries policy
  | Passed, Restarted => spends 0 1 w w'
  | Restarted, Idle => spends 1 0 w w'
  | Idle, Restarted | Restarted, Passed => False
  | _, _ => spends 0 0 w w'
  end.

Section Bound.
Context (k : nat) (n0 r0 : Z).

(** The restarts against the count: each was counted, or its handler is about to. *)
Record accounted (g : Tickets) (w : W) : Prop := mk_accounted {
  ac_healthy : healthy (w_db w);
  ac_disjoint : tk_passed g ## tk_restarted g;
  ac_slots : tk_passed g ∪ tk_restarted g ⊆ set_seq 0 (S k);
  ac_count : ∃ n, count_of id (w_db w) = Some n ∧ n0 ≤ n ∧
    calls (w_rt w) - r0 ≤ n - n0 + Z.of_nat (size (tk_restarted g));
  ac_bound : calls (w_rt w) - r0 + Z.of_nat (size (tk_passed g)) ≤ Z.max 0 (MaxRetries policy - n0) + Z.of_nat k }.

Lemma accounted_move g w w' i v' :
  accounted g w → (i < S k)%nat → legal (phase g i) v' w w' → accounted (move i v' g) w'.
Proof.
  intros [Hh Hd Hs (n & Hn & Hle & Hc) Hb] Hi Hl.
  destruct (phase_passed g i Hd) as [Ep Er].
  assert (tk_passed (move i v' g) ## tk_restarted (move i v' g)) as Hd'.
  { intros j H1%elem_of_put_in H2%elem_of_put_in. destruct H1 as [[??]|[??]], H2 as [[??]|[??]]; set_solver. }
  assert (tk_passed (move i v' g) ∪ tk_restarted (move i v' g) ⊆ set_seq 0 (S k)) as Hs'.
  { assert (i ∈ (set_seq 0 (S k) : gset nat)) by (apply elem_of_set_seq; lia).
    intros j [[[-> _]|[_ Hj]]%elem_of_put_in|[[-> _]|[_ Hj]]%elem_of_put_in]%elem_of_union; set_solver. }
  assert (Z.of_nat (size (tk_passed (move i v' g))) + Z.of_nat (size (tk_restarted (move i v' g))) ≤ Z.of_nat (S k)) as Hsz.
  { rewrite <- Nat2Z.inj_add, <- size_union by done.
    apply subseteq_size in Hs'. rewrite size_set_seq in Hs'. lia. }
  pose proof (size_put_in v' Passed i (tk_passed g)) as Sp. pose proof (size_put_in v' Restarted i (tk_restarted g)) as Sr.
  rewrite Ep in Sp. rewrite Er in Sr.
  change (put_in v' Passed i (tk_passed g)) with (tk_passed (move i v' g)) in Sp.
  change (put_in v' Restarted i (tk_restarted g)) with (tk_restarted (move i v' g)) in Sr.
  clear Hs Ep Er. unfold legal in Hl. destruct (phase g i), v'; cbn [is_at] in Sp, Sr; try done.
  all: try (destruct Hl as [Hl (m & Hm & Hlt)]; assert (m = n) as -> by congruence).
  all: destruct Hl as [Hgr Hca]; destruct (Hgr Hh) as [Hh' Hg]; destruct (Hg n Hn) as (n' & Hn' & Hle').
  all: constructor; [done|done|done| |lia].
  all: exists n'; split; [done|]; lia.
Qed.

(** *** The calls of a handler *)

Local Abbreviation sees := (λ (g : Tickets) (_ : W) (i : nat), phase g i).
Local Abbreviation holds := (rg (S:=W) sees accounted).

Lemma rg_moves {A} i (m : M W A) (Q : res A → Phase → Prop) v :
  (i < S k)%nat →
  (∀ w, healthy (w_db w) → is_Some (count_of id (w_db w)) →
    wp m (λ r w', ∃ v', legal v v' w w' ∧ Q r v') w) →
  holds i (act m) Q v.
Proof.
  intros Hi H. apply rg_act. intros g w Ha Hv. unfold wp.
  destruct (H w) as (v' & Hl & HQ); [by destruct Ha|by destruct (ac_count _ _ Ha) as (n & -> & _)|].
  exists (move i v' g). split; [|split].
  - apply (accounted_move g w); [done|done|by rewrite Hv].
  - intros j Hj. by rewrite phase_move, decide_False.
  - by rewrite phase_move, decide_True.
Qed.

Lemma calm_legal v w w' : spends 0 0 w w' → legal v v w w'.
Proof. by destruct v. Qed.

(** A call, and what comes after it. *)
Lemma rg_then {A B} i (m : M W A) (f : A → Proc W B) (Q1 : A → Phase → Prop) Q v :
  (i < S k)%nat →
  (∀ w, healthy (w_db w) → is_Some (count_of id (w_db w)) →
    wp m (λ r w', ∃ v', legal v v' w w' ∧ match r with Ok a => Q1 a v' | Err e => Q (Err e) v' end) w) →
  (∀ a v', Q1 a v' → holds i (f a) Q v') →
  holds i (act m ≫= f) Q v.
Proof.
  intros Hi Hm Hf. apply rg_bind. apply rg_moves; [done|]. intros w Hh Hn.
  eapply wp_mono; [by apply Hm|]. simpl. intros [a|e] w' (v' & Hl & HQ); exists v'; auto.
Qed.

(** A call that leaves the count and the engine alone. *)
Lemma rg_calm {A B} i (m : M W A) (f : A → Proc W B) Q v :
  (i < S k)%nat → (∀ w, healthy (w_db w) → spends 0 0 w (snd (m w)) ∧ is_ok (fst (m w)) = true) →
  (∀ a, holds i (f a) Q v) → holds i (act m ≫= f) Q v.
Proof.
  intros Hi Hm Hf. apply (rg_then _ _ _ (λ _ v', v' = v)); [done| |by intros a v' ->].
  intros w Hh _. destruct (Hm w Hh) as [Hs Hok]. exists v. split; [by apply calm_legal|].
  by destruct (fst (m w)).
Qed.

Lemma spends_db {A} (m : M DB A) (w : W) d :
  (∀ x, healthy x → healthy (snd (m x)) ∧ ∀ n, count_of id x = Some n → ∃ n', count_of id (snd (m x)) = Some n' ∧ n + d ≤ n') →
  spends d 0 w (snd (db m w)).
Proof.
  intros H. unfold spends, db, zoom. destruct (m (w_db w)) as [r x] eqn:E. simpl. split; [|lia].
  intros Hh. destruct (H _ Hh) as [H1 H2]. by rewrite E in H1, H2.
Qed.

Lemma spends_same c (w w' : W) : w_db w' = w_db w → calls (w_rt w') ≤ calls (w_rt w) + c → spends 0 c w w'.
Proof. intros E Hc. split; [|done]. rewrite E. intros Hh. split; [done|]. intros n Hn. exists n. split; [done|lia]. Qed.

Lemma calm_db {A} (m : M DB A) (w : W) : (∀ x, healthy x → calm id x (snd (m x))) → spends 0 0 w (snd (db m w)).
Proof.
  intros H. apply spends_db. intros x Hx. destruct (H x Hx) as [H1 H2]. split; [auto|].
  intros n Hn. exists n. rewrite H2. split; [done|lia].
Qed.

Lemma calm_ignore {A} (m : M W A) (w : W) : spends 0 0 w (snd (m w)) → spends 0 0 w (snd (ignore m w)).
Proof. unfold ignore. by destruct (m w). Qed.

Lemma calm_save rid typ sev msg (w : W) : healthy (w_db w) →
  spends 0 0 w (snd (ignore (save_recovery json_valid rid typ id sev msg) w)).
Proof.
  intros _. apply calm_ignore. unfold save_recovery, gets, mbind, M_bind. apply calm_db. intros x Hx.
  destruct (SaveEvent json_valid _ x) as [r x'] eqn:E. by eapply SaveEvent_calm.
Qed.

Lemma calm_status st (w : W) : spends 0 0 w (snd (db (UpdateServerStatus id st) w)).
Proof.
  apply calm_db. intros x Hx. destruct (UpdateServerStatus id st x) as [r x'] eqn:E.
  by apply (UpdateServerStatus_calm id) in E as [_ ?].
Qed.

Local Abbreviation restart := (restart_steps : string → Proc W unit).

(** The restart of a server that is recorded: it ends counted against the handler, or not made. *)
Lemma rg_restart i : (i < S k)%nat →
  holds i (attempt (restart id))
    (λ r v, match r with Ok (Ok _) => v = Restarted | Ok (Err _) => v = Idle | Err _ => False end) Passed.
Proof.
  intros Hi. apply rg_attempt. unfold restart_steps.
  apply (rg_then _ _ _ (λ s v, v = if sv_ContainerID s =s "" then Idle else Passed)); [done| |].
  { intros w Hh _. unfold wp, wrap, getServer, db, zoom. pose proof (GetServer_count id _ Hh) as Hg.
    destruct (GetServer id (w_db w)) as [[s|e] d]; simpl; [destruct Hg as [-> _]|subst d].
    all: assert (spends 0 0 w (put_db (w_db w) w)) as Hs by (apply spends_same; simpl; [done|lia]).
    - destruct (sv_ContainerID s =s ""); [by exists Idle|by exists Passed].
    - by exists Idle. }
  intros s v ->. destruct (sv_ContainerID s =s ""); [done|].
  apply (rg_then _ _ _ (λ _ v, v = Restarted)); [done| |].
  { intros w Hh _. unfold wp, wrap, rt, zoom. destruct (rt_Restart _ _) as [r e] eqn:E. apply restart_calls in E.
    destruct r as [u|x]; simpl; [exists Restarted|exists Idle]; (split; [|done]).
    all: apply spends_same; simpl; [done|lia]. }
  intros u v ->. apply rg_calm; [done| |].
  { intros w Hh. unfold wrap, setStatus. pose proof (calm_status "running" w) as Hs.
    destruct (db _ w) as [r w'] eqn:E. split; [by destruct r|].
    unfold db, zoom in E. destruct (UpdateServerStatus id "running" (w_db w)) as [r' d] eqn:Eu.
    apply (UpdateServerStatus_calm id) in Eu as [-> _]; [|done]. by injection E as <- <-. }
  intros []. apply rg_moves; [done|]. intros w _ _. exists Restarted. split; [|done].
  apply spends_same; simpl; [done|lia].
Qed.

Local Abbreviation heal := (recover_steps restart policy json_valid sleep).

Lemma rg_heal nano i : (i < S k)%nat → holds i (heal nano id) (λ _ v, v = Idle) Idle.
Proof.
  intros Hi. unfold recover_steps.
  apply (rg_then _ _ _ (λ r v, match r with
    | Ok s => v = if MaxRetries policy <=? sv_RestartCount s then Idle else Passed | Err _ => v = Idle end)); [done| |].
  { intros w Hh _. unfold wp, try, db, zoom. pose proof (GetServer_count id _ Hh) as Hg.
    destruct (GetServer id (w_db w)) as [[s|e] d]; simpl; [destruct Hg as [-> Hn]|subst d].
    all: assert (spends 0 0 w (put_db (w_db w) w)) as Hs by (apply spends_same; simpl; [done|lia]).
    - destruct (Z.leb_spec (MaxRetries policy) (sv_RestartCount s)); [by exists Idle|].
      exists Passed. split; [|done]. split; [done|]. by exists (sv_RestartCount s).
    - by exists Idle. }
  intros [s|e] v ->; [|done]. destruct (MaxRetries policy <=? sv_RestartCount s).
  - apply rg_calm; [done| |].
    { intros w Hh. split; [apply calm_ignore, calm_status|]. unfold ignore. by destruct (db _ w). }
    intros []. apply rg_moves; [done|]. intros w Hh _. exists Idle. split; [by apply calm_save|done].
  - apply (rg_then _ _ _ (λ b v, v = if (b : bool) then Passed else Idle)); [done| |].
    { intros w Hh _. pose proof (sleep_calm (NextBackoff policy (sv_RestartCount s)) w) as Hs. unfold wp.
      destruct (sleep _ w) as [[[|]|e] w']; [by exists Passed|by exists Idle..]. }
    intros [] v ->; cbn [negb]; [|done]. apply rg_bind. eapply rg_mono; [by apply rg_restart|].
    intros [[u|e]|e] v; [intros ->|by intros ->|done].
    apply (rg_then _ _ _ (λ _ v, v = Idle)); [done| |].
    { intros w Hh [n Hn]. unfold wp, ignore. exists Idle. split; [|by destruct (db _ w)]. simpl.
      pose proof (spends_db (IncrementRestartCount id) w 1) as Hs. destruct (db _ w) as [r w']. apply Hs.
      intros x Hx. destruct (Increment_spec id x Hx) as [Hx2 Hc]. split; [done|]. intros m Hm. exists (m + 1). by rewrite Hc, Hm. }
    intros [] v ->. apply rg_moves; [done|]. intros w Hh _. exists Idle. split; [by apply calm_save|done].
Qed.
End Bound.

(** The slots of the handlers that are at work, in the state of the daemon. *)
Lemma goes_accounted k n0 r0 st st' :
  rtc (serve (goes restart_steps policy json_valid sleep (S k) id) calm_work) st st' →
  served (λ g (h : SelfHealer W) i, phase g i) (λ g h, accounted k n0 r0 g (sh_world h)) (λ _ v, v = Idle) st →
  served (λ g (h : SelfHealer W) i, phase g i) (λ g h, accounted k n0 r0 g (sh_world h)) (λ _ v, v = Idle) st'.
Proof.
  induction 1 as [|st1 st2 st3 Hst _ IH]; [done|]. intros Hs. apply IH. revert Hst Hs. apply served_serve.
  - intros l i p (Hfr & Hi & nano & ->). split; [done|]. intros v ->. unfold handle_steps. apply rg_bind.
    apply rg_act. intros g h Ha Hv. unfold wp, take_manual. exists g. cbn [fst snd sh_world]. split; [done|]. split; [done|].
    case_bool_decide; [done|].
    apply (rg_within (λ g (_ : W) i, phase g i) (accounted k n0 r0) sh_world put_world i); [done|].
    rewrite Hv. by apply rg_heal.
  - intros g h h' [Hh Hd Hs (n & Hn & Hle & Hc) Hb] [Hgr Hca]. exists g. split; [|done].
    destruct (Hgr Hh) as [Hh' Hg]. destruct (Hg n Hn) as (n' & Hn' & Hle').
    constructor; [done|done|done|exists n'; split; [done|]; lia|lia].
Qed.

(** C25.  The healer cannot loop.  It starts a goroutine for every crash, and these run beside each
    other and the rest of the daemon; whatever number of crashes of a server they handle, in any
    interleaving, as long as nobody resets the count of the server and the database works: with
    at most [k + 1] handlers at work at once the server is restarted at most [k] times more often
    than the policy allows beyond the restarts already counted.  Handled one at a time ([k = 0])
    the policy is met. *)
Theorem selfheal_bounded k n h l h' :
  healthy (w_db (sh_world h)) → count_of id (w_db (sh_world h)) = Some n →
  rtc (serve (goes restart_steps policy json_valid sleep (S k) id) calm_work) ([], h) (l, h') →
  calls (w_rt (sh_world h')) - calls (w_rt (sh_world h)) ≤ Z.max 0 (MaxRetries policy - n) + Z.of_nat k.
Proof.
  intros Hh Hn Hr.
  destruct (goes_accounted k n (calls (w_rt (sh_world h))) _ _ Hr) as (g & Ha & _).
  - exists (mkTickets ∅ ∅). split; [|split; [constructor|split; [by intros ? ? ?%elem_of_nil|done]]]. simpl.
    assert (Z.of_nat (size (∅ : gset nat)) = 0) as E0 by (by rewrite size_empty).
    constructor; cbn [tk_passed tk_restarted]; [done|set_solver|set_solver| |lia]. exists n. split; [done|]. lia.
  - pose proof (ac_bound _ _ _ _ _ Ha) as Hb. simpl in Hb. lia.
Qed.
End Healer.

(** A tick that nothing disturbs is that of [Orchestrator]. *)
(** ** Witnesses and runs *)

(** An engine that counts the restarts. *)
#[local] Instance counting_runtime : Runtime Z := {|
  rt_Create := λ _ n, (Ok "c", n); rt_Start := λ _ n, (Ok tt, n); rt_Stop := λ _ _ n, (Ok tt, n);
  rt_Restart := λ _ n, (Ok tt, n + 1); rt_Delete := λ _ _ n, (Ok tt, n);
  rt_Status := λ _ n, (Ok StatusCrashed, n); rt_Stats := λ _, fail (Errorf "stats" []);
  rt_Exec := λ _ _ n, (Ok "", n); rt_BuildImage := λ _ _ n, (Ok tt, n); rt_Logs := λ _ _ n, (Ok [], n) |}.

(** A server that was restarted four times; two crashes of it are handled at once. *)
Definition counting_world : World Z Z osProcessController :=
  mkWorld (set_servers [mkServerRow "a" "A" "mc" (Some "fake-1") "running" "java" "{}" 0 0 4 None] fresh_db)
    NewEventBus run_os 0 20000 (mkProc None ∅ 0 []) ∅ false ∅.

Definition counted (n : Z) : Z := n.
Definition no_wait (d : Z) : M (World Z Z osProcessController) bool := mret true.

Lemma counted_restarts (c : string) e r e' : rt_Restart (RT:=Z) c e = (r, e') →
  counted e' ≤ counted e + match r with Ok _ => 1 | Err _ => 0 end.
Proof. simpl. intros [= <- <-]. unfold counted. lia. Qed.

Lemma no_wait_calm (d : Z) w : spends counted "a" 0 0 w (snd (no_wait d w)).
Proof. apply spends_same; simpl; [done|lia]. Qed.

Local Abbreviation two_handlers :=
  (turns [0; 1; 0; 1; 0; 1; 0; 1; 0; 1; 0; 1; 0; 1; 0; 1; 0; 1; 0; 1]%nat
    ([(1%nat, handle_steps restart_steps DefaultRestartPolicy (λ _, true) no_wait 2 "a");
      (0%nat, handle_steps restart_steps DefaultRestartPolicy (λ _, true) no_wait 1 "a")],
     mkSelfHealer counting_world ∅)).

(** They both find one restart left and restart the server twice: the bound is met. *)
Lemma selfheal_bounded_witness :
  counted (w_rt (sh_world (snd two_handlers))) = 2 ∧
  counted (w_rt (sh_world (snd two_handlers))) - 0 ≤ Z.max 0 (MaxRetries DefaultRestartPolicy - 4) + 1.
Proof.
  split; [vm_compute; reflexivity|].
  apply (selfheal_bounded counted counted_restarts DefaultRestartPolicy (λ _, true) "a" no_wait no_wait_calm
    1 4 (mkSelfHealer counting_world ∅) (fst two_handlers) (snd two_handlers)).
  - split; vm_compute; reflexivity.
  - vm_compute. reflexivity.
  - rewrite <- surjective_pairing. eapply rtc_l; [apply (serve_start _ _ [] _ 0%nat)|].
    { split; [apply not_elem_of_nil|]. split; [lia|by exists 1]. }
    eapply rtc_l; [apply (serve_start _ _ _ _ 1%nat)|].
    { split; [by intros [[=]|?%elem_of_nil]%elem_of_cons|]. split; [lia|by exists 2]. }
    apply serve_turns.
Defined.

(** *** What the observer takes for a crash, and what it misses *)

Definition seen_running : gmap string ContainerStatus := <["a" := StatusRunning]> ∅.

(** A server is stopped by a request and started by the next one, while a tick of the observer looks
    at it: it reads the state of the stopped container, then the start forgets the manual
    stop, then the observer asks for it.  The container never crashed, and a crash is recorded. *)
Lemma stop_reported_as_crash :
  let w0 := snd (StopServer (RT:=fake) "a" busy_world) in
  let w := snd (turns [0; 0; 1; 0; 0; 0; 0; 1; 1; 1; 1; 1; 1; 1; 1]%nat
    ([("observer", tick_steps seen_running ;; mret tt); ("a", request no_env decode_env None None (OpStart "a"))], w0)) in
  sr_last_crash_at <$> db_servers (w_db w0) = [None] ∧ sr_last_crash_at <$> db_servers (w_db w) = [Some (db_now (w_db w0))] ∧
  w_manual w = ∅ ∧ containers (w_rt w) !! "fake-1" = Some StatusRunning.
Proof. vm_compute. repeat split. Qed.

(** A request that stops a server, restarts it, and a crash after that: the crash is taken for
    the manual stop, and not reported. *)
Lemma restart_hides_crash :
  let w := snd ((StopServer (RT:=fake) "a" ;; RestartServer "a") busy_world) in
  let w := put_rt (mkFake (<["fake-1" := StatusCrashed]> (containers (w_rt w))) 2) w in
  let w' := snd (alone (tick_steps seen_running) w) in
  bool_decide ("a" ∈ w_manual w) = true ∧ sr_last_crash_at <$> db_servers (w_db w') = [None] ∧ w_manual w' = ∅.
Proof. vm_compute. repeat split. Qed.
