(* ===== verification/Update.v ===== *)
(** * Self-update ([internal/update])

    Verification of a release, the versioned slots with their state manifest and
    symbolic links, application and rollback, retention, the hand-off.  The
    download, SHA-256, the signature, JSON and the candidate's health check are
    parameters. *)

From S2P Require Import Prelude GoLib GoPath GoOS.

(** ** Definitions *)

(** *** [release.go] *)

Record Release := mkRelease {
  re_Version : string; re_BinaryURL : string; re_SHA256 : string; re_Signature : string;
  re_GOOS : string; re_GOARCH : string }.

Definition validateVersion (version : string) : res unit :=
  if (version =s "") || (version =s ".") || (version =s "..") || (version =s "current") ||
     (version =s "previous") || (version =s "state.json") ||
     negb (Base version =s version) || IsAbs version
  then Err (Errorf "invalid release version %q" [version])
  else Ok tt.

(** [ReleaseVerifier.Verify] *)
Definition ReleaseVerifier : Type := Release → string → res unit.

(** [^[0-9a-f]{64}$] *)
Definition sha256_hex (s : string) : bool :=
  (String.length s =? 64)%nat && bytes_all is_hex_lower s.

Section Release.
(** [hex.EncodeToString] of [sha256.Sum256] *)
Context (sha256 : string → string).

Definition verifyRelease (release : Release) (body : string) (verifier : option ReleaseVerifier) : res unit :=
  match validateVersion (re_Version release) with
  | Err e => Err e
  | Ok _ =>
      if re_BinaryURL release =s "" then Err (Errorf "release binary URL is required" [])
      else
        let want := re_SHA256 release in
        if negb (sha256_hex want) then Err (Errorf "release SHA-256 is invalid" [])
        else
          let got := sha256 body in
          if negb (got =s want)
          then Err (Errorf "release checksum mismatch: got %s, want %s" [got; want])
          else match verifier with
               | None => Err (Errorf "release verifier is required" [])
               | Some verify =>
                   if re_Signature release =s "" then Err (Errorf "release signature is required" [])
                   else match verify release body with
                        | Err e => Err (Errorw "release signature verification failed" [] e)
                        | Ok _ => Ok tt
                        end
               end
  end.
End Release.

(** *** [slots.go] *)

Record slotState := mkSlots { sl_Current : string; sl_Previous : string }.

#[global] Instance slotState_eq_dec : EqDecision slotState.
Proof. solve_decision. Defined.

Record SlotConfig := mkSlotConfig {
  so_Root : string; so_Backup : option (M OS unit); so_Project : option (M OS unit) }.

Section Slots.
(** [json.Marshal], [json.Unmarshal] of a [slotState] *)
Context (json_Marshal : slotState → string) (json_Unmarshal : string → res slotState).
Context (c : SlotConfig).

Definition validate : res unit :=
  if so_Root c =s "" then Err (Errorf "slot root is required" []) else Ok tt.

(** The links, for a root from before the manifest. *)
Definition load_links : M OS slotState :=
  current ← wrap "read current slot" [] (Readlink (Join [so_Root c; "current"]));
  lift_res (validateVersion current);;
  r ← try (Readlink (Join [so_Root c; "previous"]));
  let previous := match r with Ok p => p | Err _ => "" end in
  (if negb (previous =s "") then lift_res (validateVersion previous) else mret tt);;
  mret (mkSlots current previous).

Definition loadState : M OS slotState :=
  r ← try (ReadFile (Join [so_Root c; "state.json"]));
  match r with
  | Ok data =>
      state ← wrap "decode slot state" [] (lift_res (json_Unmarshal data));
      wrap "invalid current slot state" [] (lift_res (validateVersion (sl_Current state)));;
      (if negb (sl_Previous state =s "")
       then wrap "invalid previous slot state" [] (lift_res (validateVersion (sl_Previous state)))
       else mret tt);;
      mret state
  | Err e => if negb (IsNotExist e) then fail e else load_links
  end.

(** [saveState] after [os.CreateTemp]. *)
Definition fill_state (path data : string) : M OS unit :=
  temp_Chmod path 420;;
  temp_Write path data;;
  temp_Close path.

Definition saveState (state : slotState) : M OS unit :=
  path ← CreateTemp (so_Root c) ".state-" "";
  defer (fill_state path (json_Marshal state);; Rename path (Join [so_Root c; "state.json"]))
    (Remove path).

(** [replaceSymlink] after [os.CreateTemp]. *)
Definition swap_link (root name target tmpPath : string) : M OS unit :=
  r ← try (temp_Close tmpPath);
  match r with
  | Err e => ignore (Remove tmpPath);; fail e
  | Ok _ =>
      Remove tmpPath;;
      Symlink target tmpPath;;
      r ← try (Rename tmpPath (Join [root; name]));
      match r with
      | Err e => ignore (Remove tmpPath);; fail e
      | Ok _ => mret tt
      end
  end.

Definition replaceSymlink (root name target : string) : M OS unit :=
  tmpPath ← CreateTemp root ("." +:+ name +:+ "-") "";
  swap_link root name target tmpPath.

Definition projectStateDirect (state : slotState) : M OS unit :=
  replaceSymlink (so_Root c) "current" (sl_Current state);;
  if negb (sl_Previous state =s "") then replaceSymlink (so_Root c) "previous" (sl_Previous state)
  else ignore (Remove (Join [so_Root c; "previous"])).

Definition projectState (state : slotState) : M OS unit :=
  match so_Project c with Some p => p | None => mret tt end;;
  projectStateDirect state.

(** The result is an error in every case. *)
Definition restoreState {A} (state : slotState) (cause : error) : M OS A :=
  r ← try (saveState state);
  match r with
  | Err _ => fail (Errorw "%w; restore manifest: %v" [] cause)
  | Ok _ =>
      r ← try (projectState state);
      match r with
      | Err _ => fail (Errorw "%w; restore projections: %v" [] cause)
      | Ok _ => fail cause
      end
  end.

(** *** [manager.go] *)

Record HttpResponse := mkResponse { hr_StatusCode : Z; hr_Status : string; hr_Body : res string }.

(** [http.Get] at this moment. *)
Context (http_Get : string → res HttpResponse).

Definition download (url : string) : res string :=
  match http_Get url with
  | Err e => Err e
  | Ok response =>
      if (hr_StatusCode response <? 200) || (300 <=? hr_StatusCode response)
      then Err (Errorf "download release: HTTP %s" [hr_Status response])
      else hr_Body response
  end.

Context (sha256 : string → string).
(** [manager.verify], [manager.health] *)
Context (verify : option ReleaseVerifier) (health : option (string → M OS unit)).

Definition run_health (msg path : string) : M OS unit :=
  match health with Some run => wrap msg [] (run path) | None => mret tt end.

Definition Check (release : Release) : res unit :=
  match download (re_BinaryURL release) with
  | Err e => Err e
  | Ok body => verifyRelease sha256 release body verify
  end.

(** [Apply] once the manifest is saved. *)
Definition switch_slots (state newState : slotState) : M OS unit :=
  r ← try (projectState newState);
  match r with
  | Err e => restoreState state (Errorw "project slot state" [] e)
  | Ok _ =>
      r ← try (match health with
               | Some run => run (Join [so_Root c; "current"])
               | None => mret tt
               end);
      match r with
      | Err e => restoreState state (Errorw "post-switch health check" [] e)
      | Ok _ => mret tt
      end
  end.

(** [Apply] once the candidate is in its slot: the health check and the manifest; if
    they fail the slot is removed. *)
Definition commit_candidate (candidate : string) (newState : slotState) : M OS unit :=
  r ← try (run_health "candidate health check" candidate;; saveState newState);
  match r with
  | Err e => ignore (RemoveAll candidate);; fail e
  | Ok _ => mret tt
  end.

Definition install (tmpPath candidate body : string) : M OS unit :=
  temp_Write tmpPath body;;
  temp_Close tmpPath;;
  Chmod tmpPath 493;;
  RemoveAll candidate;;
  Rename tmpPath candidate.

Definition Apply (release : Release) : M OS unit :=
  lift_res validate;;
  body ← lift_res (download (re_BinaryURL release));
  lift_res (verifyRelease sha256 release body verify);;
  state ← wrap "read current slot" [] loadState;
  fail_if ((re_Version release =s sl_Current state) || (re_Version release =s sl_Previous state))
    (Errorf "release version %q is already an active or previous slot" [re_Version release]);;
  match so_Backup c with
  | Some backup => wrap "backup before update" [] backup
  | None => mret tt
  end;;
  MkdirAll (so_Root c);;
  tmpPath ← CreateTemp (so_Root c) ".candidate-" "";
  let candidate := Join [so_Root c; re_Version release] in
  let newState := mkSlots (re_Version release) (sl_Current state) in
  defer (
    install tmpPath candidate body;;
    commit_candidate candidate newState;;
    switch_slots state newState)
    (Remove tmpPath).

Definition Rollback : M OS unit :=
  lift_res validate;;
  state ← wrap "read previous slot" [] loadState;
  fail_if (sl_Previous state =s "") (Errorf "previous slot is unavailable" []);;
  let newState := mkSlots (sl_Previous state) (sl_Current state) in
  saveState newState;;
  r ← try (projectState newState);
  match r with
  | Err e => restoreState state (Errorw "rollback projection" [] e)
  | Ok _ => mret tt
  end.
End Slots.

(** *** [retention.go] *)

(** The loop from the newest: [protected] grows to at most [bound] versions. *)
Fixpoint protect (bound : Z) (newest_first : list string) (protected : gset string) : gset string :=
  match newest_first with
  | [] => protected
  | v :: vs => if Z.of_nat (size protected) <? bound then protect bound vs ({[v]} ∪ protected) else protected
  end.

Definition VersionsToRemove (versions : list string) (current previous : string) (keep : Z) : list string :=
  let keep := if keep <? 0 then 0 else keep in
  let sorted := isort String.leb versions in
  let protected := protect (keep + 2) (rev sorted) {[current; previous]} in
  filter (λ v, v ∉ protected) sorted.

(** *** [handoff.go] *)

Record HandoffActions (S : Type) := mkHandoff {
  ha_Backup : M S unit; ha_HealthCheck : string → M S unit; ha_Migrate : M S unit;
  ha_Drain : M S unit; ha_Takeover : M S unit; ha_Exit : M S unit }.
Arguments mkHandoff {S}.
Arguments ha_Backup {S}.
Arguments ha_HealthCheck {S}.
Arguments ha_Migrate {S}.
Arguments ha_Drain {S}.
Arguments ha_Takeover {S}.
Arguments ha_Exit {S}.

Definition RunHandoff {S} (actions : HandoffActions S) (candidate : string) : M S unit :=
  ha_Backup actions;;
  ha_HealthCheck actions candidate;;
  ha_Migrate actions;;
  ha_Drain actions;;
  ha_Takeover actions;;
  ha_Exit actions.
