(* ===== verification/UpdateFacts.v ===== *)
(** * Facts about the update slots

    Slot paths, and what saving the manifest, replacing a link and installing a
    candidate do to the tree, whatever fails. *)

From S2P Require Import Prelude GoLib GoPath GoOS GoOSFacts AtomicFile Update.
From Stdlib Require Import Ascii.

(** ** Lemmas *)

(** *** Versions *)

Lemma Base_no_slash v : Base v = v → IsAbs v = false →
  v ≠ "" → bytes_all (λ x, bool_decide (x ≠ slash)) v = true.
Proof.
  intros HB Ha Hne. revert HB. unfold Base. rewrite (proj2 (String.eqb_neq v "") Hne).
  destruct (rev _) as [|c l] eqn:E; [by intros <-|]. intros ->.
  assert (v ∈ filter (λ c, bool_decide (c ≠ "") = true) (Split slash v)) as Hin.
  { apply list_elem_of_In. rewrite in_rev, E. by left. }
  apply list_elem_of_filter in Hin as [_ Hin]. by eapply Split_no_sep.
Qed.

Lemma validateVersion_Ok v u :
  validateVersion v = Ok u → entry_ok v ∧ v ∉ ["current"; "previous"; "state.json"].
Proof.
  unfold validateVersion. destruct (_ || IsAbs v) eqn:E; [done|]. intros _.
  rewrite !orb_false_iff, !String.eqb_neq, negb_false_iff, String.eqb_eq in E.
  destruct E as [[[[[[[H1 H2] H3] H4] H5] H6] H7] H8].
  split; [|set_solver]. split; [|done]. split; [done|]. split; [done|]. by apply Base_no_slash.
Qed.

Lemma HasPrefix_slash_version v u : validateVersion v = Ok u → v ≠ "".
Proof. intros [[[H _] _] _]%validateVersion_Ok. done. Qed.

(** *** Slot paths *)

Section Root.
Context (root : string) (D : path).
Context (Hroot : direct root) (HD : comps root = D).

Lemma slot_path x : entry_ok x → direct (Join [root; x]) ∧ comps (Join [root; x]) = D ++ [x].
Proof. rewrite <- HD. by apply entry_path. Qed.

Lemma slot_ne x : D ++ [x] ≠ [].
Proof. by destruct D. Qed.

(** What keeps the existing directories keeps [root] free of links. *)
Lemma keeps_root R t t' :
  tree_ok t → node_at t D = Some NDir → keeps_nodes R t t' → (∀ k, R k → ¬ below k D) →
  no_link t' D ∧ node_at t' D = Some NDir.
Proof.
  clear HD. intros Ht Hn Hk HR.
  assert (∀ q, below q D → q ≠ [] → t' !! q = Some NDir) as Hq.
  { intros q Hb Hq. assert (t !! q = Some NDir) as Hq'.
    { destruct (decide (q = D)) as [->|Hne]; [by destruct D|].
      destruct D as [|x l] eqn:ED; [by apply prefix_nil_inv in Hb|].
      pose proof (tree_ok_below t q (x :: l) NDir Ht Hn Hb Hne) as H. by destruct q. }
    destruct (Hk q NDir Hq') as [Hr|?]; [|done]. by destruct (HR q Hr). }
  split.
  - intros q c tg Hb. rewrite Hq; [done|exact Hb|by destruct q].
  - destruct D as [|x l] eqn:ED; [done|]. simpl. apply Hq; [apply below_refl|done].
Qed.

Lemma slot_not_below x : ¬ below (D ++ [x]) D.
Proof. intros [y Hy]. apply (f_equal length) in Hy. rewrite !length_app in Hy. simpl in Hy. lia. Qed.

(** *** The manifest *)

Lemma fill_state_fills name data :
  direct name → comps name ≠ [] → fills name data (fill_state name data).
Proof.
  intros Hd Hne o r o' Hl Ht. unfold fill_state, mbind, M_bind.
  destruct (temp_Chmod name 420 o) as [r1 o1] eqn:E1.
  assert (puts_file o o1 name) as W1 by (by apply (Chmod_effect o o1 name Hd 420 r1)).
  pose proof (puts_file_ok _ _ _ W1 Ht) as T1. pose proof (puts_file_links _ _ _ W1) as N1.
  pose proof (puts_file_changes _ _ _ (λ k, k = comps name) W1 eq_refl) as C1.
  destruct r1 as [u1|e]; [|by intros [= <- <-]].
  pose proof (no_link_no_new _ _ _ N1 Hl) as Hl1.
  destruct (temp_Write name data o1) as [r2 o2] eqn:E2.
  assert (puts_file o1 o2 name) as W2 by (by apply (WriteFile_effect o1 o2 name Hd data 384 r2)).
  pose proof (puts_file_ok _ _ _ W2 T1) as T2.
  pose proof (no_new_links_trans _ _ _ N1 (puts_file_links _ _ _ W2)) as N2.
  pose proof (changes_trans _ _ _ _ C1 (puts_file_changes _ _ _ (λ k, k = comps name) W2 eq_refl)) as C2.
  destruct r2 as [[]|e]; [|intros [= <- <-]; by repeat split].
  pose proof (reads_temp_Close name o2) as R3.
  intros E3. rewrite E3 in R3. simpl in R3. rewrite R3.
  repeat split; try done. intros _. destruct (WriteFile_Ok _ _ _ _ _ Hd Hl1 E2) as [m ->].
  exists m. by rewrite lookup_insert_eq.
Qed.

Lemma state_temp_ok z :
  comp_ok (".state-" +:+ FormatInt z +:+ "") ∧ ".state-" +:+ FormatInt z +:+ "" ≠ "..".
Proof.
  split; [split; [done|split; [done|]]|done]. by rewrite !bytes_all_app, FormatInt_no_slash.
Qed.

Lemma entry_state : entry_ok "state.json".
Proof. by repeat split. Qed.

Lemma saveState_effect marshal c s o r o' :
  so_Root c = root → tree_ok (os_tree o) → no_link (os_tree o) (D ++ ["state.json"]) →
  saveState marshal c s o = (r, o') →
  tree_ok (os_tree o') ∧ no_new_links (os_tree o) (os_tree o') ∧
  keeps_nodes (λ k, r = Ok tt ∧ k = D ++ ["state.json"]) (os_tree o) (os_tree o') ∧
  (r = Ok tt → ∃ m, os_tree o' !! (D ++ ["state.json"]) = Some (NFile (marshal s) m)).
Proof.
  intros Hc Ht Hl H. unfold saveState in H. rewrite Hc in H.
  destruct (slot_path "state.json" entry_state) as [Hdp Hp].
  refine (atomic_replace D "state.json" root (Join [root; "state.json"]) ".state-" "" (marshal s)
    (λ path, fill_state path (marshal s)) (λ path, Rename path (Join [root; "state.json"])) o r o'
    Hroot HD _ Hdp Hp Hl Ht state_temp_ok eq_refl (λ name, fill_state_fills name _)
    (λ name, renames_Rename name _) H).
  by eapply no_link_prefix; [exact Hl|exists ["state.json"]].
Qed.

(** *** Links *)

Lemma Symlink_effect target p o r o' :
  direct p → no_link_above (os_tree o) (comps p) → comps p ≠ [] → Symlink target p o = (r, o') →
  match r with
  | Ok _ => os_tree o !! comps p = None ∧ node_at (os_tree o) (removelast (comps p)) = Some NDir ∧
            os_tree o' = <[comps p := NLink target]> (os_tree o)
  | Err _ => os_tree o' = os_tree o
  end.
Proof.
  intros Hd Hl Hne [(e & -> & -> & _)|([] & t & H & -> & ->)]%syscall_inv; simpl; [done|].
  destruct (resolve _ _ p) as [k|] eqn:E; [|done]. apply resolve_above in E as [-> E]; [|done..].
  simpl in *. destruct (node_at (os_tree o) (comps p)) eqn:En; [done|]. injection H as <-.
  destruct (comps p) as [|x l]; [done|]. simpl in En. split; [done|]. split; [by apply E|done].
Qed.

(** [swap_link] on a fresh temporary file [D/c]: outside of it only [D/name] changes, and
    only on success. *)
Section Swap.
Context (name c target tmp : string).
Context (Hname : entry_ok name) (Hcn : c ≠ name) (Htmp : direct tmp) (Hc : comps tmp = D ++ [c]).

Local Abbreviation region := (below (D ++ [c])).

(** The state of the directory while the temporary name is worked on. *)
Definition at_work (t0 t : tree) : Prop :=
  tree_ok t ∧ no_link t D ∧ node_at t D = Some NDir ∧ changes region t0 t.

Lemma tmp_above t0 t : at_work t0 t → no_link_above t (comps tmp).
Proof. intros (_ & Hl & _). rewrite Hc. by apply no_link_above_snoc. Qed.

Lemma at_work_next t0 t t' :
  at_work t0 t → tree_ok t' → changes region t t' → at_work t0 t'.
Proof.
  intros (Ht & Hl & Hn & Hch) Ht' Hch'. split; [done|].
  destruct (keeps_root region t t') as [? ?]; [done|done|by apply changes_keeps| |].
  { intros k Hb Hk. eapply slot_not_below. unfold below in *. by etrans. }
  split; [done|]. split; [done|]. by eapply changes_trans.
Qed.

Lemma at_work_Remove t0 o r o' : at_work t0 (os_tree o) → Remove tmp o = (r, o') → at_work t0 (os_tree o').
Proof.
  intros Hw H. pose proof (tmp_above _ _ Hw) as Hl.
  apply (Remove_effect o o' tmp Htmp r Hl) in H. eapply at_work_next; [exact Hw| |].
  - eapply removes_ok; [exact H|by destruct Hw].
  - eapply removes_changes; [exact H|]. intros k. by rewrite Hc.
Qed.

Lemma at_work_Symlink t0 o r o' :
  at_work t0 (os_tree o) → Symlink target tmp o = (r, o') →
  at_work t0 (os_tree o') ∧ (∀ u, r = Ok u → os_tree o' !! comps tmp = Some (NLink target)).
Proof.
  intros Hw H. pose proof (tmp_above _ _ Hw) as Hl.
  apply Symlink_effect in H; [|done|done|rewrite Hc; apply slot_ne].
  destruct r as [u|e]; [|rewrite H; split; [done|intros ? [=]]].
  destruct H as (Hn & Hp & ->). split.
  - eapply at_work_next; [exact Hw| |].
    + apply tree_ok_insert; [by destruct Hw|rewrite Hc; apply slot_ne|done|left; by rewrite Hn].
    + rewrite Hc. apply changes_insert, below_refl.
  - intros ? _. by rewrite lookup_insert_eq.
Qed.

(** The link in place. *)
Definition swapped (t0 t : tree) : Prop :=
  tree_ok t ∧ no_link t D ∧ changes (λ k, region k ∨ k = D ++ [name]) t0 t ∧
  t !! (D ++ [name]) = Some (NLink target).

Lemma at_work_Rename t0 o r o' :
  at_work t0 (os_tree o) → os_tree o !! comps tmp = Some (NLink target) →
  Rename tmp (Join [root; name]) o = (r, o') →
  match r with Ok _ => swapped t0 (os_tree o') | Err _ => at_work t0 (os_tree o') end.
Proof.
  intros Hw Hl H. destruct (slot_path name Hname) as [Hdn Hcname].
  pose proof (tmp_above _ _ Hw) as Ha. pose proof Hw as (Ht & Hln & Hn & Hch).
  assert (no_link_above (os_tree o) (comps (Join [root; name]))) as Ha'
    by (rewrite Hcname; by apply no_link_above_snoc).
  assert (comps tmp ≠ [] ∧ comps (Join [root; name]) ≠ []) as [Hne Hne'] by (rewrite Hc, Hcname; split; apply slot_ne).
  pose proof (Rename_ok o o' tmp Htmp _ r Hdn Ha Ha' Hne Hne' H Ht) as Ht'.
  apply (Rename_leaf_effect tmp (Join [root; name]) o r o' (NLink target)) in H; [|done..].
  destruct r as [u|e]; [|by rewrite H].
  destruct H as [[E _]|(_ & Hx & Hxn & Hch')].
  { rewrite Hc, Hcname in E. by apply app_inv_head in E as [= ?]. }
  rewrite Hcname in Hx, Hch'. rewrite Hc in Hch'.
  destruct (keeps_root (λ k, k = D ++ [c] ∨ k = D ++ [name]) (os_tree o) (os_tree o')) as [? ?];
    [done|done|by apply changes_keeps| |].
  { intros k [->| ->]; apply slot_not_below. }
  split; [done|]. split; [done|]. split; [|done].
  eapply changes_trans; [eapply changes_mono; [|exact Hch]; by left|].
  eapply changes_mono; [|exact Hch']. intros k [->| ->]; [left; apply below_refl|by right].
Qed.

Lemma swap_link_effect o r o' :
  at_work (os_tree o) (os_tree o) → swap_link root name target tmp o = (r, o') →
  match r with Ok _ => swapped (os_tree o) (os_tree o') | Err _ => at_work (os_tree o) (os_tree o') end.
Proof.
  intros Hw. unfold swap_link, try, ignore, mbind, M_bind.
  pose proof (reads_temp_Close tmp o) as R1. destruct (temp_Close tmp o) as [r1 o1]. simpl in R1.
  set (t0 := os_tree o) in *. assert (at_work t0 (os_tree o1)) as Hw1 by (by rewrite R1).
  destruct r1 as [u1|e].
  2:{ destruct (Remove tmp o1) as [r2 o2] eqn:E2. intros [= <- <-]. by eapply at_work_Remove. }
  destruct (Remove tmp o1) as [r2 o2] eqn:E2. apply (at_work_Remove t0) in E2; [|done].
  destruct r2 as [u2|e]; [|by intros [= <- <-]].
  destruct (Symlink target tmp o2) as [r3 o3] eqn:E3. apply (at_work_Symlink t0) in E3 as [Hw3 Hl3]; [|done].
  destruct r3 as [u3|e]; [|by intros [= <- <-]].
  destruct (Rename tmp _ o3) as [r4 o4] eqn:E4. apply (at_work_Rename t0) in E4; [|done|by eapply Hl3].
  destruct r4 as [u4|e]; [by intros [= <- <-]|].
  destruct (Remove tmp o4) as [r5 o5] eqn:E5. intros [= <- <-]. by eapply at_work_Remove.
Qed.
End Swap.

Lemma replaceSymlink_effect name target o r o' :
  entry_ok name → HasPrefix name ("." +:+ name +:+ "-") = false →
  (∀ z, comp_ok (("." +:+ name +:+ "-") +:+ FormatInt z +:+ "") ∧ ("." +:+ name +:+ "-") +:+ FormatInt z +:+ "" ≠ "..") →
  tree_ok (os_tree o) → no_link (os_tree o) D →
  replaceSymlink root name target o = (r, o') →
  tree_ok (os_tree o') ∧ no_link (os_tree o') D ∧
  keeps_nodes (λ k, r = Ok tt ∧ k = D ++ [name]) (os_tree o) (os_tree o') ∧
  (r = Ok tt → os_tree o' !! (D ++ [name]) = Some (NLink target)).
Proof.
  intros Hname Hpre Hok Ht Hl H. unfold replaceSymlink, mbind, M_bind in H.
  destruct (CreateTemp _ _ _ o) as [r1 o1] eqn:E1.
  apply CreateTemp_effect in E1; [|done|by rewrite HD|done]. destruct r1 as [tmp|e].
  2:{ injection H as <- <-. rewrite E1. do 2 (split; [done|]). split; [apply keeps_nodes_refl|intros [=]]. }
  destruct E1 as (Hdt & c & Hcok & Hcp & Hc & Hnone & Hdirn & Ho1). rewrite HD in Hc, Hdirn.
  assert (c ≠ name) as Hcn by congruence.
  assert (∀ k n, os_tree o !! k = Some n → ¬ below (D ++ [c]) k) as Hfree.
  { intros k n Hk Hb. rewrite <- Hc in Hb. rewrite (below_none _ _ _ Ht Hnone Hb) in Hk; [done|].
    rewrite Hc. apply slot_ne. }
  assert (changes (below (D ++ [c])) (os_tree o) (os_tree o1)) as Hch.
  { rewrite Ho1, Hc. apply changes_insert, below_refl. }
  destruct (keeps_root (below (D ++ [c])) (os_tree o) (os_tree o1)) as [Hl1 Hn1];
    [done|done|by apply changes_keeps| |].
  { intros k Hb Hk. eapply slot_not_below. unfold below in *. by etrans. }
  assert (tree_ok (os_tree o1)) as Ht1.
  { rewrite Ho1. apply tree_ok_insert; [done|rewrite Hc; apply slot_ne|rewrite Hc, removelast_last; done|].
    left. by rewrite Hnone. }
  apply (swap_link_effect name c target tmp Hname Hcn Hdt Hc) in H.
  2:{ split; [done|]. split; [done|]. split; [done|apply changes_refl]. }
  assert (∀ R t', changes (λ k, below (D ++ [c]) k ∨ R k) (os_tree o1) t' → keeps_nodes R (os_tree o) t') as Hkeep.
  { intros R t' Hch' k n Hk. pose proof (Hfree k n Hk) as Hf.
    destruct (Hch' k) as [->|[?|?]]; [|done|by left]. right. destruct (Hch k) as [->|?]; done. }
  destruct r as [[]|e].
  - destruct H as (H1 & H2 & H3 & H4). do 2 (split; [done|]). split; [|done].
    apply Hkeep. eapply changes_mono; [|exact H3]. intros k [?| ->]; [by left|by right].
  - destruct H as (H1 & H2 & _ & H3). do 2 (split; [done|]). split; [|intros [=]].
    apply Hkeep. eapply changes_mono; [|exact H3]. by left.
Qed.
End Root.
