(* ===== verification/UpdateSpec.v ===== *)
(** * What the updater promises

    Nothing is installed unverified; the slots switch atomically; rollback;
    retention. *)

From S2P Require Import Prelude GoLib GoPath GoOS GoOSFacts AtomicFile Codec Update UpdateFacts.

(** ** Definitions *)

Section Slots.
Context (json_Marshal : slotState → string) (json_Unmarshal : string → res slotState).
Context (root : string) (D : path).

Definition slot (x : string) : path := D ++ [x].

(** Names of 7-bit text: what JSON gives back as it was. *)
Definition ascii (c : Ascii.ascii) : bool := (Ascii.N_of_ascii c <? 128)%N.
Definition text (s : slotState) : Prop :=
  bytes_all ascii (sl_Current s) = true ∧ bytes_all ascii (sl_Previous s) = true.

(** What the updater relies on of the health check, the backup and the extra projection: the
    entries of the slot directory stay, and it is not turned into a link. *)
Definition harmless (m : M OS unit) : Prop := ∀ o r o',
  tree_ok (os_tree o) → no_link (os_tree o) D → m o = (r, o') →
  tree_ok (os_tree o') ∧ no_link (os_tree o') D ∧
  ∀ x n, os_tree o !! slot x = Some n → os_tree o' !! slot x = Some n.

(** The manifest says [s]. *)
Definition manifest (t : tree) (s : slotState) : Prop :=
  ∃ data m, t !! slot "state.json" = Some (NFile data m) ∧ json_Unmarshal data = Ok s.

(** The slot directory with manifest [s], in which the slot [cur] holds [n]. *)
Definition slots (cur : string) (n : fnode) (s : slotState) (t : tree) : Prop :=
  tree_ok t ∧ no_link t D ∧ manifest t s ∧ t !! slot cur = Some n.

(** The slot [v] holds the binary [body]. *)
Definition installed (v body : string) (t : tree) : Prop := ∃ m, t !! slot v = Some (NFile body m).
End Slots.

(** ** Lemmas *)

Lemma ReadFile_inv p o r o' data m :
  direct p → comps p ≠ [] → tree_ok (os_tree o) → no_link (os_tree o) (comps p) →
  os_tree o !! comps p = Some (NFile data m) → ReadFile p o = (r, o') →
  os_tree o' = os_tree o ∧ match r with Ok d => d = data | Err e => IsNotExist e = false end.
Proof.
  intros Hd Hne Ht Hl Hp H. unfold ReadFile in H.
  assert (∀ fs, resolve (mkOS (os_tree o) (os_cwd o) (os_rand o) fs) true p = Ok (comps p)) as Hres.
  { intros fs. apply (resolve_exists _ true p (NFile data m)); done. }
  assert (node_at (os_tree o) (comps p) = Some (NFile data m)) as Hn by (by destruct (comps p)).
  apply syscall_inv in H as [(e & -> & -> & [[x ->]|H])|(a & t & H & -> & ->)]; simpl in *.
  - done.
  - rewrite Hres, Hn in H. discriminate.
  - rewrite Hres, Hn in H. by injection H as <- <-.
Qed.

Lemma RemoveAll_Ok p o u o' :
  direct p → p ≠ "" → tree_ok (os_tree o) → no_link_above (os_tree o) (comps p) → comps p ≠ [] →
  RemoveAll p o = (Ok u, o') → os_tree o' !! comps p = None.
Proof.
  intros Hd Hp Ht Hl Hne H. unfold RemoveAll in H.
  apply syscall_inv in H as [(e & ? & _)|(a & t & H & _ & ->)]; [done|]. simpl in *.
  rewrite (proj2 (String.eqb_neq p "") Hp) in H.
  destruct (resolve _ false p) as [k|e] eqn:E.
  - apply resolve_above in E as [-> _]; [|done..]. injection H as _ <-.
    by rewrite lookup_remove_tree, decide_True by apply below_refl.
  - destruct (IsNotExist e) eqn:Ee; [|done]. injection H as _ <-.
    apply bool_decide_eq_true in Ee as ->. destruct Hd as [Ha Hpl].
    unfold resolve, start_dir in E. rewrite Ha, (proj2 (String.eqb_neq p "") Hp) in E.
    apply walk_ENOENT in E; [done|done|done|]. intros q c tg Hpre Hlast. by apply Hl; [|apply Hlast].
Qed.

(** *** The steps of an update *)

Section Steps.
Context (json_Marshal : slotState → string) (json_Unmarshal : string → res slotState).
Context (json_law : ∀ s, text s → json_Unmarshal (json_Marshal s) = Ok s).
Context (root : string) (D : path) (Hroot : direct root) (HD : comps root = D).
Context (c : SlotConfig) (Hcroot : so_Root c = root).
Context (cur : string) (ncur : fnode) (Hcur : cur ∉ ["current"; "previous"; "state.json"]).
Context (v body : string) (Hv : v ∉ ["current"; "previous"; "state.json"]).

Local Abbreviation slot := (slot D).
Local Abbreviation St := (slots json_Unmarshal D cur ncur).
Local Abbreviation V := (installed D v body).

Lemma slot_inj x y : slot x = slot y → x = y.
Proof. intros H. apply app_inv_head in H. by injection H. Qed.

Lemma St_no_link s t : St s t → no_link t (D ++ ["state.json"]).
Proof.
  intros (Ht & Hl & (data & m & Hk & _) & _). apply no_link_above_last; [by apply no_link_above_snoc|].
  intros tg E. assert (t !! slot "state.json" = Some (NLink tg)) as E' by exact E. by rewrite Hk in E'.
Qed.

(** Steps that leave the manifest, or rewrite it. *)
Lemma St_step s t t' R :
  St s t → tree_ok t' → no_link t' D → keeps_nodes R t t' →
  (∀ x, R (slot x) → x ∈ ["current"; "previous"]) → St s t'.
Proof.
  intros (_ & _ & (data & m & Hk & Hm) & Hcn) Ht Hl HR HRx. split; [done|]. split; [done|].
  split.
  - exists data, m. split; [|done]. destruct (HR _ _ Hk) as [Hx|?]; [|done]. apply HRx in Hx. set_solver.
  - destruct (HR _ _ Hcn) as [Hx|?]; [|done]. apply HRx in Hx. set_solver.
Qed.

Lemma V_step t t' R : V t → keeps_nodes R t t' → (∀ x, R (slot x) → x ∈ ["current"; "previous"; "state.json"]) → V t'.
Proof.
  intros [m Hm] HR HRx. exists m. destruct (HR _ _ Hm) as [Hx|?]; [|done]. by apply HRx in Hx.
Qed.

Lemma harmless_step m s o r o' :
  harmless D m → St s (os_tree o) → m o = (r, o') → St s (os_tree o') ∧ (V (os_tree o) → V (os_tree o')).
Proof.
  intros Hm (Ht & Hl & (data & md & Hk & Hu) & Hcn) H. apply Hm in H as (Ht' & Hl' & Hk'); [|done..].
  split; [split; [done|]; split; [done|]; split; [exists data, md; auto|auto]|].
  intros [m0 H0]. exists m0. auto.
Qed.

Lemma save_step s s1 o r o' :
  text s1 → St s (os_tree o) → saveState json_Marshal c s1 o = (r, o') →
  match r with Ok _ => St s1 (os_tree o') | Err _ => St s (os_tree o') end ∧ (V (os_tree o) → V (os_tree o')).
Proof.
  intros Htext HSt H. pose proof HSt as (Ht & Hl & _ & Hcn).
  apply (saveState_effect root D Hroot HD) in H as (Ht' & Hn & Hk & Hm); [|done|done|by eapply St_no_link].
  assert (no_link (os_tree o') D) as Hl' by (by eapply no_link_no_new).
  split.
  - destruct r as [[]|e].
    + destruct (Hm eq_refl) as [m Hm']. split; [done|]. split; [done|]. split.
      * exists (json_Marshal s1), m. split; [exact Hm'|by apply json_law].
      * destruct (Hk _ _ Hcn) as [[_ Hx]|?]; [|done]. apply slot_inj in Hx. set_solver.
    + eapply St_step; [exact HSt|done|done|exact Hk|]. by intros x [? _].
  - intros HV. eapply V_step; [exact HV|exact Hk|]. intros x [_ Hx]. apply slot_inj in Hx. set_solver.
Qed.

Lemma link_step name target s o r o' :
  name = "current" ∨ name = "previous" →
  St s (os_tree o) → replaceSymlink root name target o = (r, o') →
  St s (os_tree o') ∧ (V (os_tree o) → V (os_tree o')) ∧
  (r = Ok tt → os_tree o' !! slot name = Some (NLink target)) ∧
  (∀ x n, x ≠ name → os_tree o !! slot x = Some n → os_tree o' !! slot x = Some n).
Proof.
  intros Hname HSt H. pose proof HSt as (Ht & Hl & _).
  apply (replaceSymlink_effect root D Hroot HD) in H as (Ht' & Hl' & Hk & Hm);
    [|by destruct Hname as [->| ->]; repeat split|by destruct Hname as [->| ->]| |done|done].
  2:{ intros z. destruct Hname as [->| ->]; (split; [split; [done|split; [done|]]|done]);
      by rewrite !bytes_all_app, FormatInt_no_slash. }
  split; [|split; [|split]].
  - eapply St_step; [exact HSt|done|done|exact Hk|]. intros x [_ Hx]. apply slot_inj in Hx as ->. set_solver.
  - intros HV. eapply V_step; [exact HV|exact Hk|]. intros x [_ Hx]. apply slot_inj in Hx as ->. set_solver.
  - done.
  - intros x n Hx Hn. destruct (Hk _ _ Hn) as [[_ Hx']|?]; [by apply slot_inj in Hx'|done].
Qed.

(** Everything inside the entries [X]. *)
Definition region (X : list string) (k : path) : Prop := ∃ x, x ∈ X ∧ below (slot x) k.

Lemma region_slot X x : region X (slot x) → x ∈ X.
Proof.
  intros (y & Hy & Hb). destruct (decide (y = x)) as [->|Hne]; [done|].
  by destruct (not_below_sibling D y x Hne).
Qed.

Lemma St_changes X s t t' :
  St s t → tree_ok t' → changes (region X) t t' → "state.json" ∉ X → cur ∉ X →
  St s t' ∧ (v ∉ X → V t → V t').
Proof.
  intros (Ht & Hl & (data & m & Hk & Hu) & Hcn) Ht' Hch HX1 HX2.
  pose proof (changes_keeps _ _ _ Hch) as Hkeep.
  destruct (keeps_root D (region X) t t') as [Hl' _]; [done| |done| |].
  { by apply (Ht D "state.json" _ Hk). }
  { intros k (x & _ & Hb) Hk'. apply (slot_not_below D x). unfold below in *. by etrans. }
  assert (∀ x n, x ∉ X → t !! slot x = Some n → t' !! slot x = Some n) as Hx.
  { intros x n Hx Hn. destruct (Hkeep _ _ Hn) as [Hr|?]; [|done]. by apply region_slot in Hr. }
  split.
  - split; [done|]. split; [done|]. split; [exists data, m; auto|auto].
  - intros Hv' [m0 H0]. exists m0. auto.
Qed.

Lemma previous_step s o r o' :
  St s (os_tree o) → Remove (Join [root; "previous"]) o = (r, o') →
  St s (os_tree o') ∧ (V (os_tree o) → V (os_tree o')) ∧
  (∀ x n, x ≠ "previous" → os_tree o !! slot x = Some n → os_tree o' !! slot x = Some n).
Proof.
  intros HSt H. pose proof HSt as (Ht & Hl & _).
  destruct (slot_path root D Hroot HD "previous") as [Hdp Hp]; [by repeat split|].
  apply (Remove_effect o o' _ Hdp r) in H; [|rewrite Hp; by apply no_link_above_snoc].
  assert (changes (region ["previous"]) (os_tree o) (os_tree o')) as Hch.
  { eapply removes_changes; [exact H|]. intros k Hb. rewrite Hp in Hb. exists "previous". split; [left|done]. }
  destruct (St_changes ["previous"] s _ (os_tree o') HSt) as [H1 H2];
    [by eapply removes_ok|done|set_solver|set_solver|].
  split; [done|]. split; [apply H2; set_solver|].
  intros x n Hx Hn. destruct (changes_keeps _ _ _ Hch _ _ Hn) as [Hr|?]; [|done].
  apply region_slot in Hr. set_solver.
Qed.

Lemma project_step s x o r o' :
  match so_Project c with Some p => harmless D p | None => True end →
  St s (os_tree o) → projectState c x o = (r, o') →
  St s (os_tree o') ∧ (V (os_tree o) → V (os_tree o')) ∧
  (r = Ok tt → os_tree o' !! slot "current" = Some (NLink (sl_Current x))).
Proof.
  intros Hproj HSt. unfold projectState, mbind at 1, M_bind.
  assert (∃ r1 o1, match so_Project c with Some p => p | None => mret tt end o = (r1, o1) ∧
    St s (os_tree o1) ∧ (V (os_tree o) → V (os_tree o1))) as (r1 & o1 & -> & HSt1 & HV1).
  { destruct (so_Project c) as [p|]; [|by eexists _, _].
    destruct (p o) as [r1 o1] eqn:E. eexists _, _. split; [done|]. by eapply harmless_step. }
  destruct r1 as [u1|e]; [|by intros [= <- <-]].
  unfold projectStateDirect, mbind, M_bind. rewrite Hcroot.
  destruct (replaceSymlink root "current" (sl_Current x) o1) as [r2 o2] eqn:E2.
  apply (link_step "current" _ s) in E2 as (HSt2 & HV2 & Hc2 & _); [|by left|done].
  destruct r2 as [[]|e]; [|intros [= <- <-]; split; [done|split; [by auto|done]]].
  specialize (Hc2 eq_refl). destruct (negb (sl_Previous x =s "")).
  - intros E3. apply (link_step "previous" _ s) in E3 as (HSt3 & HV3 & _ & Hk3); [|by right|done].
    split; [done|]. split; [by auto|]. intros _. by apply Hk3.
  - unfold ignore. destruct (Remove _ o2) as [r3 o3] eqn:E3. intros [= <- <-].
    apply (previous_step s) in E3 as (HSt3 & HV3 & Hk3); [|done].
    split; [done|]. split; [by auto|]. intros _. by apply Hk3.
Qed.

Lemma restore_step s0 s1 cause o (r : res unit) o' :
  match so_Project c with Some p => harmless D p | None => True end →
  text s0 → St s1 (os_tree o) → V (os_tree o) → restoreState json_Marshal c s0 cause o = (r, o') →
  is_ok r = false ∧ V (os_tree o') ∧ (St s0 (os_tree o') ∨ St s1 (os_tree o')).
Proof.
  intros Hproj Htext HSt HV. unfold restoreState, try, mbind, M_bind.
  destruct (saveState json_Marshal c s0 o) as [r1 o1] eqn:E1.
  apply (save_step s1) in E1 as [HSt1 HV1]; [|done..].
  destruct r1 as [u1|e]; [|intros [= <- <-]; split; [done|]; auto].
  destruct (projectState c s0 o1) as [r2 o2] eqn:E2.
  apply (project_step s0) in E2 as (HSt2 & HV2 & _); [|done..].
  destruct r2; intros [= <- <-]; auto.
Qed.

(** The candidate is written to its temporary file [D/c0] and renamed into the slot [v]. *)
Section Install.
Context (tmp : string) (c0 : string) (Htmp : direct tmp) (Hc0 : comps tmp = D ++ [c0]).
Context (Hc0s : c0 ≠ "state.json") (Hc0c : c0 ≠ cur) (Hve : entry_ok v) (Hvc : v ≠ cur).

Local Abbreviation candidate := (Join [root; v]).

Lemma tmp_link s t : St s t → no_link_above t (comps tmp).
Proof. intros (_ & Hl & _). rewrite Hc0. by apply no_link_above_snoc. Qed.

Lemma tmp_ne : comps tmp ≠ [].
Proof. rewrite Hc0. by destruct D. Qed.

Lemma puts_tmp s o o' : St s (os_tree o) → puts_file o o' tmp → St s (os_tree o').
Proof.
  intros HSt H. refine (proj1 (St_changes [c0] s _ _ HSt _ _ _ _)).
  - eapply puts_file_ok; [exact H|by destruct HSt].
  - eapply puts_file_changes; [exact H|]. rewrite Hc0. exists c0. split; [left|apply below_refl].
  - set_solver.
  - set_solver.
Qed.

Lemma remove_tmp s o o' : St s (os_tree o) → removes o o' tmp →
  St s (os_tree o') ∧ (v ≠ c0 → V (os_tree o) → V (os_tree o')) ∧
  (∀ x n, x ≠ c0 → os_tree o !! slot x = Some n → os_tree o' !! slot x = Some n).
Proof.
  intros HSt H.
  assert (changes (region [c0]) (os_tree o) (os_tree o')) as Hch.
  { eapply removes_changes; [exact H|]. intros k Hb. rewrite Hc0 in Hb. exists c0. split; [left|done]. }
  destruct (St_changes [c0] s _ (os_tree o') HSt) as [H1 H2];
    [eapply removes_ok; [exact H|by destruct HSt]|done|set_solver|set_solver|].
  split; [done|]. split; [intros ?; apply H2; set_solver|].
  intros x n Hx Hn. destruct (changes_keeps _ _ _ Hch _ _ Hn) as [Hr|?]; [|done].
  apply region_slot in Hr. set_solver.
Qed.

Lemma remove_candidate s o o' : St s (os_tree o) → removes o o' candidate → St s (os_tree o').
Proof.
  intros HSt H. destruct (slot_path root D Hroot HD v Hve) as [_ Hp].
  refine (proj1 (St_changes [v] s _ _ HSt _ _ _ _)).
  - eapply removes_ok; [exact H|by destruct HSt].
  - eapply removes_changes; [exact H|]. intros k Hb. rewrite Hp in Hb. exists v. split; [left|done].
  - set_solver.
  - set_solver.
Qed.

Lemma candidate_rename s o r o' m :
  St s (os_tree o) → os_tree o !! comps tmp = Some (NFile body m) → c0 ≠ v →
  Rename tmp candidate o = (r, o') → St s (os_tree o') ∧ (r = Ok tt → V (os_tree o')).
Proof.
  intros HSt Hm Hne H. destruct (slot_path root D Hroot HD v Hve) as [Hdp Hp].
  pose proof (tmp_link s _ HSt) as Ha.
  assert (no_link_above (os_tree o) (comps candidate)) as Ha'
    by (rewrite Hp; destruct HSt as (_ & Hl & _); by apply no_link_above_snoc).
  assert (comps candidate ≠ []) as Hnec by (rewrite Hp; by destruct D).
  pose proof (Rename_ok o o' tmp Htmp _ r Hdp Ha Ha' tmp_ne Hnec H (proj1 HSt)) as Ht'.
  apply (Rename_leaf_effect tmp candidate o r o' (NFile body m)) in H;
    [|done|done|done|by destruct HSt|done|apply tmp_ne|done|done|done].
  destruct r as [u|e]; [|by rewrite H].
  destruct H as [[E _]|(_ & Hx & _ & Hch)].
  { rewrite Hc0, Hp in E. apply app_inv_head in E as [= ?]. done. }
  rewrite Hp in Hx. split; [|intros _; by exists m].
  refine (proj1 (St_changes [c0; v] s _ _ HSt Ht' _ _ _)); [|set_solver..].
  eapply changes_mono; [|exact Hch]. rewrite Hp, Hc0.
  intros k [->| ->]; [exists c0|exists v]; (split; [set_solver|apply below_refl]).
Qed.

Lemma install_step s o r o' :
  St s (os_tree o) → no_link (os_tree o) (comps tmp) → install tmp candidate body o = (r, o') →
  St s (os_tree o') ∧ (r = Ok tt → V (os_tree o') ∧ c0 ≠ v).
Proof.
  intros HSt Hl. unfold install, mbind, M_bind.
  destruct (slot_path root D Hroot HD v Hve) as [Hdp Hp].
  destruct (temp_Write tmp body o) as [r1 o1] eqn:E1.
  assert (puts_file o o1 tmp) as W1 by (by apply (WriteFile_effect o o1 tmp Htmp body 384 r1)).
  pose proof (puts_tmp s _ _ HSt W1) as HSt1.
  destruct r1 as [[]|e]; [|by intros [= <- <-]].
  apply WriteFile_Ok in E1 as [m1 Ho1]; [|done..].
  pose proof (reads_temp_Close tmp o1) as R2. destruct (temp_Close tmp o1) as [r2 o2]. simpl in R2.
  destruct r2 as [u2|e]; [|intros [= <- <-]; by rewrite R2].
  assert (os_tree o2 !! comps tmp = Some (NFile body m1)) as Hm2 by (by rewrite R2, Ho1, lookup_insert_eq).
  assert (no_link (os_tree o2) (comps tmp)) as Hl2.
  { rewrite R2. by eapply no_link_no_new; [eapply puts_file_links|]. }
  destruct (Chmod tmp 493 o2) as [r3 o3] eqn:E3.
  assert (puts_file o2 o3 tmp) as W3 by (by apply (Chmod_effect o2 o3 tmp Htmp 493 r3)).
  assert (St s (os_tree o3)) as HSt3 by (eapply puts_tmp; [by rewrite R2|done]).
  destruct r3 as [[]|e]; [|by intros [= <- <-]].
  eapply Chmod_Ok in E3; [|done|done|exact Hm2|apply tmp_ne].
  assert (os_tree o3 !! comps tmp = Some (NFile body 493)) as Hm3 by (by rewrite E3, lookup_insert_eq).
  destruct (RemoveAll candidate o3) as [r4 o4] eqn:E4.
  assert (no_link_above (os_tree o3) (comps candidate)) as Ha'
    by (rewrite Hp; destruct HSt3 as (_ & Hl3 & _); by apply no_link_above_snoc).
  assert (removes o3 o4 candidate) as W4 by (by apply (RemoveAll_effect o3 o4 _ Hdp r4)).
  pose proof (remove_candidate s _ _ HSt3 W4) as HSt4.
  destruct r4 as [u4|e]; [|by intros [= <- <-]].
  apply RemoveAll_Ok in E4; [|done| |by destruct HSt3|done|rewrite Hp; by destruct D].
  2:{ intros E. rewrite E in Hp. by destruct D. }
  destruct (decide (c0 = v)) as [Hcv|Hcv].
  - intros H. assert (comps tmp = comps candidate) as Hcc by (by rewrite Hc0, Hp, Hcv).
    apply (Rename_cases o4 o' tmp Htmp candidate r Hdp) in H;
      [|by eapply tmp_link|rewrite <- Hcc; by eapply tmp_link].
    destruct H as [[Hr ->]|[(_ & _ & Hn & _)|(_ & n & Hn & _)]].
    + split; [done|]. intros ->. done.
    + by rewrite Hcc in Hn.
    + rewrite Hcc in Hn. congruence.
  - intros H. apply (candidate_rename s _ r o' 493) in H as [H1 H2]; [|done| |done].
    + split; [done|]. intros Hr. auto.
    + destruct (removes_changes _ _ _ (below (slot v)) W4) with (k := comps tmp) as [->|Hb]; [|done|].
      * intros k. by rewrite Hp.
      * exfalso. rewrite Hc0 in Hb. by apply not_below_sibling in Hb.
Qed.
End Install.
End Steps.

Section LoadState.
Context (json_Unmarshal : string → res slotState).
Context (root : string) (D : path) (Hroot : direct root) (HD : comps root = D).
Context (c : SlotConfig) (Hcroot : so_Root c = root).

Lemma loadState_manifest s o r o' :
  tree_ok (os_tree o) → no_link (os_tree o) D → manifest json_Unmarshal D (os_tree o) s →
  loadState json_Unmarshal c o = (r, o') →
  os_tree o' = os_tree o ∧ ∀ st, r = Ok st →
    st = s ∧ validateVersion (sl_Current s) = Ok tt ∧
    (sl_Previous s = "" ∨ validateVersion (sl_Previous s) = Ok tt).
Proof.
  intros Ht Hl (data & m & Hk & Hu). unfold loadState, try, mbind, M_bind. rewrite Hcroot.
  destruct (slot_path root D Hroot HD "state.json" entry_state) as [Hdp Hp].
  destruct (ReadFile _ o) as [r1 o1] eqn:E1.
  apply (ReadFile_inv _ _ _ _ data m) in E1 as [Ho1 Hr1]; [|done|rewrite Hp; by destruct D|done| |by rewrite Hp].
  2:{ rewrite Hp. apply no_link_above_last; [by apply no_link_above_snoc|].
      intros tg E. assert (os_tree o !! slot D "state.json" = Some (NLink tg)) as E' by exact E. by rewrite Hk in E'. }
  destruct r1 as [d|e]; [subst d|rewrite Hr1; by intros [= <- <-]].
  rewrite Hu. unfold wrap, lift_res. destruct (validateVersion (sl_Current s)) as [[]|e]; [|by intros [= <- <-]].
  destruct (String.eqb_spec (sl_Previous s) "") as [Hp0|Hp0].
  - intros [= <- <-]. split; [done|]. intros ? [= <-]. auto.
  - destruct (validateVersion (sl_Previous s)) as [[]|e]; intros [= <- <-]; split; try done.
    intros ? [= <-]. auto.
Qed.
End LoadState.

Lemma candidate_temp_ok z :
  comp_ok (".candidate-" +:+ FormatInt z +:+ "") ∧ ".candidate-" +:+ FormatInt z +:+ "" ≠ "..".
Proof.
  split; [split; [done|split; [done|]]|done]. by rewrite !bytes_all_app, FormatInt_no_slash.
Qed.

(** ** Properties *)

Section Properties.
Context (json_Marshal : slotState → string) (json_Unmarshal : string → res slotState).
Context (json_law : ∀ s, text s → json_Unmarshal (json_Marshal s) = Ok s).
Context (http_Get : string → res HttpResponse) (sha256 : string → string).
Context (verify : option ReleaseVerifier) (health : option (string → M OS unit)).
Context (c : SlotConfig).

Local Abbreviation D := (comps (so_Root c)).

(** What is run from outside leaves the slots alone. *)
Definition harmless_config : Prop :=
  match so_Project c with Some p => harmless D p | None => True end ∧
  match so_Backup c with Some b => harmless D b | None => True end ∧
  match health with Some run => ∀ p, harmless D (run p) | None => True end.

Lemma health_harmless msg p : harmless_config → harmless D (run_health health msg p).
Proof.
  intros (_ & _ & Hh) o r o' Ht Hl H. unfold run_health in H. destruct health as [run|].
  - apply wrap_eq in H as (r' & H & _). by eapply Hh.
  - by injection H as <- <-.
Qed.

(** The end of [Apply]: the switch after the manifest is saved. *)
Lemma switch_step cur n v body old o r o' :
  direct (so_Root c) → cur ∉ ["current"; "previous"; "state.json"] → v ∉ ["current"; "previous"; "state.json"] →
  harmless_config → text old →
  let new := mkSlots v cur in
  slots json_Unmarshal D cur n new (os_tree o) → installed D v body (os_tree o) →
  switch_slots json_Marshal c health old new o = (r, o') →
  installed D v body (os_tree o') ∧
  (slots json_Unmarshal D cur n new (os_tree o') ∨ is_ok r = false ∧ slots json_Unmarshal D cur n old (os_tree o')) ∧
  (r = Ok tt → os_tree o' !! slot D "current" = Some (NLink v)).
Proof.
  intros Hroot Hcur Hv (Hproj & _ & Hh) Htext new HSt HV. unfold switch_slots, try, mbind, M_bind.
  destruct (projectState c new o) as [r1 o1] eqn:E1.
  eapply (project_step json_Marshal json_Unmarshal json_law (so_Root c) D Hroot eq_refl c eq_refl cur n Hcur v body Hv) in E1
    as (HSt1 & HV1 & Hcurrent); [|exact Hproj|exact HSt].
  assert (∀ cause o2 (r2 : res unit) o3, slots json_Unmarshal D cur n new (os_tree o2) → installed D v body (os_tree o2) →
    restoreState json_Marshal c old cause o2 = (r2, o3) →
    installed D v body (os_tree o3) ∧
    (slots json_Unmarshal D cur n new (os_tree o3) ∨ is_ok r2 = false ∧ slots json_Unmarshal D cur n old (os_tree o3)) ∧
    (r2 = Ok tt → os_tree o3 !! slot D "current" = Some (NLink v))) as Hrestore.
  { intros cause o2 r2 o3 HSt2 HV2 E. eapply (restore_step json_Marshal json_Unmarshal json_law (so_Root c) D Hroot eq_refl
      c eq_refl cur n Hcur v body Hv old new) in E as (Hr & HV3 & HSt3); [|exact Hproj|exact Htext|exact HSt2|exact HV2].
    split; [done|]. split; [destruct HSt3; auto|]. by intros ->. }
  destruct r1 as [[]|e]; [|by apply Hrestore; auto].
  destruct (match health with Some run => run (Join [so_Root c; "current"]) | None => mret tt end o1) as [r2 o2] eqn:E2.
  assert (harmless D (match health with Some run => run (Join [so_Root c; "current"]) | None => mret tt end)) as Hharm.
  { destruct health; [apply Hh|]. intros x y z Hx Hy [= _ <-]. done. }
  pose proof (Hharm o1 r2 o2 (proj1 HSt1) (proj1 (proj2 HSt1)) E2) as (_ & _ & Hk).
  eapply (harmless_step json_Unmarshal D cur n v body) in E2 as [HSt2 HV2]; [|exact Hharm|exact HSt1].
  destruct r2 as [[]|e]; [|by apply Hrestore; auto].
  intros [= <- <-]. split; [by auto|]. split; [by left|]. intros _. by apply Hk, Hcurrent.
Qed.

Lemma defer_inv {S A} (m : M S A) (f : M S unit) s r s' :
  defer m f s = (r, s') → ∃ s1 r1, m s = (r, s1) ∧ f s1 = (r1, s').
Proof.
  unfold defer, try, ignore, lift_res, mbind, M_bind. destruct (m s) as [r0 s1].
  destruct (f s1) as [r1 s2] eqn:E. intros [= <- <-]. eauto.
Qed.

(** The health check and the manifest; on a failure the slot is emptied. *)
Lemma commit_step cur n v body old o r o' :
  direct (so_Root c) → cur ∉ ["current"; "previous"; "state.json"] → v ∉ ["current"; "previous"; "state.json"] →
  entry_ok v → v ≠ cur → harmless_config → text (mkSlots v cur) →
  slots json_Unmarshal D cur n old (os_tree o) → installed D v body (os_tree o) →
  commit_candidate json_Marshal c health (Join [so_Root c; v]) (mkSlots v cur) o = (r, o') →
  match r with
  | Ok _ => slots json_Unmarshal D cur n (mkSlots v cur) (os_tree o') ∧ installed D v body (os_tree o')
  | Err _ => slots json_Unmarshal D cur n old (os_tree o')
  end.
Proof.
  intros Hroot Hcur Hv Hve Hvc Hharm Htext HSt HV. unfold commit_candidate, try, mbind, M_bind.
  destruct (slot_path (so_Root c) D Hroot eq_refl v Hve) as [Hdp Hp].
  assert (∀ o1 r1 o2, slots json_Unmarshal D cur n old (os_tree o1) →
    RemoveAll (Join [so_Root c; v]) o1 = (r1, o2) → slots json_Unmarshal D cur n old (os_tree o2)) as Hrm.
  { intros o1 r1 o2 HSt1 E. pose proof HSt1 as (Ht1 & Hl1 & _).
    apply (RemoveAll_effect o1 o2 _ Hdp) in E; [|rewrite Hp; by apply no_link_above_snoc].
    refine (proj1 (St_changes json_Unmarshal D cur n v body [v] old _ _ HSt1 _ _ _ _)).
    - by eapply removes_ok.
    - eapply removes_changes; [exact E|]. intros k Hb. rewrite Hp in Hb. exists v. split; [left|done].
    - set_solver.
    - set_solver. }
  destruct (run_health health _ _ o) as [r1 o1] eqn:E1.
  eapply (harmless_step json_Unmarshal D cur n v body) in E1 as [HSt1 HV1]; [|by apply health_harmless|exact HSt].
  destruct r1 as [u1|e].
  2:{ unfold ignore. destruct (RemoveAll _ o1) as [r2 o2] eqn:E2. intros [= <- <-]. by eapply Hrm. }
  destruct (saveState json_Marshal c _ o1) as [r2 o2] eqn:E2.
  eapply (save_step json_Marshal json_Unmarshal json_law (so_Root c) D Hroot eq_refl c eq_refl cur n Hcur v body Hv old)
    in E2 as [HSt2 HV2]; [|exact Htext|exact HSt1].
  destruct r2 as [u2|e].
  - intros [= <- <-]. auto.
  - unfold ignore. destruct (RemoveAll _ o2) as [r3 o3] eqn:E3. intros [= <- <-]. by eapply Hrm.
Qed.

(** How an update of the slots [old] to [release] may end, [n] being what the running slot held. *)
Definition update_outcome (release : Release) (old : slotState) (n : fnode) (r : res unit) (t : tree) : Prop :=
  let new := mkSlots (re_Version release) (sl_Current old) in
  t !! slot D (sl_Current old) = Some n ∧
  (manifest json_Unmarshal D t old ∧ is_ok r = false ∨
   manifest json_Unmarshal D t new ∧
   ∃ body m, t !! slot D (re_Version release) = Some (NFile body m) ∧
             verifyRelease sha256 release body verify = Ok tt) ∧
  (r = Ok tt → t !! slot D "current" = Some (NLink (re_Version release))).

Lemma outcome_failed release old n r t :
  is_ok r = false → slots json_Unmarshal D (sl_Current old) n old t → update_outcome release old n r t.
Proof. intros Hr (_ & _ & H1 & H2). split; [done|]. split; [by left|]. by intros ->. Qed.

(** [Apply] from the new temporary file on. *)
Lemma install_outcome release old n body tmp c0 o r o' :
  let v := re_Version release in
  let cur := sl_Current old in
  direct (so_Root c) → harmless_config → text old → text (mkSlots v cur) → verifyRelease sha256 release body verify = Ok tt →
  entry_ok v → v ∉ ["current"; "previous"; "state.json"] → cur ∉ ["current"; "previous"; "state.json"] → v ≠ cur →
  direct tmp → comps tmp = D ++ [c0] → c0 ≠ "state.json" → c0 ≠ cur → c0 ≠ "current" →
  no_link (os_tree o) (comps tmp) → slots json_Unmarshal D cur n old (os_tree o) →
  defer (install tmp (Join [so_Root c; v]) body;;
         commit_candidate json_Marshal c health (Join [so_Root c; v]) (mkSlots v cur);;
         switch_slots json_Marshal c health old (mkSlots v cur)) (Remove tmp) o = (r, o') →
  update_outcome release old n r (os_tree o').
Proof.
  intros v cur Hroot Hharm Hto Htn Hver Hve Hv Hcur Evc Hdt Hc0 Hc0s Hc0c Hc0t Hl4 HSt4 H.
  apply defer_inv in H as (o7 & r7 & H & E7).
  assert (∀ s, slots json_Unmarshal D cur n s (os_tree o7) →
    slots json_Unmarshal D cur n s (os_tree o') ∧ (v ≠ c0 → installed D v body (os_tree o7) → installed D v body (os_tree o')) ∧
    (∀ x y, x ≠ c0 → os_tree o7 !! slot D x = Some y → os_tree o' !! slot D x = Some y)) as Hend.
  { intros s HSt7. eapply (remove_tmp json_Marshal json_Unmarshal json_law (so_Root c) D Hroot eq_refl c eq_refl cur n
      Hcur v body Hv tmp c0 Hdt Hc0 Hc0s Hc0c Hve Evc); [exact HSt7|].
    eapply Remove_effect; [done| |exact E7]. rewrite Hc0. apply no_link_above_snoc. by destruct HSt7 as (_ & ? & _). }
  unfold mbind at 1, M_bind at 1 in H.
  destruct (install tmp _ body o) as [r5 o5] eqn:E5.
  eapply (install_step json_Marshal json_Unmarshal json_law (so_Root c) D Hroot eq_refl c eq_refl cur n
    Hcur v body Hv tmp c0 Hdt Hc0 Hc0s Hc0c Hve Evc old) in E5 as [HSt5 HV5]; [|done..].
  destruct r5 as [[]|e]; [|injection H as <- <-; apply outcome_failed; [done|by apply Hend]].
  destruct (HV5 eq_refl) as [HV Hc0v]. clear HV5.
  unfold mbind at 1, M_bind at 1 in H.
  destruct (commit_candidate _ _ _ _ _ o5) as [r6 o6] eqn:E6.
  eapply commit_step in E6; [|done|exact Hcur|exact Hv|done|done|done|exact Htn|exact HSt5|exact HV].
  destruct r6 as [u6|e]; [|injection H as <- <-; apply outcome_failed; [done|by apply Hend]].
  destruct E6 as [HSt6 HV6].
  eapply switch_step in H as (HV7 & HSt7 & Hcurrent); [|done|exact Hcur|exact Hv|done|exact Hto|exact HSt6|exact HV6].
  assert (r = Ok tt → os_tree o' !! slot D "current" = Some (NLink v)) as Hc'.
  { intros ->. destruct HSt7 as [HSt7|[? _]]; [|done]. apply (Hend _ HSt7); [done|]. by apply Hcurrent. }
  destruct HSt7 as [HSt7|[Hr HSt7]].
  - destruct (Hend _ HSt7) as ((_ & _ & Hm' & Hn') & HV' & _).
    destruct (HV' (not_eq_sym Hc0v) HV7) as [m' Hm8]. split; [done|]. split; [right|done].
    split; [done|]. exists body, m'. done.
  - destruct (Hend _ HSt7) as ((_ & _ & Hm' & Hn') & _). split; [done|]. split; [by left|done].
Qed.

(** The steps before the candidate: backup, directory, temporary file. *)
Lemma backup_step cur n s o r o' :
  harmless_config → slots json_Unmarshal D cur n s (os_tree o) →
  match so_Backup c with Some b => wrap "backup before update" [] b | None => mret tt end o = (r, o') →
  slots json_Unmarshal D cur n s (os_tree o').
Proof.
  intros (_ & Hbak & _) HSt H. destruct (so_Backup c) as [b|].
  - apply wrap_eq in H as (r' & H & _). by eapply (harmless_step json_Unmarshal D cur n "" "") in H as [? _].
  - by injection H as <- <-.
Qed.

Lemma mkdir_step cur n s o r o' :
  direct (so_Root c) → slots json_Unmarshal D cur n s (os_tree o) → MkdirAll (so_Root c) o = (r, o') →
  slots json_Unmarshal D cur n s (os_tree o').
Proof.
  intros Hroot (Ht & Hl & (data & m & Hk & Hu) & Hc) H.
  pose proof (MkdirAll_adds _ _ _ Hroot r Hl H) as [A T].
  assert (∀ k x, os_tree o !! k = Some x → os_tree o' !! k = Some x) as Hkeep.
  { intros k x Hx. destruct (A k) as [->|(_ & Hnone & _)]; congruence. }
  split; [by apply T|]. split; [by eapply no_link_no_new; [eapply adds_dirs_no_new_links|]|].
  split; [exists data, m; auto|auto].
Qed.

Lemma temp_step cur n s o tmp o' :
  direct (so_Root c) → slots json_Unmarshal D cur n s (os_tree o) →
  CreateTemp (so_Root c) ".candidate-" "" o = (Ok tmp, o') →
  ∃ c0, direct tmp ∧ comps tmp = D ++ [c0] ∧ c0 ≠ "state.json" ∧ c0 ≠ cur ∧ c0 ≠ "current" ∧
    no_link (os_tree o') (comps tmp) ∧ slots json_Unmarshal D cur n s (os_tree o').
Proof.
  intros Hroot HSt H. pose proof HSt as (Ht & Hl & (data & m & Hk & Hu) & Hc).
  apply CreateTemp_effect in H; [|done|done|exact candidate_temp_ok].
  destruct H as (Hdt & c0 & Hcok & Hcp & Hc0 & Hnone & Hdirn & Ho').
  assert (∀ x y, os_tree o !! slot D x = Some y → c0 ≠ x ∧ os_tree o' !! slot D x = Some y) as Hkeep.
  { intros x y Hx. assert (c0 ≠ x) as Hne.
    { intros ->. rewrite Hc0 in Hnone. assert (os_tree o !! slot D x = None) as E by exact Hnone. congruence. }
    split; [done|]. rewrite Ho', Hc0, lookup_insert_ne; [done|]. intros E. by apply app_inv_head in E as [= ?]. }
  assert (no_new_links (os_tree o) (os_tree o')) as Hn.
  { intros k tg. rewrite Ho', lookup_insert. case_decide; [by intros [=]|done]. }
  exists c0. do 2 (split; [done|]). split; [by apply (Hkeep "state.json" _ Hk)|].
  split; [by apply (Hkeep cur _ Hc)|]. split; [by intros ->|]. split.
  - apply no_link_above_last; [rewrite Hc0; apply no_link_above_snoc; by eapply no_link_no_new|].
    intros tg. by rewrite Ho', lookup_insert_eq.
  - split.
    + rewrite Ho'. apply tree_ok_insert; [done|rewrite Hc0; by destruct D|by rewrite Hc0, removelast_last|].
      left. by rewrite Hnone.
    + split; [by eapply no_link_no_new|]. split; [|by apply Hkeep].
      exists data, m. split; [by apply Hkeep|done].
Qed.

(** C36.  An update is atomic: whatever call fails, at whatever moment, the manifest afterwards is
    the old one, or names the new release, whose slot then holds a binary that passed
    verification; the running slot's binary is untouched; and a success means that the
    manifest and the [current] link name the new release. *)
Theorem Apply_atomic release old n o r o' :
  direct (so_Root c) → harmless_config → text old → bytes_all ascii (re_Version release) = true →
  tree_ok (os_tree o) → no_link (os_tree o) D → manifest json_Unmarshal D (os_tree o) old →
  os_tree o !! slot D (sl_Current old) = Some n →
  Apply json_Marshal json_Unmarshal c http_Get sha256 verify health release o = (r, o') →
  update_outcome release old n r (os_tree o').
Proof.
  intros Hroot Hharm Hto Htv Ht Hl Hm Hn H. set (cur := sl_Current old) in *. set (v := re_Version release) in *.
  assert (slots json_Unmarshal D cur n old (os_tree o)) as HSt by done.
  unfold Apply in H. unfold lift_res, mbind at 1, M_bind at 1 in H. destruct (validate c) as [u|e];
    [|injection H as <- <-; by apply outcome_failed].
  unfold mbind at 1, M_bind at 1 in H. destruct (download http_Get _) as [body|e]; [|injection H as <- <-; by apply outcome_failed].
  unfold mbind at 1, M_bind at 1 in H. destruct (verifyRelease sha256 release body verify) as [[]|e] eqn:Hver;
    [|injection H as <- <-; by apply outcome_failed].
  assert (∃ u, validateVersion v = Ok u) as [u' Hvv].
  { unfold verifyRelease in Hver. fold v in Hver. destruct (validateVersion v); [eauto|done]. }
  apply validateVersion_Ok in Hvv as [Hve Hv].
  unfold mbind at 1, M_bind at 1 in H.
  destruct (wrap _ _ (loadState json_Unmarshal c) o) as [r1 o1] eqn:E1.
  apply wrap_eq in E1 as (r1' & E1 & Hr1 & Hr1'). eapply loadState_manifest in E1 as [Ho1 Hst]; [|done|done|done|done|done|exact Hm].
  assert (slots json_Unmarshal D cur n old (os_tree o1)) as HSt1 by (by rewrite Ho1).
  destruct r1 as [st|e]; [|injection H as <- <-; by apply outcome_failed].
  destruct (Hst st (Hr1' st eq_refl)) as (-> & Hcv & _).
  apply validateVersion_Ok in Hcv as [_ Hcur]. fold cur in Hcur.
  unfold mbind at 1, M_bind at 1, fail_if in H. fold v cur in H.
  destruct ((v =s cur) || (v =s sl_Previous old)) eqn:Evc; simpl in H; [injection H as <- <-; by apply outcome_failed|].
  apply orb_false_iff in Evc as [Evc _]. apply String.eqb_neq in Evc.
  unfold mbind at 1, M_bind at 1 in H.
  destruct (match so_Backup c with Some b => wrap "backup before update" [] b | None => mret tt end o1) as [r2 o2] eqn:E2.
  eapply backup_step in E2; [|done|exact HSt1].
  destruct r2 as [u2|e]; [|injection H as <- <-; by apply outcome_failed].
  unfold mbind at 1, M_bind at 1 in H. destruct (MkdirAll (so_Root c) o2) as [r3 o3] eqn:E3.
  eapply mkdir_step in E3; [|done|exact E2].
  destruct r3 as [u3|e]; [|injection H as <- <-; by apply outcome_failed].
  unfold mbind at 1, M_bind at 1 in H.
  destruct (CreateTemp (so_Root c) ".candidate-" "" o3) as [[tmp|e] o4] eqn:E4.
  2:{ apply CreateTemp_effect in E4; [|done|by destruct E3 as (_ & ? & _)|exact candidate_temp_ok].
      injection H as <- <-. apply outcome_failed; [done|by rewrite E4]. }
  eapply temp_step in E4 as (c0 & ? & ? & ? & ? & ? & ? & ?); [|done|exact E3].
  cbv zeta in H. eapply install_outcome in H; [exact H|done..| | |done|exact Hve|exact Hv|exact Hcur|done|done|done|done|done|done|done|done].
  all: try done. by split; [|apply Hto].
Qed.
End Properties.

(** ** A root with one running slot *)

(** A codec of slot states. *)
Definition encode_state (s : slotState) : string :=
  encode_name (sl_Current s) (encode_name (sl_Previous s) "").
Definition decode_state (s : string) : res slotState :=
  match decode_name s with
  | Some (cur, rest) => match decode_name rest with
                        | Some (prev, "") => Ok (mkSlots cur prev)
                        | _ => Err (EExt "syntax")
                        end
  | None => Err (EExt "syntax")
  end.

Lemma decode_encode s : text s → decode_state (encode_state s) = Ok s.
Proof.
  intros _. unfold decode_state, encode_state. rewrite !decode_encode_name. by destruct s.
Qed.

Definition first_slots : slotState := mkSlots "v1" "v0".
Definition slot_root : SlotConfig := mkSlotConfig "/opt" None None.
Definition slot_os (fs : list (option string)) : OS := mkOS (list_to_map [
    (["opt"], NDir); (["opt"; "v0"], NFile "zero" 493); (["opt"; "v1"], NFile "one" 493);
    (["opt"; "current"], NLink "v1"); (["opt"; "previous"], NLink "v0");
    (["opt"; "state.json"], NFile (encode_state first_slots) 420)]) [] [7; 8; 9; 10; 11; 12] fs.

(** A digest for which "two" has a valid one. *)
Definition digest (s : string) : string :=
  if (s =s "two") then "0123456789abcdef0123456789abcdef0123456789abcdef0123456789abcdef" else "".
Definition release_two : Release := mkRelease "v2" "http://r/v2" (digest "two") "sig" "linux" "amd64".
Definition fetch (url : string) : res HttpResponse := Ok (mkResponse 200 "200 OK" (Ok "two")).
Definition accept : option ReleaseVerifier := Some (λ _ _, Ok tt).
(** The new binary fails its check after the switch. *)
Definition health_of (bad : string) : option (string → M OS unit) :=
  Some (λ p, fail_if (p =s bad) (EExt "exit status 1")).

Lemma health_of_harmless bad : harmless_config (health_of bad) slot_root.
Proof.
  split; [done|]. split; [done|]. intros p o r o' Ht Hl. unfold fail_if.
  destruct (p =s bad); by intros [= _ <-].
Qed.

Lemma slot_os_ok fs : tree_ok (os_tree (slot_os fs)) ∧ no_link (os_tree (slot_os fs)) (comps "/opt").
Proof. split; [apply tree_okb_ok|apply no_linkb_ok]; vm_compute; reflexivity. Qed.

Lemma slot_os_manifest fs : manifest decode_state (comps "/opt") (os_tree (slot_os fs)) first_slots.
Proof. exists (encode_state first_slots), 420. split; vm_compute; reflexivity. Qed.

Lemma opt_direct : direct "/opt".
Proof. split; [reflexivity|]. vm_compute. repeat constructor; discriminate. Qed.

Lemma Apply_atomic_witness :
  let update := Apply encode_state decode_state slot_root fetch digest accept in
  let good := update (health_of "") release_two (slot_os []) in
  let bad := update (health_of "/opt/current") release_two (slot_os []) in
  manifest decode_state ["opt"] (os_tree (snd good)) (mkSlots "v2" "v1") ∧
  os_tree (snd bad) !! ["opt"; "v1"] = Some (NFile "one" 493) ∧
  os_tree (snd bad) !! ["opt"; "current"] = Some (NLink "v1").
Proof.
  cbv zeta. split; [|split].
  - pose proof (Apply_atomic encode_state decode_state decode_encode fetch digest accept (health_of "")
      slot_root release_two first_slots (NFile "one" 493) (slot_os []) _ _ opt_direct
      (health_of_harmless "") (conj eq_refl eq_refl) eq_refl (proj1 (slot_os_ok [])) (proj2 (slot_os_ok []))
      (slot_os_manifest []) eq_refl (surjective_pairing _)) as (_ & [[_ H]|[H _]] & _).
    + vm_compute in H. discriminate H.
    + exact H.
  - exact (proj1 (Apply_atomic encode_state decode_state decode_encode fetch digest accept (health_of "/opt/current")
      slot_root release_two first_slots (NFile "one" 493) (slot_os []) _ _ opt_direct
      (health_of_harmless _) (conj eq_refl eq_refl) eq_refl (proj1 (slot_os_ok [])) (proj2 (slot_os_ok []))
      (slot_os_manifest []) eq_refl (surjective_pairing _))).
  - vm_compute. reflexivity.
Defined.
