(* ===== verification/RollbackSpec.v ===== *)
(** * What rollback and retention promise

    Rollback swaps the two slots and never touches a binary; the slots chosen for
    removal are never in use. *)

From S2P Require Import Prelude GoLib GoPath GoOS GoOSFacts AtomicFile Update UpdateFacts UpdateSpec.

(** ** Lemmas *)

Section Rollback.
Context (json_Marshal : slotState → string) (json_Unmarshal : string → res slotState).
Context (json_law : ∀ s, text s → json_Unmarshal (json_Marshal s) = Ok s).
Context (c : SlotConfig) (Hroot : direct (so_Root c)).
Context (Hproj : match so_Project c with Some p => harmless (comps (so_Root c)) p | None => True end).

Local Abbreviation D := (comps (so_Root c)).
Local Abbreviation swap s := (mkSlots (sl_Previous s) (sl_Current s)).

(** The steps of [Rollback] after its checks, from the slots [old]. *)
Lemma rollback_step old n body o r o' :
  sl_Current old ∉ ["current"; "previous"; "state.json"] →
  sl_Previous old ∉ ["current"; "previous"; "state.json"] → text old →
  slots json_Unmarshal D (sl_Current old) n old (os_tree o) →
  installed D (sl_Previous old) body (os_tree o) →
  (saveState json_Marshal c (swap old);;
   r ← try (projectState c (swap old));
   match r with
   | Err e => restoreState json_Marshal c old (Errorw "rollback projection" [] e)
   | Ok _ => mret tt
   end) o = (r, o') →
  installed D (sl_Previous old) body (os_tree o') ∧
  (is_ok r = false ∧ slots json_Unmarshal D (sl_Current old) n old (os_tree o') ∨
   slots json_Unmarshal D (sl_Current old) n (swap old) (os_tree o')) ∧
  (r = Ok tt → os_tree o' !! slot D "current" = Some (NLink (sl_Previous old))).
Proof.
  intros Hcur Hprev Htext HSt HV. unfold try, mbind, M_bind.
  destruct (saveState json_Marshal c (swap old) o) as [r1 o1] eqn:E1.
  eapply (save_step json_Marshal json_Unmarshal json_law (so_Root c) D Hroot eq_refl c eq_refl
    (sl_Current old) n Hcur (sl_Previous old) body Hprev old) in E1 as [HSt1 HV1];
    [|split; apply Htext|done].
  destruct r1 as [u1|e]; [|intros [= <- <-]; split; [by auto|]; split; [by left|done]].
  destruct (projectState c (swap old) o1) as [r2 o2] eqn:E2.
  eapply (project_step json_Marshal json_Unmarshal json_law (so_Root c) D Hroot eq_refl c eq_refl
    (sl_Current old) n Hcur (sl_Previous old) body Hprev (swap old)) in E2 as (HSt2 & HV2 & Hl); [|done..].
  destruct r2 as [[]|e].
  - intros [= <- <-]. split; [by auto|]. split; [by right|done].
  - intros E3. eapply (restore_step json_Marshal json_Unmarshal json_law (so_Root c) D Hroot eq_refl c eq_refl
      (sl_Current old) n Hcur (sl_Previous old) body Hprev old (swap old)) in E3 as (Hr & HV3 & HSt3);
      [|done|done|done|by auto].
    split; [done|]. split; [destruct HSt3; auto|]. by intros ->.
Qed.
End Rollback.

(** *** Retention *)

Lemma protect_spec bound vs P :
  ∃ k, protect bound vs P = P ∪ list_to_set (take k vs) ∧
    (drop k vs = [] ∨ bound ≤ Z.of_nat (size (protect bound vs P))) ∧
    Z.of_nat (size (protect bound vs P)) ≤ Z.max bound (Z.of_nat (size P)).
Proof.
  revert P. induction vs as [|v vs IH]; intros P; simpl.
  - exists 0%nat. simpl. split; [set_solver|]. split; [by left|lia].
  - destruct (Z.ltb_spec (Z.of_nat (size P)) bound).
    + destruct (IH ({[v]} ∪ P)) as (k & -> & H1 & H2). exists (S k). simpl.
      split; [set_solver|]. split; [done|]. etrans; [exact H2|].
      assert (size ({[v]} ∪ P) ≤ S (size P))%nat; [|lia].
      rewrite size_union_alt, size_singleton. simpl. apply le_n_S, subseteq_size. set_solver.
    + exists 0%nat. simpl. split; [set_solver|]. split; [by right|lia].
Qed.

Lemma elem_of_rev (x : string) l : x ∈ rev l ↔ x ∈ l.
Proof. by rewrite !list_elem_of_In, <- in_rev. Qed.

Lemma sorted_split k (l : list string) v w :
  w ∈ take k (rev (isort String.leb l)) → v ∈ drop k (rev (isort String.leb l)) → String.leb v w = true.
Proof.
  intros Hw Hv.
  assert (StronglySorted (λ a b, String.leb a b = true) (isort String.leb l)) as Hs.
  { apply Sorted_StronglySorted; [intros ? ? ?; apply string_leb_trans|].
    apply isort_sorted. intros a b. apply string_leb_total. }
  rewrite <- (rev_involutive (isort String.leb l)), <- (take_drop k (rev (isort String.leb l))), rev_app_distr in Hs.
  refine (StronglySorted_app_1_elem_of (λ a b, String.leb a b = true) _ _ _ _ Hs _ _); by rewrite elem_of_rev.
Qed.

(** ** Properties *)

(** C37.  Rollback swaps the slots: whatever call fails, both binaries stay as they are and the
    manifest is the old one, after a failure, or the swapped one; a success means that the
    manifest is swapped and the [current] link names the previous version, so that a second
    successful rollback returns to the slots it started from. *)
Theorem Rollback_swaps json_Marshal json_Unmarshal (c : SlotConfig) old n body o r o' :
  (∀ s, text s → json_Unmarshal (json_Marshal s) = Ok s) →
  direct (so_Root c) → match so_Project c with Some p => harmless (comps (so_Root c)) p | None => True end →
  text old → slots json_Unmarshal (comps (so_Root c)) (sl_Current old) n old (os_tree o) →
  installed (comps (so_Root c)) (sl_Previous old) body (os_tree o) →
  Rollback json_Marshal json_Unmarshal c o = (r, o') →
  let new := mkSlots (sl_Previous old) (sl_Current old) in
  os_tree o' !! slot (comps (so_Root c)) (sl_Current old) = Some n ∧
  installed (comps (so_Root c)) (sl_Previous old) body (os_tree o') ∧
  (is_ok r = false ∧ manifest json_Unmarshal (comps (so_Root c)) (os_tree o') old ∨
   manifest json_Unmarshal (comps (so_Root c)) (os_tree o') new) ∧
  (r = Ok tt → os_tree o' !! slot (comps (so_Root c)) "current" = Some (NLink (sl_Previous old))).
Proof.
  intros Hlaw Hroot Hproj Htext HSt HV H new.
  assert (∀ e : error, r = Err e → os_tree o' = os_tree o →
    os_tree o' !! slot (comps (so_Root c)) (sl_Current old) = Some n ∧
    installed (comps (so_Root c)) (sl_Previous old) body (os_tree o') ∧
    (is_ok r = false ∧ manifest json_Unmarshal (comps (so_Root c)) (os_tree o') old ∨
     manifest json_Unmarshal (comps (so_Root c)) (os_tree o') new) ∧
    (r = Ok tt → os_tree o' !! slot (comps (so_Root c)) "current" = Some (NLink (sl_Previous old)))) as Hfail.
  { intros e -> ->. destruct HSt as (_ & _ & Hm & Hn). split; [done|]. split; [done|]. split; [by left|done]. }
  unfold Rollback in H. unfold lift_res, mbind at 1, M_bind at 1 in H.
  destruct (validate c) as [u|e]; [|injection H as <- <-; by eapply Hfail].
  unfold mbind at 1, M_bind at 1 in H.
  destruct (wrap _ _ (loadState json_Unmarshal c) o) as [r1 o1] eqn:E1.
  apply wrap_eq in E1 as (r1' & E1 & Hr1 & Hr1').
  eapply loadState_manifest in E1 as [Ho1 Hst]; [|done|done|done|apply HSt..].
  destruct r1 as [st|e]; [|injection H as <- <-; by eapply Hfail].
  destruct (Hst st (Hr1' st eq_refl)) as (-> & Hcv & Hpv).
  unfold mbind at 1, M_bind at 1, fail_if in H.
  destruct (String.eqb_spec (sl_Previous old) "") as [Hp|Hp]; simpl in H; [injection H as <- <-; by eapply Hfail|].
  destruct Hpv as [?|Hpv]; [done|]. apply validateVersion_Ok in Hcv as [_ Hcv]. apply validateVersion_Ok in Hpv as [_ Hpv].
  cbv zeta in H. eapply (rollback_step json_Marshal json_Unmarshal Hlaw c Hroot Hproj old n body) in H
    as (HV' & HSt' & Hl); [|done..|by rewrite Ho1|by rewrite Ho1].
  destruct HSt' as [[Hr (_ & _ & Hm & Hn)]|(_ & _ & Hm & Hn)];
    (split; [done|]; split; [done|]; split; [auto|done]).
Qed.

(** A slot that is in use is never chosen for removal, and neither is one of the newest:
    a chosen version is an installed one, is neither the current nor the previous one, and at
    least [keep] other versions that are kept sort after it; conversely at most [keep + 2]
    versions are kept. *)
Theorem VersionsToRemove_protects versions current previous keep :
  let out := VersionsToRemove versions current previous keep in
  (∀ v, v ∈ out → v ∈ versions ∧ v ≠ current ∧ v ≠ previous ∧
     ∃ newer : gset string, keep ≤ Z.of_nat (size newer) ∧
       ∀ w, w ∈ newer → w ∈ versions ∧ (w ∉ out) ∧ w ≠ current ∧ w ≠ previous ∧ String.leb v w = true) ∧
  Z.of_nat (size ((list_to_set versions ∖ list_to_set out) : gset string)) ≤ Z.max 0 keep + 2.
Proof.
  intros out.
  assert (out = filter (λ v, v ∉ protect (Z.max 0 keep + 2) (rev (isort String.leb versions)) {[current; previous]})
    (isort String.leb versions)) as Ho.
  { unfold out, VersionsToRemove. replace (Z.max 0 keep) with (if keep <? 0 then 0 else keep); [done|].
    destruct (Z.ltb_spec keep 0); lia. }
  clearbody out.
  destruct (protect_spec (Z.max 0 keep + 2) (rev (isort String.leb versions)) {[current; previous]})
    as (k & Hk & Hstop & Hmax).
  set (P := protect _ _ _) in *.
  assert (∀ v, v ∈ out ↔ (v ∉ P) ∧ v ∈ versions) as Hout.
  { intros v. rewrite Ho, list_elem_of_filter, elem_of_isort. done. }
  assert (size ({[current; previous]} : gset string) ≤ 2)%nat as Hsize.
  { rewrite size_union_alt, size_singleton. apply le_n_S. rewrite <- (size_singleton (C:=gset string) previous).
    apply subseteq_size. set_solver. }
  assert (∀ w, w ∈ take k (rev (isort String.leb versions)) → w ∈ versions) as Htake.
  { intros w Hw. apply (elem_of_isort String.leb). rewrite <- elem_of_rev.
    rewrite <- (take_drop k (rev (isort String.leb versions))). apply elem_of_app. by left. }
  split.
  - intros v [HvP Hv]%Hout. split; [done|].
    assert (¬ v ∈ ({[current; previous]} : gset string) ∧ ¬ v ∈ take k (rev (isort String.leb versions))) as [Hcp Hvt].
    { split; intros Hin; apply HvP; rewrite Hk, elem_of_union; [by left|right; by apply elem_of_list_to_set]. }
    split; [intros ->; apply Hcp; set_solver +|]. split; [intros ->; apply Hcp; set_solver +|].
    assert (v ∈ drop k (rev (isort String.leb versions))) as Hvd.
    { apply (elem_of_isort String.leb) in Hv. rewrite <- elem_of_rev in Hv.
      rewrite <- (take_drop k (rev (isort String.leb versions))) in Hv. by apply elem_of_app in Hv as [Hv|Hv]. }
    exists (P ∖ {[current; previous]}). split.
    + destruct Hstop as [Hstop|Hstop]; [rewrite Hstop in Hvd; by apply elem_of_nil in Hvd|].
      rewrite size_difference by (rewrite Hk; set_solver +). lia.
    + intros w [HwP Hwc]%elem_of_difference.
      assert (w ∈ take k (rev (isort String.leb versions))) as Hwt.
      { rewrite Hk in HwP. by apply elem_of_union in HwP as [?|Hw%elem_of_list_to_set]. }
      split; [by apply Htake|]. split; [by rewrite Hout; intros [? _]|].
      split; [intros ->; apply Hwc; set_solver +|]. split; [intros ->; apply Hwc; set_solver +|].
      by eapply sorted_split.
  - etrans; [|etrans; [exact Hmax|]]; [|lia]. apply inj_le, subseteq_size. intros v.
    rewrite elem_of_difference, !elem_of_list_to_set, Hout. intros [Hv Hn].
    destruct (decide (v ∈ P)); [done|]. exfalso. by apply Hn.
Qed.

(** The order of names is not the order of versions: the older release is kept. *)
Lemma retention_is_lexicographic :
  VersionsToRemove ["v0.9.0"; "v0.10.0"; "v0.8.0"] "v0.8.0" "" 1 = ["v0.10.0"].
Proof. vm_compute. reflexivity. Qed.

Lemma Rollback_swaps_witness :
  let back := Rollback encode_state decode_state slot_root in
  manifest decode_state ["opt"] (os_tree (snd (back (slot_os [])))) (mkSlots "v0" "v1") ∧
  os_tree (snd (back (slot_os [None; Some "EIO"]))) !! ["opt"; "v1"] = Some (NFile "one" 493).
Proof.
  assert (∀ fs, slots decode_state ["opt"] "v1" (NFile "one" 493) first_slots (os_tree (slot_os fs))) as Hs.
  { intros fs. split; [apply slot_os_ok|]. split; [apply (slot_os_ok fs)|]. split; [apply slot_os_manifest|done]. }
  assert (∀ fs, installed ["opt"] "v0" "zero" (os_tree (slot_os fs))) as Hi by (intros fs; by exists 493).
  cbv zeta. split.
  - pose proof (Rollback_swaps encode_state decode_state slot_root first_slots (NFile "one" 493) "zero" (slot_os []) _ _
      decode_encode opt_direct I (conj eq_refl eq_refl) (Hs _) (Hi _) (surjective_pairing _)) as (_ & _ & [[H _]|H] & _).
    + vm_compute in H. discriminate H.
    + exact H.
  - exact (proj1 (Rollback_swaps encode_state decode_state slot_root first_slots (NFile "one" 493) "zero"
      (slot_os [None; Some "EIO"]) _ _ decode_encode opt_direct I (conj eq_refl eq_refl) (Hs _) (Hi _)
      (surjective_pairing _))).
Defined.
