(* ===== verification/Backup.v ===== *)
(** * Backups of server files ([internal/backup])

    The archive of a server's data directory, its record in the store, and its
    restoration.  gzip, tar and SHA-256 are parameters: what a reader finds in the
    bytes of an archive, and the bytes of a list of entries.  The bytes of the
    archive appear in its file when it is closed. *)

From S2P Require Import Prelude GoLib GoPath GoOS Store Filesystem World.

(** ** Definitions *)

Inductive tar_type := TypeReg | TypeDir | TypeSymlink | TypeLink | TypeOther (c : Z).

#[global] Instance tar_type_eq_dec : EqDecision tar_type.
Proof. solve_decision. Defined.

(** What the code uses of a [tar.Header], [FileInfo().IsDir()] as a field, and what [io.Copy]
    reads of the [Size] bytes after it; modes, owners and times are not restored. *)
Record tar_item := mkTarItem {
  th_Name : string; th_Typeflag : tar_type; th_IsDir : bool;
  th_Body : string; th_Error : option error }.

(** What [gzip.NewReader] and the calls of [tr.Next] give: the entries, then [io.EOF] or an
    error. *)
Definition tar_stream : Type := res (list tar_item * option error).

Record BackupOptions := mkBackupOptions { bo_ServerID : string; bo_StopBeforeRun : bool }.
Record BackupResult := mkBackupResult { ba_BackupID : string; ba_SizeBytes : Z; ba_ChecksumSHA : string }.
Record RestoreOptions := mkRestoreOptions {
  ro_ServerID : string; ro_BackupID : string; ro_TargetServerID : string }.

Definition ErrServerRunning : error := ESentinel backup_ErrServerRunning.
Definition ErrChecksumMismatch : error := ESentinel backup_ErrChecksumMismatch.

(** *** [archive.go] *)

(** A write to, or a flush of, a file that is still open. *)
Definition file_io : M OS unit := syscall (λ o, Ok (tt, os_tree o)).

(** The file system, and the entries written to the tar writer so far. *)
Abbreviation archiving := (OS * list tar_item)%type.
Definition on_os {A} (m : M OS A) : M archiving A := zoom fst (λ o s, (o, s.2)) m.
Definition tar_put (it : tar_item) : M archiving unit := modify (λ s, (s.1, s.2 ++ [it])).

(** [tar.FileInfoHeader], with the name set by the code. *)
Definition FileInfoHeader (name : string) (n : fnode) (body : string) : tar_item :=
  match n with
  | NFile _ _ => mkTarItem name TypeReg false body None
  | NDir => mkTarItem name TypeDir true body None
  | NLink _ => mkTarItem name TypeSymlink false body None
  end.

(** The function given to [filepath.Walk], for an entry without [walkErr]. *)
Definition archive_entry (root path : string) (info : fnode) : M archiving unit :=
  on_os ctx_Err;;
  if path =s root then mret tt
  else
    rel ← lift_res (Rel root path);
    fail_if ((rel =s ".") || (rel =s "..") || IsAbs rel || (rel =s "../")) (Errorf "archive path invalid" []);;
    fail_if (IsSymlink info) (Errorf "symlink archive ditolak: %s" [rel]);;
    on_os file_io;;
    if IsRegular info then
      data ← on_os (ReadFile path);
      on_os file_io;;
      tar_put (FileInfoHeader rel info data)
    else tar_put (FileInfoHeader rel info "").

(** [filepath.Walk] below [path]: the entries of a directory in the order of their names,
    links not followed.  A directory nested deeper than the fuel would be an error. *)
Fixpoint walk_tree (fuel : nat) (root path : string) (info : fnode) : M archiving unit :=
  match fuel with
  | O => fail (EExt "walk: too deep")
  | S fuel =>
      if IsDir info then
        r ← try (on_os (ReadDir path));
        match r with
        | Err e => fail e
        | Ok es =>
            archive_entry root path info;;
            for_each (λ e : string * fnode,
              let filename := Join [path; e.1] in
              r ← try (on_os (Lstat filename));
              match r with
              | Err e => fail e
              | Ok info => walk_tree fuel root filename info
              end) es
        end
      else archive_entry root path info
  end.

Definition Walk (fuel : nat) (root : string) : M archiving unit :=
  r ← try (on_os (Lstat root));
  match r with
  | Err e => fail e
  | Ok info => walk_tree fuel root root info
  end.

(** More than the number of nested directories of the file system. *)
Definition walk_fuel (t : tree) : nat := S (S (foldr Nat.max O (length <$> (map_to_list t).*1))).

Section Backup.
(** The bytes of an archive of those entries, closed properly; and of one abandoned after
    those entries. *)
Context (tar_gz broken_tar_gz : list tar_item → string) (untar : string → tar_stream).
Context (sha256 : string → string).
Context (root_cfg backupRoot : string).   (* the file manager's root, cfg.BackupRoot *)

(** The walk with a new tar writer, and what was written however it ended. *)
Definition archive_tree (root : string) : M OS (res unit * list tar_item) := λ o,
  let '(r, (o', items)) := Walk (walk_fuel (os_tree o)) root (o, []) in (Ok (r, items), o').

Definition createArchive (root dest id : string) : M OS BackupResult :=
  WriteFile dest "" 384;;
  r ← archive_tree root;
  match r with
  | (Err e, items) =>
      ignore (WriteFile dest (broken_tar_gz items) 384);;
      fail e
  | (Ok _, items) =>
      let data := tar_gz items in
      WriteFile dest data 384;;
      file_io;;
      file_io;;
      mret (mkBackupResult id (Z.of_nat (String.length data)) (sha256 data))
  end.

(** *** [restore.go] *)

Definition checksumFile (path : string) : M OS string :=
  data ← ReadFile path;
  mret (sha256 data).

Definition leaves_root (name : string) : bool := (name =s "..") || HasPrefix name "../".

Definition extract_entry (root : string) (h : tar_item) : M OS unit :=
  let name := Clean (th_Name h) in
  fail_if ((name =s ".") || IsAbs name || leaves_root name) (Errorf "archive entry keluar root" []);;
  let dest := Join [root; name] in
  (match Rel root dest with
   | Err _ => fail (Errorf "archive entry keluar root" [])
   | Ok rel => fail_if (leaves_root rel) (Errorf "archive entry keluar root" [])
   end);;
  fail_if (bool_decide (th_Typeflag h = TypeSymlink ∨ th_Typeflag h = TypeLink))
    (Errorf "symlink archive ditolak" []);;
  if th_IsDir h then MkdirAll dest
  else
    fail_if (bool_decide (th_Typeflag h ≠ TypeReg)) (Errorf "archive entry type tidak didukung" []);;
    MkdirAll (Dir dest);;
    WriteFile dest "" 384;;
    copyErr ← try (WriteFile dest (th_Body h) 384;;
                   match th_Error h with Some e => fail e | None => mret tt end);
    closeErr ← try file_io;
    lift_res copyErr;;
    lift_res closeErr.

Fixpoint extract_entries (root : string) (items : list tar_item) (last : option error) : M OS unit :=
  ctx_Err;;
  match items with
  | [] => match last with Some e => fail e | None => mret tt end
  | h :: items => extract_entry root h;; extract_entries root items last
  end.

Definition extractArchive (archivePath root : string) : M OS unit :=
  data ← ReadFile archivePath;
  stream ← lift_res (untar data);
  extract_entries root stream.1 stream.2.

(** [Restore] from the extraction on. *)
Definition swap_in (archive root staging previous : string) : M OS unit :=
  extractArchive archive staging;;
  ignore (RemoveAll previous);;
  r ← try (Stat root);
  match r with
  | Ok _ => Rename root previous
  | Err _ => mret tt
  end;;
  r ← try (Rename staging root);
  match r with
  | Err e => ignore (Rename previous root);; fail e
  | Ok _ => ignore (RemoveAll previous)
  end.

(** *** [manager.go] *)

Context {RT P C : Type}.
Local Abbreviation W := (World RT P C).

(** [uuid.NewString()] is [id], [time.Now()] is [now]. *)
Definition Create (id : string) (now : Time) (opts : BackupOptions) : M W BackupResult :=
  fail_if (bo_ServerID opts =s "") (Errorf "server id wajib diisi" []);;
  fail_if (bo_StopBeforeRun opts) (Errorf "StopBeforeRun membutuhkan lifecycle integration" []);;
  root ← os (ResolvePath root_cfg (bo_ServerID opts) ".");
  let dir := Join [backupRoot; bo_ServerID opts] in
  os (MkdirAll dir);;
  let archive := Join [dir; id +:+ ".tar.gz"] in
  let tmp := archive +:+ ".tmp" in
  db (SaveBackup (mkBackup id (bo_ServerID opts) archive 0 "" "creating" now zeroTime));;
  r ← try (os (createArchive root tmp id));
  match r with
  | Err e =>
      ignore (db (UpdateBackupStatus id "failed" "" 0));;
      ignore (os (Remove tmp));;
      fail e
  | Ok result =>
      r ← try (os (Rename tmp archive));
      match r with
      | Err e => ignore (db (UpdateBackupStatus id "failed" "" 0));; fail e
      | Ok _ =>
          db (UpdateBackupStatus id "completed" (ba_ChecksumSHA result) (ba_SizeBytes result));;
          mret (mkBackupResult id (ba_SizeBytes result) (ba_ChecksumSHA result))
      end
  end.

(** [m.status]: a query. *)
Context (status : option (string → W → res string)).

Definition restore_files (b : Backup) (target : string) : M OS unit :=
  actual ← checksumFile (bk_FilePath b);
  fail_if (negb (actual =s bk_ChecksumSHA b)) ErrChecksumMismatch;;
  root ← ResolvePath root_cfg target ".";
  let staging := Join [Dir root; ".restore-" +:+ bk_ID b] in
  ignore (RemoveAll staging);;
  MkdirAll staging;;
  defer (swap_in (bk_FilePath b) root staging (Join [Dir root; ".previous-" +:+ bk_ID b]))
    (RemoveAll staging).

Definition Restore (opts : RestoreOptions) : M W unit :=
  let target := if ro_TargetServerID opts =s "" then ro_ServerID opts else ro_TargetServerID opts in
  fail_if (target =s "") (Errorf "server id wajib diisi" []);;
  match status with
  | Some st => s ← (λ w, (st target w, w)); fail_if (negb (s =s "stopped")) ErrServerRunning
  | None => mret tt
  end;;
  b ← db (GetBackup (ro_BackupID opts));
  fail_if (negb (bk_Status b =s "completed")) (Errorf "backup belum completed" []);;
  os (restore_files b target).

Definition List (serverID : string) : M W (list BackupResult) :=
  rows ← db (ListBackups serverID);
  mret ((λ b, mkBackupResult (bk_ID b) (bk_SizeBytes b) (bk_ChecksumSHA b)) <$> rows).

Definition Delete (id : string) : M W unit :=
  b ← db (GetBackup id);
  r ← try (os (Remove (bk_FilePath b)));
  match r with
  | Err e => if negb (IsNotExist e) then fail e else mret tt
  | Ok _ => mret tt
  end;;
  db (DeleteBackup id).
End Backup.
