(* ===== verification/BackupFacts.v ===== *)
(** * How an archive is extracted

    Extraction stays inside its directory, whatever the archive holds. *)

From S2P Require Import Prelude GoLib GoPath GoOS GoOSFacts AtomicFile Store Filesystem Backup.

(** ** Definitions *)

(** A directory that is reached without a link and has none inside. *)
Definition clean_dir (R : path) (t : tree) : Prop :=
  tree_ok t ∧ node_at t R = Some NDir ∧ no_link t R ∧
  ∀ k target, below R k → t !! k ≠ Some (NLink target).

Definition inside (R k : path) : Prop := below R k ∧ k ≠ R.

(** ** Lemmas *)

Lemma clean_dir_next R t t' :
  clean_dir R t → tree_ok t' → no_new_links t t' → node_at t' R = Some NDir → clean_dir R t'.
Proof.
  intros (_ & _ & Hl & Hk) Ht Hn HR. split; [done|]. split; [done|]. split; [by eapply no_link_no_new|].
  intros k tg Hb E%Hn. by eapply Hk.
Qed.

Lemma clean_dir_no_link R t cs : clean_dir R t → no_link t (R ++ cs).
Proof.
  intros (_ & _ & Hl & Hk) q c tg Hb.
  destruct (prefix_weak_total (q ++ [c]) R (R ++ cs)) as [H|H]; [done|by exists cs|by apply Hl|by apply Hk].
Qed.

Lemma clean_dir_below R t p : clean_dir R t → below R p → no_link t p.
Proof. intros Hc [cs ->]. by apply clean_dir_no_link. Qed.

Lemma ancestor_node R t k : tree_ok t → node_at t R = Some NDir → below k R → node_at t k = Some NDir.
Proof.
  intros Ht HR Hb. destruct k as [|x k]; [done|].
  destruct R as [|y R]; [by apply prefix_nil_inv in Hb|].
  destruct (decide (x :: k = y :: R)) as [->|Hne]; [done|].
  by apply (tree_ok_below t _ (y :: R) NDir).
Qed.

Lemma reads_file_io : reads file_io.
Proof. solve_reads. Qed.

(** [MkdirAll] of a path inside, or above, a directory makes nothing outside of it. *)
Lemma MkdirAll_inside R p o r o' :
  direct p → tree_ok (os_tree o) → node_at (os_tree o) R = Some NDir → no_link (os_tree o) (comps p) →
  below R (comps p) ∨ below (comps p) R → MkdirAll p o = (r, o') →
  changes (inside R) (os_tree o) (os_tree o').
Proof.
  intros Hp Ht HR Hl Hb E. pose proof E as E'%MkdirAll_root.
  apply (MkdirAll_adds o o' p Hp) in E as [Ha _]; [|done].
  intros k. destruct (Ha k) as [?|(Hk & Hn & Hn')]; [by left|].
  assert (¬ below k R) as HkR.
  { intros HkR. pose proof (ancestor_node _ _ _ Ht HR HkR) as H. destruct k as [|x k]; [|simpl in H]; congruence. }
  right. destruct Hb as [Hb|Hb]; [|by exfalso; apply HkR; etrans].
  split; [|by intros ->; apply HkR, below_refl].
  by destruct (prefix_weak_total k R (comps p)).
Qed.

Section Extract.
Context (root : string) (Hroot : direct root) (t0 : tree).
Local Abbreviation R := (comps root).

Definition extracting (o : OS) : Prop :=
  clean_dir R (os_tree o) ∧ changes (inside R) t0 (os_tree o).

Lemma keeps_reads {A} (m : M OS A) : reads m → keeps extracting m.
Proof. intros Hm o Ho. unfold extracting. by rewrite (Hm o). Qed.

Lemma extracting_next o o' :
  extracting o → tree_ok (os_tree o') → no_new_links (os_tree o) (os_tree o') →
  changes (inside R) (os_tree o) (os_tree o') → extracting o'.
Proof.
  intros [Hc H0] Ht Hn Hch. split; [|by eapply changes_trans].
  eapply clean_dir_next; [exact Hc|done|done|]. destruct Hc as (_ & HR & _).
  destruct R as [|x l] eqn:E; [done|]. simpl in *. destruct (Hch (x :: l)) as [->|[_ ?]]; done.
Qed.

Lemma keeps_MkdirAll p :
  direct p → below R (comps p) ∨ below (comps p) R → keeps extracting (MkdirAll p).
Proof.
  intros Hp Hb o Ho. destruct (MkdirAll p o) as [r o'] eqn:E. simpl.
  pose proof Ho as [Hc _]. pose proof Hc as (Ht & HR & Hl & _).
  assert (no_link (os_tree o) (comps p)) as Hlp.
  { destruct Hb as [Hb|Hb]; [by eapply clean_dir_below|by eapply no_link_prefix]. }
  pose proof E as [Ha Ht']%(MkdirAll_adds o o' p Hp); [|done].
  eapply extracting_next; [done|by apply Ht'|by eapply adds_dirs_no_new_links|by eapply MkdirAll_inside].
Qed.

Lemma keeps_WriteFile p data mode :
  direct p → below R (comps p) → keeps extracting (WriteFile p data mode).
Proof.
  intros Hp Hb o Ho. destruct (WriteFile p data mode o) as [r o'] eqn:E. simpl.
  pose proof Ho as [Hc _]. pose proof Hc as (Ht & HR & _).
  apply (WriteFile_effect o o' p Hp) in E; [|by eapply clean_dir_below].
  pose proof (puts_file_ok _ _ _ E Ht) as Ht'. pose proof (puts_file_links _ _ _ E) as Hn.
  eapply extracting_next; [done..|].
  destruct E as [->|(c & m & -> & Hne & _ & Hnd)]; [apply changes_refl|].
  apply changes_insert. split; [done|]. intros E. apply Hnd. rewrite E in *.
  by destruct R.
Qed.

(** The two checks of [extractArchive] leave a path inside [root]. *)
Lemma dest_inside name rel :
  name ≠ "" → Rel root (Join [root; name]) = Ok rel → leaves_root rel = false →
  direct (Join [root; name]) ∧ below R (comps (Join [root; name])) ∧
  direct (Dir (Join [root; name])) ∧
  (below R (comps (Dir (Join [root; name]))) ∨ below (comps (Dir (Join [root; name]))) R).
Proof.
  intros Hne HR Hrel. destruct Hroot as [Ha Hp].
  rewrite Join_abs_eq in * by done. set (cs := norm true _) in *.
  assert (Forall comp_ok cs) as Hcs.
  { apply norm_go_ok; [constructor|]. apply Forall_app. split; apply comps_ok. }
  assert (plain cs) as Pcs by apply norm_plain.
  pose proof (Rel_abs root (render true cs)) as H. rewrite IsAbs_render, comps_render in H by done.
  destruct (strip_common R cs) as [b t] eqn:E. rewrite H in HR by done. injection HR as <-.
  apply strip_common_spec in E as (p & E1 & E2 & _).
  assert (Forall comp_ok (replicate (length b) ".." ++ t)) as Hbt.
  { apply Forall_app. split; [by apply Forall_replicate|]. rewrite E2 in Hcs. by apply Forall_app in Hcs as [_ ?]. }
  destruct b as [|x b]; [|by unfold leaves_root in Hrel; rewrite (proj2 (render_escapes _ Hbt)) in Hrel].
  rewrite app_nil_r in E1. rewrite Dir_render by done.
  assert (Forall comp_ok (removelast cs) ∧ plain (removelast cs)) as [Hrl Prl].
  { destruct cs as [|y l _] using rev_ind; [done|]. rewrite removelast_last.
    by apply Forall_app in Hcs as [? _]; apply plain_app in Pcs as [? _]. }
  unfold direct. rewrite !IsAbs_render, !comps_render by done. rewrite E1.
  do 2 (split; [try done; by exists t|]). split; [done|].
  destruct t as [|y t _] using rev_ind.
  - right. rewrite E2, app_nil_r. destruct p as [|z q _] using rev_ind; [done|].
    rewrite removelast_last. by exists [z].
  - left. rewrite E2, app_assoc, removelast_last. by exists t.
Qed.

Lemma keeps_extract_entry h : keeps extracting (extract_entry root h).
Proof.
  unfold extract_entry. set (name := Clean (th_Name h)).
  assert (name ≠ "") as Hne by apply render_not_empty, norm_ok.
  apply keeps_bind; [apply keeps_fail_if|intros _].
  destruct (Rel root (Join [root; name])) as [rel|e] eqn:HR; [|intros o Ho; done].
  destruct (leaves_root rel) eqn:Hrel; [intros o Ho; done|].
  destruct (dest_inside name rel Hne HR Hrel) as (Hd & Hb & Hd' & Hb').
  assert (∀ data, keeps extracting (WriteFile (Join [root; name]) data 384)) as Hw.
  { intros data. by apply keeps_WriteFile. }
  assert (keeps extracting (MkdirAll (Join [root; name]))) by (apply keeps_MkdirAll; auto).
  assert (keeps extracting (MkdirAll (Dir (Join [root; name])))) by (apply keeps_MkdirAll; auto).
  assert (keeps extracting file_io) by (apply keeps_reads, reads_file_io).
  solve_keeps.
Qed.

Lemma keeps_extract_entries items last : keeps extracting (extract_entries root items last).
Proof.
  induction items as [|h items IH]; simpl;
    (apply keeps_bind; [apply keeps_reads, reads_file_io|intros _]);
    [solve_keeps|apply keeps_bind; [apply keeps_extract_entry|done]].
Qed.

Lemma keeps_extractArchive untar archive : keeps extracting (extractArchive untar archive root).
Proof.
  unfold extractArchive. apply keeps_bind; [apply keeps_reads, reads_ReadFile|]. intros data.
  apply keeps_bind; [apply keeps_lift_res|]. intros stream. apply keeps_extract_entries.
Qed.
End Extract.
