(* ===== verification/BackupSpec.v ===== *)
(** * What backups promise

    An archive cannot write outside its staging directory; a failed restoration
    loses nothing. *)

From S2P Require Import Prelude GoLib GoPath GoOS GoOSFacts AtomicFile Store Filesystem FilesystemFacts FilesystemSpec Runtime StoreFacts World Migrations Bus Backup BackupFacts.
From Stdlib Require Import Ascii.

(** ** Definitions *)

(** What was below [p] is below [q]. *)
Definition moved (p q : path) (t t' : tree) : Prop :=
  ∀ k n, t !! (p ++ k) = Some n → t' !! (q ++ k) = Some n.

(** How a restoration of [id] to the server directory [S] may end: files outside are as
    before, and unless it succeeded the data is in its place, or moved aside; [P] is what
    holds if it changed anything. *)
Definition restore_outcome (S : path) (id : string) (t t' : tree) (ok : bool) (P : Prop) : Prop :=
  changes (inside S) t t' ∧
  (ok = true ∨ moved (S ++ ["data"]) (S ++ ["data"]) t t' ∨
   moved (S ++ ["data"]) (S ++ [".previous-" +:+ id]) t t') ∧
  (t' = t ∧ ok = false ∨ P).

(** ** Lemmas *)

Lemma outcome_unchanged S id t P : restore_outcome S id t t false P.
Proof. split; [apply changes_refl|]. split; [right; left; by intros k n|by left]. Qed.

Lemma outcome_mono S id t t' ok (P P' : Prop) :
  (P → P') → restore_outcome S id t t' ok P → restore_outcome S id t t' ok P'.
Proof. intros HP (? & ? & [?|?]); (split; [done|]; split; [done|]); auto. Qed.

Section Restore.
Context (S : path) (t0 : tree).

Local Abbreviation data := (S ++ ["data"]).

(** Between the steps of a restoration: only entries of the server's directory [S] changed. *)
Definition at_restore (t : tree) : Prop := tree_ok t ∧ changes (inside S) t0 t.

Context (Hlink : no_link t0 S) (HS : node_at t0 S = Some NDir) (Hdata : t0 !! data = Some NDir).

Lemma at_restore_above t k : at_restore t → below k S → t !! k = t0 !! k.
Proof.
  intros [_ Hc] Hk. destruct (Hc k) as [?|[Hb Hne]]; [done|]. exfalso. by apply Hne, (anti_symm prefix).
Qed.

Lemma at_restore_dir t : at_restore t → no_link t S ∧ node_at t S = Some NDir.
Proof.
  intros Ht. split.
  - intros q c tg Hb. rewrite (at_restore_above t _ Ht Hb). by apply Hlink.
  - pose proof (at_restore_above t S Ht (below_refl S)) as E. destruct S; [done|]. simpl in *. congruence.
Qed.

Lemma entry_inside a k : below (S ++ [a]) k → inside S k.
Proof.
  intros [x ->]. split; [by exists ([a] ++ x); rewrite app_assoc|].
  intros E. apply (f_equal length) in E. rewrite !length_app in E. simpl in E. lia.
Qed.

Lemma at_restore_next t t' :
  at_restore t → tree_ok t' → changes (inside S) t t' → at_restore t'.
Proof. intros [_ H0] Ht Hc. split; [done|]. by eapply changes_trans. Qed.

(** A change below one entry leaves what another one holds. *)
Lemma moved_other p a b t t' :
  a ≠ b → moved p (S ++ [a]) t0 t → changes (below (S ++ [b])) t t' → moved p (S ++ [a]) t0 t'.
Proof.
  intros Hab Hm Hc k n Hk%Hm. destruct (Hc ((S ++ [a]) ++ k)) as [->|Hb]; [done|].
  exfalso. rewrite <- app_assoc in Hb. apply prefix_app_inv in Hb as [x [= Hb _]]. congruence.
Qed.

Section Paths.
Context (p : string) (a : string) (Hp : direct p) (Hc : comps p = S ++ [a]).

Lemma entry_above t : at_restore t → no_link_above t (comps p).
Proof. intros Ht. rewrite Hc. apply no_link_above_snoc. by apply at_restore_dir. Qed.

Lemma RemoveAll_entry o r o' :
  at_restore (os_tree o) → RemoveAll p o = (r, o') →
  at_restore (os_tree o') ∧ changes (below (S ++ [a])) (os_tree o) (os_tree o') ∧
  no_new_links (os_tree o) (os_tree o').
Proof.
  intros Ht H. apply RemoveAll_effect in H; [|done|by apply entry_above].
  assert (changes (below (S ++ [a])) (os_tree o) (os_tree o')) as Hch.
  { eapply removes_changes; [exact H|]. by rewrite Hc. }
  split; [|split; [done|by eapply removes_links]].
  eapply at_restore_next; [done|by eapply removes_ok; [exact H|apply Ht]|].
  eapply changes_mono; [|exact Hch]. intros k. apply entry_inside.
Qed.

(** A rename of one entry to another. *)
Lemma Rename_entry q b o r o' :
  direct q → comps q = S ++ [b] → a ≠ b → at_restore (os_tree o) → Rename p q o = (r, o') →
  at_restore (os_tree o') ∧
  ((is_ok r = false ∧ os_tree o' = os_tree o) ∨
   (r = Ok tt ∧ moved (S ++ [a]) (S ++ [b]) (os_tree o) (os_tree o') ∧
    ∃ n, os_tree o !! (S ++ [a]) = Some n ∧ rename_check (os_tree o) (S ++ [a]) (S ++ [b]) n = None)).
Proof.
  intros Hq Hcq Hab Ht H.
  assert (no_link_above (os_tree o) (comps q)) as Hlq.
  { rewrite Hcq. apply no_link_above_snoc. by apply at_restore_dir. }
  pose proof (entry_above _ Ht) as Hlp.
  pose proof (Rename_ok o o' p Hp q r Hq Hlp Hlq) as Hok.
  pose proof (Rename_cases o o' p Hp q r Hq Hlp Hlq H) as Hcase.
  rewrite Hc, Hcq in *.
  assert (tree_ok (os_tree o')) as Ht' by (apply Hok; [by destruct S|by destruct S|done|apply Ht]).
  destruct Hcase as [[Hr E]|[(_ & E & _)|(Hr & n & Hn & Hck & _ & _ & E)]].
  - split; [by rewrite E|auto].
  - by apply app_inj_tail in E as [_ E].
  - split.
    + eapply at_restore_next; [done|done|]. rewrite E. apply changes_move_tree; intros k; apply entry_inside.
    + right. split; [done|]. split; [|eauto]. intros k m Hk. rewrite E, lookup_move_tree.
      rewrite decide_True by (by exists k). by rewrite drop_app_length.
Qed.
End Paths.
(** The entries [Restore] works on. *)
Section Swap.
Context (root staging previous : string) (st pv : string).
Context (Hroot : direct root) (Hrc : comps root = data).
Context (Hst : direct staging) (Hsc : comps staging = S ++ [st]).
Context (Hpv : direct previous) (Hpc : comps previous = S ++ [pv]).
Context (Hsd : st ≠ "data") (Hpd : pv ≠ "data") (Hsp : st ≠ pv).

Local Abbreviation kept := (moved data data t0).
Local Abbreviation aside := (moved data (S ++ [pv]) t0).

(** The last step, when the staging directory could not be put in place. *)
Lemma rename_back o r o' :
  at_restore (os_tree o) → kept (os_tree o) ∨ aside (os_tree o) → Rename previous root o = (r, o') →
  at_restore (os_tree o') ∧ (kept (os_tree o') ∨ aside (os_tree o')).
Proof.
  intros Ht Hk H. eapply (Rename_entry previous pv Hpv Hpc root "data") in H as [Ht' H]; [|done..].
  split; [done|]. destruct H as [[_ ->]|(_ & Hm & n & Hn & Hck)]; [done|]. left.
  destruct Hk as [Hk|Hk]; [|by intros k m Hkm; apply Hm, Hk].
  pose proof (Hk [] NDir) as HD. rewrite !app_nil_r in HD. specialize (HD Hdata).
  unfold rename_check in Hck. rewrite bool_decide_false in Hck by (by apply not_below_sibling).
  assert (node_at (os_tree o) data = Some NDir) as HD' by (by destruct S).
  rewrite HD' in Hck. destruct n; [done| |done].
  destruct (is_empty_dir data (os_tree o)) eqn:He; [|done].
  unfold is_empty_dir in He. apply bool_decide_eq_true in He.
  intros k m Hkm. destruct k as [|x k].
  - rewrite app_nil_r in *. rewrite Hdata in Hkm. injection Hkm as <-.
    specialize (Hm [] NDir). rewrite !app_nil_r in Hm. by apply Hm.
  - exfalso. apply (He _ m (Hk _ _ Hkm)). split; [by exists (x :: k)|].
    intros E. apply (f_equal length) in E. rewrite length_app in E. simpl in E. lia.
Qed.

Lemma swap_in_step untar archive o r o' :
  at_restore (os_tree o) → kept (os_tree o) → clean_dir (comps staging) (os_tree o) →
  swap_in untar archive root staging previous o = (r, o') →
  at_restore (os_tree o') ∧ (is_ok r = true ∨ kept (os_tree o') ∨ aside (os_tree o')).
Proof.
  intros Ht Hk Hcl. unfold swap_in, mbind, M_bind, ignore, try.
  pose proof (keeps_extractArchive staging Hst (os_tree o) untar archive o (conj Hcl (changes_refl _ _))) as [Hcl1 Hc1].
  destruct (extractArchive untar archive staging o) as [r1 o1] eqn:E1. simpl in Hcl1, Hc1. rewrite Hsc in Hc1.
  assert (at_restore (os_tree o1)) as Ht1.
  { eapply at_restore_next; [done|apply Hcl1|]. eapply changes_mono; [|exact Hc1].
    intros k [Hb _]. by eapply entry_inside. }
  assert (kept (os_tree o1)) as Hk1.
  { eapply (moved_other _ "data" st); [by apply not_eq_sym|exact Hk|]. eapply changes_mono; [|exact Hc1]. by intros k [? _]. }
  destruct r1 as [u1|e]; [|intros [= <- <-]; auto].
  destruct (RemoveAll previous o1) as [r2 o2] eqn:E2.
  apply (RemoveAll_entry previous pv Hpv Hpc) in E2 as (Ht2 & Hc2 & _); [|done].
  assert (kept (os_tree o2)) as Hk2 by (eapply (moved_other _ "data" pv); [by apply not_eq_sym|exact Hk1|done]).
  pose proof (reads_stat true root o2) as H3. unfold Stat. destruct (stat_with true root o2) as [r3 o3].
  simpl in H3. rewrite <- H3 in Ht2, Hk2. clear H3.
  assert (∃ r4 o4, (match r3 with Ok _ => Rename root previous | Err _ => mret tt end) o3 = (r4, o4) ∧
    at_restore (os_tree o4) ∧ (kept (os_tree o4) ∨ aside (os_tree o4))) as (r4 & o4 & E4 & Ht4 & Hk4).
  { destruct r3; [|eexists _, _; split; [done|]; by auto]. destruct (Rename root previous o3) as [r4 o4] eqn:E4.
    eexists _, _. split; [done|].
    apply (Rename_entry root "data" Hroot Hrc previous pv) in E4 as [Ht4 H4]; [|done|done|by apply not_eq_sym|done].
    split; [done|]. destruct H4 as [[_ ->]|(_ & Hm & _)]; [by left|right]. intros k m Hkm. by apply Hm, Hk2. }
  rewrite E4. destruct r4 as [[]|e]; [|intros [= <- <-]; auto].
  destruct (Rename staging root o4) as [r5 o5] eqn:E5.
  apply (Rename_entry staging st Hst Hsc root "data") in E5 as [Ht5 H5]; [|done..].
  destruct r5 as [[]|e].
  - destruct (RemoveAll previous o5) as [r6 o6] eqn:E6. intros [= <- <-].
    apply (RemoveAll_entry previous pv Hpv Hpc) in E6 as (Ht6 & _); [|done]. auto.
  - destruct H5 as [[_ E5]|(? & _)]; [|done]. rewrite <- E5 in Hk4.
    destruct (Rename previous root o5) as [r6 o6] eqn:E6. intros [= <- <-].
    apply rename_back in E6 as [Ht6 Hk6]; auto.
Qed.
Lemma remove_staging o r o' :
  at_restore (os_tree o) → RemoveAll staging o = (r, o') →
  at_restore (os_tree o') ∧ (kept (os_tree o) → kept (os_tree o')) ∧ (aside (os_tree o) → aside (os_tree o')).
Proof.
  intros Ht E. apply (RemoveAll_entry staging st Hst Hsc) in E as (Ht' & Hc & _); [|done].
  split; [done|]. split; intros Hk; by eapply (moved_other _ _ st); [apply not_eq_sym| |].
Qed.

Lemma make_staging o r o' :
  at_restore (os_tree o) → (∀ k tg, below (S ++ [st]) k → os_tree o !! k ≠ Some (NLink tg)) →
  MkdirAll staging o = (r, o') →
  at_restore (os_tree o') ∧ (kept (os_tree o) → kept (os_tree o')) ∧
  (r = Ok tt → clean_dir (comps staging) (os_tree o')).
Proof.
  intros Ht Hclean E. destruct (at_restore_dir _ Ht) as [Hl HSd].
  assert (no_link (os_tree o) (comps staging)) as Hls.
  { rewrite Hsc. apply no_link_above_last; [by apply no_link_above_snoc|]. intros tg. apply Hclean, below_refl. }
  pose proof E as [Ha Hok]%(MkdirAll_adds o o' _ Hst); [|done].
  pose proof (adds_dirs_no_new_links _ _ _ Ha) as Hn.
  assert (at_restore (os_tree o')) as Ht'.
  { eapply at_restore_next; [done|by apply Hok, Ht|].
    eapply MkdirAll_inside; [exact Hst|apply Ht|done|done| |exact E]. left. rewrite Hsc. by exists [st]. }
  split; [done|]. split.
  - intros Hm k n Hk%Hm. destruct (Ha (data ++ k)) as [->|(_ & ? & _)]; [done|congruence].
  - intros ->. split; [apply Ht'|]. split; [by eapply MkdirAll_Ok|]. split; [by eapply no_link_no_new|].
    intros k tg Hk E'%Hn. rewrite Hsc in Hk. by eapply Hclean.
Qed.

(** [Restore] once the archive is checked. *)
Lemma restore_tail untar archive o r o' :
  tree_ok t0 → os_tree o = t0 → (∀ k tg, below (S ++ [st]) k → t0 !! k ≠ Some (NLink tg)) →
  (ignore (RemoveAll staging);; MkdirAll staging;;
   defer (swap_in untar archive root staging previous) (RemoveAll staging)) o = (r, o') →
  changes (inside S) t0 (os_tree o') ∧ (is_ok r = true ∨ kept (os_tree o') ∨ aside (os_tree o')).
Proof.
  intros Hok Ho Hclean H. assert (at_restore (os_tree o)) as Ht by (rewrite Ho; split; [done|apply changes_refl]).
  assert (kept (os_tree o)) as Hk by (rewrite Ho; by intros k n).
  unfold mbind at 1, M_bind at 1, ignore at 1 in H. destruct (RemoveAll staging o) as [r1 o1] eqn:E1.
  pose proof E1 as (_ & _ & Hn1)%(RemoveAll_entry staging st Hst Hsc); [|done].
  apply remove_staging in E1 as (Ht1 & Hk1 & _); [|done]. specialize (Hk1 Hk).
  unfold mbind at 1, M_bind at 1 in H. destruct (MkdirAll staging o1) as [r2 o2] eqn:E2.
  apply make_staging in E2 as (Ht2 & Hk2 & Hd2); [|done|].
  2:{ intros k tg Hkb E%Hn1. rewrite Ho in E. by eapply Hclean. }
  specialize (Hk2 Hk1). destruct r2 as [[]|e]; [|injection H as <- <-; split; [apply Ht2|auto]].
  unfold defer, mbind, M_bind, try, ignore, lift_res in H.
  destruct (swap_in untar archive root staging previous o2) as [r3 o3] eqn:E3.
  apply swap_in_step in E3 as [Ht3 Hk3]; [|done|done|by apply Hd2].
  destruct (RemoveAll staging o3) as [r4 o4] eqn:E4.
  apply remove_staging in E4 as (Ht4 & Hk4 & Ha4); [|done]. injection H as <- <-.
  split; [apply Ht4|]. destruct Hk3 as [?|[?|?]]; auto.
Qed.
End Swap.
End Restore.

Section RestoreFiles.
Context (untar : string → tar_stream) (sha256 : string → string) (root_cfg id : string).
Context (Hroot : IsAbs root_cfg = true) (Hid : validServerID id = true).

Local Abbreviation S := (server_dir root_cfg id).
Local Abbreviation data := (data_dir root_cfg id).

Definition no_slash (s : string) : bool := bytes_all (λ x, bool_decide (x ≠ slash)) s.

Lemma restore_entries i : no_slash i = true →
  entry_ok (".restore-" +:+ i) ∧ entry_ok (".previous-" +:+ i) ∧
  (".restore-" +:+ i ≠ "data" ∧ ".previous-" +:+ i ≠ "data" ∧ ".restore-" +:+ i ≠ ".previous-" +:+ i).
Proof.
  unfold no_slash. intros Hi. unfold entry_ok, comp_ok. rewrite !bytes_all_app, Hi. repeat split; done.
Qed.

Lemma target_dot : target root_cfg id "." = data.
Proof.
  unfold target. destruct (data_ok root_cfg id Hid) as [Hd Pd].
  pose proof (serverRoot_spec root_cfg id Hroot Hid) as H. unfold serverRoot in H. rewrite Hid in H.
  injection H as ->. destruct (comps_Join_abs (render true data) (Clean ".")) as [-> _];
    [by rewrite IsAbs_render|done|]. rewrite comps_render by done. change (comps (Clean ".")) with ([] : path).
  rewrite app_nil_r. by apply norm_plain_id.
Qed.

(** What [restore_files] returned, and what it did. *)
Lemma restore_files_step (b : Backup) o r o' :
  no_slash (bk_ID b) = true →
  fs_inv root_cfg id o → os_tree o !! data = Some NDir →
  (∀ k tg, below (S ++ [".restore-" +:+ bk_ID b]) k → os_tree o !! k ≠ Some (NLink tg)) →
  restore_files untar sha256 root_cfg b id o = (r, o') →
  restore_outcome S (bk_ID b) (os_tree o) (os_tree o') (is_ok r)
    (∃ bytes o1, ReadFile (bk_FilePath b) o = (Ok bytes, o1) ∧ sha256 bytes = bk_ChecksumSHA b).
Proof.
  intros Hb Hinv Hdata Hclean H.
  assert (∀ e P, r = Err e → os_tree o' = os_tree o →
    restore_outcome S (bk_ID b) (os_tree o) (os_tree o') (is_ok r) P) as Herr.
  { intros e P -> ->. apply outcome_unchanged. }
  destruct (restore_entries (bk_ID b) Hb) as (Hre & Hpe & Hrd & Hpd & Hrp).
  unfold restore_files, checksumFile in H.
  remember (".restore-" +:+ bk_ID b) as rs eqn:Ers. remember (".previous-" +:+ bk_ID b) as ps eqn:Eps.
  unfold mbind at 1, M_bind at 1, mbind at 1, M_bind at 1 in H.
  pose proof (reads_ReadFile (bk_FilePath b) o) as H1.
  destruct (ReadFile (bk_FilePath b) o) as [[bytes|e] o1] eqn:E1; simpl in H1; [|by injection H as <- <-; eapply Herr].
  simpl in H. unfold mbind at 1, M_bind at 1, fail_if in H.
  destruct (String.eqb_spec (sha256 bytes) (bk_ChecksumSHA b)) as [Hsum|]; simpl in H; [|by injection H as <- <-; eapply Herr].
  assert (fs_inv root_cfg id o1) as Hinv1 by (unfold fs_inv; by rewrite H1).
  unfold mbind at 1, M_bind at 1 in H.
  destruct (ResolvePath root_cfg id "." o1) as [[root|e] o2] eqn:E2;
    pose proof E2 as E2'; apply (ResolvePath_spec root_cfg id Hroot Hid "." o1 _ o2 Hinv1) in E2' as [H2 Hg];
    rewrite H1 in H2; [|by injection H as <- <-; eapply Herr].
  destruct (Hg root eq_refl) as [cs Hgood]. apply ResolvePath_target in E2. rewrite target_dot in E2.
  destruct (good_direct root_cfg id _ _ _ Hgood) as [Hdr Hcr].
  assert (cs = []) as -> by (rewrite E2 in Hcr; apply (f_equal length) in Hcr; rewrite length_app in Hcr; destruct cs; [done|simpl in Hcr; lia]).
  destruct (good_Dir root_cfg id _ _ _ Hgood) as (HdS & HcS & _). rewrite app_nil_r in HcS, Hcr.
  unfold data_dir in HcS. rewrite removelast_last in HcS.
  destruct (entry_path (Dir root) rs HdS Hre) as [Hds Hcs]. destruct (entry_path (Dir root) ps HdS Hpe) as [Hdp Hcp].
  rewrite HcS in Hcs, Hcp. cbv zeta in H. clear Herr.
  destruct (restore_tail S (os_tree o)
    ltac:(eapply no_link_prefix; [apply Hinv|by exists ["data"]]) (proj1 Hinv S "data" NDir Hdata) Hdata
    root _ _ rs ps Hdr Hcr Hds Hcs Hdp Hcp Hrd Hpd Hrp untar (bk_FilePath b) o2 r o') as [Hch Hk];
    [apply Hinv|done|done|exact H|].
  rewrite Eps in Hk. split; [done|]. split; [done|]. right. eauto.
Qed.
End RestoreFiles.

(** The question to the status provider. *)
Lemma status_checked {W A} (status : option (string → W → res string)) target (k : M W A) w r w' :
  (match status with
   | Some st => s ← (λ w, (st target w, w)); fail_if (negb (s =s "stopped")) ErrServerRunning
   | None => mret tt
   end;; k) w = (r, w') →
  (∀ st, status = Some st → st target w = Ok "stopped") ∧ k w = (r, w') ∨ ∃ e, r = Err e ∧ w' = w.
Proof.
  destruct status as [st|]; [|intros H; left; split; [by intros ? [=]|exact H]]. unfold mbind, M_bind.
  destruct (st target w) as [s|e] eqn:Es; [|intros [= <- <-]; right; eauto].
  unfold fail_if. destruct (String.eqb_spec s "stopped") as [->|]; simpl; [|intros [= <- <-]; right; eauto].
  left. split; [by intros ? [= <-]|done].
Qed.

Lemma GetBackup_row id d b d' :
  GetBackup id d = (Ok b, d') → ∃ row, row ∈ db_backups d ∧ br_id row = id ∧ b = scan_backup row.
Proof.
  intros E. pose proof (query_state _ _ _ _ _ E) as ->. apply query_Ok in E. simpl in E.
  destruct (select_where (λ r, br_id r =s id) (db_backups d)) as [|row l] eqn:El; [done|].
  injection E as <-. exists row. assert (row ∈ select_where (λ r, br_id r =s id) (db_backups d)) as Hin by (rewrite El; left).
  apply elem_of_select_where in Hin as [Hi Hin]. apply String.eqb_eq in Hi. done.
Qed.

Lemma restore_invalid untar sha256 root_cfg target b o r o' :
  validServerID target = false → restore_files untar sha256 root_cfg b target o = (r, o') →
  ∃ e, r = Err e ∧ os_tree o' = os_tree o.
Proof.
  intros Hv. unfold restore_files, checksumFile, mbind, M_bind.
  pose proof (reads_ReadFile (bk_FilePath b) o) as H1.
  destruct (ReadFile (bk_FilePath b) o) as [[bytes|e] o1]; simpl in *; [|intros [= <- <-]; eauto].
  unfold fail_if. destruct (negb _); [intros [= <- <-]; eauto|]. simpl.
  unfold ResolvePath, serverRoot. rewrite Hv. intros [= <- <-]. eauto.
Qed.

(** ** Properties *)

(** C38.  Whatever bytes an archive consists of, and whatever call fails, its extraction makes,
    changes and links nothing outside the directory it is given: no entry escapes through an
    absolute name, [".."] or a symbolic link. *)
Theorem extract_confined untar archive root o r o' :
  direct root → clean_dir (comps root) (os_tree o) →
  extractArchive untar archive root o = (r, o') →
  (∀ k, ¬ inside (comps root) k → os_tree o' !! k = os_tree o !! k) ∧
  (∀ k tg, below (comps root) k → os_tree o' !! k ≠ Some (NLink tg)).
Proof.
  intros Hroot Hc H.
  pose proof (keeps_extractArchive root Hroot (os_tree o) untar archive o (conj Hc (changes_refl _ _))) as [Hc' Hch].
  rewrite H in Hc', Hch. split; [|apply Hc']. intros k Hk. by destruct (Hch k).
Qed.

(** What a restoration needs before it may touch anything. *)
Definition restorable {RT P C} (sha256 : string → string) (status : option (string → World RT P C → res string))
    (target id : string) (w : World RT P C) : Prop :=
  (∀ st, status = Some st → st target w = Ok "stopped") ∧
  ∃ row, row ∈ db_backups (w_db w) ∧ br_id row = id ∧ br_status row = "completed" ∧
    ∃ bytes o, ReadFile (br_file_path row) (w_os w) = (Ok bytes, o) ∧ sha256 bytes = br_checksum row.

(** C39.  A restoration loses nothing.  It changes files of the target server only, and none at
    all unless the server is stopped, the backup is complete and the archive has the recorded
    checksum; and when it fails, whatever call failed, all the data of the server is still in
    its data directory or, if the directory could not be put back, in [.previous-<id>]. *)
Theorem Restore_safe {RT P C} untar sha256 root_cfg status opts (w w' : World RT P C) r :
  let target := if ro_TargetServerID opts =s "" then ro_ServerID opts else ro_TargetServerID opts in
  let S := server_dir root_cfg target in
  let t := os_tree (w_os w) in
  let t' := os_tree (w_os w') in
  IsAbs root_cfg = true → fs_inv root_cfg target (w_os w) → t !! data_dir root_cfg target = Some NDir →
  no_slash (ro_BackupID opts) = true →
  (∀ k tg, below (S ++ [".restore-" +:+ ro_BackupID opts]) k → t !! k ≠ Some (NLink tg)) →
  Restore untar sha256 root_cfg status opts w = (r, w') →
  restore_outcome S (ro_BackupID opts) t t' (is_ok r)
    (restorable sha256 status target (ro_BackupID opts) w).
Proof.
  intros target S t t' Hroot Hinv Hdata Hid Hclean H.
  assert (∀ e P, r = Err e → t' = t → restore_outcome S (ro_BackupID opts) t t' (is_ok r) P) as Herr.
  { intros e Q -> ->. apply outcome_unchanged. }
  unfold Restore in H. fold target in H. unfold mbind at 1, M_bind at 1, fail_if at 1 in H.
  destruct (target =s ""); [injection H as <- <-; by eapply Herr|]. simpl in H.
  apply status_checked in H as [[Hst H]|(e & -> & ->)]; [|by eapply Herr].
  unfold mbind at 1, M_bind at 1, db, zoom in H.
  destruct (GetBackup (ro_BackupID opts) (w_db w)) as [[b|e] d] eqn:Eb; [|injection H as <- <-; by eapply Herr].
  apply GetBackup_row in Eb as (row & Hrow & Hrid & ->).
  unfold mbind at 1, M_bind at 1, fail_if in H.
  destruct (String.eqb_spec (bk_Status (scan_backup row)) "completed") as [Hc|]; simpl in H;
    [|injection H as <- <-; by eapply Herr].
  unfold os, zoom in H. simpl in H. destruct (restore_files _ _ _ _ _ (w_os w)) as [r1 o1] eqn:E.
  injection H as <- <-. destruct (validServerID target) eqn:Hv.
  2:{ apply restore_invalid in E as (e & -> & E); [by eapply Herr|done]. }
  rewrite <- Hrid in *.
  apply restore_files_step in E; [|done..].
  eapply outcome_mono; [|exact E]. intros (bytes & o2 & Hb). split; [done|]. exists row. eauto 10.
Qed.

(** ** A server with one stored backup *)

(** Archives of one entry: its name, a line with its body. *)
Definition one_entry (s : string) : tar_stream :=
  match Split "010"%char s with
  | [name; body] => Ok ([mkTarItem name TypeReg false body None], None)
  | _ => Err (EExt "gzip: invalid header")
  end.

Definition newline : string := String "010" "".
Definition evil : string := "../../../etc/passwd" +:+ newline +:+ "x".
Definition good_archive : string := "w/map" +:+ newline +:+ "old".

Definition backup_os (archive : string) (fs : list (option string)) : OS := mkOS (list_to_map [
    (["srv"], NDir); (["srv"; "a"], NDir); (["srv"; "a"; "data"], NDir);
    (["srv"; "a"; "data"; "world"], NFile "new" 384);
    (["out"], NDir); (["bak"], NFile archive 384)]) [] [] fs.

Definition backup_db : DB :=
  set_backups [mkBackupRow "b" "a" "/bak" 9 good_archive "completed" 0 None] fresh_db.

Definition backup_world (archive : string) (fs : list (option string)) : World unit unit unit :=
  mkWorld backup_db NewEventBus (backup_os archive fs) tt tt tt ∅ false ∅.

Local Abbreviation restore := (Restore (RT:=unit) (P:=unit) (C:=unit) one_entry (λ s, s) "/srv" None (mkRestoreOptions "a" "b" "")).

Lemma extract_confined_witness :
  let o' := snd (extractArchive one_entry "/bak" "/out" (backup_os evil [])) in
  os_tree o' !! ["etc"; "passwd"] = None.
Proof.
  cbv zeta. destruct (extract_confined one_entry "/bak" "/out" (backup_os evil []) _ _
    ltac:(split; [reflexivity|vm_compute; repeat constructor; discriminate])
    ltac:(split; [apply tree_okb_ok; vm_compute; reflexivity|split; [reflexivity|split;
      [apply no_linkb_ok; vm_compute; reflexivity|intros k tg _; apply no_links_check; vm_compute; reflexivity]]])
    (surjective_pairing _)) as [H _].
  rewrite H; [reflexivity|]. intros [[k Hk] _]. vm_compute in Hk. discriminate Hk.
Defined.

(** The restoration fails at the last rename, and the data is put back. *)
Lemma Restore_safe_witness :
  let w := backup_world good_archive (replicate 13 None ++ [Some "EIO"]) in
  restore_outcome ["srv"; "a"] "b" (os_tree (w_os w)) (os_tree (w_os (snd (restore w)))) (is_ok (fst (restore w)))
    (restorable (λ s, s) None "a" "b" w) ∧
  os_tree (w_os (snd (restore w))) !! ["srv"; "a"; "data"; "world"] = Some (NFile "new" 384).
Proof.
  cbv zeta. set (w := backup_world good_archive (replicate 13 None ++ [Some "EIO"])).
  split.
  - apply (Restore_safe one_entry (λ s, s) "/srv" None (mkRestoreOptions "a" "b" "") w).
    + reflexivity.
    + split; [apply tree_okb_ok|apply no_linkb_ok]; vm_compute; reflexivity.
    + reflexivity.
    + reflexivity.
    + intros k tg _. apply no_links_check. vm_compute. reflexivity.
    + apply surjective_pairing.
  - vm_compute. reflexivity.
Defined.
