(* ===== verification/BackupRoundtrip.v ===== *)
(** * A backup brings back what it saved

    The walk archives every file below the data directory, and extracting the archive
    into an empty directory rebuilds the same tree, file modes apart. *)

From S2P Require Import Prelude GoLib GoPath GoOS GoOSFacts GoOSRun Store Filesystem FilesystemFacts Codec Backup BackupFacts.
From Stdlib Require Import Ascii.

(** ** Definitions *)

(** Below [R]: names a directory can hold, and no links. *)
Definition plain_tree (t : tree) (R : path) : Prop := ∀ k n, t !! (R ++ k) = Some n →
  Forall entry_ok k ∧ ∀ tg, n ≠ NLink tg.

(** The entry the archive holds for the node at [R ++ k]. *)
Definition item_at (k : path) (n : fnode) : tar_item :=
  FileInfoHeader (render false k) n (match n with NFile c _ => c | _ => "" end).

(** What extraction makes of a node. *)
Definition restored (n : fnode) : fnode := match n with NFile c _ => NFile c 384 | _ => n end.

(** Entries as the archiver makes them: what tar and gzip give back as they were. *)
Definition archivable (it : tar_item) : Prop :=
  th_Error it = None ∧
  (th_Typeflag it = TypeReg ∧ th_IsDir it = false ∨ th_Typeflag it = TypeDir ∧ th_IsDir it = true) ∧
  ∃ k, k ≠ [] ∧ Forall entry_ok k ∧ th_Name it = render false k.

(** ** Lemmas *)

Lemma ctx_Err_at o : os_faults o = [] → ctx_Err o = (Ok tt, o).
Proof. intros Hf. unfold ctx_Err. rewrite syscall_no_fault by done. by destruct o. Qed.

Lemma file_io_at o : os_faults o = [] → file_io o = (Ok tt, o).
Proof. apply ctx_Err_at. Qed.

Lemma entry_ok_app k l : Forall entry_ok (k ++ l) ↔ Forall entry_ok k ∧ Forall entry_ok l.
Proof. apply Forall_app. Qed.

(** *** The walk *)

Lemma on_os_at {A} (m : M OS A) o a items : m o = (Ok a, o) → on_os m (o, items) = (Ok a, (o, items)).
Proof. intros E. unfold on_os, zoom. simpl. by rewrite E. Qed.

Section Walk.
Context (R : path) (o : OS).
Context (HR : Forall entry_ok R) (HR0 : R ≠ []).
Context (Hf : os_faults o = []) (Ht : tree_ok (os_tree o)) (Hp : plain_tree (os_tree o) R).

Local Abbreviation root := (render true R).

Lemma below_path k : Forall entry_ok k → direct (render true (R ++ k)) ∧ comps (render true (R ++ k)) = R ++ k.
Proof.
  intros Hk. assert (Forall comp_ok (R ++ k) ∧ plain (R ++ k)) as [H1 H2] by (by apply entry_ok_split, entry_ok_app).
  unfold direct. rewrite IsAbs_render, comps_render by done. done.
Qed.

Lemma Rel_below k : Forall entry_ok k → Rel root (render true (R ++ k)) = Ok (render false k).
Proof.
  intros Hk. destruct (below_path [] (Forall_nil_2 _)) as [[Ha1 Hp1] Hc1]. rewrite app_nil_r in *.
  destruct (below_path k Hk) as [[Ha2 Hp2] Hc2].
  pose proof (Rel_abs root (render true (R ++ k)) Ha1 Ha2 Hp1 Hp2) as H.
  rewrite Hc1, Hc2, strip_common_prefix in H. done.
Qed.

(** A relative name of an entry passes the checks. *)
Lemma relative_name k s : k ≠ [] → Forall entry_ok k → comps s = [] ∨ comps s = [".."] → (render false k =s s) = false.
Proof.
  intros Hk0 Hk Hs. apply String.eqb_neq. intros <-. apply entry_ok_split in Hk as [Hk Hpl].
  rewrite comps_render in Hs by done. destruct Hs as [?| ->]; [done|]. by inversion Hpl.
Qed.

Lemma archive_entry_at k n items :
  os_tree o !! (R ++ k) = Some n → k ≠ [] →
  archive_entry root (render true (R ++ k)) n (o, items) = (Ok tt, (o, items ++ [item_at k n])).
Proof.
  intros Hn Hk0. destruct (Hp k n Hn) as [Hk Hl]. destruct (below_path k Hk) as [Hd Hc].
  assert ((render true (R ++ k) =s root) = false) as Hne.
  { apply String.eqb_neq. intros E. apply (f_equal comps) in E. rewrite Hc in E.
    destruct (below_path [] (Forall_nil_2 _)) as [_ Hc0]. rewrite app_nil_r in Hc0.
    rewrite Hc0 in E. apply (f_equal length) in E. rewrite length_app in E. destruct k; [done|simpl in E; lia]. }
  pose proof (entry_ok_split k) as [Hsp _]. destruct (Hsp Hk) as [Hk1 Hk2].
  unfold archive_entry. erewrite bind_Ok; [|by apply on_os_at, ctx_Err_at]. rewrite Hne.
  erewrite bind_Ok; [|by unfold lift_res; rewrite Rel_below].
  rewrite !relative_name, IsAbs_render by (done || (by left) || (by right)).
  erewrite bind_Ok; [|done]. erewrite bind_Ok.
  2:{ destruct n; [done|done|by destruct (Hl target)]. }
  erewrite bind_Ok; [|by apply on_os_at, file_io_at]. destruct n as [c m| |tg]; [|done|by destruct (Hl tg)].
  simpl. erewrite bind_Ok; [|apply on_os_at, (ReadFile_reach o Hf Ht _ c m); [done|by rewrite Hc; destruct R|by rewrite Hc]].
  erewrite bind_Ok; [|by apply on_os_at, file_io_at]. done.
Qed.

Lemma archive_root items : archive_entry root root NDir (o, items) = (Ok tt, (o, items)).
Proof.
  unfold archive_entry. erewrite bind_Ok; [|by apply on_os_at, ctx_Err_at]. by rewrite String.eqb_refl.
Qed.

(** What a part of the walk adds to the archive: entries of the tree only, among them all those
    below [k]. *)
Definition archives (k : path) (L : list tar_item) : Prop :=
  (∀ it, it ∈ L → ∃ q m, q ≠ [] ∧ os_tree o !! (R ++ q) = Some m ∧ it = item_at q m) ∧
  (∀ q m, os_tree o !! (R ++ k ++ q) = Some m → k ++ q ≠ [] → item_at (k ++ q) m ∈ L).

Definition walks (k : path) (n : fnode) (m : M archiving unit) : Prop := ∀ items,
  ∃ L, m (o, items) = (Ok tt, (o, items ++ L)) ∧ archives k L.

Lemma walks_entries fuel k es :
  os_tree o !! (R ++ k) = Some NDir →
  (∀ c n, (c, n) ∈ es → os_tree o !! (R ++ k ++ [c]) = Some n ∧
     walks (k ++ [c]) n (walk_tree fuel root (render true (R ++ k ++ [c])) n)) →
  ∀ items, ∃ L,
    for_each (λ e : string * fnode,
      let filename := Join [render true (R ++ k); e.1] in
      r ← try (on_os (Lstat filename));
      match r with Err e => fail e | Ok info => walk_tree fuel root filename info end) es (o, items)
    = (Ok tt, (o, items ++ L)) ∧
    (∀ it, it ∈ L → ∃ q m, q ≠ [] ∧ os_tree o !! (R ++ q) = Some m ∧ it = item_at q m) ∧
    (∀ c n q m, (c, n) ∈ es → os_tree o !! (R ++ k ++ c :: q) = Some m → item_at (k ++ c :: q) m ∈ L).
Proof.
  intros Hk. induction es as [|[c n] es IH]; intros Hes items; simpl.
  { exists []. rewrite app_nil_r. split; [done|]. split; [|intros c n q m H; by apply elem_of_nil in H].
    intros it H. by apply elem_of_nil in H. }
  destruct (Hes c n) as [Hn Hw]; [left|]. destruct (Hp _ _ Hn) as [Hok Hl].
  destruct (below_path _ Hok) as [Hd Hc]. pose proof Hok as [Hok1 Hok2]%entry_ok_app.
  apply Forall_singleton in Hok2 as [Hc1 Hc2].
  assert (Join [render true (R ++ k); c] = render true (R ++ k ++ [c])) as ->.
  { assert (Forall comp_ok (R ++ k) ∧ plain (R ++ k)) as [H1 H2] by (by apply entry_ok_split, entry_ok_app).
    rewrite Join_render by done. by rewrite <- app_assoc. }
  destruct (Hw items) as (L1 & E1 & H1 & H1'). destruct (IH (λ c' n' H, Hes c' n' (proj2 (elem_of_cons _ _ _) (or_intror H))) (items ++ L1))
    as (L2 & E2 & H2 & H2').
  exists (L1 ++ L2). split; [|split].
  - rewrite (app_assoc items), (bind_Ok _ _ _ tt (o, items ++ L1)); [exact E2|].
    rewrite (bind_Ok _ _ _ (Ok n) (o, items)); [exact E1|]. unfold try. erewrite on_os_at; [done|].
    apply Lstat_at; [done|done|done|by rewrite Hc; destruct R|by rewrite Hc|done].
  - intros it [?|?]%elem_of_app; eauto.
  - intros c' n' q m [[= -> ->]|Hin]%elem_of_cons Hm; apply elem_of_app; [left|right; eauto].
    specialize (H1' q m). rewrite <- app_assoc in H1'. apply H1'; [done|by destruct k].
Qed.

(** The entry of the node itself; the root has none. *)
Definition self (k : path) (n : fnode) : list tar_item := match k with [] => [] | _ => [item_at k n] end.

Lemma archive_self k n items :
  os_tree o !! (R ++ k) = Some n → (k = [] → n = NDir) →
  archive_entry root (render true (R ++ k)) n (o, items) = (Ok tt, (o, items ++ self k n)).
Proof.
  intros Hn Hk. destruct k as [|x k]; simpl.
  - rewrite !app_nil_r, Hk by done. apply archive_root.
  - by apply archive_entry_at.
Qed.

Lemma elem_of_self it k n : it ∈ self k n ↔ k ≠ [] ∧ it = item_at k n.
Proof. destruct k; simpl; [rewrite elem_of_nil; naive_solver|rewrite list_elem_of_singleton; naive_solver]. Qed.

Lemma child_node p c q m : os_tree o !! (p ++ c :: q) = Some m → ∃ n, os_tree o !! (p ++ [c]) = Some n.
Proof.
  intros Hm. destruct q as [|d q]; [by exists m|]. exists NDir. rewrite <- node_at_snoc.
  eapply (tree_ok_below _ (p ++ [c]) _ m Ht Hm); [exists (d :: q); by rewrite <- app_assoc|].
  intros E%app_inv_head. done.
Qed.

Lemma walk_tree_at fuel k n :
  os_tree o !! (R ++ k) = Some n → (k = [] → n = NDir) →
  (∀ q m, os_tree o !! (R ++ k ++ q) = Some m → length q < fuel)%nat →
  walks k n (walk_tree fuel root (render true (R ++ k)) n).
Proof.
  revert k n. induction fuel as [|fuel IH]; intros k n Hn Hk Hq items.
  { specialize (Hq [] n). rewrite app_nil_r in Hq. apply Hq in Hn. lia. }
  destruct (Hp _ _ Hn) as [Hok Hl]. destruct (below_path _ Hok) as [Hd Hc].
  assert (∀ it, it ∈ self k n → ∃ q m, q ≠ [] ∧ os_tree o !! (R ++ q) = Some m ∧ it = item_at q m) as Hself.
  { intros it [? ->]%elem_of_self. eauto. }
  cbn [walk_tree]. destruct n as [c m| |tg]; cbn [IsDir].
  - exists (self k (NFile c m)). split; [by apply archive_self|]. split; [done|].
    intros q m' Hm Hne. destruct q as [|x q].
    + rewrite !app_nil_r in *. rewrite Hn in Hm. injection Hm as <-. by apply elem_of_self.
    + exfalso. assert (node_at (os_tree o) (R ++ k) = Some NDir) as Hx.
      { eapply (tree_ok_below _ _ _ m' Ht Hm); [exists (x :: q); by rewrite <- app_assoc|].
        intros E. apply (f_equal length) in E. rewrite !length_app in E. simpl in E. lia. }
      destruct R; [done|]. simpl in *. congruence.
  - destruct (walks_entries fuel k (entries (R ++ k) (os_tree o)) Hn) with (items := items ++ self k NDir)
      as (L & EL & H1 & H2).
    { intros c n Hin%elem_of_entries. rewrite <- app_assoc in Hin. split; [done|].
      apply IH; [done|by destruct k|]. intros q m Hm. rewrite <- app_assoc in Hm. apply Hq in Hm. simpl in Hm. lia. }
    exists (self k NDir ++ L). split; [|split].
    + rewrite app_assoc. rewrite (bind_Ok _ _ _ (Ok (entries (R ++ k) (os_tree o))) (o, items)).
      2:{ unfold try. erewrite on_os_at; [done|]. rewrite <- Hc at 2. apply ReadDir_at; [done|done|done|by rewrite Hc; destruct R|by rewrite Hc]. }
      rewrite (bind_Ok _ _ _ tt (o, items ++ self k NDir)); [exact EL|by apply archive_self].
    + intros it [?|?]%elem_of_app; eauto.
    + intros q m Hm Hne. apply elem_of_app. destruct q as [|c q].
      * left. rewrite !app_nil_r in *. rewrite Hn in Hm. injection Hm as <-. by apply elem_of_self.
      * right. rewrite app_assoc in Hm. destruct (child_node _ _ _ _ Hm) as [n' Hn'].
        eapply H2; [by apply elem_of_entries|]. by rewrite app_assoc.
  - by destruct (Hl tg).
Qed.

(** The whole walk: it ends, and the archive holds the tree. *)
Lemma Walk_at fuel :
  os_tree o !! R = Some NDir → (∀ k m, os_tree o !! (R ++ k) = Some m → length k < fuel)%nat →
  ∃ L, Walk fuel root (o, []) = (Ok tt, (o, L)) ∧ archives [] L.
Proof.
  intros HRn Hq. destruct (below_path [] (Forall_nil_2 _)) as [Hd Hc]. rewrite app_nil_r in Hd, Hc.
  destruct (walk_tree_at fuel [] NDir) with (items := @nil tar_item) as (L & E & HL); [by rewrite app_nil_r|done|done|].
  exists L. split; [|done]. unfold Walk. rewrite (bind_Ok _ _ _ (Ok NDir) (o, [])).
  2:{ unfold try. erewrite on_os_at; [done|]. apply Lstat_at; [done|done|done|by rewrite Hc|by rewrite Hc|done]. }
  rewrite app_nil_r in E. exact E.
Qed.
End Walk.

(** *** The extraction *)

Section Extraction.
Context (R ST : path) (t : tree).
Context (HS : Forall entry_ok ST) (HS0 : ST ≠ []).
Context (Ht : tree_ok t) (HR : node_at t R = Some NDir) (Hp : plain_tree t R).

Local Abbreviation stg := (render true ST).

(** What is in the staging directory so far is a part of the saved tree. *)
Definition partial (t' : tree) : Prop :=
  tree_ok t' ∧ t' !! ST = Some NDir ∧
  ∀ k m, k ≠ [] → t' !! (ST ++ k) = Some m → ∃ n, t !! (R ++ k) = Some n ∧ m = restored n.

Definition extends (t1 t2 : tree) : Prop := ∀ k m, t1 !! k = Some m → t2 !! k = Some m.

Lemma source_dir k n q : t !! (R ++ k) = Some n → below q k → q ≠ k → node_at t (R ++ q) = Some NDir.
Proof.
  intros Hn [x ->] Hne. eapply tree_ok_below; [done|exact Hn|by exists x; rewrite <- app_assoc|].
  intros E%app_inv_head. done.
Qed.

(** Nothing but directories is on the way to a directory of the saved tree. *)
Lemma way_free q t' :
  partial t' → (∀ q', below q' q → q' ≠ [] → t !! (R ++ q') = Some NDir) →
  ∀ p, below p (ST ++ q) → p ≠ [] → t' !! p = None ∨ t' !! p = Some NDir.
Proof.
  intros (Ht' & HST & Hpart) Hq p Hb Hp0. destruct (prefix_weak_total p ST (ST ++ q)) as [H|[q' ->]]; [done|by exists q| |].
  - right. assert (node_at t' ST = Some NDir) as HN by (by destruct ST).
    pose proof (ancestor_node ST t' p Ht' HN H) as E. by destruct p.
  - destruct (t' !! (ST ++ q')) as [m|] eqn:E; [right|by left]. destruct q' as [|x q'].
    { rewrite app_nil_r in E. congruence. }
    destruct (Hpart (x :: q') m) as (n & Hn & ->); [done|done|].
    rewrite Hq in Hn; [by injection Hn as <-|by apply prefix_app_inv in Hb|done].
Qed.

Lemma make_dirs p q o' :
  os_faults o' = [] → partial (os_tree o') → direct p → comps p = ST ++ q →
  (∀ q', below q' q → q' ≠ [] → t !! (R ++ q') = Some NDir) →
  ∃ t2, MkdirAll p o' = (Ok tt, set_tree t2 o') ∧ partial t2 ∧ t2 !! (ST ++ q) = Some NDir ∧ extends (os_tree o') t2.
Proof.
  intros Hf Hpart Hd Hc Hq. pose proof Hpart as (Ht' & HST & Hk).
  destruct (MkdirAll_total o' p Hf Hd Ht') as (t2 & E & Ht2 & Hn2 & Ha).
  { rewrite Hc. by apply way_free. }
  exists t2. split; [done|]. rewrite Hc in Hn2.
  assert (extends (os_tree o') t2) as Hext.
  { intros k m Hm. destruct (Ha k) as [->|(_ & ? & _)]; [done|congruence]. }
  split; [|split; [by destruct ST|done]]. split; [done|]. split; [by apply Hext|].
  intros k m Hk0 Hm. destruct (Ha (ST ++ k)) as [E'|(Hb & _ & E')]; [rewrite E' in Hm; by apply Hk|].
  rewrite E' in Hm. injection Hm as <-. exists NDir. split; [|done]. apply Hq; [|done].
  rewrite Hc in Hb. by apply prefix_app_inv in Hb.
Qed.

Lemma partial_write k c m md t' :
  partial t' → k ≠ [] → t !! (R ++ k) = Some (NFile c m) → node_at t' (removelast (ST ++ k)) = Some NDir →
  tree_ok (<[ST ++ k := NFile md 384]> t') ∧ t' !! (ST ++ k) ≠ Some NDir ∧
  (∀ tg, t' !! (ST ++ k) ≠ Some (NLink tg)) ∧ write_mode (t' !! (ST ++ k)) 384 = 384.
Proof.
  intros (Ht' & HST & Hk) Hk0 Hn Hpar. specialize (Hk k). rewrite Hn in Hk.
  assert (t' !! (ST ++ k) = None ∨ t' !! (ST ++ k) = Some (NFile c 384)) as Hcase.
  { destruct (t' !! (ST ++ k)) as [x|] eqn:E; [right|by left].
    destruct (Hk x Hk0 eq_refl) as (n & [= <-] & ->). done. }
  split; [|destruct Hcase as [-> | ->]; done].
  apply tree_ok_insert; [done|by destruct ST|done|]. destruct Hcase as [-> | ->]; by left.
Qed.

(** A regular file is written in two steps. *)
Lemma write_file p k c m o' :
  os_faults o' = [] → partial (os_tree o') → direct p → comps p = ST ++ k → k ≠ [] →
  t !! (R ++ k) = Some (NFile c m) → node_at (os_tree o') (removelast (ST ++ k)) = Some NDir →
  ∃ t1 t2, WriteFile p "" 384 o' = (Ok tt, set_tree t1 o') ∧
    WriteFile p c 384 (set_tree t1 o') = (Ok tt, set_tree t2 o') ∧
    partial t2 ∧ t2 !! (ST ++ k) = Some (NFile c 384) ∧
    (∀ q, q ≠ ST ++ k → t2 !! q = os_tree o' !! q).
Proof.
  intros Hf Hpart Hd Hc Hk0 Hn Hpar. pose proof Hpart as (Ht' & HST & Hk).
  destruct (partial_write k c m "" _ Hpart Hk0 Hn Hpar) as (Hok1 & Hnd & Hnl & Hmode).
  assert (ST ++ k ≠ []) as Hne by (by destruct ST).
  assert (removelast (ST ++ k) ≠ ST ++ k) as Hrl.
  { destruct (snoc_removelast _ Hne) as (q & x & E & ->). rewrite E. intros E'. apply (f_equal length) in E'.
    rewrite length_app in E'. simpl in E'. lia. }
  exists (<[ST ++ k := NFile "" 384]> (os_tree o')), (<[ST ++ k := NFile c 384]> (os_tree o')).
  split; [|split; [|split; [|split]]].
  - rewrite WriteFile_reach; rewrite ?Hc, ?Hmode; [done|done|done| |done].
    split; [done|]. rewrite Hc. done.
  - rewrite WriteFile_reach; rewrite ?Hc; simpl; rewrite ?lookup_insert_eq; [|done|done| |done].
    + simpl. unfold set_tree. simpl. by rewrite insert_insert_eq.
    + split; [done|]. rewrite Hc. split; [done|]. simpl. rewrite lookup_insert_eq. split; [|done].
      destruct (removelast (ST ++ k)) as [|x l] eqn:E; [done|]. simpl in *. by rewrite lookup_insert_ne.
  - destruct (partial_write k c m c _ Hpart Hk0 Hn Hpar) as (Hok2 & _). split; [done|]. split.
    + rewrite lookup_insert_ne; [done|]. intros E. apply (f_equal length) in E. rewrite length_app in E.
      destruct k; [done|simpl in E; lia].
    + intros q m' Hq0 Hm. rewrite lookup_insert in Hm. case_decide as Hd'; [|by apply Hk].
      apply app_inv_head in Hd' as <-. injection Hm as <-. by exists (NFile c m).
  - by rewrite lookup_insert_eq.
  - intros q Hq. by rewrite lookup_insert_ne.
Qed.
(** An entry of the archive is rebuilt. *)
Lemma name_inside k : k ≠ [] → Forall entry_ok k →
  Clean (render false k) = render false k ∧ leaves_root (render false k) = false ∧
  Join [stg; render false k] = render true (ST ++ k).
Proof.
  intros Hk0 Hk. pose proof Hk as [Hk1 Hk2]%entry_ok_split. pose proof HS as [HS1 HS2]%entry_ok_split.
  split; [by apply Clean_render_plain|]. split.
  - unfold leaves_root. destruct (_ || _) eqn:E; [|done]. apply render_escapes in E; [|done].
    destruct k as [|x k]; [done|]. injection E as ->. by inversion Hk2.
  - rewrite Join_abs_eq; [|by apply IsAbs_render|by apply render_not_empty]. rewrite !comps_render by done.
    rewrite norm_plain_id; [done|]. by apply plain_app.
Qed.

Lemma extract_item k n o' :
  os_faults o' = [] → partial (os_tree o') → k ≠ [] → t !! (R ++ k) = Some n →
  ∃ t2, extract_entry stg (item_at k n) o' = (Ok tt, set_tree t2 o') ∧ partial t2 ∧
    t2 !! (ST ++ k) = Some (restored n) ∧
    ∀ q n', t !! (R ++ q) = Some n' → os_tree o' !! (ST ++ q) = Some (restored n') → t2 !! (ST ++ q) = Some (restored n').
Proof.
  intros Hf Hpart Hk0 Hn. destruct (Hp k n Hn) as [Hk Hl]. destruct (name_inside k Hk0 Hk) as (EC & EL & EJ).
  destruct (below_path ST HS k Hk) as [Hd Hc]. pose proof Hk as [Hk1 _]%entry_ok_split.
  unfold extract_entry. replace (th_Name (item_at k n)) with (render false k) by (by destruct n).
  rewrite EC, EL, EJ, (relative_name k "." Hk0 Hk (or_introl eq_refl)). rewrite IsAbs_render, Rel_below by done. simpl.
  erewrite bind_Ok; [|done]. rewrite EL. erewrite bind_Ok; [|done]. erewrite bind_Ok.
  2:{ destruct n as [| |tg]; [done|done|by destruct (Hl tg)]. }
  assert (∀ q', below q' k → q' ≠ k → q' ≠ [] → t !! (R ++ q') = Some NDir) as Hanc.
  { intros q' Hb Hne Hq0. pose proof (source_dir k n q' Hn Hb Hne) as E. by destruct R; [destruct q'|]. }
  destruct n as [c m| |tg]; simpl; [| |by destruct (Hl tg)].
  - destruct (snoc_removelast k Hk0) as (k' & x & Ek & Erk).
    assert (removelast (ST ++ k) = ST ++ k') as Er.
    { by rewrite Ek, app_assoc, removelast_last. }
    assert (Forall entry_ok k') as Hk' by (rewrite Ek in Hk; by apply entry_ok_app in Hk as [? _]).
    destruct (below_path ST HS k' Hk') as [Hd' Hc'].
    assert (Dir (render true (ST ++ k)) = render true (ST ++ k')) as ->.
    { assert (Forall comp_ok (ST ++ k) ∧ plain (ST ++ k)) as [H1 H2] by (by apply entry_ok_split, entry_ok_app).
      by rewrite Dir_render, Er. }
    destruct (make_dirs (render true (ST ++ k')) k' o' Hf Hpart Hd' Hc') as (t1 & E1 & Hp1 & Hn1 & Hx1).
    { intros q' Hb Hq0. apply Hanc; [rewrite Ek; by apply prefix_app_r| |done]. intros ->.
      destruct Hb as [y Hy]. rewrite Ek in Hy. apply (f_equal length) in Hy. rewrite !length_app in Hy. simpl in Hy. lia. }
    destruct (write_file (render true (ST ++ k)) k c m (set_tree t1 o') Hf Hp1 Hd Hc Hk0 Hn) as (t2 & t3 & E2 & E3 & Hp3 & Hn3 & Hx3).
    { rewrite Er. destruct (ST ++ k'); [done|exact Hn1]. }
    exists t3. split; [|split; [done|split; [done|]]].
    + erewrite bind_Ok; [|done]. erewrite bind_Ok; [|exact E1]. erewrite bind_Ok; [|exact E2].
      rewrite (bind_Ok _ _ _ (Ok tt) (set_tree t3 o')).
      2:{ unfold try, mbind, M_bind. rewrite E3. done. }
      rewrite (bind_Ok _ _ _ (Ok tt) (set_tree t3 o')); [done|]. unfold try. by rewrite file_io_at.
    + intros q n' Hq Hq'. destruct (decide (ST ++ q = ST ++ k)) as [E|Hne].
      * apply app_inv_head in E as ->. rewrite Hn in Hq. by injection Hq as <-.
      * rewrite Hx3 by done. by apply Hx1.
  - destruct (make_dirs (render true (ST ++ k)) k o' Hf Hpart Hd Hc) as (t1 & E1 & Hp1 & Hn1 & Hx1).
    { intros q' Hb Hq0. destruct (decide (q' = k)) as [->|Hne]; [done|by apply Hanc]. }
    exists t1. split; [exact E1|]. split; [done|]. split; [done|]. intros q n' _ Hq. by apply Hx1.
Qed.
Lemma extract_items L o' :
  os_faults o' = [] → partial (os_tree o') →
  (∀ it, it ∈ L → ∃ k n, k ≠ [] ∧ t !! (R ++ k) = Some n ∧ it = item_at k n) →
  ∃ t2, extract_entries stg L None o' = (Ok tt, set_tree t2 o') ∧ partial t2 ∧
    (∀ q n, t !! (R ++ q) = Some n → os_tree o' !! (ST ++ q) = Some (restored n) → t2 !! (ST ++ q) = Some (restored n)) ∧
    (∀ k n, k ≠ [] → t !! (R ++ k) = Some n → item_at k n ∈ L → t2 !! (ST ++ k) = Some (restored n)).
Proof.
  intros Hf. revert o' Hf. induction L as [|it L IH]; intros o' Hf Hpart HL.
  - exists (os_tree o'). cbn [extract_entries]. rewrite (bind_Ok _ _ _ tt o') by (by apply ctx_Err_at).
    rewrite set_tree_id. split; [done|]. split; [done|]. split; [done|]. intros k n _ _ H. by apply elem_of_nil in H.
  - destruct (HL it) as (k & n & Hk0 & Hn & ->); [left|].
    destruct (extract_item k n o' Hf Hpart Hk0 Hn) as (t1 & E1 & Hp1 & Hn1 & Hx1).
    destruct (IH (set_tree t1 o') Hf Hp1) as (t2 & E2 & Hp2 & Hx2 & HL2).
    { intros it Hit. apply HL. by right. }
    exists t2. split; [|split; [done|split]].
    + cbn [extract_entries]. rewrite (bind_Ok _ _ _ tt o') by (by apply ctx_Err_at).
      rewrite (bind_Ok _ _ _ tt (set_tree t1 o')) by done. exact E2.
    + intros q n' Hq Hq'. apply Hx2; [done|]. by apply Hx1.
    + intros k' n' Hk' Hn' [E|Hin]%elem_of_cons; [|by apply HL2].
      assert (render false k' = render false k) as Ek by (apply (f_equal th_Name) in E; by destruct n, n').
      destruct (Hp k n Hn) as [[Hok1 _]%entry_ok_split _]. destruct (Hp k' n' Hn') as [[Hok2 _]%entry_ok_split _].
      apply (f_equal comps) in Ek. rewrite !comps_render in Ek by done. subst k'.
      rewrite Hn in Hn'. injection Hn' as <-. by apply Hx2.
Qed.
End Extraction.

(** *** The archive *)

Lemma walk_fuel_enough t k n : t !! k = Some n → (length k < walk_fuel t)%nat.
Proof.
  intros Hn. unfold walk_fuel. assert (length k ∈ length <$> (map_to_list t).*1) as Hin.
  { apply list_elem_of_fmap. exists k. split; [done|]. apply list_elem_of_fmap. exists (k, n).
    split; [done|]. by apply elem_of_map_to_list. }
  revert Hin. generalize (length <$> (map_to_list t).*1). intros l Hin.
  assert (length k ≤ foldr Nat.max 0 l)%nat; [|lia].
  induction Hin as [x l|x y l Hin IH]; simpl; lia.
Qed.

Section Archive.
Context (tar_gz broken_tar_gz : list tar_item → string) (sha256 : string → string).
Context (R : path) (dest : string) (o : OS).
Context (HR : Forall entry_ok R) (HR0 : R ≠ []) (HRn : os_tree o !! R = Some NDir).
Context (Hf : os_faults o = []) (Ht : tree_ok (os_tree o)) (Hp : plain_tree (os_tree o) R).
Context (Hdest : reachable (os_tree o) dest) (Hnd : os_tree o !! comps dest ≠ Some NDir) (Hout : ¬ below R (comps dest)).

(** Writing the archive's file leaves what is being saved. *)
Lemma with_dest c md :
  let t1 := <[comps dest := NFile c md]> (os_tree o) in
  tree_ok t1 ∧ (∀ k, t1 !! (R ++ k) = os_tree o !! (R ++ k)) ∧ reachable t1 dest ∧ t1 !! comps dest ≠ Some NDir.
Proof.
  destruct Hdest as (Hd & Hne & Hpar & Hl). cbv zeta.
  assert (removelast (comps dest) ≠ comps dest) as Hrl.
  { destruct (snoc_removelast _ Hne) as (q & x & E & ->). rewrite E. intros E'. apply (f_equal length) in E'.
    rewrite length_app in E'. simpl in E'. lia. }
  split; [apply tree_ok_insert; auto|]. split; [|split].
  - intros k. rewrite lookup_insert_ne; [done|]. intros E. apply Hout. rewrite E. by exists k.
  - split; [done|]. split; [done|]. split; [|intros tg; by rewrite lookup_insert_eq].
    destruct (removelast (comps dest)) as [|x l] eqn:E; [done|]. simpl in *. rewrite lookup_insert_ne; [done|].
    intros E'. by rewrite E' in Hrl.
  - by rewrite lookup_insert_eq.
Qed.

Lemma createArchive_at id :
  ∃ L o1 m, createArchive tar_gz broken_tar_gz sha256 (render true R) dest id o =
    (Ok (mkBackupResult id (Z.of_nat (String.length (tar_gz L))) (sha256 (tar_gz L))), o1) ∧
  os_faults o1 = [] ∧ os_tree o1 = <[comps dest := NFile (tar_gz L) m]> (os_tree o) ∧ archives R o [] L.
Proof.
  set (md := write_mode (os_tree o !! comps dest) 384).
  destruct (with_dest "" md) as (Ht1 & Hk1 & Hr1 & Hnd1).
  set (o0 := set_tree (<[comps dest := NFile "" md]> (os_tree o)) o).
  destruct (Walk_at R o0 HR HR0 Hf Ht1) with (fuel := walk_fuel (os_tree o0)) as (L & EW & HL1 & HL2).
  { intros k n Hn. apply (Hp k n). by rewrite <- Hk1. }
  { pose proof (Hk1 []) as E. rewrite app_nil_r in E. simpl. by rewrite E. }
  { intros k n Hn. apply walk_fuel_enough in Hn. rewrite length_app in Hn. lia. }
  exists L, (set_tree (<[comps dest := NFile (tar_gz L) md]> (os_tree o)) o), md.
  split; [|split; [done|split; [done|]]].
  - unfold createArchive. rewrite (bind_Ok _ _ _ tt o0) by (by apply WriteFile_reach).
    rewrite (bind_Ok _ _ _ (Ok tt, L) o0) by (unfold archive_tree; by rewrite EW).
    rewrite (bind_Ok _ _ _ tt (set_tree (<[comps dest := NFile (tar_gz L) md]> (os_tree o)) o)).
    2:{ rewrite WriteFile_reach by done. simpl. rewrite lookup_insert_eq, insert_insert_eq. done. }
    rewrite (bind_Ok _ _ _ tt (set_tree (<[comps dest := NFile (tar_gz L) md]> (os_tree o)) o)) by (by apply file_io_at).
    by rewrite (bind_Ok _ _ _ tt (set_tree (<[comps dest := NFile (tar_gz L) md]> (os_tree o)) o)) by (by apply file_io_at).
  - split.
    + intros it Hit. destruct (HL1 it Hit) as (q & m & Hq & Hm & ->). exists q, m. simpl in Hm. by rewrite Hk1 in Hm.
    + intros q m Hm Hq. apply HL2; [|done]. simpl. simpl in Hm. by rewrite Hk1.
Qed.
End Archive.

Lemma archives_archivable R o L : plain_tree (os_tree o) R → archives R o [] L → Forall archivable L.
Proof.
  intros Hp [HL _]. apply Forall_forall. intros it Hit. destruct (HL it Hit) as (k & n & Hk & Hn & ->).
  destruct (Hp k n Hn) as [Hok Hl]. split; [by destruct n|].
  split; [destruct n as [| |tg]; [by left|by right|by destruct (Hl tg)]|]. exists k. split; [done|]. split; [done|]. by destruct n.
Qed.

(** ** Properties *)

(** C40.  What a backup saved comes back: on a file system without faults and links, archiving a
    directory succeeds, with the size and the checksum of the bytes it wrote, and extracting
    those bytes anywhere into an empty directory succeeds and makes exactly the files and
    directories that were saved, with mode 0600 for every file. *)
Theorem backup_roundtrip tar_gz broken_tar_gz untar sha256 R dest id (o : OS) :
  (∀ L, Forall archivable L → untar (tar_gz L) = Ok (L, None)) →
  Forall entry_ok R → R ≠ [] → os_tree o !! R = Some NDir → os_faults o = [] → tree_ok (os_tree o) →
  plain_tree (os_tree o) R → reachable (os_tree o) dest → os_tree o !! comps dest ≠ Some NDir →
  ¬ below R (comps dest) →
  ∃ bytes m o1, createArchive tar_gz broken_tar_gz sha256 (render true R) dest id o =
      (Ok (mkBackupResult id (Z.of_nat (String.length bytes)) (sha256 bytes)), o1) ∧
    os_tree o1 = <[comps dest := NFile bytes m]> (os_tree o) ∧
    ∀ (o2 : OS) ST archive m', os_faults o2 = [] → tree_ok (os_tree o2) →
      direct archive → comps archive ≠ [] → os_tree o2 !! comps archive = Some (NFile bytes m') →
      Forall entry_ok ST → ST ≠ [] → os_tree o2 !! ST = Some NDir → (∀ k, k ≠ [] → os_tree o2 !! (ST ++ k) = None) →
      ∃ o3, extractArchive untar archive (render true ST) o2 = (Ok tt, o3) ∧
        ∀ k, k ≠ [] → os_tree o3 !! (ST ++ k) = restored <$> os_tree o !! (R ++ k).
Proof.
  intros Hlaw HR HR0 HRn Hf Ht Hp Hdest Hnd Hout.
  destruct (createArchive_at tar_gz broken_tar_gz sha256 R dest o HR HR0 HRn Hf Ht Hp Hdest Hnd Hout id)
    as (L & o1 & m & E1 & _ & Ho1 & HL).
  exists (tar_gz L), m, o1. split; [done|]. split; [done|].
  intros o2 ST archive m' Hf2 Ht2 Hd Hne Hbytes HS HS0 HSn Hempty.
  assert (node_at (os_tree o) R = Some NDir) as HRn' by (by destruct R).
  destruct (extract_items R ST (os_tree o) HS HS0 Ht HRn' Hp L o2 Hf2) as (t3 & E3 & Hp3 & _ & H3).
  { split; [done|]. split; [done|]. intros k n Hk Hn. by rewrite Hempty in Hn. }
  { apply HL. }
  exists (set_tree t3 o2). split.
  - unfold extractArchive. rewrite (bind_Ok _ _ _ (tar_gz L) o2) by (by eapply ReadFile_reach).
    unfold lift_res. rewrite Hlaw by (by eapply archives_archivable). exact E3.
  - intros k Hk. simpl. destruct (os_tree o !! (R ++ k)) as [n|] eqn:En; simpl.
    + apply H3; [done|done|]. by apply (proj2 HL k n).
    + destruct (t3 !! (ST ++ k)) as [n'|] eqn:En'; [|done]. destruct Hp3 as (_ & _ & Hk3).
      destruct (Hk3 k n' Hk En') as (n & ? & _). congruence.
Qed.

(** *** A server with one file and one directory *)

Definition encode_item (it : tar_item) (rest : string) : string :=
  (if th_IsDir it then "d" else "f") +:+ encode_name (th_Name it) (encode_name (th_Body it) rest).
Definition encode_items (L : list tar_item) : string := foldr encode_item "" L.

Fixpoint decode_items (fuel : nat) (s : string) : option (list tar_item) :=
  match fuel, s with
  | _, "" => Some []
  | O, _ => None
  | S fuel, String c s =>
      let d := bool_decide (c = "d"%char) in
      '(name, s) ← decode_name s;
      '(body, s) ← decode_name s;
      L ← decode_items fuel s;
      mret (mkTarItem name (if d then TypeDir else TypeReg) d body None :: L)
  end.
Definition read_items (s : string) : tar_stream :=
  match decode_items (String.length s) s with Some L => Ok (L, None) | None => Err (EExt "unexpected EOF") end.

Lemma decode_encode_items L fuel :
  Forall archivable L → (String.length (encode_items L) ≤ fuel)%nat → decode_items fuel (encode_items L) = Some L.
Proof.
  intros HL. revert fuel. induction HL as [|[name ty d body err] L (E & Hty & _) _ IH]; intros fuel Hf; [by destruct fuel|].
  simpl in E. subst err. simpl in Hf, Hty |- *. unfold encode_item in *. simpl in *.
  pose proof (encode_name_length name (encode_name body (encode_items L))) as H1.
  pose proof (encode_name_length body (encode_items L)) as H2.
  destruct Hty as [[-> ->]|[-> ->]]; (destruct fuel as [|fuel]; [simpl in Hf; lia|]); simpl in Hf |- *;
    unfold encode_items in *; simpl; rewrite decode_encode_name; simpl; rewrite decode_encode_name; simpl;
    (rewrite IH by lia); done.
Qed.

Lemma read_encode_items L : Forall archivable L → read_items (encode_items L) = Ok (L, None).
Proof. intros HL. unfold read_items. by rewrite decode_encode_items. Qed.

Definition saved_os : OS := mkOS (list_to_map [
    (["srv"], NDir); (["srv"; "data"], NDir); (["srv"; "data"; "w"], NDir);
    (["srv"; "data"; "w"; "map"], NFile "blocks" 420); (["bak"], NDir)]) [] [] [].

Lemma plain_tree_check t R :
  forallb (λ kn, negb (bool_decide (below R kn.1)) ||
             (forallb (λ c, is_comp c && bytes_all (λ x, bool_decide (x ≠ slash)) c && negb (c =s "..")) (drop (length R) kn.1) &&
              negb (IsSymlink kn.2))) (map_to_list t) = true →
  plain_tree t R.
Proof.
  rewrite forallb_forall. intros H k n Hn. specialize (H (R ++ k, n)).
  rewrite <- list_elem_of_In, elem_of_map_to_list in H. specialize (H Hn). simpl in H.
  rewrite bool_decide_true in H by (by exists k). simpl in H. rewrite drop_app_length in H.
  apply andb_true_iff in H as [H1 H2]. split.
  - apply Forall_forall. intros c Hc. rewrite forallb_forall in H1. specialize (H1 c (proj1 (list_elem_of_In _ _) Hc)).
    apply andb_true_iff in H1 as [[H1 H3]%andb_true_iff H4]. apply is_comp_iff in H1 as [? ?].
    apply negb_true_iff, String.eqb_neq in H4. done.
  - intros tg ->. done.
Qed.

Lemma backup_roundtrip_witness :
  ∃ bytes m o1, createArchive encode_items encode_items (λ s, s) "/srv/data" "/bak/b.tar.gz" "b" saved_os =
      (Ok (mkBackupResult "b" (Z.of_nat (String.length bytes)) bytes), o1) ∧
    os_tree o1 !! ["bak"; "b.tar.gz"] = Some (NFile bytes m) ∧
    let o2 := mkOS (<[["bak"; "b.tar.gz"] := NFile bytes m]> (<[["new"] := NDir]> (os_tree saved_os))) [] [] [] in
    ∃ o3, extractArchive read_items "/bak/b.tar.gz" "/new" o2 = (Ok tt, o3) ∧
      os_tree o3 !! ["new"; "w"; "map"] = Some (NFile "blocks" 384).
Proof.
  destruct (backup_roundtrip encode_items encode_items read_items (λ s, s) ["srv"; "data"] "/bak/b.tar.gz" "b" saved_os
    read_encode_items) as (bytes & m & o1 & E1 & Ho1 & H).
  - repeat constructor; done.
  - done.
  - reflexivity.
  - reflexivity.
  - apply tree_okb_ok. vm_compute. reflexivity.
  - apply plain_tree_check. vm_compute. reflexivity.
  - split; [split; [reflexivity|vm_compute; repeat constructor; discriminate]|]. split; [vm_compute; discriminate|].
    split; [vm_compute; reflexivity|]. intros tg. vm_compute. discriminate.
  - vm_compute. discriminate.
  - intros [k Hk]. vm_compute in Hk. discriminate Hk.
  - exists bytes, m, o1. split; [exact E1|]. split; [rewrite Ho1; apply lookup_insert_eq|]. cbv zeta.
    edestruct (H (mkOS (<[["bak"; "b.tar.gz"] := NFile bytes m]> (<[["new"] := NDir]> (os_tree saved_os))) [] [] [])
      ["new"] "/bak/b.tar.gz" m) as (o3 & E3 & H3).
    + reflexivity.
    + apply (tree_ok_insert (<[["new"] := NDir]> (os_tree saved_os)) ["bak"; "b.tar.gz"]);
        [apply tree_okb_ok; vm_compute; reflexivity|discriminate|vm_compute; reflexivity|left; vm_compute; discriminate].
    + split; [reflexivity|vm_compute; repeat constructor; discriminate].
    + discriminate.
    + apply lookup_insert_eq.
    + repeat constructor; done.
    + discriminate.
    + reflexivity.
    + intros [|x k] Hk; [by destruct Hk|]. simpl. rewrite !lookup_insert_ne by discriminate. reflexivity.
    + exists o3. split; [exact E3|]. exact (H3 ["w"; "map"] ltac:(discriminate)).
Defined.
