(* ===== verification/Plugin.v ===== *)
(** * Plugin manifests and the route proxy ([internal/plugin/manifest.go], [proxy.go], [api.go])

    YAML and the HTTP handlers are parameters. *)

From S2P Require Import Prelude GoLib GoPath GoOS.
From Stdlib Require Import Ascii.

(** ** Definitions *)

Record PluginEvent := mkPluginEvent { pe_Type : string; pe_ServerID : string; pe_Metadata : gmap string string }.
Record Capability := mkCapability { ca_Events : list string; ca_Routes : list string }.
Record InitRequest := mkInitRequest { ir_OikosVersion : string; ir_ConfigPath : string; ir_PluginID : string }.

Record Manifest := mkManifest {
  ma_ID : string; ma_Name : string; ma_Version : string; ma_Binary : string; ma_Enabled : bool;
  ma_Config : string; ma_AllowedEvents : list string; ma_AllowedRoutes : list string; ma_SHA256 : string }.

(** [^[A-Za-z0-9_-]+$] *)
Definition manifest_id_byte (c : ascii) : bool :=
  is_alnum c || bool_decide (c = "_"%char) || bool_decide (c = "-"%char).
Definition validManifestID (s : string) : bool := matches_class1 manifest_id_byte s.

(** [^[A-Za-z0-9][A-Za-z0-9._-]*$] *)
Definition validEventName (s : string) : bool :=
  match s with
  | "" => false
  | String c s => is_alnum c && bytes_all (λ c, manifest_id_byte c || bool_decide (c = "."%char)) s
  end.

(** [^[A-Fa-f0-9]{64}$] *)
Definition validSHA256 (s : string) : bool := (String.length s =? 64)%nat && bytes_all is_hex s.

Definition route_prefix (id : string) : string := "/plugins/" +:+ id +:+ "/".

Definition validateRoute (id route : string) : res unit :=
  if negb (HasPrefix route (route_prefix id)) || Contains route ".."
  then Err (Errorf "invalid plugin route %q" [route])
  else Ok tt.

(** [for _, x := range xs { if err := f(x); err != nil { return err } }] without state. *)
Fixpoint check_all {A} (f : A → res unit) (xs : list A) : res unit :=
  match xs with
  | [] => Ok tt
  | x :: xs => match f x with Ok _ => check_all f xs | Err e => Err e end
  end.

Definition ValidateManifest (m : Manifest) : res unit :=
  if negb (validManifestID (ma_ID m)) then Err (Errorf "invalid plugin id %q" [ma_ID m])
  else if TrimSpace (ma_Binary m) =s "" then Err (Errorf "plugin binary must not be empty" [])
  else if negb (validSHA256 (ma_SHA256 m)) then Err (Errorf "invalid sha256 checksum" [])
  else
    match check_all (λ ev, if validEventName ev then Ok tt else Err (Errorf "invalid event name %q" [ev]))
            (ma_AllowedEvents m) with
    | Err e => Err e
    | Ok _ => check_all (validateRoute (ma_ID m)) (ma_AllowedRoutes m)
    end.

Definition contains (values : list string) (wanted : string) : bool := existsb (String.eqb wanted) values.

Definition ValidateCapabilities (m : Manifest) (c : Capability) : res unit :=
  match ValidateManifest m with
  | Err e => Err e
  | Ok _ =>
      match check_all (λ ev, if contains (ma_AllowedEvents m) ev then Ok tt
                             else Err (Errorf "capability event %q is not allowed" [ev])) (ca_Events c) with
      | Err e => Err e
      | Ok _ =>
          check_all (λ rt, if contains (ma_AllowedRoutes m) rt then Ok tt
                           else Err (Errorf "capability route %q is not allowed" [rt])) (ca_Routes c)
      end
  end.

Section LoadManifest.
Context (yaml_Unmarshal : string → res Manifest).

Definition LoadManifest (path : string) : M OS Manifest :=
  data ← wrap "read manifest" [] (ReadFile path);
  manifest ← wrap "parse manifest" [] (lift_res (yaml_Unmarshal data));
  lift_res (ValidateManifest manifest);;
  mret manifest.
End LoadManifest.

(** *** [proxy.go] *)

Section Proxy.
(** [http.Handler] *)
Context {Hd : Type}.

(** [p.routes] *)
Definition Proxy : Type := gmap string Hd.

Definition NewProxy : Proxy := ∅.

Definition Register (pluginID route : string) (handler : option Hd) : M Proxy unit := λ p,
  if (pluginID =s "") || negb (HasPrefix route (route_prefix pluginID)) || Contains route ".."
  then (Err (Errorf "invalid plugin route %q" [route]), p)
  else match handler with
       | None => (Err (Errorf "plugin route handler is nil" []), p)
       | Some h =>
           match p !! route with
           | Some _ => (Err (Errorf "plugin route already registered: %s" [route]), p)
           | None => (Ok tt, <[route := h]> p)
           end
       end.

Definition Unregister (pluginID : string) (p : Proxy) : Proxy :=
  filter (λ rh, HasPrefix rh.1 (route_prefix pluginID) = false) p.

(** The handler a request for [path] reaches; [None] is [http.NotFound]. *)
Definition Handler (p : Proxy) (path : string) : option Hd := p !! path.
End Proxy.
Arguments Proxy : clear implicits.

(** ** Lemmas *)

Lemma check_all_Ok {A} (f : A → res unit) xs : check_all f xs = Ok tt ↔ ∀ x, x ∈ xs → f x = Ok tt.
Proof.
  induction xs as [|x xs IH]; simpl; [split; [by intros _ x ?%elem_of_nil|done]|].
  destruct (f x) as [[]|e] eqn:E.
  - rewrite IH. split; [intros H y [->|Hy]%elem_of_cons; auto|]. intros H y Hy. apply H. by right.
  - split; [done|]. intros H. specialize (H x). rewrite E in H. apply H. left.
Qed.

Lemma contains_iff xs x : contains xs x = true ↔ x ∈ xs.
Proof.
  unfold contains. rewrite existsb_exists, list_elem_of_In. split.
  - intros (y & Hy & ->%String.eqb_eq). done.
  - intros H. exists x. split; [done|]. by apply String.eqb_refl.
Qed.

(** Identifiers without a slash have disjoint route name spaces. *)
Lemma route_prefix_inj id id' route :
  validManifestID id = true → validManifestID id' = true →
  HasPrefix route (route_prefix id) = true → HasPrefix route (route_prefix id') = true → id = id'.
Proof.
  unfold validManifestID, matches_class1. intros [_ Hi]%andb_true_iff [_ Hi']%andb_true_iff [r ->]%HasPrefix_iff [r' E]%HasPrefix_iff.
  unfold route_prefix in E. rewrite !string_app_assoc in E. apply string_app_inj_l in E.
  assert (∀ c, manifest_id_byte c = true → bool_decide (c ≠ slash) = true) as Hns.
  { intros c Hc. apply bool_decide_eq_true. by intros ->. }
  by destruct (cut_unique (λ x, bool_decide (x ≠ slash)) slash id r id' r' (bool_decide_eq_false_2 (slash ≠ slash) (λ H, H eq_refl))
    (bytes_all_impl _ _ _ Hns Hi) (bytes_all_impl _ _ _ Hns Hi') E) as [? _].
Qed.

Lemma lookup_Unregister {Hd} id (p : Proxy Hd) path :
  Unregister id p !! path = if HasPrefix path (route_prefix id) then None else p !! path.
Proof.
  unfold Unregister, Proxy in *. change (filter (λ rh : string * Hd, HasPrefix rh.1 (route_prefix id) = false) (p : gmap string Hd) !! path =
    if HasPrefix path (route_prefix id) then None else p !! path).
  rewrite map_lookup_filter. destruct (p !! path) as [hd|]; simpl; [|by destruct (HasPrefix _ _)].
  by destruct (HasPrefix path (route_prefix id)).
Qed.

Lemma Proxy_eq {Hd} (p q : Proxy Hd) : (∀ path, p !! path = q !! path) → p = q.
Proof. apply (map_eq (M:=gmap string)). Qed.

(** [Register] changes at most the entry of [route], which was free. *)
Lemma lookup_Register {Hd} id route (handler : option Hd) (p : Proxy Hd) path :
  snd (Register id route handler p) !! path = p !! path ∨
  path = route ∧ HasPrefix route (route_prefix id) = true ∧ p !! path = None.
Proof.
  unfold Register. destruct (_ || _) eqn:Eg; [by left|].
  apply orb_false_iff in Eg as [[_ Eg%negb_false_iff]%orb_false_iff _].
  destruct handler as [hd|]; [|by left]. destruct (p !! route) eqn:Er; [by left|].
  destruct (decide (route = path)) as [<-|Hne]; [by right|left]. by apply (lookup_insert_ne (M:=gmap string)).
Qed.
