(* ===== verification/PluginHost.v ===== *)
(** * The plugin host ([internal/plugin/host.go])

    One plugin: its process, its socket, its gRPC connection.  SHA-256, the
    environment variables and the plugin's answers are parameters; the end of the
    process is an event, [waitProcess].  A context that expires is an answer that is an
    error; the channel [waitDone] only bounds how long [Stop] waits. *)

From S2P Require Import Prelude GoLib GoPath GoOS Plugin.

(** ** Definitions *)

(** The plugin behind its connection, by the id of its process. *)
Class PluginService (P : Type) := {
  ps_Init : Z → InitRequest → M P Capability;
  ps_HandleEvent : Z → PluginEvent → M P unit;
  ps_HealthCheck : Z → M P (bool * string);
  ps_Close : Z → M P unit }.

Record HostStatus := mkHostStatus { hs_Healthy : bool; hs_Running : bool; hs_Error : option error }.

Section Host.
Context {P Hd : Type} `{!PluginService P}.

Record HostOptions := mkHostOptions {
  op_SocketRoot : string; op_OikosVersion : string; op_EventTimeout : Z; op_HealthTimeout : Z;
  op_RouteHandlers : gmap string Hd }.

(** [cmd] is [Some None] for a command that could not be started, [client] the process a
    connection leads to. *)
Record Host := mkHost {
  ho_manifest : Manifest; ho_options : HostOptions; ho_socketPath : string;
  ho_cmd : option (option Z); ho_conn : bool; ho_client : option Z;
  ho_capability : Capability; ho_status : HostStatus; ho_listener : bool }.

(** What the hosts share: files, socket files, processes, and what the plugins know. *)
Record HostEnv := mkHostEnv {
  he_os : OS; he_sockets : gset string; he_alive : gset Z; he_nextpid : Z;
  he_faults : list (option string); he_plug : P }.

Definition NewHost (manifest : Manifest) (options : HostOptions) : res Host :=
  match ValidateManifest manifest with
  | Err e => Err e
  | Ok _ =>
      if op_SocketRoot options =s "" then Err (Errorf "plugin socket root must not be empty" [])
      else
        let timeout d := if d <=? 0 then 5 * time_Second else d in
        Ok (mkHost manifest
              (mkHostOptions (op_SocketRoot options) (op_OikosVersion options)
                 (timeout (op_EventTimeout options)) (timeout (op_HealthTimeout options)) (op_RouteHandlers options))
              "" None false None (mkCapability [] []) (mkHostStatus false false None) false)
  end.

(** *** Calls to the outside *)

Local Abbreviation E := HostEnv.

Definition put_sockets (x : gset string) (e : E) : E :=
  mkHostEnv (he_os e) x (he_alive e) (he_nextpid e) (he_faults e) (he_plug e).
Definition put_alive (x : gset Z) (e : E) : E :=
  mkHostEnv (he_os e) (he_sockets e) x (he_nextpid e) (he_faults e) (he_plug e).
Definition files {A} : M OS A → M E A :=
  zoom he_os (λ o e, mkHostEnv o (he_sockets e) (he_alive e) (he_nextpid e) (he_faults e) (he_plug e)).
Definition plug {A} : M P A → M E A :=
  zoom he_plug (λ p e, mkHostEnv (he_os e) (he_sockets e) (he_alive e) (he_nextpid e) (he_faults e) p).

(** A call that does [f], unless the outside world fails it. *)
Definition call {A} (f : E → res A * E) : M E A := λ e,
  let '(flt, fs) := next_fault (he_faults e) in
  let e := mkHostEnv (he_os e) (he_sockets e) (he_alive e) (he_nextpid e) fs (he_plug e) in
  match flt with Some s => (Err (EExt s), e) | None => f e end.

(** [platform.SocketPath] *)
Definition SocketPath (path : string) : M E unit := call (λ e,
  if bool_decide (path ∈ he_sockets e) then (Err (EExt "address already in use"), e)
  else (Ok tt, put_sockets ({[path]} ∪ he_sockets e) e)).
(** [listener.Close]: the socket file goes with it. *)
Definition close_listener (path : string) : M E unit :=
  modify (λ e, put_sockets (he_sockets e ∖ {[path]}) e).
(** [os.Remove] of the socket *)
Definition remove_socket (path : string) : M E unit := call (λ e,
  if bool_decide (path ∈ he_sockets e) then (Ok tt, put_sockets (he_sockets e ∖ {[path]}) e)
  else (Err ENOENT, e)).
(** [os.Chmod] of the socket, [File] of the listener, [grpc.Dial] *)
Definition plain_call : M E unit := call (λ e, (Ok tt, e)).
(** [cmd.Start] *)
Definition spawn : M E Z := call (λ e,
  (Ok (he_nextpid e), mkHostEnv (he_os e) (he_sockets e) ({[he_nextpid e]} ∪ he_alive e) (he_nextpid e + 1)
                        (he_faults e) (he_plug e))).

(** [cmd.Env] *)
Definition plugin_env (getenv : string → option string) : list string :=
  "OIKOS_PLUGIN_SOCKET_FD=3" ::
  omap (λ name, (λ value, name +:+ "=" +:+ value) <$> getenv name)
    ["OIKOS_FAKE_PLUGIN"; "OIKOS_FAKE_PLUGIN_MODE"; "OIKOS_FAKE_PLUGIN_CRASH"; "OIKOS_FAKE_PLUGIN_SLOW"].

(** *** The host *)

Local Abbreviation S := (Host * HostEnv)%type.

Definition on_env {A} (m : M E A) : M S A := zoom snd (λ e s, (s.1, e)) m.
Definition on_host (f : Host → Host) : M S unit := modify (λ s, (f s.1, s.2)).

Definition set_socket (p : string) (h : Host) : Host :=
  mkHost (ho_manifest h) (ho_options h) p (ho_cmd h) (ho_conn h) (ho_client h) (ho_capability h) (ho_status h) (ho_listener h).
Definition set_cmd (c : option (option Z)) (l : bool) (h : Host) : Host :=
  mkHost (ho_manifest h) (ho_options h) (ho_socketPath h) c (ho_conn h) (ho_client h) (ho_capability h) (ho_status h) l.
Definition set_client (b : bool) (c : option Z) (h : Host) : Host :=
  mkHost (ho_manifest h) (ho_options h) (ho_socketPath h) (ho_cmd h) b c (ho_capability h) (ho_status h) (ho_listener h).
Definition set_capability (c : Capability) (h : Host) : Host :=
  mkHost (ho_manifest h) (ho_options h) (ho_socketPath h) (ho_cmd h) (ho_conn h) (ho_client h) c (ho_status h) (ho_listener h).
Definition set_status (s : HostStatus) (h : Host) : Host :=
  mkHost (ho_manifest h) (ho_options h) (ho_socketPath h) (ho_cmd h) (ho_conn h) (ho_client h) (ho_capability h) s (ho_listener h).

(** [hex.EncodeToString] of [sha256.Sum256] *)
Context (sha256 : string → string).

Definition verifyBinary (path expected : string) : M OS unit :=
  data ← wrap "read plugin binary" [] (ReadFile path);
  fail_if (negb (sha256 data =s expected)) (Errorf "plugin binary checksum mismatch" []);;
  r ← try (Stat path);
  match r with
  | Ok (NFile _ mode) => fail_if (Z.land mode 73 =? 0) (Errorf "plugin binary is not executable" [])
  | Ok _ => mret tt
  | Err _ => fail (Errorf "plugin binary is not executable" [])
  end.

(** As often as the clock lets the loop run. *)
Fixpoint waitForSocket (polls : nat) (path : string) : M E unit :=
  match polls with
  | O => fail (Errorf "plugin socket was not created" [])
  | Datatypes.S polls =>
      r ← try (call (λ e, (Ok (bool_decide (path ∈ he_sockets e)), e)));
      match r with
      | Ok true => mret tt
      | _ => waitForSocket polls path
      end
  end.

(** [cleanupAfterExit] of the command with process [pid]. *)
Definition cleanupAfterExit (pid : Z) (err : error) : M S unit :=
  h ← gets fst;
  if bool_decide (ho_cmd h ≠ Some (Some pid)) then mret tt
  else
    on_host (λ h, set_status (mkHostStatus false (hs_Running (ho_status h)) (Some err)) h);;
    on_host (λ h, set_cmd (ho_cmd h) false (set_client false None h));;
    (if ho_listener h then on_env (close_listener (ho_socketPath h)) else mret tt);;
    if negb (ho_socketPath h =s "") then ignore (on_env (remove_socket (ho_socketPath h))) else mret tt.

(** [waitProcess], once the process has ended. *)
Definition waitProcess (pid : Z) (err : error) : M S unit :=
  on_env (modify (λ e, put_alive (he_alive e ∖ {[pid]}) e));;
  cleanupAfterExit pid err;;
  on_host (λ h, if bool_decide (ho_cmd h = Some (Some pid))
                then set_status (mkHostStatus (hs_Healthy (ho_status h)) false (hs_Error (ho_status h))) h else h).

(** [cmd.Process.Kill] and the wait for [waitDone]. *)
Definition kill_process (pid : Z) : M S unit := λ s,
  if bool_decide (pid ∈ he_alive s.2) then waitProcess pid (EExt "signal: killed") s else (Ok tt, s).

Definition Stop : M S unit :=
  h ← gets fst;
  ignore (match ho_client h with Some pid => on_env (plug (ps_Close pid)) | None => mret tt end);;
  ignore (if ho_listener h then on_env (close_listener (ho_socketPath h)) else mret tt);;
  ignore (match ho_cmd h with Some (Some pid) => kill_process pid | _ => mret tt end);;
  result ← try (if negb (ho_socketPath h =s "") then on_env (remove_socket (ho_socketPath h)) else mret tt);
  on_host (λ h, set_status (mkHostStatus false false (hs_Error (ho_status h))) h);;
  on_host (λ h, set_cmd None false (set_client false None h));;
  match result with
  | Err e => if errors_Is e os_ErrNotExist then mret tt else fail e
  | Ok _ => mret tt
  end.

(** [Start] up to the release of the lock. *)
Definition start_process : M S Z :=
  h ← gets fst;
  fail_if (hs_Running (ho_status h)) (Errorf "plugin already running" []);;
  on_env (files (verifyBinary (ma_Binary (ho_manifest h)) (ma_SHA256 (ho_manifest h))));;
  wrap "create plugin socket root" [] (on_env (files (MkdirAll (op_SocketRoot (ho_options h)))));;
  let path := Join [op_SocketRoot (ho_options h); ma_ID (ho_manifest h) +:+ ".sock"] in
  on_host (set_socket path);;
  ignore (on_env (remove_socket path));;
  wrap "create plugin socket" [] (on_env (SocketPath path));;
  let close_socket := on_env (close_listener path);; ignore (on_env (remove_socket path)) in
  r ← try (on_env plain_call);
  match r with
  | Err e => close_socket;; fail (Errorw "secure plugin socket" [] e)
  | Ok _ =>
      r ← try (on_env plain_call);
      match r with
      | Err e => close_socket;; fail (Errorw "open plugin socket descriptor" [] e)
      | Ok _ =>
          on_host (set_cmd (Some None) true);;
          r ← try (on_env spawn);
          match r with
          | Err e => close_socket;; fail (Errorw "start plugin" [] e)
          | Ok pid =>
              on_host (set_cmd (Some (Some pid)) true);;
              on_host (set_status (mkHostStatus false true None));;
              mret pid
          end
      end
  end.

(** [_ = h.Stop(); return err] *)
Definition stop_and_fail {A} (e : error) : M S A := ignore Stop;; fail e.

(** [Start] from the wait for the socket to the handshake. *)
Definition start_connect (polls : nat) (pid : Z) : M S unit :=
  h ← gets fst;
  r ← try (on_env (waitForSocket polls (ho_socketPath h)));
  match r with
  | Err e => stop_and_fail e
  | Ok _ =>
      r ← try (on_env plain_call);
      match r with
      | Err e => stop_and_fail (Errorw "connect plugin" [] e)
      | Ok _ =>
          on_host (set_client true (Some pid));;
          r ← try (on_env (plug (ps_Init pid
                 (mkInitRequest (op_OikosVersion (ho_options h)) (ma_Config (ho_manifest h)) (ma_ID (ho_manifest h))))));
          match r with
          | Err e => stop_and_fail (Errorw "plugin handshake" [] e)
          | Ok capability =>
              match ValidateCapabilities (ho_manifest h) capability with
              | Err e => stop_and_fail (Errorw "plugin handshake" [] e)
              | Ok _ => on_host (set_capability capability)
              end
          end
      end
  end.

(** The end of [Start]. *)
Definition mark_healthy : M S unit :=
  on_host (λ h, set_status (mkHostStatus true (hs_Running (ho_status h)) (hs_Error (ho_status h))) h).

Definition Start (polls : nat) : M S unit :=
  pid ← start_process;
  start_connect polls pid;;
  mark_healthy.

Definition markUnhealthy (err : error) : M S unit :=
  on_host (λ h, set_status (mkHostStatus false (hs_Running (ho_status h)) (Some err)) h).

(** [HandleEvent], [HandleEventContext] *)
Definition handleEvent (event : PluginEvent) : M S unit :=
  h ← gets fst;
  match ho_client h, hs_Healthy (ho_status h) with
  | Some pid, true =>
      fail_if (negb (contains (ca_Events (ho_capability h)) (pe_Type event)))
        (Errorf "event %q is not supported by plugin" [pe_Type event]);;
      r ← try (on_env (plug (ps_HandleEvent pid event)));
      match r with
      | Err e => markUnhealthy e;; fail e
      | Ok _ => mret tt
      end
  | _, _ => fail (Errorf "plugin is unhealthy" [])
  end.

Definition HealthCheck : M S unit :=
  h ← gets fst;
  match ho_client h with
  | None => fail (Errorf "plugin is not running" [])
  | Some pid =>
      r ← try (on_env (plug (ps_HealthCheck pid)));
      let err := match (r : res (bool * string)) with
                 | Err e => Some e
                 | Ok (healthy, msg) => if healthy then None else Some (Errorf msg [])
                 end in
      match err with
      | Some e => markUnhealthy e;; fail e
      | None => mret tt
      end
  end.

Definition Routes (h : Host) : list string := ca_Routes (ho_capability h).

Definition RouteHandler (h : Host) (route : string) : option Hd :=
  if contains (ca_Routes (ho_capability h)) route then op_RouteHandlers (ho_options h) !! route else None.

Definition Status (h : Host) : HostStatus := ho_status h.
End Host.
Arguments HostOptions : clear implicits.
Arguments Host : clear implicits.
Arguments HostEnv : clear implicits.
