(* ===== verification/PluginSpec.v ===== *)
(** * What the plugin host and the proxy promise

    A plugin runs only verified and with the capabilities its manifest allows; a start
    that fails leaves nothing behind; the routes of one plugin are out of reach of the
    others. *)

From S2P Require Import Prelude GoLib GoPath GoOS GoOSFacts Plugin PluginHost.

(** ** Definitions *)

Section Host.
Context {P Hd : Type} `{!PluginService P} (sha256 : string → string).

Local Abbreviation S := (Host Hd * HostEnv P)%type.

(** A host whose process, if it ever had one, has ended. *)
Definition idle (s : S) : Prop :=
  hs_Running (ho_status s.1) = false ∧ hs_Healthy (ho_status s.1) = false ∧ ho_client s.1 = None ∧
  ∀ pid, ho_cmd s.1 = Some (Some pid) → (pid ∉ he_alive s.2) ∧ pid < he_nextpid s.2.

(** Process ids are new. *)
Definition pids_ok (e : HostEnv P) : Prop := ∀ pid, pid ∈ he_alive e → pid < he_nextpid e.

(** The same manifest, and processes [A]. *)
Definition with_alive (h : Host Hd) (A : gset Z) (s : S) : Prop :=
  ho_manifest s.1 = ho_manifest h ∧ ho_options s.1 = ho_options h ∧ he_alive s.2 = A.

(** A host with process [pid], as [Start] goes on with it. *)
Definition running (pid : Z) (s : S) : Prop :=
  ho_cmd s.1 = Some (Some pid) ∧ hs_Running (ho_status s.1) = true ∧ hs_Healthy (ho_status s.1) = false ∧
  hs_Error (ho_status s.1) = None.

(** ** Lemmas *)

Lemma on_env_inv {A} (m : M (HostEnv P) A) (s s' : S) r :
  on_env m s = (r, s') → s'.1 = s.1 ∧ m s.2 = (r, s'.2).
Proof. unfold on_env, zoom. destruct (m s.2) as [x e] eqn:E. by intros [= <- <-]. Qed.

(** A call that leaves the processes alone. *)
Definition spares {A} (m : M S A) : Prop := ∀ s,
  he_alive (snd (m s)).2 = he_alive s.2 ∧ he_nextpid (snd (m s)).2 = he_nextpid s.2 ∧ (snd (m s)).1 = s.1.

Lemma spares_call {A} (f : HostEnv P → res A * HostEnv P) :
  (∀ e, he_alive (snd (f e)) = he_alive e ∧ he_nextpid (snd (f e)) = he_nextpid e) → spares (on_env (call f)).
Proof.
  intros Hf s. unfold on_env, zoom, call. destruct (next_fault _) as [[e|] fs]; [done|].
  specialize (Hf (mkHostEnv (he_os s.2) (he_sockets s.2) (he_alive s.2) (he_nextpid s.2) fs (he_plug s.2))).
  destruct (f _) as [r e]. by destruct Hf.
Qed.

Lemma spares_files {A} (m : M OS A) : spares (on_env (files m)).
Proof. intros s. unfold on_env, files, zoom. by destruct (m _). Qed.
Lemma spares_plug {A} (m : M P A) : spares (on_env (plug m)).
Proof. intros s. unfold on_env, plug, zoom. by destruct (m _). Qed.
Lemma spares_close path : spares (on_env (close_listener path)).
Proof. intros s. done. Qed.
Lemma spares_remove path : spares (on_env (remove_socket path)).
Proof. apply spares_call. intros e. by case_bool_decide. Qed.
Lemma spares_SocketPath path : spares (on_env (SocketPath path)).
Proof. apply spares_call. intros e. by case_bool_decide. Qed.
Lemma spares_plain : spares (on_env plain_call).
Proof. by apply spares_call. Qed.

Lemma spares_ret {A} (a : A) : spares (mret a).
Proof. intros s. done. Qed.
Lemma spares_fail {A} e : spares (fail (A:=A) e).
Proof. intros s. done. Qed.
Lemma spares_bind {A B} (m : M S A) (k : A → M S B) : spares m → (∀ a, spares (k a)) → spares (m ≫= k).
Proof.
  intros Hm Hk s. unfold mbind, M_bind. destruct (Hm s) as (H1 & H2 & H3). destruct (m s) as [[a|e] s1]; [|done].
  simpl in *. destruct (Hk a s1) as (H4 & H5 & H6). rewrite H4, H5, H6. done.
Qed.
Lemma spares_try {A} (m : M S A) : spares m → spares (try m).
Proof. intros Hm s. specialize (Hm s). unfold try. by destruct (m s). Qed.
Lemma spares_ignore {A} (m : M S A) : spares m → spares (ignore m).
Proof. intros Hm s. specialize (Hm s). unfold ignore. by destruct (m s). Qed.
Lemma spares_wrap {A} fmt args (m : M S A) : spares m → spares (wrap fmt args m).
Proof. intros Hm s. specialize (Hm s). unfold wrap. by destruct (m s) as [[]]. Qed.

Lemma spares_wait polls path : spares (on_env (waitForSocket polls path)).
Proof.
  intros s. unfold on_env, zoom. induction polls as [|n IH] in s |- *; simpl; [done|].
  unfold mbind, M_bind, try, call. destruct (next_fault (he_faults s.2)) as [[e|] fs]; simpl.
  - set (e1 := mkHostEnv _ _ _ _ fs _). specialize (IH (s.1, e1)). simpl in IH. by destruct (waitForSocket n path e1).
  - case_bool_decide; [done|]. set (e1 := mkHostEnv _ _ _ _ fs _). specialize (IH (s.1, e1)). simpl in IH.
    by destruct (waitForSocket n path e1).
Qed.

(** What stays the same in a host. *)
Definition same_host (s s' : S) : Prop :=
  ho_manifest s'.1 = ho_manifest s.1 ∧ ho_options s'.1 = ho_options s.1 ∧ he_nextpid s'.2 = he_nextpid s.2.

Lemma same_refl s : same_host s s.
Proof. done. Qed.

Lemma same_trans s1 s2 s3 : same_host s1 s2 → same_host s2 s3 → same_host s1 s3.
Proof. intros (H1 & H2 & H3) (H4 & H5 & H6). unfold same_host. by rewrite H4, H5, H6. Qed.

Lemma spares_same {A} (m : M S A) s : spares m → same_host s (snd (m s)).
Proof. intros Hm. destruct (Hm s) as (H1 & H2 & H3). unfold same_host. by rewrite H2, H3. Qed.

(** [kill_process] ends the process, and keeps the command. *)
Lemma kill_effect pid s r s' :
  kill_process pid s = (r, s') →
  same_host s s' ∧ he_alive s'.2 = he_alive s.2 ∖ {[pid]} ∧ ho_cmd s'.1 = ho_cmd s.1.
Proof.
  unfold kill_process. case_bool_decide as Hin; [|intros [= <- <-]; split; [done|]; split; [set_solver|done]].
  unfold waitProcess, on_env at 1, zoom, modify, mbind, M_bind. simpl. unfold cleanupAfterExit, mbind, M_bind, gets. simpl.
  destruct s as [h e]. simpl. case_bool_decide as Hc; simpl.
  - intros [= <- <-]. simpl. unfold same_host. simpl. by case_bool_decide.
  - set (e1 := put_alive _ e). destruct (ho_listener h) eqn:El; simpl.
    all: destruct (negb (ho_socketPath h =s "")); simpl; [|intros [= <- <-]; unfold same_host; simpl; by case_bool_decide].
    all: unfold ignore; match goal with |- context [on_env (remove_socket ?p) ?s0] =>
      destruct (spares_remove p s0) as (H1 & H2 & H3); destruct (on_env (remove_socket p) s0) as [r1 s1] end.
    all: simpl in *; intros [= <- <-]; unfold same_host; simpl; rewrite ?H1, ?H2, ?H3; simpl; case_bool_decide; by rewrite ?H3.
Qed.

Lemma bind_ignore {A B} (m : M S A) (k : M S B) s : (ignore m;; k) s = k (snd (m s)).
Proof. unfold mbind, M_bind, ignore. by destruct (m s). Qed.

(** [Stop] ends the process, and forgets it. *)
Lemma Stop_effect s r s' :
  Stop s = (r, s') →
  idle s' ∧ same_host s s' ∧
  he_alive s'.2 = match ho_cmd s.1 with Some (Some pid) => he_alive s.2 ∖ {[pid]} | _ => he_alive s.2 end.
Proof.
  unfold Stop. unfold mbind at 1, M_bind at 1, gets. rewrite !bind_ignore.
  set (m1 := match ho_client s.1 with Some _ => _ | _ => _ end).
  assert (spares m1) as S1 by (unfold m1; destruct (ho_client s.1); [apply spares_plug|apply spares_ret]).
  clearbody m1. destruct (S1 s) as (A1 & N1 & E1). set (s1 := snd (m1 s)) in *.
  set (m2 := if ho_listener s.1 then _ else _).
  assert (spares m2) as S2 by (unfold m2; destruct (ho_listener s.1); [apply spares_close|apply spares_ret]).
  clearbody m2. destruct (S2 s1) as (A2 & N2 & E2). set (s2 := snd (m2 s1)) in *.
  set (m3 := match ho_cmd s.1 with Some _ => _ | _ => _ end).
  assert (same_host s2 (snd (m3 s2)) ∧ he_alive (snd (m3 s2)).2 =
    match ho_cmd s.1 with Some (Some pid) => he_alive s.2 ∖ {[pid]} | _ => he_alive s.2 end) as (H3 & A3).
  { unfold m3. destruct (ho_cmd s.1) as [[pid|]|]; simpl; [|by rewrite A2, A1..].
    destruct (kill_process pid s2) as [r3 s3] eqn:E. simpl.
    apply kill_effect in E as (? & -> & _). by rewrite A2, A1. }
  clearbody m3. set (s3 := snd (m3 s2)) in *.
  unfold mbind at 1, M_bind at 1, try. set (m4 := if negb _ then _ else _).
  assert (spares m4) as S4 by (unfold m4; destruct (negb _); [apply spares_remove|apply spares_ret]).
  clearbody m4. destruct (S4 s3) as (A4 & N4 & E4). destruct (m4 s3) as [r4 s4]. simpl in A4, N4, E4.
  assert (same_host s s4) as Hs.
  { eapply same_trans; [|eapply same_trans; [exact H3|]]; unfold same_host; [by rewrite E2, E1, N2, N1|by rewrite E4, N4]. }
  clearbody s1 s2 s3. unfold on_host, modify, mbind, M_bind. simpl. intros H.
  assert (s' = (set_cmd None false (set_client false None (set_status (mkHostStatus false false (hs_Error (ho_status s4.1))) s4.1)), s4.2)) as ->.
  { destruct r4 as [u|e]; [|destruct (errors_Is e os_ErrNotExist)]; by injection H as _ <-. }
  split; [done|]. split; [exact Hs|]. simpl. by rewrite A4.
Qed.
(** *** [Start] *)

Lemma wp_spares {A} (m : M S A) (Q : res A → S → Prop) h e :
  spares m → (∀ r e', he_alive e' = he_alive e → he_nextpid e' = he_nextpid e → m (h, e) = (r, (h, e')) → Q r (h, e')) →
  wp m Q (h, e).
Proof.
  intros Hm HQ. unfold wp. destruct (Hm (h, e)) as (H1 & H2 & H3). destruct (m (h, e)) as [r [h' e']] eqn:E.
  simpl in *. subst h'. by apply HQ.
Qed.

Lemma wp_on_host (f : Host Hd → Host Hd) (Q : res unit → S → Prop) h e : Q (Ok tt) (f h, e) → wp (on_host f) Q (h, e).
Proof. done. Qed.

(** The binary has the checksum of the manifest. *)
Definition verified (m : Manifest) (o : OS) : Prop :=
  ∃ bytes o', ReadFile (ma_Binary m) o = (Ok bytes, o') ∧ sha256 bytes = ma_SHA256 m.

Lemma verifyBinary_Ok m o u o' :
  verifyBinary sha256 (ma_Binary m) (ma_SHA256 m) o = (Ok u, o') → verified m o.
Proof.
  intros H. unfold verifyBinary in H. apply bind_inv in H as (bytes & o1 & H1%wrap_inv & H).
  exists bytes, o1. split; [done|]. apply bind_inv in H as ([] & o2 & H & _). unfold fail_if in H.
  by destruct (String.eqb_spec (sha256 bytes) (ma_SHA256 m)).
Qed.

(** Before the process is started: the host is idle and nothing was started. *)
Definition before (h0 : Host Hd) (e0 : HostEnv P) (s : S) : Prop :=
  idle s ∧ ho_manifest s.1 = ho_manifest h0 ∧ ho_options s.1 = ho_options h0 ∧
  he_alive s.2 = he_alive e0 ∧ he_nextpid s.2 = he_nextpid e0.

Lemma before_env h0 e0 h e e' :
  before h0 e0 (h, e) → he_alive e' = he_alive e → he_nextpid e' = he_nextpid e → before h0 e0 (h, e').
Proof. intros ((H1 & H2 & H3 & H4) & H5 & H6 & H7 & H8) Ha Hn. unfold before, idle. simpl in *. by rewrite Ha, Hn. Qed.

(** What [start_process] leaves. *)
Definition spawned (h0 : Host Hd) (e0 : HostEnv P) (r : res Z) (s : S) : Prop :=
  match r with
  | Err _ => before h0 e0 s
  | Ok pid => pid = he_nextpid e0 ∧ running pid s ∧ he_alive s.2 = {[pid]} ∪ he_alive e0 ∧
      he_nextpid s.2 = he_nextpid e0 + 1 ∧
      ho_manifest s.1 = ho_manifest h0 ∧ ho_options s.1 = ho_options h0 ∧ verified (ho_manifest h0) (he_os e0)
  end.

Lemma close_socket_spares path : spares (on_env (close_listener path);; ignore (on_env (remove_socket path))).
Proof. apply spares_bind; [apply spares_close|intros _; apply spares_ignore, spares_remove]. Qed.

(** Closing the socket after a failure. *)
Lemma wp_close_socket h0 e0 path err h e :
  before h0 e0 (h, e) →
  wp (on_env (close_listener path);; ignore (on_env (remove_socket path));; fail err) (spawned h0 e0) (h, e).
Proof.
  intros Hb. rewrite wp_bind. apply wp_spares; [apply spares_close|]. intros r e1 A1 N1 _.
  destruct r as [u|x]; [|by eapply before_env]. rewrite wp_bind, wp_ignore. apply wp_spares; [apply spares_remove|].
  intros r e2 A2 N2 _. rewrite wp_fail. eapply before_env; [exact Hb|congruence|congruence].
Qed.

Lemma wp_before {A} (m : M S A) (k : A → M S Z) h0 e0 h e :
  spares m → before h0 e0 (h, e) →
  (∀ a e', before h0 e0 (h, e') → wp (k a) (spawned h0 e0) (h, e')) → wp (m ≫= k) (spawned h0 e0) (h, e).
Proof.
  intros Hm Hb Hk. rewrite wp_bind. apply wp_spares; [done|]. intros r e' A' N' _.
  apply (before_env _ _ _ _ e') in Hb; [|done..]. destruct r; [by apply Hk|done].
Qed.

Lemma start_process_effect h e :
  idle (h, e) → wp (start_process sha256) (spawned h e) (h, e).
Proof.
  intros Hi. assert (before h e (h, e)) as Hb by done. unfold start_process.
  rewrite wp_bind, wp_gets. simpl. rewrite wp_bind, wp_fail_if.
  destruct (hs_Running (ho_status h)) eqn:Hr; [done|].
  rewrite wp_bind. apply wp_spares; [apply spares_files|]. intros r e1 A1 N1 E1. destruct r as [u|x]; [|by eapply before_env].
  assert (verified (ho_manifest h) (he_os e)) as Hver.
  { apply on_env_inv in E1 as [_ E1]. simpl in E1. unfold files, zoom in E1.
    destruct (verifyBinary _ _ _ (he_os e)) as [rv ov] eqn:Ev. injection E1 as -> <-. by eapply verifyBinary_Ok. }
  apply (before_env _ _ _ _ e1) in Hb as Hb1; [|done..]. clear E1.
  apply wp_before; [apply spares_wrap, spares_files|done|]. intros _ e2 Hb2.
  set (path := Join _). rewrite wp_bind. apply wp_on_host. set (h1 := set_socket path h).
  assert (before h e (h1, e2)) as Hb2' by exact Hb2.
  apply wp_before; [apply spares_ignore, spares_remove|done|]. intros _ e3 Hb3.
  apply wp_before; [apply spares_wrap, spares_SocketPath|done|]. intros _ e4 Hb4. cbv zeta.
  apply wp_before; [apply spares_try, spares_plain|done|]. intros [u1|x1] e5 Hb5; [|by apply wp_close_socket].
  apply wp_before; [apply spares_try, spares_plain|done|]. intros [u2|x2] e6 Hb6; [|by apply wp_close_socket].
  rewrite wp_bind. apply wp_on_host. set (h2 := set_cmd (Some None) true h1).
  assert (before h e (h2, e6)) as Hb6' by (destruct Hb6 as ((? & ? & ? & _) & ?); done).
  rewrite wp_bind, wp_try. unfold wp at 1, on_env, zoom, spawn, call. simpl.
  destruct (next_fault (he_faults e6)) as [[x3|] fs]; simpl.
  - apply wp_close_socket. exact Hb6'.
  - destruct Hb6' as (Hi6 & M6 & O6 & A6 & N6). simpl in *.
    rewrite A6, N6. unfold wp, mbind, M_bind, on_host, modify. simpl. done.
Qed.
(** What the rest of [Start] leaves, of a host with process [pid] and processes [A]. *)
Definition connected (pid : Z) (m : Manifest) (A : gset Z) (n : Z) (r : res unit) (s : S) : Prop :=
  ho_manifest s.1 = m ∧ he_nextpid s.2 = n ∧
  match r with
  | Err _ => idle s ∧ he_alive s.2 = A ∖ {[pid]}
  | Ok _ => running pid s ∧ he_alive s.2 = A ∧ ho_client s.1 = Some pid ∧
      ValidateCapabilities m (ho_capability s.1) = Ok tt
  end.

Lemma wp_stop_and_fail {A} pid err h e (Q : res A → S → Prop) :
  running pid (h, e) →
  (∀ s', idle s' → ho_manifest s'.1 = ho_manifest h → he_nextpid s'.2 = he_nextpid e →
    he_alive s'.2 = he_alive e ∖ {[pid]} → Q (Err err) s') →
  wp (stop_and_fail err) Q (h, e).
Proof.
  intros (Hc & _) HQ. unfold stop_and_fail. rewrite wp_bind, wp_ignore. unfold wp at 1.
  destruct (Stop (h, e)) as [r s'] eqn:E. apply Stop_effect in E as (Hi & (Hm & _ & Hn) & Ha). simpl in *. rewrite Hc in Ha.
  rewrite wp_fail. by apply HQ.
Qed.

Lemma start_connect_effect polls pid h e :
  running pid (h, e) →
  wp (start_connect polls pid) (connected pid (ho_manifest h) (he_alive e) (he_nextpid e)) (h, e).
Proof.
  intros Hrun. unfold start_connect. rewrite wp_bind, wp_gets. simpl.
  assert (∀ err h' e', running pid (h', e') → ho_manifest h' = ho_manifest h → he_alive e' = he_alive e →
    he_nextpid e' = he_nextpid e →
    wp (stop_and_fail err) (connected pid (ho_manifest h) (he_alive e) (he_nextpid e)) (h', e')) as Hstop.
  { intros err h' e' Hr Hm Ha Hn. apply (wp_stop_and_fail pid); [done|]. intros s' Hi Hm' Hn' Ha'.
    split; [by rewrite Hm', Hm|]. split; [by rewrite Hn', Hn|]. by rewrite Ha', Ha. }
  rewrite wp_bind, wp_try. apply wp_spares; [apply spares_wait|]. intros r1 e1 A1 N1 _.
  destruct r1 as [u1|x1]; [|by apply Hstop].
  rewrite wp_bind, wp_try. apply wp_spares; [apply spares_plain|]. intros r2 e2 A2 N2 _. rewrite A1 in A2. rewrite N1 in N2.
  destruct r2 as [u2|x2]; [|by apply Hstop].
  rewrite wp_bind. apply wp_on_host. set (h1 := set_client true (Some pid) h).
  rewrite wp_bind, wp_try. apply wp_spares; [apply spares_plug|]. intros r3 e3 A3 N3 _. rewrite A2 in A3. rewrite N2 in N3.
  destruct r3 as [cap|x3]; [|by apply Hstop].
  destruct (ValidateCapabilities (ho_manifest h) cap) as [[]|x4] eqn:Hcap; [|by apply Hstop].
  by apply wp_on_host.
Qed.

(** What [Start] leaves of an idle host. *)
Definition start_spec (h : Host Hd) (e : HostEnv P) (r : res unit) (h' : Host Hd) (e' : HostEnv P) : Prop :=
  ho_manifest h' = ho_manifest h ∧
  match r with
  | Err _ => idle (h', e') ∧ he_alive e' = he_alive e ∧ he_nextpid e ≤ he_nextpid e'
  | Ok _ =>
      ho_cmd h' = Some (Some (he_nextpid e)) ∧ he_alive e' = {[he_nextpid e]} ∪ he_alive e ∧
      he_nextpid e' = he_nextpid e + 1 ∧ ho_client h' = Some (he_nextpid e) ∧
      ho_status h' = mkHostStatus true true None ∧ verified (ho_manifest h) (he_os e) ∧
      ValidateCapabilities (ho_manifest h) (ho_capability h') = Ok tt
  end.

Lemma Start_effect polls h e r h' e' :
  idle (h, e) → pids_ok e → Start sha256 polls (h, e) = (r, (h', e')) → start_spec h e r h' e'.
Proof.
  intros Hi Hp. unfold Start, start_spec. unfold mbind at 1, M_bind at 1.
  pose proof (start_process_effect h e Hi) as W1. unfold wp in W1.
  destruct (start_process sha256 (h, e)) as [[pid|x] [h1 e1]]; simpl in W1.
  2:{ intros [= <- <- <-]. destruct W1 as (? & ? & _ & ? & N1). simpl in N1. by rewrite N1. }
  destruct W1 as (-> & Hrun & A1 & N1 & M1 & _ & Hver). simpl in *. unfold mbind, M_bind.
  pose proof (start_connect_effect polls (he_nextpid e) h1 e1 Hrun) as W2. unfold wp in W2.
  destruct (start_connect polls (he_nextpid e) (h1, e1)) as [[[]|x] [h2 e2]]; simpl in W2.
  - destruct W2 as (M2 & N2 & (C2 & R2 & Hh2 & Er2) & A2 & Cl2 & Cap2). simpl in *. intros [= <- <- <-]. simpl.
    rewrite M1 in *. by rewrite A2, A1, N2, N1, R2, Er2.
  - intros [= <- <- <-]. destruct W2 as (M2 & N2 & Hi2 & A2). simpl in *. split; [by rewrite M2|]. split; [done|].
    rewrite A2, A1, N2, N1. split; [|lia]. assert (he_nextpid e ∉ he_alive e) by (intros H%Hp; lia). set_solver.
Qed.

(** ** Properties *)

(** C28.  Starting a plugin is all or nothing.  A start that succeeds leaves one new process, a
    healthy host, and a plugin that was verified: its binary had the checksum of the manifest,
    and its capabilities, hence every event it can ever be sent, are among those the manifest
    allows.  A start that fails, at whatever step, leaves no process behind. *)
Theorem plugin_start_all_or_nothing polls h e r h' e' :
  idle (h, e) → pids_ok e → Start sha256 polls (h, e) = (r, (h', e')) →
  ho_manifest h' = ho_manifest h ∧
  match r with
  | Err _ => idle (h', e') ∧ he_alive e' = he_alive e
  | Ok _ =>
      ho_cmd h' = Some (Some (he_nextpid e)) ∧ he_alive e' = {[he_nextpid e]} ∪ he_alive e ∧
      ho_status h' = mkHostStatus true true None ∧ verified (ho_manifest h) (he_os e) ∧
      ValidateCapabilities (ho_manifest h) (ho_capability h') = Ok tt ∧
      ∀ ev, pe_Type ev ∉ ma_AllowedEvents (ho_manifest h) →
        ∃ err, handleEvent ev (h', e') = (Err err, (h', e'))
  end.
Proof.
  intros Hi Hp H. destruct (Start_effect polls h e r h' e' Hi Hp H) as [Hm HH]. split; [done|].
  destruct r as [u|x]; [|by destruct HH as (? & ? & _)]. destruct HH as (C & A & _ & Cl & St & Hv & Cap).
  repeat (split; [done|]). intros ev Hev. unfold handleEvent, mbind, M_bind, gets. simpl. rewrite Cl, St. simpl.
  rewrite (not_true_is_false (contains (ca_Events (ho_capability h')) (pe_Type ev))); [simpl; eauto|].
  intros Hc%contains_iff. apply Hev. unfold ValidateCapabilities in Cap.
  destruct (ValidateManifest _); [|done]. destruct (check_all _ (ca_Events _)) as [[]|] eqn:Ec; [|done].
  apply check_all_Ok with (x := pe_Type ev) in Ec; [|done]. apply contains_iff. by destruct (contains (ma_AllowedEvents _) _).
Qed.
End Host.

(** *** The proxy *)

Inductive ProxyOp (Hd : Type) :=
| OpRegister (id route : string) (handler : option Hd)
| OpUnregister (id : string).
Arguments OpRegister {Hd}.
Arguments OpUnregister {Hd}.

Definition op_id {Hd} (op : ProxyOp Hd) : string :=
  match op with OpRegister id _ _ => id | OpUnregister id => id end.

Definition run_proxy_op {Hd} (op : ProxyOp Hd) (p : Proxy Hd) : Proxy Hd :=
  match op with
  | OpRegister id route handler => snd (Register id route handler p)
  | OpUnregister id => Unregister id p
  end.

(** The routes of one plugin are out of reach of the others: whatever the other plugins
    register and unregister, a request below [/plugins/<id>/] reaches the same handler as
    before, and once the plugin is unregistered it reaches none. *)
Theorem proxy_isolated {Hd} (ops : list (ProxyOp Hd)) (p : Proxy Hd) id path :
  validManifestID id = true → Forall (λ op, validManifestID (op_id op) = true ∧ op_id op ≠ id) ops →
  HasPrefix path (route_prefix id) = true →
  Handler (foldl (λ p op, run_proxy_op op p) p ops) path = Handler p path ∧
  Handler (foldl (λ p op, run_proxy_op op p) (Unregister id p) ops) path = None.
Proof.
  intros Hid Hops Hpath.
  assert (∀ p : Proxy Hd, foldl (λ p op, run_proxy_op op p) p ops !! path = p !! path) as Hkeep.
  { clear p. induction Hops as [|op ops [Hv Hne] _ IH]; intros p; simpl; [done|]. rewrite IH.
    assert (HasPrefix path (route_prefix (op_id op)) = false) as Hout.
    { apply not_true_is_false. intros H. by apply Hne, (route_prefix_inj (op_id op) id path). }
    destruct op as [id' route handler|id']; simpl in *.
    - destruct (lookup_Register id' route handler p path) as [?|(<- & Hpre & _)]; [done|congruence].
    - by rewrite lookup_Unregister, Hout. }
  unfold Handler. split; [apply Hkeep|]. by rewrite Hkeep, lookup_Unregister, Hpath.
Qed.

(** ** Witnesses *)

(** A plugin that is ready for one event, [fail] as an event makes it fail. *)
#[local] Instance echo_service : PluginService unit := {
  ps_Init _ _ := mret (mkCapability ["server.started"] []);
  ps_HandleEvent _ ev := if pe_ServerID ev =s "bad" then fail (EExt "bad") else mret tt;
  ps_HealthCheck _ := mret (true, "");
  ps_Close _ := mret tt }.

Definition zeros : string := Nat.iter 64 (String.append "0") "".
Definition echo_manifest : Manifest :=
  mkManifest "echo" "Echo" "1" "/bin/echo" true "" ["server.started"; "server.stopped"] [] zeros.
Definition echo_host : Host unit :=
  mkHost echo_manifest (mkHostOptions "/run" "1" 1 1 ∅) "" None false None (mkCapability [] [])
    (mkHostStatus false false None) false.
Definition echo_env (fs : list (option string)) : HostEnv unit :=
  mkHostEnv (mkOS (list_to_map [(["bin"], NDir); (["bin"; "echo"], NFile "elf" 493)]) [] [] []) ∅ {[ 7 ]} 9 fs tt.

(** The sixth call, the start of the process, goes through; so does the connection. *)
Lemma plugin_start_all_or_nothing_witness :
  (let '(r, (h', e')) := Start (λ _, zeros) 3 (echo_host, echo_env []) in
   r = Ok tt ∧ ho_status h' = mkHostStatus true true None ∧ he_alive e' = {[9]} ∪ {[7]}) ∧
  he_alive (snd (snd (Start (λ _, zeros) 0 (echo_host, echo_env [])))) = {[7]}.
Proof.
  assert (pids_ok (echo_env [])) as Hp by (intros pid Hpid; simpl in Hpid; apply elem_of_singleton in Hpid; simpl; lia).
  assert (idle (echo_host, echo_env [])) as Hi by (repeat split; discriminate).
  split.
  - destruct (Start (λ _, zeros) 3 (echo_host, echo_env [])) as [r [h' e']] eqn:E.
    destruct (plugin_start_all_or_nothing (λ _, zeros) 3 echo_host (echo_env []) r h' e' Hi Hp E) as [_ H].
    assert (r = Ok tt) as -> by (transitivity (fst (Start (λ _, zeros) 3 (echo_host, echo_env []))); [by rewrite E|vm_compute; reflexivity]).
    destruct H as (_ & H2 & H3 & _). split; [reflexivity|]. split; [exact H3|exact H2].
  - destruct (Start (λ _, zeros) 0 (echo_host, echo_env [])) as [r [h' e']] eqn:E.
    destruct (plugin_start_all_or_nothing (λ _, zeros) 0 echo_host (echo_env []) r h' e' Hi Hp E) as [_ H].
    assert (is_ok r = false) as Hr by (transitivity (is_ok (fst (Start (λ _, zeros) 0 (echo_host, echo_env [])))); [by rewrite E|vm_compute; reflexivity]).
    destruct r as [u|x]; [discriminate Hr|]. destruct H as [_ H]. exact H.
Defined.

Lemma proxy_isolated_witness :
  let p : Proxy nat := snd (Register "echo" "/plugins/echo/status" (Some 1%nat) NewProxy) in
  Handler (foldl (λ p op, run_proxy_op op p) p [OpRegister "other" "/plugins/echo/status" (Some 2%nat); OpUnregister "other"])
    "/plugins/echo/status" = Some 1%nat.
Proof.
  cbv zeta. rewrite (proj1 (proxy_isolated [OpRegister "other" "/plugins/echo/status" (Some 2%nat); OpUnregister "other"]
    (snd (Register "echo" "/plugins/echo/status" (Some 1%nat) NewProxy)) "echo" "/plugins/echo/status" eq_refl
    ltac:(repeat constructor; discriminate) eq_refl)).
  vm_compute. reflexivity.
Defined.
