(* ===== verification/PluginRegistry.v ===== *)
(** * The plugin registry ([internal/plugin/registry.go])

    The hosts of the enabled plugins, their start and stop, the bridge from the event
    bus, and the switch that disables a plugin after three failures in a row.  A method
    that holds the lock is one step; [DispatchEvent], which does not, is the sequence of its
    steps; the goroutine of a bridge is its loop body. *)

From S2P Require Import Prelude GoLib GoPath GoOS Store Bus Plugin PluginHost.

(** ** Definitions *)

(** [hostLifecycle], with [routeProvider]: hosts [H] that share an environment [E]. *)
Class HostLifecycle (H E Hd : Type) := {
  hl_Start : M (H * E) unit;
  hl_Stop : M (H * E) unit;
  hl_HandleEvent : PluginEvent → M (H * E) unit;
  hl_HealthCheck : M (H * E) unit;
  hl_Status : H → HostStatus;
  hl_RouteHandler : option (H → string → option Hd) }.

(** [concreteHostAdapter] *)
Definition concreteHostAdapter {P Hd} `{!PluginService P} (sha256 : string → string) (polls : nat) :
  HostLifecycle (Host Hd) (HostEnv P) Hd := {|
  hl_Start := Start sha256 polls;
  hl_Stop := Stop;
  hl_HandleEvent := handleEvent;
  hl_HealthCheck := HealthCheck;
  hl_Status := Status;
  hl_RouteHandler := Some RouteHandler |}.

Section Registry.
Context {H E Hd : Type} `{!HostLifecycle H E Hd}.

(** [cancels] are the subscriptions to cancel; [bridges] the goroutines that are running,
    with the plugin each one forwards to. *)
Record Registry := mkRegistry {
  rg_db : option DB; rg_bus : EventBus;
  rg_hosts : gmap string H; rg_manifests : gmap string Manifest;
  rg_enabled : gmap string bool; rg_failures : gmap string Z;
  rg_cancels : list (string * nat); rg_bridges : list (string * nat);
  rg_proxy : Proxy Hd; rg_started : bool; rg_env : E }.

Local Abbreviation R := Registry.

Definition rput_db (x : option DB) (r : R) : R :=
  mkRegistry x (rg_bus r) (rg_hosts r) (rg_manifests r) (rg_enabled r) (rg_failures r) (rg_cancels r) (rg_bridges r)
    (rg_proxy r) (rg_started r) (rg_env r).
Definition rput_hosts (x : gmap string H) (e : E) (r : R) : R :=
  mkRegistry (rg_db r) (rg_bus r) x (rg_manifests r) (rg_enabled r) (rg_failures r) (rg_cancels r) (rg_bridges r)
    (rg_proxy r) (rg_started r) e.
Definition rput_enabled (x : gmap string bool) (f : gmap string Z) (r : R) : R :=
  mkRegistry (rg_db r) (rg_bus r) (rg_hosts r) (rg_manifests r) x f (rg_cancels r) (rg_bridges r)
    (rg_proxy r) (rg_started r) (rg_env r).
Definition rput_manifests (x : gmap string Manifest) (r : R) : R :=
  mkRegistry (rg_db r) (rg_bus r) (rg_hosts r) x (rg_enabled r) (rg_failures r) (rg_cancels r) (rg_bridges r)
    (rg_proxy r) (rg_started r) (rg_env r).
Definition rput_bus (b : EventBus) (c br : list (string * nat)) (r : R) : R :=
  mkRegistry (rg_db r) b (rg_hosts r) (rg_manifests r) (rg_enabled r) (rg_failures r) c br
    (rg_proxy r) (rg_started r) (rg_env r).
Definition rput_proxy (x : Proxy Hd) (r : R) : R :=
  mkRegistry (rg_db r) (rg_bus r) (rg_hosts r) (rg_manifests r) (rg_enabled r) (rg_failures r) (rg_cancels r) (rg_bridges r)
    x (rg_started r) (rg_env r).
Definition rput_started (x : bool) (r : R) : R :=
  mkRegistry (rg_db r) (rg_bus r) (rg_hosts r) (rg_manifests r) (rg_enabled r) (rg_failures r) (rg_cancels r) (rg_bridges r)
    (rg_proxy r) x (rg_env r).

Definition NewRegistry (db : option DB) (bus : option EventBus) (env : E) : R :=
  mkRegistry db (default NewEventBus bus) ∅ ∅ ∅ ∅ [] [] NewProxy false env.

(** A method of a host that is a value [h]. *)
Definition run_host {A} (m : M (H * E) A) (h : H) (r : R) : res A * H * R :=
  let '(x, (h', e)) := m (h, rg_env r) in (x, h', rput_hosts (rg_hosts r) e r).

(** A method of the host [id] of the registry. *)
Definition on_host_id {A} (id : string) (dflt : A) (m : M (H * E) A) : M R A := λ r,
  match rg_hosts r !! id with
  | None => (Ok dflt, r)
  | Some h => let '(x, h', r) := run_host m h r in (x, rput_hosts (<[id := h']> (rg_hosts r)) (rg_env r) r)
  end.

(** [r.enabled[id] || !hasEnabledFlag(r.enabled, id)] *)
Definition is_enabled (r : R) (id : string) : bool := default true (rg_enabled r !! id).

(** *** Loading *)

(** [json.Unmarshal] into a list of strings; [NewHost] with the registry's options. *)
Context (json_list : string → res (list string)) (new_host : Manifest → res H).

Fixpoint load_plugins (ps : list Store.Plugin) : res (list (string * (H * Manifest))) :=
  match ps with
  | [] => Ok []
  | p :: ps =>
      if negb (pl_Enabled p) then load_plugins ps
      else
        match json_list (pl_SubscribedEvents p) with
        | Err e => Err (Errorw "plugin %q subscribed events" [pl_ID p] e)
        | Ok events =>
            match json_list (pl_AllowedRoutes p) with
            | Err e => Err (Errorw "plugin %q allowed routes" [pl_ID p] e)
            | Ok routes =>
                let manifest := mkManifest (pl_ID p) (pl_Name p) (pl_Version p) (pl_BinaryPath p) true
                                  (pl_ConfigPath p) events routes (pl_SHA256 p) in
                match new_host manifest with
                | Err e => Err e
                | Ok h => match load_plugins ps with
                          | Ok l => Ok ((pl_ID p, (h, manifest)) :: l)
                          | Err e => Err e
                          end
                end
            end
        end
  end.

(** The hosts of the store take the place of those of the same id; the others are stopped. *)
Definition install_loaded (loaded : list (string * (H * Manifest))) : M R unit := λ r,
  let ids := loaded.*1 in
  let new_hosts : gmap string H := list_to_map ((λ x, (x.1, x.2.1)) <$> loaded) in
  let new_manifests : gmap string Manifest := list_to_map ((λ x, (x.1, x.2.2)) <$> loaded) in
  let new_enabled : gmap string bool := list_to_map ((λ id, (id, true)) <$> ids) in
  let hosts := new_hosts ∪ rg_hosts r in
  let stale := filter (λ ih, ih.1 ∉ ids) hosts in
  let keep {A} (m : gmap string A) := filter (λ ix, stale !! ix.1 = None) m in
  let r := rput_hosts (keep hosts) (rg_env r)
             (rput_manifests (keep (new_manifests ∪ rg_manifests r))
                (rput_enabled (keep (new_enabled ∪ rg_enabled r)) (keep (rg_failures r)) r)) in
  (Ok tt, foldl (λ r ih, let '(_, _, r) := run_host hl_Stop ih.2 r in
                         rput_proxy (Unregister ih.1 (rg_proxy r)) r) r (map_to_list stale)).

Definition LoadEnabled : M R unit := λ r,
  match rg_db r with
  | None => (Err (Errorf "plugin registry database is nil" []), r)
  | Some db =>
      let '(ps, db) := ListPlugins db in
      let r := rput_db (Some db) r in
      match ps with
      | Err e => (Err e, r)
      | Ok ps => match load_plugins ps with
                 | Err e => (Err e, r)
                 | Ok loaded => install_loaded loaded r
                 end
      end
  end.

(** *** Start and stop *)

Definition rollbackStarted (ids : list string) : M R unit :=
  for_each (λ id,
    ignore (on_host_id id tt hl_Stop);;
    modify (λ r, rput_proxy (Unregister id (rg_proxy r)) r)) ids.

Definition abort_start {A} (ids : list string) (e : error) : M R A :=
  rollbackStarted ids;;
  modify (rput_started false);;
  fail e.

(** The routes of a host that has just been started. *)
Fixpoint register_routes (id : string) (started routes : list string) : M R unit :=
  match routes with
  | [] => mret tt
  | route :: routes =>
      r ← gets (λ r, r);
      let handler := match hl_RouteHandler, rg_hosts r !! id with
                     | Some f, Some h => f h route
                     | _, _ => None
                     end in
      x ← try (zoom rg_proxy rput_proxy (Register id route handler));
      match x with
      | Err e => abort_start started (Errorw "register plugin %q route %q" [id; route] e)
      | Ok _ => register_routes id started routes
      end
  end.

Fixpoint start_hosts (started ids : list string) : M R unit :=
  match ids with
  | [] => mret tt
  | id :: ids =>
      x ← try (on_host_id id tt hl_Start);
      match x with
      | Err e => abort_start started (Errorw "start plugin %q" [id] e)
      | Ok _ =>
          let started := started ++ [id] in
          (match hl_RouteHandler with
           | None => mret tt
           | Some _ =>
               m ← gets (λ r, rg_manifests r !! id);
               register_routes id (started ++ [id]) (match m with Some m => ma_AllowedRoutes m | None => [] end)
           end);;
          start_hosts started ids
      end
  end.

(** A subscription and its goroutine for every allowed event of every enabled plugin. *)
Definition bridge : M R unit := λ r,
  (Ok tt, foldl (λ r idm,
     if is_enabled r idm.1 then
       foldl (λ r typ,
         let '(ch, bus) := SubscribeWithCancelDone typ (rg_bus r) in
         rput_bus bus (rg_cancels r ++ [(typ, ch)]) (rg_bridges r ++ [(idm.1, ch)]) r)
         r (ma_AllowedEvents idm.2)
     else r) r (map_to_list (rg_manifests r))).

(** The ids of the hosts to start, in order. *)
Definition to_start (r : R) : list string :=
  isort String.leb (filter (λ id, is_enabled r id = true) (map_to_list (rg_hosts r)).*1).

Definition StartAll : M R unit :=
  r ← gets (λ r, r);
  if rg_started r then mret tt
  else
    modify (rput_started true);;
    start_hosts [] (to_start r);;
    bridge.

(** The bridges have ended when [bridgeWG.Wait()] returns. *)
Definition StopAll : M R unit :=
  modify (λ r, rput_bus (foldl (λ b tc, cancel tc.1 tc.2 b) (rg_bus r) (rg_cancels r)) [] [] r);;
  ids ← gets (λ r, (map_to_list (rg_hosts r)).*1);
  errs ← (λ r, foldl (λ acc id,
            let '(errs, r) := (acc : res (list error) * R) in
            match on_host_id id tt hl_Stop r with
            | (Err e, r) => (match errs with Ok l => Ok (l ++ [e]) | x => x end, r)
            | (Ok _, r) => (errs, r)
            end) (Ok [], r) ids);
  modify (λ r, foldl (λ r id, rput_proxy (Unregister id (rg_proxy r)) r) r ids);;
  modify (rput_started false);;
  match errs with e :: _ => fail e | [] => mret tt end.

(** *** Events *)

Definition set_enabled_db (id : string) (b : bool) : M R unit := λ r,
  match rg_db r with
  | None => (Ok tt, r)
  | Some db => (Ok tt, rput_db (Some (snd (SetPluginEnabled id b db))) r)
  end.

(** [failures[id]++]; the third failure in a row disables the plugin.  Whether it does. *)
Definition count_failure (id : string) : M R bool := λ r,
  let n := default 0 (rg_failures r !! id) + 1 in
  let failed := 3 <=? n in
  (Ok failed, rput_enabled (if failed then <[id := false]> (rg_enabled r) else rg_enabled r)
                (<[id := n]> (rg_failures r)) r).

(** Where a call of [DispatchEvent] is: it holds the lock while it looks for the host and while it
    counts the outcome, and neither while the host handles the event nor for the statement of
    the store.  Every bridge is a goroutine of its own, so calls overlap. *)
Inductive Dispatch :=
| Dispatching (id : string) (event : PluginEvent)
| Handling (id : string) (event : PluginEvent)
| Counting (id : string) (x : res unit)
| Disabling (id : string) (e : error)
| Dispatched (x : res unit).

Definition dispatch_step (d : Dispatch) : M R Dispatch :=
  match d with
  | Dispatching id event =>
      r ← gets (λ r, r);
      mret match rg_hosts r !! id with
           | Some _ => if is_enabled r id then Handling id event else Dispatched (Ok tt)
           | None => Dispatched (Ok tt)
           end
  | Handling id event =>
      x ← try (on_host_id id tt (hl_HandleEvent event));
      mret (Counting id x)
  | Counting id (Ok _) =>
      modify (λ r, rput_enabled (rg_enabled r) (<[id := 0]> (rg_failures r)) r);;
      mret (Dispatched (Ok tt))
  | Counting id (Err e) =>
      failed ← count_failure id;
      mret (if failed : bool then Disabling id e else Dispatched (Err e))
  | Disabling id e =>
      set_enabled_db id false;;
      mret (Dispatched (Err e))
  | Dispatched x => mret (Dispatched x)
  end.

(** A call that nothing interrupts. *)
Definition DispatchEvent (id : string) (event : PluginEvent) : M R unit :=
  d ← dispatch_step (Dispatching id event);
  d ← dispatch_step d;
  d ← dispatch_step d;
  d ← dispatch_step d;
  match d with Dispatched x => lift_res x | _ => mret tt end.

(** A turn of the goroutine that forwards the events of channel [ch]. *)
Definition bridge_turn (id : string) (ch : nat) : M R unit := λ r,
  if bool_decide ((id, ch) ∉ rg_bridges r) then (Ok tt, r)
  else match receive ch (rg_bus r) with
       | None => (Ok tt, r)
       | Some (ev, bus) =>
           ignore (DispatchEvent id (mkPluginEvent (Ev_Type ev) (Ev_ServerID ev) ∅))
             (rput_bus bus (rg_cancels r) (rg_bridges r) r)
       end.

(** What every enabled host answers. *)
Definition HealthCheckAll (r : R) : list (string * res unit) * R :=
  foldl (λ acc id,
    let '(l, r) := (acc : list (string * res unit) * R) in
    let '(x, r) := on_host_id id tt hl_HealthCheck r in (l ++ [(id, x)], r))
    ([], r) (filter (λ id, is_enabled r id = true) (map_to_list (rg_hosts r)).*1).
End Registry.
Arguments Registry : clear implicits.
