(* ===== verification/PluginRegistrySpec.v ===== *)
(** * What the plugin registry promises

    The switch that disables a plugin is the one the documentation describes, three
    failures in a row; the start of the plugins is all or nothing.  The hosts are seen
    through the laws of a class, and the plugin host obeys them. *)

From S2P Require Import Prelude GoLib GoPath GoOS Store StoreFacts Migrations Bus Plugin PluginHost PluginSpec PluginRegistry.

(** ** Definitions *)

(** What the registry relies on: a host that is stopped, started or running, in an
    environment that other hosts share. *)
Class HostLifecycleOk (H E Hd : Type) `{!HostLifecycle H E Hd} := {
  hl_env : E → Prop;
  hl_stopped : H → E → Prop;
  hl_running : H → E → Prop;
  hl_Stop_ok h e : hl_env e →
    let s := snd (hl_Stop (h, e)) in
    hl_env s.2 ∧ hl_stopped s.1 s.2 ∧ ∀ g, hl_stopped g e → hl_stopped g s.2;
  hl_Start_ok h e : hl_env e → hl_stopped h e →
    let '(r, s) := hl_Start (h, e) in
    hl_env s.2 ∧ (if is_ok r then hl_running s.1 s.2 else hl_stopped s.1 s.2) ∧
    ∀ g, (hl_stopped g e → hl_stopped g s.2) ∧ (hl_running g e → hl_running g s.2) }.

(** *** The host obeys the laws *)

Section Adapter.
Context {P Hd : Type} `{!PluginService P} (sha256 : string → string) (polls : nat).

Definition host_running (h : Host Hd) (e : HostEnv P) : Prop :=
  ho_status h = mkHostStatus true true None ∧ ∃ pid, ho_cmd h = Some (Some pid) ∧ pid ∈ he_alive e.

Lemma idle_mono (h : Host Hd) (e e' : HostEnv P) :
  idle (h, e) → he_nextpid e ≤ he_nextpid e' →
  (∀ pid, pid < he_nextpid e → pid ∈ he_alive e' → pid ∈ he_alive e) → idle (h, e').
Proof.
  intros (H1 & H2 & H3 & H4) Hn Ha. repeat (split; [done|]). intros pid Hc. simpl in *.
  destruct (H4 pid Hc) as [Hp Hlt]. split; [by intros ?%Ha|lia].
Qed.

Lemma Stop_lawful (h : Host Hd) (e : HostEnv P) :
  pids_ok e → let s := snd (Stop (h, e)) in
  pids_ok s.2 ∧ idle s ∧ ∀ g : Host Hd, idle (g, e) → idle (g, s.2).
Proof.
  intros Hp s. unfold s. destruct (Stop (h, e)) as [r [h' e']] eqn:E. apply Stop_effect in E as (Hi & (_ & _ & Hn) & Ha).
  simpl in *. assert (∀ pid, pid ∈ he_alive e' → pid ∈ he_alive e) as Hsub.
  { rewrite Ha. destruct (ho_cmd h) as [[pid|]|]; set_solver. }
  split; [|split; [done|]].
  - intros pid Hin%Hsub%Hp. lia.
  - intros g Hg. eapply idle_mono; [exact Hg|lia|auto].
Qed.

Lemma Start_lawful (h : Host Hd) (e : HostEnv P) :
  pids_ok e → idle (h, e) → let '(r, s) := Start sha256 polls (h, e) in
  pids_ok s.2 ∧ (if is_ok r then host_running s.1 s.2 else idle s) ∧
  ∀ g : Host Hd, (idle (g, e) → idle (g, s.2)) ∧ (host_running g e → host_running g s.2).
Proof.
  intros Hp Hi. destruct (Start sha256 polls (h, e)) as [r [h' e']] eqn:E.
  apply Start_effect in E as [_ HH]; [|done..]. simpl. destruct r as [u|x]; simpl.
  - destruct HH as (Hc & Ha & Hn & _ & Hst & _). split; [|split].
    + intros pid Hin. rewrite Ha in Hin. apply elem_of_union in Hin as [->%elem_of_singleton|Hin%Hp]; lia.
    + split; [done|]. exists (he_nextpid e). rewrite Ha. split; [done|set_solver].
    + intros g. split.
      * intros Hg. eapply idle_mono; [exact Hg|lia|]. rewrite Ha. intros pid Hlt [->%elem_of_singleton|]%elem_of_union; [lia|done].
      * intros (Hs & pid & Hg & Hin). split; [done|]. exists pid. rewrite Ha. split; [done|set_solver].
  - destruct HH as (Hi' & Ha & Hn). split; [|split; [done|]].
    + intros pid Hin. rewrite Ha in Hin. apply Hp in Hin. lia.
    + intros g. unfold host_running. rewrite Ha. split; [|done]. intros Hg. eapply idle_mono; [exact Hg|done|by rewrite Ha].
Qed.

#[export, refine] Instance concreteHostAdapterOk :
  @HostLifecycleOk (Host Hd) (HostEnv P) Hd (concreteHostAdapter sha256 polls) := {|
  hl_env := pids_ok;
  hl_stopped (h : Host Hd) (e : HostEnv P) := idle (h, e);
  hl_running := host_running |}.
Proof.
  - intros h e He. destruct (Stop_lawful h e He) as (H1 & H2 & H3). split; [done|]. split; [|done].
    change (idle (snd (Stop (h, e)))) in H2. simpl. by destruct (Stop (h, e)) as [? []].
  - intros h e He Hi. pose proof (Start_lawful h e He Hi) as HH. simpl.
    by destruct (Start sha256 polls (h, e)) as [[] []].
Defined.
End Adapter.

(** *** Starting the plugins *)

Section StartAll.
Context {H E Hd : Type} `{!HostLifecycle H E Hd} `{!HostLifecycleOk H E Hd}.

Local Abbreviation R := (Registry H E Hd).

(** Hosts, flags and bridges apart from the state of the hosts. *)
Definition rg_frame (r : R) := (rg_db r, rg_bus r, rg_manifests r, rg_enabled r, rg_failures r, rg_cancels r, rg_bridges r).

(** The hosts outside [X] are stopped, those in [X] satisfy [Q]. *)
Definition hosts_are (X : list string) (Q : H → E → Prop) (r : R) : Prop :=
  hl_env (rg_env r) ∧
  ∀ id h, rg_hosts r !! id = Some h → (id ∉ X → hl_stopped h (rg_env r)) ∧ (id ∈ X → Q h (rg_env r)).

(** The routes of [p] are those of [p0], and some of the plugins of [X]. *)
Definition routes_added (X : list string) (p0 p : Proxy Hd) : Prop :=
  (∀ path hd, p0 !! path = Some hd → p !! path = Some hd) ∧
  (∀ path hd, p !! path = Some hd → p0 !! path = Some hd ∨ ∃ id, id ∈ X ∧ HasPrefix path (route_prefix id) = true).

Definition no_routes (X : list string) (p : Proxy Hd) : Prop :=
  ∀ id path, id ∈ X → HasPrefix path (route_prefix id) = true → p !! path = None.

(** ** Lemmas *)

Lemma wp_on_host_id id (m : M (H * E) unit) (r : R) (Q : res unit → R → Prop) :
  (rg_hosts r !! id = None → Q (Ok tt) r) →
  (∀ h, rg_hosts r !! id = Some h →
    let '(x, s) := m (h, rg_env r) in Q x (rput_hosts (<[id := s.1]> (rg_hosts r)) s.2 r)) →
  wp (on_host_id id tt m) Q r.
Proof.
  intros HN HS. unfold wp, on_host_id. destruct (rg_hosts r !! id) as [h|]; [|by apply HN].
  specialize (HS h eq_refl). unfold run_host. by destruct (m (h, rg_env r)) as [x [h' e']].
Qed.

Lemma hosts_are_mono X Y Q r : hosts_are X Q r → (∀ id, id ∈ X ↔ id ∈ Y) → hosts_are Y Q r.
Proof. intros [He Hh] HXY. split; [done|]. intros id h Hid. destruct (Hh id h Hid). by rewrite <- !HXY. Qed.

Definition rollback_one (id : string) : M R unit :=
  ignore (on_host_id id tt hl_Stop);;
  modify (λ r, rput_proxy (Unregister id (rg_proxy r)) r).

(** The registry after a host has been stopped and its routes are gone. *)
Lemma rollback_one_effect X id r :
  hosts_are X (λ _ _, True) r →
  wp (rollback_one id) (λ x r', x = Ok tt ∧ hosts_are (filter (λ i, i ≠ id) X) (λ _ _, True) r' ∧
    rg_frame r' = rg_frame r ∧ dom (rg_hosts r') = dom (rg_hosts r) ∧ rg_proxy r' = Unregister id (rg_proxy r)) r.
Proof.
  intros [He Hh]. unfold rollback_one. rewrite wp_bind, wp_ignore. apply wp_on_host_id.
  - intros Hnone. rewrite wp_modify. split; [done|]. split; [|done]. split; [done|]. intros i h Hi. split; [|done].
    intros Hni. apply (Hh i h Hi). intros Hin. apply Hni, list_elem_of_filter. split; [|done]. intros ->. simpl in Hi. congruence.
  - intros h Hh0. pose proof (hl_Stop_ok h (rg_env r) He) as HS.
    destruct (hl_Stop (h, rg_env r)) as [x [h' e']]. simpl in HS. destruct HS as (He' & Hst & Hg).
    rewrite wp_modify. split; [done|]. split; [|split; [done|split; [|done]]].
    + split; [done|]. simpl. intros i g. rewrite lookup_insert. case_decide as Hdec.
      * intros [= <-]. done.
      * intros Hi. split; [|done]. intros Hni. apply Hg, (proj1 (Hh i g Hi)). intros Hin. by apply Hni, list_elem_of_filter.
    + simpl. apply elem_of_dom_2 in Hh0. rewrite dom_insert_L. set_solver.
Qed.

(** Stopping hosts in any order, and forgetting their routes. *)
Lemma rollback_effect X ids p0 r :
  (∀ id, id ∈ X → id ∈ ids) → hosts_are X (λ _ _, True) r → routes_added ids p0 (rg_proxy r) → no_routes ids p0 →
  wp (rollbackStarted ids) (λ x r', x = Ok tt ∧ hosts_are [] (λ _ _, True) r' ∧ rg_frame r' = rg_frame r ∧
    dom (rg_hosts r') = dom (rg_hosts r) ∧ rg_proxy r' = p0) r.
Proof.
  change (rollbackStarted ids) with (for_each rollback_one ids).
  induction ids as [|id ids IH] in X, r |- *; intros HX Hh [Hr1 Hr2] Hno.
  - simpl. rewrite wp_ret. split; [done|]. split; [|split; [done|split; [done|]]].
    + eapply hosts_are_mono; [exact Hh|]. intros i. split; [by intros Hi%HX|by intros Hi%elem_of_nil].
    + apply Proxy_eq. intros path. destruct (rg_proxy r !! path) as [hd|] eqn:Ep.
      * by destruct (Hr2 path hd Ep) as [?|(i & Hi%elem_of_nil & _)].
      * destruct (p0 !! path) as [hd|] eqn:E0; [|done]. apply Hr1 in E0. congruence.
  - simpl. rewrite wp_bind. eapply wp_mono; [by apply rollback_one_effect|].
    intros x r' (-> & Hh' & Hf & Hdom & Hp). rewrite <- Hf, <- Hdom. apply (IH (filter (λ i, i ≠ id) X)); [|done| |].
    + intros i [Hne Hi%HX]%list_elem_of_filter. by apply elem_of_cons in Hi as [->|?].
    + rewrite Hp. split; intros path hd; rewrite lookup_Unregister; destruct (HasPrefix path (route_prefix id)) eqn:Ep; auto.
      * intros Hpa. rewrite (Hno id path) in Hpa; [done|left|done].
      * done.
      * intros Hpa. destruct (Hr2 path hd Hpa) as [?|(i & [->|Hi]%elem_of_cons & Hpi)]; [by left|congruence|right; eauto].
    + intros i path Hi. apply Hno. by right.
Qed.
(** A registry as it was before [StartAll], whose hosts are stopped. *)
Definition start_undone (r0 : R) (p0 : Proxy Hd) (r : R) : Prop :=
  hosts_are [] (λ _ _, True) r ∧ rg_frame r = rg_frame r0 ∧ dom (rg_hosts r) = dom (rg_hosts r0) ∧
  rg_proxy r = p0 ∧ rg_started r = false.

(** A registry in which the plugins of [X] have been started. *)
Definition start_done (X : list string) (r0 : R) (p0 : Proxy Hd) (r : R) : Prop :=
  hosts_are X hl_running r ∧ rg_frame r = rg_frame r0 ∧ dom (rg_hosts r) = dom (rg_hosts r0) ∧
  routes_added X p0 (rg_proxy r) ∧ rg_started r = rg_started r0.

Definition start_post (X : list string) (r0 : R) (p0 : Proxy Hd) (x : res unit) (r : R) : Prop :=
  match x with Ok _ => start_done X r0 p0 r | Err _ => start_undone r0 p0 r end.

Lemma hosts_are_True X Q r : hosts_are X Q r → hosts_are X (λ _ _, True) r.
Proof. intros [He Hh]. split; [done|]. intros id h Hid. by destruct (Hh id h Hid). Qed.

Lemma routes_added_mono X Y p0 p : (∀ id, id ∈ X → id ∈ Y) → routes_added X p0 p → routes_added Y p0 p.
Proof. intros HXY [H1 H2]. split; [done|]. intros path hd Hp. destruct (H2 path hd Hp) as [?|(id & ? & ?)]; eauto. Qed.

Lemma abort_effect {A} X ids err r0 p0 r :
  (∀ id, id ∈ X → id ∈ ids) → start_done X r0 p0 r → routes_added ids p0 (rg_proxy r) → no_routes ids p0 →
  wp (abort_start (A:=A) ids err) (λ x r', is_ok x = false ∧ start_undone r0 p0 r') r.
Proof.
  intros HX (Hh & Hf & Hdom & _) Hr Hno. unfold abort_start. rewrite wp_bind. eapply wp_mono.
  { apply (rollback_effect X ids p0); [done|by eapply hosts_are_True|done|done]. }
  intros x r' (-> & Hh' & Hf' & Hdom' & Hp'). rewrite wp_bind, wp_modify, wp_fail. split; [done|]. split; [done|].
  split; [by rewrite <- Hf, <- Hf'|]. split; [by rewrite <- Hdom, <- Hdom'|done].
Qed.

Lemma Register_added X id route (handler : option Hd) p0 p :
  id ∈ X → routes_added X p0 p → routes_added X p0 (snd (Register id route handler p)).
Proof.
  intros Hin [H1 H2]. split; intros path hd Hp.
  - destruct (lookup_Register id route handler p path) as [->|(_ & _ & Hn)]; [auto|]. apply H1 in Hp. congruence.
  - destruct (lookup_Register id route handler p path) as [Heq|(-> & Hpre & _)]; [|right; eauto].
    rewrite Heq in Hp. auto.
Qed.

Lemma register_effect id X ids routes r0 p0 r :
  id ∈ X → (∀ i, i ∈ X ↔ i ∈ ids) → start_done X r0 p0 r → no_routes X p0 →
  wp (register_routes id ids routes) (start_post X r0 p0) r.
Proof.
  intros Hin HX. induction routes as [|route routes IH] in r |- *; intros Hs Hno; [done|].
  simpl. rewrite wp_bind, wp_gets. simpl. set (hd := match hl_RouteHandler with Some _ => _ | None => _ end).
  rewrite wp_bind, wp_try, wp_zoom. unfold wp at 1. destruct Hs as (Hh & Hf & Hdom & Hr & Hst).
  pose proof (Register_added X id route hd p0 (rg_proxy r) Hin Hr) as Hreg.
  destruct (Register id route hd (rg_proxy r)) as [[u|x] p']; simpl in Hreg |- *.
  - by apply IH.
  - eapply wp_mono; [apply (abort_effect X ids _ r0 p0)|].
    + intros i. by apply HX.
    + done.
    + eapply routes_added_mono; [|exact Hreg]. intros i. by apply HX.
    + intros i path Hi. apply Hno. by apply HX.
    + by intros [u|e] s [Hok Hu].
Qed.

Lemma hosts_are_Start X id h r :
  hosts_are X hl_running r → rg_hosts r !! id = Some h → id ∉ X →
  let '(x, s) := hl_Start (h, rg_env r) in
  hosts_are (if is_ok x then X ++ [id] else X) hl_running (rput_hosts (<[id := s.1]> (rg_hosts r)) s.2 r).
Proof.
  intros [He Hh] Hid HX. pose proof (hl_Start_ok h (rg_env r) He (proj1 (Hh id h Hid) HX)) as HS.
  destruct (hl_Start (h, rg_env r)) as [x s]. destruct HS as (He' & Hs & Hg). split; [done|]. simpl.
  intros i g. rewrite lookup_insert. case_decide as Hdec.
  - subst i. intros [= <-]. destruct x; simpl in *; set_solver.
  - intros Hi. destruct (Hh i g Hi) as [H1 H2], (Hg g) as [H3 H4].
    destruct x; simpl; rewrite ?elem_of_app, ?list_elem_of_singleton; [|auto].
    split; intros Hin; [apply H3, H1; tauto|]. destruct Hin as [Hin|Hin]; [auto|by subst].
Qed.

Lemma start_hosts_effect X ids r0 p0 r :
  NoDup (X ++ ids) → (∀ id, id ∈ ids → id ∈ dom (rg_hosts r0)) → start_done X r0 p0 r → no_routes (X ++ ids) p0 →
  wp (start_hosts X ids) (start_post (X ++ ids) r0 p0) r.
Proof.
  induction ids as [|id ids IH] in X, r |- *; intros Hnd Hin Hs Hno.
  { by rewrite app_nil_r. }
  simpl. rewrite wp_bind, wp_try. apply wp_on_host_id.
  - intros Hnone. exfalso. apply not_elem_of_dom in Hnone. apply Hnone. destruct Hs as (_ & _ & -> & _). apply Hin. left.
  - intros h Hh. destruct Hs as (Hh0 & Hf & Hdom & Hr & Hst).
    assert (id ∉ X) as HX by (apply NoDup_app in Hnd as (_ & Hnd & _); intros Hx; eapply Hnd; [exact Hx|left]).
    pose proof (hosts_are_Start X id h r Hh0 Hh HX) as HS.
    destruct (hl_Start (h, rg_env r)) as [x s]. set (r1 := rput_hosts _ _ r) in *.
    assert (dom (rg_hosts r1) = dom (rg_hosts r0)) as Hdom1.
    { simpl. rewrite <- Hdom. apply elem_of_dom_2 in Hh. rewrite dom_insert_L. set_solver. }
    destruct x as [u|e]; simpl in HS.
    + assert (start_done (X ++ [id]) r0 p0 r1) as Hs1.
      { split; [done|]. split; [done|]. split; [done|]. split; [|done]. eapply routes_added_mono; [|exact Hr]. set_solver +. }
      assert (X ++ id :: ids = (X ++ [id]) ++ ids) as Happ by by rewrite <- app_assoc.
      assert (∀ r2, start_done (X ++ [id]) r0 p0 r2 → wp (start_hosts (X ++ [id]) ids) (start_post (X ++ id :: ids) r0 p0) r2) as Hgo.
      { intros r2 Hs2. rewrite Happ in *. apply IH; [done| |done|done]. intros i Hi. apply Hin. by right. }
      rewrite wp_bind. destruct hl_RouteHandler as [f|]; [|by apply Hgo].
      rewrite wp_bind, wp_gets. eapply wp_mono; [apply (register_effect id (X ++ [id]) _ _ r0 p0); [set_solver +|set_solver +|done|]|].
      * intros i path Hi. apply Hno. set_solver.
      * intros [u2|e2] r2; [apply Hgo|done].
    + eapply wp_mono; [apply (abort_effect X X _ r0 p0); [done|done|done|]|].
      * intros i path Hi. apply Hno. set_solver.
      * by intros [u|e'] s' [Hok Hu].
Qed.
(** A fold that reaches [Q] at [x], and keeps it, reaches it. *)
Lemma foldl_reaches {A B} (f : B → A → B) (Inv Q : B → Prop) l x b :
  (∀ b a, Inv b → Inv (f b a)) → (∀ b a, Q b → Q (f b a)) → (∀ b, Inv b → Q (f b x)) → x ∈ l → Inv b → Q (foldl f b l).
Proof.
  intros Hi Hq Hx. assert (∀ l b, Q b → Q (foldl f b l)) as Hkeep by (intros l'; induction l'; simpl; auto).
  induction l as [|a l IH] in b |- *; simpl; [by intros ?%elem_of_nil|]. intros [->|Hin]%elem_of_cons Hb; auto.
Qed.

(** The plugin [id] gets the events [typ]. *)
Definition bridged (id typ : string) (r : R) : Prop :=
  ∃ ch, (id, ch) ∈ rg_bridges r ∧ ch ∈ subs_of typ (rg_bus r) ∧ (typ, ch) ∈ rg_cancels r.

Definition bridge_one (id : string) (r : R) (typ : string) : R :=
  let '(ch, bus) := SubscribeWithCancelDone typ (rg_bus r) in
  rput_bus bus (rg_cancels r ++ [(typ, ch)]) (rg_bridges r ++ [(id, ch)]) r.

Definition bridge_plugin (r : R) (idm : string * Manifest) : R :=
  if is_enabled r idm.1 then foldl (bridge_one idm.1) r (ma_AllowedEvents idm.2) else r.

Lemma bridge_one_new id typ r : bridged id typ (bridge_one id r typ).
Proof.
  exists (next_chan (rg_bus r)). unfold bridge_one. simpl. rewrite subs_of_insert, decide_True by done. set_solver.
Qed.

Lemma bridge_one_keeps id typ r id' typ' : bridged id typ r → bridged id typ (bridge_one id' r typ').
Proof.
  intros (ch & H1 & H2 & H3). exists ch. unfold bridge_one. simpl. rewrite subs_of_insert.
  split; [set_solver|]. split; [|set_solver]. case_decide; [subst; set_solver|done].
Qed.

Lemma bridge_keeps id typ l r : bridged id typ r → bridged id typ (foldl bridge_plugin r l).
Proof.
  assert (∀ id' ts r, bridged id typ r → bridged id typ (foldl (bridge_one id') r ts)) as Hone.
  { intros id' ts. induction ts; simpl; auto using bridge_one_keeps. }
  induction l as [|idm l IH] in r |- *; simpl; [done|]. intros Hb. apply IH. unfold bridge_plugin.
  destruct (is_enabled _ _); auto.
Qed.

Lemma bridge_one_frame id (r : R) ts :
  let f r := (rg_enabled r, rg_hosts r, rg_env r, rg_proxy r, rg_started r, rg_manifests r) in
  f (foldl (bridge_one id) r ts) = f r.
Proof. simpl. induction ts as [|t ts IH] in r |- *; simpl; [done|]. by rewrite IH. Qed.

Lemma bridge_frame l (r : R) :
  let f r := (rg_enabled r, rg_hosts r, rg_env r, rg_proxy r, rg_started r, rg_manifests r) in
  f (foldl bridge_plugin r l) = f r.
Proof.
  simpl. induction l as [|idm l IH] in r |- *; simpl; [done|]. rewrite IH. unfold bridge_plugin.
  destruct (is_enabled _ _); [apply bridge_one_frame|done].
Qed.

Lemma bridge_effect (r : R) id m typ :
  rg_manifests r !! id = Some m → is_enabled r id = true → typ ∈ ma_AllowedEvents m →
  bridged id typ (snd (bridge r)).
Proof.
  intros Hm He Ht. change (snd (bridge r)) with (foldl bridge_plugin r (map_to_list (rg_manifests r))).
  apply (foldl_reaches bridge_plugin (λ r', rg_enabled r' = rg_enabled r) _ _ (id, m)).
  - intros b a <-. by injection (bridge_frame [a] b).
  - intros b a. apply (bridge_keeps id typ [a]).
  - intros b Hb. unfold bridge_plugin. simpl. unfold is_enabled in *. rewrite Hb, He.
    apply (foldl_reaches (bridge_one id) (λ _, True) _ _ typ); auto using bridge_one_keeps, bridge_one_new.
  - by apply elem_of_map_to_list.
  - done.
Qed.

Lemma NoDup_to_start (r : R) : NoDup (to_start r).
Proof. unfold to_start. rewrite isort_perm. apply NoDup_filter, NoDup_fst_map_to_list. Qed.

Lemma elem_of_to_start (r : R) id : id ∈ to_start r ↔ is_enabled r id = true ∧ id ∈ dom (rg_hosts r).
Proof.
  unfold to_start. rewrite isort_perm, list_elem_of_filter, elem_of_dom. f_equiv.
  rewrite list_elem_of_fmap. split.
  - intros ([i h] & -> & Hi%elem_of_map_to_list). eauto.
  - intros [h Hh]. exists (id, h). by rewrite elem_of_map_to_list.
Qed.

(** ** Properties *)

(** C26.  Starting the plugins is all or nothing.  If one plugin cannot be started or one of its
    routes cannot be registered, every plugin that was started is stopped again, no route is
    left behind, nothing is subscribed, and the start can be repeated.  Otherwise exactly the
    enabled plugins run, and each is subscribed to the events its manifest allows.  This is
    proved of any hosts that obey the laws of [HostLifecycleOk]. *)
Theorem StartAll_atomic (r : R) :
  hl_env (rg_env r) → (∀ id h, rg_hosts r !! id = Some h → hl_stopped h (rg_env r)) →
  no_routes (to_start r) (rg_proxy r) → rg_started r = false →
  let '(x, r') := StartAll r in
  dom (rg_hosts r') = dom (rg_hosts r) ∧
  match x with
  | Err _ =>
      (∀ id h, rg_hosts r' !! id = Some h → hl_stopped h (rg_env r')) ∧
      rg_proxy r' = rg_proxy r ∧ rg_bus r' = rg_bus r ∧ rg_bridges r' = rg_bridges r ∧ rg_started r' = false
  | Ok _ =>
      rg_started r' = true ∧
      (∀ id h, rg_hosts r' !! id = Some h →
        if is_enabled r id then hl_running h (rg_env r') else hl_stopped h (rg_env r')) ∧
      (∀ id m typ, rg_manifests r !! id = Some m → is_enabled r id = true → typ ∈ ma_AllowedEvents m →
        bridged id typ r')
  end.
Proof.
  intros He Hst Hno Hs. unfold StartAll, mbind, M_bind, gets. rewrite Hs. simpl. set (r1 := rput_started true r).
  assert (start_done [] r1 (rg_proxy r) r1) as Hs1.
  { split; [split; [done|]; intros id h Hid; split; [intros _; by apply (Hst id h)|by intros ?%elem_of_nil]|].
    split; [done|]. split; [done|]. split; [|done]. split; auto. }
  pose proof (start_hosts_effect [] (to_start r) r1 (rg_proxy r) r1 (NoDup_to_start r)
    (λ id Hid, proj2 (proj1 (elem_of_to_start r id) Hid)) Hs1 Hno) as W. unfold wp in W.
  destruct (start_hosts [] (to_start r) r1) as [[u|e] r2]; simpl in W.
  - destruct W as ([He2 Hh2] & Hf & Hdom & _ & Hst2). pose proof (λ id m typ, bridge_effect r2 id m typ) as Hb.
    pose proof (bridge_frame (map_to_list (rg_manifests r2)) r2) as Hfr.
    change (foldl bridge_plugin r2 (map_to_list (rg_manifests r2))) with (snd (bridge r2)) in Hfr.
    destruct (bridge r2) as [x r3] eqn:Eb. assert (x = Ok tt) as -> by by injection Eb. simpl in Hfr, Hb |- *.
    injection Hfr as F1 F2 F3 F4 F5 F6. injection Hf as _ _ G1 G2 _ _ _. rewrite F2, F3, F5, Hst2. split; [done|]. split; [done|].
    split; [|intros id m typ Hm Hen; apply Hb; [by rewrite G1|unfold is_enabled in *; by rewrite G2]].
    intros id h Hid. destruct (Hh2 id h Hid) as [H1 H2]. destruct (is_enabled r id) eqn:Ee.
    + apply H2, elem_of_to_start. split; [done|]. apply elem_of_dom_2 in Hid. by rewrite Hdom in Hid.
    + apply H1. rewrite elem_of_to_start, Ee. by intros [? _].
  - destruct W as ([He2 Hh2] & Hf & Hdom & Hp & Hst2). injection Hf as _ F2 _ _ _ _ F7. split; [done|].
    split; [|done]. intros id h Hid. destruct (Hh2 id h Hid) as [H1 _]. apply H1. by intros ?%elem_of_nil.
Qed.
End StartAll.

(** *** The switch that disables a plugin *)

Section Breaker.
Context {H E Hd : Type} `{!HostLifecycle H E Hd}.

Local Abbreviation R := (Registry H E Hd).

(** The outcome that a call counts. *)
Definition counted (d : Dispatch) : option (string * bool) :=
  match d with Counting id x => Some (id, is_ok x) | _ => None end.

(** The rest of the daemon: hosts start, stop and fail, but none is taken away; the switches, their
    counters and the table of the plugins are left alone. *)
Definition other_work (r r' : R) : Prop :=
  dom (rg_hosts r') = dom (rg_hosts r) ∧ rg_enabled r' = rg_enabled r ∧ rg_failures r' = rg_failures r ∧
  match rg_db r, rg_db r' with
  | Some d, Some d' => db_faults d' = db_faults d ∧ db_schema d' = db_schema d ∧ db_plugins d' = db_plugins d
  | None, None => True
  | _, _ => False
  end.

(** Calls begin, make their steps and return as they like; the label is the outcome that is
    counted. *)
Inductive registry_step : list Dispatch * R → option (string * bool) → list Dispatch * R → Prop :=
| step_begin l r id event : registry_step (l, r) None (Dispatching id event :: l, r)
| step_call l1 l2 d d' r r' :
    dispatch_step d r = (Ok d', r') → registry_step (l1 ++ d :: l2, r) (counted d) (l1 ++ d' :: l2, r')
| step_return l1 l2 x r : registry_step (l1 ++ Dispatched x :: l2, r) None (l1 ++ l2, r)
| step_other l r r' : other_work r r' → registry_step (l, r) None (l, r').

(** The outcomes that a run counts, in their order. *)
Inductive registry_run (st : list Dispatch * R) : list (string * bool) → list Dispatch * R → Prop :=
| run_none : registry_run st [] st
| run_step log st1 c st2 :
    registry_run st log st1 → registry_step st1 c st2 → registry_run st (log ++ option_list c) st2.

Definition outcomes_of (id : string) (log : list (string * bool)) : list bool :=
  (filter (λ c, c.1 = id) log).*2.

(** The reference: three failures in a row. *)
Fixpoint three_failures (l : list bool) : bool :=
  match l with
  | [] => false
  | b :: rest => match l with false :: false :: false :: _ => true | _ => three_failures rest end
  end.

(** The failures at the end. *)
Definition streak (l : list bool) : Z := foldl (λ n (ok : bool), if ok then 0 else n + 1) 0 l.

(** Rows of plugin [id]. *)
Definition plugin_rows (id : string) (d : DB) : list Store.Plugin := filter (λ p, pl_ID p = id) (db_plugins d).

Definition db_works (d : DB) : Prop := db_faults d = [] ∧ has_table d "plugins" = true.

(** The rows of [id] in [d], disabled when [off]. *)
Definition rows_after (id : string) (off : bool) (o o' : option DB) : Prop :=
  match o, o' with
  | Some d, Some d' => db_works d' ∧
      plugin_rows id d' = if off then with_enabled false <$> plugin_rows id d else plugin_rows id d
  | None, None => True
  | _, _ => False
  end.

(** ** Lemmas *)

Lemma streak_snoc l b : streak (l ++ [b]) = if b then 0 else streak l + 1.
Proof. unfold streak. by rewrite foldl_app. Qed.

Lemma streak_nonneg l : 0 ≤ streak l.
Proof. induction l as [|b l IH] using rev_ind; [done|]. rewrite streak_snoc. destruct b; lia. Qed.

Fixpoint reach (n : Z) (l : list bool) : bool :=
  (3 <=? n) || match l with [] => false | b :: l => reach (if b then 0 else n + 1) l end.

Lemma three_failures_reach l :
  three_failures l = reach 0 l ∧ three_failures (false :: l) = reach 1 l ∧ three_failures (false :: false :: l) = reach 2 l.
Proof.
  induction l as [|b l (IH0 & IH1 & IH2)]; [done|]. destruct b.
  - simpl in *. by rewrite IH0.
  - split; [exact IH1|]. split; [exact IH2|]. simpl. by destruct l.
Qed.

Lemma reach_snoc l b n :
  reach n (l ++ [b]) = reach n l || (3 <=? foldl (λ n (ok : bool), if ok then 0 else n + 1) n (l ++ [b])).
Proof.
  revert n. induction l as [|c l IH]; intros n; simpl; [by destruct b, (3 <=? n); rewrite ?orb_false_r|].
  by rewrite IH, orb_assoc.
Qed.

Lemma three_failures_snoc l b : three_failures (l ++ [b]) = three_failures l || (3 <=? streak (l ++ [b])).
Proof. rewrite !(proj1 (three_failures_reach _)). apply reach_snoc. Qed.

Lemma SetPluginEnabled_rows id id' b d :
  db_works d →
  db_works (snd (SetPluginEnabled id' b d)) ∧
  plugin_rows id (snd (SetPluginEnabled id' b d)) =
    if bool_decide (id' = id) then with_enabled b <$> plugin_rows id d else plugin_rows id d.
Proof.
  intros [Hf Ht]. unfold SetPluginEnabled, exec. rewrite Hf. simpl.
  assert (has_table (set_faults [] d) "plugins" = true) as -> by done. simpl. split; [done|].
  unfold plugin_rows, update_where. simpl db_plugins.
  induction (db_plugins d) as [|p ps IH]; [by case_bool_decide|].
  rewrite fmap_cons, !filter_cons, IH. destruct (String.eqb_spec (pl_ID p) id') as [He|He]; simpl; repeat case_decide;
    case_bool_decide; first [done|congruence].
Qed.

(** What holds of plugin [id] when the outcomes [l] have been counted. *)
Record breaker_at (id : string) (o : option DB) (l : list bool) (pool : list Dispatch) (r : R) : Prop := mk_breaker {
  ba_failures : default 0 (rg_failures r !! id) = streak l;
  ba_enabled : is_enabled r id = negb (three_failures l);
  ba_pending : ∀ e, Disabling id e ∈ pool → three_failures l = true;
  ba_rows : ∃ off, rows_after id off o (rg_db r) ∧ (off = true → three_failures l = true) ∧
    (three_failures l = true → off = true ∨ ∃ e, Disabling id e ∈ pool) }.

Lemma breaker_pool id o l pool pool' r :
  (∀ e, Disabling id e ∈ pool' ↔ Disabling id e ∈ pool) → breaker_at id o l pool r → breaker_at id o l pool' r.
Proof.
  intros Hp [Hf He Hpend (off & H1 & H2 & H3)]. constructor; [done|done|by intros e ?%Hp; apply (Hpend e)|].
  exists off. split; [done|]. split; [done|]. intros Ht. destruct (H3 Ht) as [?|[e ?%Hp]]; [by left|right; by exists e].
Qed.

(** Work that leaves the switches alone. *)
Lemma breaker_other id o l pool r r' : other_work r r' → breaker_at id o l pool r → breaker_at id o l pool r'.
Proof.
  intros (_ & He' & Hf' & Hdb) [Hf He Hpend (off & H1 & H2 & H3)].
  constructor; rewrite ?Hf'; [done| |done|]; [unfold is_enabled in *; by rewrite He'|]. exists off. split; [|done].
  unfold rows_after, db_works, plugin_rows, has_table in *. destruct o, (rg_db r), (rg_db r'); try done.
  destruct Hdb as (D1 & D2 & D3). by rewrite D1, D2, D3.
Qed.

(** Counting an outcome, of [id] or of another plugin. *)
Lemma breaker_count id o l pool pool' r b (e : error) :
  breaker_at id o l pool r → let l' := l ++ [b] in
  (∀ e', Disabling id e' ∈ pool' ↔ Disabling id e' ∈ pool ∨ (e' = e ∧ b = false ∧ (3 <=? streak l') = true)) →
  breaker_at id o l' pool'
    (rput_enabled (if b then rg_enabled r else if 3 <=? streak l' then <[id := false]> (rg_enabled r) else rg_enabled r)
       (<[id := streak l']> (rg_failures r)) r).
Proof.
  intros [Hf He Hpend (off & H1 & H2 & H3)] l' Hp.
  assert (three_failures l' = three_failures l || (3 <=? streak l')) as Ht by apply three_failures_snoc.
  assert (b = true → (3 <=? streak l') = false) as Hb by (unfold l'; rewrite streak_snoc; by intros ->).
  constructor; simpl.
  - by rewrite lookup_insert_eq.
  - unfold is_enabled in *. simpl. rewrite Ht. destruct b; [by rewrite Hb, orb_false_r|].
    destruct (3 <=? streak l'); [by rewrite lookup_insert_eq, orb_true_r|by rewrite orb_false_r].
  - intros e' [Hin|(_ & _ & Hge)]%Hp; rewrite Ht; [by rewrite (Hpend _ Hin)|by rewrite Hge, orb_true_r].
  - exists off. split; [done|]. split; [intros Ho; by rewrite Ht, (H2 Ho)|]. rewrite Ht. intros [Hl|Hge]%orb_true_iff.
    + destruct (H3 Hl) as [?|[e' He']]; [by left|right]. exists e'. apply Hp. by left.
    + right. exists e. apply Hp. right. split; [done|]. split; [|done]. destruct b; [by rewrite Hb in Hge|done].
Qed.

Lemma breaker_frame id id' o l pool r en n :
  id' ≠ id → breaker_at id o l pool r →
  breaker_at id o l pool (rput_enabled (if en : bool then <[id' := false]> (rg_enabled r) else rg_enabled r)
    (<[id' := n]> (rg_failures r)) r).
Proof.
  intros Hne [Hf He Hpend Hr]. constructor; simpl; [by rewrite lookup_insert_ne| |done|done].
  unfold is_enabled in *. simpl. destruct en; [by rewrite lookup_insert_ne|done].
Qed.

(** The statement that disables a row. *)
Lemma breaker_disable id id' o l (pool pool' : list Dispatch) r :
  (∀ e, Disabling id e ∈ pool' → Disabling id e ∈ pool) →
  (id' ≠ id → ∀ e, Disabling id e ∈ pool → Disabling id e ∈ pool') →
  (id' = id → three_failures l = true) →
  breaker_at id o l pool r → breaker_at id o l pool' (snd (set_enabled_db id' false r)).
Proof.
  intros Hsub Hkeep Hid [Hf He Hpend (off & H1 & H2 & H3)].
  assert (∃ off', rows_after id off' o (rg_db (snd (set_enabled_db id' false r))) ∧
    (off' = true → three_failures l = true) ∧ (id' = id → off' = true) ∧ (id' ≠ id → off' = off)) as (off' & R1 & R2 & R3 & R4).
  { unfold set_enabled_db. destruct (rg_db r) as [d|] eqn:Ed; simpl.
    - destruct o as [d0|]; [|done]. destruct H1 as [Hw Hrows].
      destruct (SetPluginEnabled_rows id id' false d Hw) as [Hw' Hrows'].
      destruct (decide (id' = id)) as [->|Hne].
      + exists true. split; [split; [done|]|split; [by intros; apply Hid|done]]. rewrite Hrows', bool_decide_true, Hrows by done.
        destruct off; [|done]. rewrite <- list_fmap_compose. by apply list_fmap_ext.
      + exists off. split; [split; [done|]|split; [done|split; [by intros ?|done]]]. by rewrite Hrows', bool_decide_false.
    - rewrite Ed. exists (if bool_decide (id' = id) then true else off).
      destruct o; [done|]. split; [done|]. case_bool_decide; split; auto; split; auto; by intros. }
  constructor.
  - unfold set_enabled_db. by destruct (rg_db r).
  - unfold set_enabled_db, is_enabled in *. by destruct (rg_db r).
  - intros e ?%Hsub. by apply (Hpend e).
  - exists off'. split; [done|]. split; [done|]. intros Ht. destruct (decide (id' = id)) as [Heq|Hne]; [left; auto|].
    rewrite R4 by done. destruct (H3 Ht) as [?|[e ?]]; [by left|right; exists e; auto].
Qed.

(** One step of the registry. *)
Lemma breaker_step id o l st c st' :
  registry_step st c st' → breaker_at id o l (fst st) (snd st) →
  breaker_at id o (l ++ outcomes_of id (option_list c)) (fst st') (snd st').
Proof.
  intros Hst Hb. destruct Hst as [pool r id' ev|l1 l2 d d' r r' Hd'|l1 l2 x r|pool r r' Ho]; simpl in *.
  - rewrite app_nil_r. eapply breaker_pool; [|exact Hb]. intros e. set_solver.
  - destruct d as [id' ev|id' ev|id' [[]|e]|id' e|x]; simpl in *.
    + injection Hd' as <- <-. rewrite app_nil_r. eapply breaker_pool; [|exact Hb]. intros e.
      repeat case_match; set_solver.
    + rewrite app_nil_r. apply bind_inv in Hd' as (x & r1 & Hx & [= <- <-]). unfold try in Hx.
      destruct (on_host_id _ _ _ r) as [x' r2] eqn:Eh. injection Hx as <- <-.
      eapply breaker_pool; [|eapply breaker_other; [|exact Hb]]; [intros e; set_solver|].
      unfold on_host_id, run_host in Eh. destruct (rg_hosts r !! id') as [h|] eqn:Hh; [|injection Eh as _ <-].
      * destruct (hl_HandleEvent ev _) as [y [h' e']]. injection Eh as _ <-. split; [|split; [done|split; [done|]]]; simpl.
        -- rewrite dom_insert_lookup_L; [done|by exists h].
        -- by destruct (rg_db r).
      * split; [done|split; [done|split; [done|]]]. by destruct (rg_db r).
    + injection Hd' as <- <-. unfold outcomes_of. rewrite filter_cons. simpl. case_decide as Hid; simpl.
      * subst id'. replace 0 with (streak (l ++ [true])) by (by rewrite streak_snoc).
        apply (breaker_count id o l (l1 ++ Counting id (Ok tt) :: l2) _ r true (Errorf "" []) Hb). intros e. set_solver.
      * rewrite app_nil_r. eapply breaker_pool; [|apply (breaker_frame id id' o l _ r false 0); [done|exact Hb]]. intros e. set_solver.
    + unfold count_failure, mbind, M_bind in Hd'. simpl in Hd'. injection Hd' as <- <-.
      unfold outcomes_of. rewrite filter_cons. simpl. case_decide as Hid; simpl.
      * subst id'. rewrite (ba_failures _ _ _ _ _ Hb). replace (streak l + 1) with (streak (l ++ [false])) by (by rewrite streak_snoc).
        apply (breaker_count id o l (l1 ++ Counting id (Err e) :: l2) _ r false e Hb). intros e'.
        destruct (3 <=? _); set_solver.
      * rewrite app_nil_r. eapply breaker_pool; [|apply (breaker_frame id id' o l _ r); [done|exact Hb]]. intros e'.
        destruct (3 <=? _); set_solver.
    + apply bind_inv in Hd' as ([] & r1 & Hx & [= <- <-]). rewrite app_nil_r.
      assert (r1 = snd (set_enabled_db id' false r)) as -> by (by rewrite Hx).
      eapply breaker_disable; [..|exact Hb]; [set_solver|set_solver|].
      intros ->. apply (ba_pending _ _ _ _ _ Hb e). set_solver.
    + injection Hd' as <- <-. by rewrite app_nil_r.
  - rewrite app_nil_r. eapply breaker_pool; [|exact Hb]. intros e. set_solver.
  - rewrite app_nil_r. by eapply breaker_other.
Qed.

(** ** Properties *)

(** C27. The circuit breaker of a plugin is the reference definition, however the calls of
    [DispatchEvent] overlap, for it and for other plugins, and whatever the rest of the daemon
    does meanwhile.  A plugin is disabled exactly when among the outcomes that were counted for
    it, in the order in which they were counted, there are three failures in a row; a refusal
    of the host counts as a failure, and a success afterwards does not enable it again.  A
    call that begins then returns without sending anything; one that had passed its check
    may still be sent.  The row of the store is disabled too once the calls that do it are
    through, and untouched before. *)
Theorem breaker_spec (id : string) (r r' : R) log pool :
  is_enabled r id = true → default 0 (rg_failures r !! id) = 0 →
  (∀ d, rg_db r = Some d → db_works d) →
  registry_run ([], r) log (pool, r') →
  let off := three_failures (outcomes_of id log) in
  is_enabled r' id = negb off ∧
  (off = true → ∀ event, dispatch_step (Dispatching id event) r' = (Ok (Dispatched (Ok tt)), r')) ∧
  ((∀ e, Disabling id e ∉ pool) → rows_after id off (rg_db r) (rg_db r')) ∧
  (off = false → rows_after id false (rg_db r) (rg_db r')).
Proof.
  intros He Hf Hdb Hrun off.
  assert (∀ log st, registry_run ([], r) log st → breaker_at id (rg_db r) (outcomes_of id log) (fst st) (snd st)) as Hinv.
  { clear log off Hrun. intros log' st Hrun. induction Hrun as [|log' st1 c st2 _ IH Hst].
    - constructor; [done|exact He|by intros e ?%elem_of_nil|]. exists false.
      split; [|done]. simpl. destruct (rg_db r) as [d|]; simpl; [split; [by apply Hdb|done]|done].
    - unfold outcomes_of. rewrite filter_app, fmap_app. exact (breaker_step id _ _ _ _ _ Hst IH). }
  destruct (Hinv _ _ Hrun) as [_ Hen Hpend (off' & R1 & R2 & R3)]. simpl in *.
  split; [done|]. split; [|split].
  - intros Ho event. fold off in Hen. rewrite Ho in Hen. simpl. unfold mbind, M_bind, gets. simpl.
    destruct (rg_hosts r' !! id); [|done]. by rewrite Hen.
  - intros Hno. fold off in R2, R3. destruct off; [|destruct off'; [by specialize (R2 eq_refl)|done]].
    destruct (R3 eq_refl) as [->|[e He']]; [done|by apply Hno in He'].
  - intros Ho. fold off in R2. rewrite Ho in R2. destruct off'; [by specialize (R2 eq_refl)|done].
Qed.
End Breaker.

(** ** Witnesses *)

#[local] Existing Instance echo_service.
#[local] Instance echo_lifecycle : HostLifecycle (Host unit) (HostEnv unit) unit :=
  concreteHostAdapter (λ _, zeros) 3.

Definition bad_manifest : Manifest :=
  mkManifest "zbad" "Bad" "1" "/bin/echo" true "" [] [] (Nat.iter 64 (String.append "1") "").
Definition bad_host : Host unit :=
  mkHost bad_manifest (ho_options echo_host) "" None false None (mkCapability [] []) (mkHostStatus false false None) false.

Definition registry_of (hosts : list (string * (Host unit * Manifest))) : Registry (Host unit) (HostEnv unit) unit :=
  mkRegistry (Some fresh_db) NewEventBus (list_to_map ((λ x, (x.1, x.2.1)) <$> hosts))
    (list_to_map ((λ x, (x.1, x.2.2)) <$> hosts)) ∅ ∅ [] [] NewProxy false (echo_env []).

Local Abbreviation one := (registry_of [("echo", (echo_host, echo_manifest))]).
Local Abbreviation two := (registry_of [("echo", (echo_host, echo_manifest)); ("zbad", (bad_host, bad_manifest))]).

(** The second plugin has the wrong checksum: the first is stopped again. *)
Lemma StartAll_atomic_witness :
  fst (StartAll two) = Err (Errorw "start plugin %q" ["zbad"] (Errorf "plugin binary checksum mismatch" [])) ∧
  (let r' := snd (StartAll two) in rg_started r' = false ∧
    ∀ id h, rg_hosts r' !! id = Some h → idle (h, rg_env r')).
Proof.
  split; [vm_compute; reflexivity|]. cbv zeta.
  pose proof (StartAll_atomic (HostLifecycleOk0:=concreteHostAdapterOk (λ _, zeros) 3) two) as T.
  assert (is_ok (fst (StartAll two)) = false) as Hok by (vm_compute; reflexivity).
  destruct (StartAll two) as [[u|e] r']; [discriminate Hok|].
  destruct T as (_ & H1 & _ & _ & _ & H2).
  - intros pid Hpid. simpl in Hpid. apply elem_of_singleton in Hpid. simpl. lia.
  - intros id h Hid. assert (h = echo_host ∨ h = bad_host) as [->| ->]; [|repeat split; discriminate..].
    apply elem_of_list_to_map_2 in Hid. simpl in Hid.
    apply elem_of_cons in Hid as [[= _ ->]|Hid]; [by left|]. apply elem_of_cons in Hid as [[= _ ->]|Hid]; [by right|].
    by apply elem_of_nil in Hid.
  - by intros id path _ _.
  - reflexivity.
  - split; [exact H2|exact H1].
Defined.

(** A schedule: calls that begin, and turns of those in progress. *)
Section Play.
Context {H E Hd : Type} `{!HostLifecycle H E Hd}.

Definition play (acc : list (string * bool) * (list Dispatch * Registry H E Hd)) (a : (string * PluginEvent) + nat) :
    list (string * bool) * (list Dispatch * Registry H E Hd) :=
  let '(log, (l, r)) := acc in
  match a with
  | inl (id, ev) => (log ++ [], (Dispatching id ev :: l, r))
  | inr i =>
      match l !! i with
      | Some d => match dispatch_step d r with
                  | (Ok d', r') => (log ++ option_list (counted d), (<[i := d']> l, r'))
                  | (Err _, _) => acc
                  end
      | None => acc
      end
  end.

Lemma play_runs st turns acc :
  registry_run st (fst acc) (snd acc) → let acc' := foldl play acc turns in registry_run st (fst acc') (snd acc').
Proof.
  revert acc. induction turns as [|a turns IH]; intros [log [l r]] Hrun; [done|]. apply IH. destruct a as [[id ev]|i]; simpl.
  - apply (run_step st log (l, r) None); [done|constructor].
  - destruct (l !! i) as [d|] eqn:Ei; [|done]. destruct (dispatch_step d r) as [[d'|e] r'] eqn:Ed; [|done]. simpl.
    eapply run_step; [done|]. rewrite insert_take_drop by (by eapply lookup_lt_Some).
    rewrite <- (take_drop_middle l i d Ei) at 1. by constructor.
Qed.
End Play.

(** Three calls at once, which all have passed their check before one is counted. *)
Definition overlapping : list ((string * PluginEvent) + nat) :=
  let bad := inl ("echo", mkPluginEvent "server.started" "bad" ∅) in
  [bad; bad; bad] ++ (inr <$> [0; 1; 2; 0; 1; 2; 0; 1; 2; 0; 1; 2]%nat).

Lemma breaker_spec_witness :
  let '(log, (pool, r')) := foldl play ([], ([], snd (StartAll one))) overlapping in
  outcomes_of "echo" log = [false; false; false] ∧ is_enabled r' "echo" = false.
Proof.
  pose proof (play_runs ([], snd (StartAll one)) overlapping ([], ([], snd (StartAll one))) (run_none _)) as Hrun.
  cbv zeta in Hrun. pose proof (λ log pool r', breaker_spec "echo" (snd (StartAll one)) r' log pool) as T.
  assert (outcomes_of "echo" (fst (foldl play ([], ([], snd (StartAll one))) overlapping)) = [false; false; false]) as Hl
    by (vm_compute; reflexivity).
  destruct (foldl play _ overlapping) as [log [pool r']]. cbn [fst snd] in Hrun, Hl. split; [exact Hl|].
  destruct (T log pool r') as [He _]; [..|exact Hrun|rewrite He, Hl; reflexivity].
  - vm_compute. reflexivity.
  - vm_compute. reflexivity.
  - intros d Hdb. assert (rg_db (snd (StartAll one)) = Some fresh_db) as Hr by (vm_compute; reflexivity).
    rewrite Hr in Hdb. injection Hdb as <-. split; reflexivity.
Defined.

(** *** What the registry does not do *)

(** A healthy plugin whose manifest allows an event that the plugin did not declare is
    disabled by three such events: the bridge subscribes it to the manifest's events, and
    the host's refusal counts as a failure. *)
Example undeclared_event_disables :
  let r := snd (StartAll one) in
  let bus := Nat.iter 3 (Publish (mkEvent "server.stopped" "s")) (rg_bus r) in
  let r := rput_bus bus (rg_cancels r) (rg_bridges r) r in
  let r' := Nat.iter 3 (λ r, snd (bridge_turn "echo" 1 r)) r in
  (is_enabled r "echo", is_enabled r' "echo", ho_status <$> rg_hosts r' !! "echo") =
  (true, false, Some (mkHostStatus true true None)).
Proof. vm_compute. reflexivity. Qed.

(** [LoadEnabled] of a running registry replaces the host of a running plugin: its process
    lives on, and no host knows it. *)
Example LoadEnabled_leaks_host :
  let r := snd (StartAll one) in
  let row := Store.mkPlugin "echo" "Echo" "1" "/bin/echo" "" zeros true "" "" 0 in
  let new_host m := NewHost m (ho_options echo_host) in
  let r' := snd (LoadEnabled (λ _, Ok []) new_host (rput_db (Some (set_plugins [row] fresh_db)) r)) in
  (elements (he_alive (rg_env r')), ho_cmd <$> rg_hosts r' !! "echo") = ([7; 9], Some None).
Proof. vm_compute. reflexivity. Qed.

(** A plugin that dies between the handshake and the end of [Start] counts as healthy. *)
Example start_race :
  let '(r1, s1) := start_process (λ _, zeros) (echo_host, echo_env []) in
  let s2 := snd (start_connect 3 9 s1) in
  let s3 := snd (waitProcess 9 (Errorf "plugin exited" []) s2) in
  let '(h, e) := snd (mark_healthy s3) in
  (ho_status h, elements (he_alive e)) = (mkHostStatus true false (Some (Errorf "plugin exited" [])), [7]).
Proof. vm_compute. reflexivity. Qed.
