(* ===== verification/Security.v ===== *)
(** * Pairing tokens, keys, TLS and sandbox profiles ([internal/security])

    The cryptography of [crypto/ed25519], [crypto/x509], [encoding/pem] and [crypto/tls]
    is an interface; random bytes are an argument. *)

From S2P Require Import Prelude GoLib GoPath GoOS GoEncoding.

(** ** Definitions *)

Definition ErrNotSupported : error := ESentinel security_ErrNotSupported.
Definition ErrSandboxUnavailable : error := ESentinel security_ErrSandboxUnavailable.

(** *** [token.go] *)

(** [random] is what [rand.Read] puts into the 32 bytes. *)
Definition GenerateToken (random : res string) : res string :=
  match random with
  | Err e => Err e
  | Ok b => Ok (hex_EncodeToString b)
  end.

Definition ValidateFormat (token : string) : res unit :=
  if token =s "" then Err (Errorf "token kosong" [])
  else if negb (String.length token =? 64)%nat then Err (Errorf "panjang token harus 64 karakter hex" [])
  else match hex_DecodeString token with
       | Err _ => Err (Errorf "token bukan hex valid" [])
       | Ok _ => Ok tt
       end.

(** *** [mtls.go] *)

Record CertTemplate := mkCertTemplate {
  ct_CommonName : string; ct_NotBefore : Z; ct_NotAfter : Z; ct_IsCA : bool }.

Class Crypto := {
  ed25519_GenerateKey : res string;
  x509_MarshalPKCS8PrivateKey : string → res string;
  x509_CreateCertificateRequest : string → string → res string;
  x509_CreateCertificate : CertTemplate → string → res string;
  pem_EncodeToMemory : string → string → string;
  tls_X509KeyPair : string → string → res string;
  x509_AppendCertsFromPEM : string → option string }.

(** [tls.Config]: [ClientCAs] and [ClientAuth] are those of a server. *)
Record TLSConfig := mkTLSConfig {
  tc_Certificate : string; tc_RootCAs : option string; tc_ClientCAs : option string;
  tc_RequireClientCert : bool; tc_MinVersion : Z }.

Definition tls_VersionTLS12 : Z := 771.

Section MTLS.
Context `{!Crypto}.

Definition GenerateKey : res string :=
  match ed25519_GenerateKey with
  | Err e => Err (Errorw "generate key" [] e)
  | Ok priv => Ok priv
  end.

Definition MarshalKeyPEM (priv : string) : res string :=
  match x509_MarshalPKCS8PrivateKey priv with
  | Err e => Err (Errorw "marshal key" [] e)
  | Ok der => Ok (pem_EncodeToMemory "PRIVATE KEY" der)
  end.

Definition GenerateCSR (priv commonName : string) : res string :=
  match x509_CreateCertificateRequest commonName priv with
  | Err e => Err (Errorw "buat CSR" [] e)
  | Ok der => Ok (pem_EncodeToMemory "CERTIFICATE REQUEST" der)
  end.

(** [now] is [time.Now()], in nanoseconds. *)
Definition GenerateCA (now : Z) (commonName : string) : res (string * string) :=
  match GenerateKey with
  | Err e => Err e
  | Ok priv =>
      let hour := 3600 * time_Second in
      match x509_CreateCertificate (mkCertTemplate commonName (now - hour) (now + 10 * 365 * 24 * hour) true) priv with
      | Err e => Err (Errorw "buat CA" [] e)
      | Ok der => Ok (pem_EncodeToMemory "CERTIFICATE" der, priv)
      end
  end.

Definition SaveKey (path priv : string) : M OS unit :=
  pem ← lift_res (MarshalKeyPEM priv);
  wrap "tulis key" [] (WriteFile path pem 384).

Definition SaveCert (path pem : string) : M OS unit :=
  wrap "tulis cert" [] (WriteFile path pem 384).

(** [tls.LoadX509KeyPair] *)
Definition LoadX509KeyPair (certPath keyPath : string) : M OS string :=
  cert ← ReadFile certPath;
  key ← ReadFile keyPath;
  lift_res (tls_X509KeyPair cert key).

(** The pool of the certificates of a file. *)
Definition load_pool (caPath : string) : M OS string :=
  pem ← wrap "baca CA" [] (ReadFile caPath);
  match x509_AppendCertsFromPEM pem with
  | None => fail (Errorf "parse CA gagal" [])
  | Some roots => mret roots
  end.

Definition LoadClientTLS (certPath keyPath caPath : string) : M OS TLSConfig :=
  cert ← wrap "load keypair" [] (LoadX509KeyPair certPath keyPath);
  roots ← load_pool caPath;
  mret (mkTLSConfig cert (Some roots) None false tls_VersionTLS12).

Definition LoadServerTLS (certPath keyPath caPath : string) : M OS TLSConfig :=
  cert ← wrap "load keypair" [] (LoadX509KeyPair certPath keyPath);
  pool ← load_pool caPath;
  mret (mkTLSConfig cert None (Some pool) true tls_VersionTLS12).
End MTLS.

(** *** [lsm.go] *)

Record LSMStatus := mkLSMStatus { lsm_AppArmor : bool; lsm_SELinux : bool; lsm_Mode : string }.

Definition DetectLSMFromFiles {S} (read : string → M S string) : M S LSMStatus :=
  a ← try (read "/sys/kernel/security/apparmor");
  s ← try (read "/sys/fs/selinux/enforce");
  match s with
  | Err _ => mret (mkLSMStatus (is_ok a) false "")
  | Ok _ =>
      m ← try (read "/sys/fs/selinux/enforce");
      let mode := match m with Ok text => text | Err _ => "" end in
      mret (mkLSMStatus (is_ok a) true (if TrimSpace mode =s "1" then "enforcing" else "permissive"))
  end.

Definition DetectLSM : M OS LSMStatus := DetectLSMFromFiles ReadFile.

Definition ValidateLSMProfile (status : LSMStatus) (profile : string) : res unit :=
  if profile =s "apparmor" then (if negb (lsm_AppArmor status) then Err ErrNotSupported else Ok tt)
  else if profile =s "selinux" then (if negb (lsm_SELinux status) then Err ErrNotSupported else Ok tt)
  else Err (Errorf "unknown LSM profile" []).

(** *** [sandbox.go] *)

Record SandboxOptions := mkSandboxOptions {
  so_SeccompProfile : string; so_AppArmorProfile : string; so_SELinuxLabel : string;
  so_UserNamespace : bool; so_Permissive : bool }.

(** [filepath.Abs], without its error *)
Definition Abs (p : string) : M OS string :=
  gets (λ o, if IsAbs p then Clean p else Join [render true (os_cwd o); p]).

Fixpoint first_profile (paths : list string) : M OS SandboxOptions :=
  match paths with
  | [] => fail (Errorw "%w: deploy/docker/seccomp-default.json" [] ErrSandboxUnavailable)
  | p :: paths =>
      r ← try (Stat p);
      match r with
      | Err _ => first_profile paths
      | Ok _ => abs ← Abs p; mret (mkSandboxOptions abs "" "" false false)
      end
  end.

Definition LoadDefaultSandboxOptionsForPlatform (platform : string) : M OS SandboxOptions :=
  if negb (platform =s "linux") then fail ErrNotSupported
  else first_profile ["deploy/docker/seccomp-default.json"; "../../deploy/docker/seccomp-default.json";
                      "../../../deploy/docker/seccomp-default.json"].

Definition runtimePlatform : string := "linux".
Definition LoadDefaultSandboxOptions : M OS SandboxOptions := LoadDefaultSandboxOptionsForPlatform runtimePlatform.

(** *** [userns.go] *)

Record UserNamespaceStatus := mkUserNS { un_Supported : bool; un_Enabled : bool; un_Mode : string }.

Definition DetectUserNamespace (supported : bool) : UserNamespaceStatus := mkUserNS supported false "host".

(** The status is returned with the error too. *)
Definition ApplyUserNamespace (status : UserNamespaceStatus) (requested permissive : bool)
    : res unit * UserNamespaceStatus :=
  if negb requested then (Ok tt, status)
  else if negb (un_Supported status) then
    if permissive then (Ok tt, mkUserNS (un_Supported status) false "host")
    else (Err (Errorw "user namespace" [] ErrNotSupported), status)
  else (Ok tt, mkUserNS (un_Supported status) true "private").

(** ** Lemmas *)

(** A generated token passes the check that pairing makes. *)
Lemma GenerateToken_valid b :
  String.length b = 32%nat → ∃ t, GenerateToken (Ok b) = Ok t ∧ ValidateFormat t = Ok tt.
Proof.
  intros Hb. exists (hex_EncodeToString b). split; [done|]. unfold ValidateFormat.
  rewrite length_hex, Hb, hex_roundtrip. simpl. destruct (hex_EncodeToString b) eqn:E; [|done].
  apply (f_equal String.length) in E. rewrite length_hex, Hb in E. done.
Qed.

(** A system that shows AppArmor as a directory, as Linux does, counts as one without it. *)
Lemma DetectLSM_misses_apparmor o s o' :
  os_faults o = [] → resolve o true "/sys/kernel/security/apparmor" = Ok ["sys"; "kernel"; "security"; "apparmor"] →
  os_tree o !! ["sys"; "kernel"; "security"; "apparmor"] = Some NDir →
  DetectLSM o = (Ok s, o') → lsm_AppArmor s = false.
Proof.
  intros Hf Hr Hd. unfold DetectLSM, DetectLSMFromFiles, mbind, M_bind, try.
  assert (ReadFile "/sys/kernel/security/apparmor" o = (Err EISDIR, mkOS (os_tree o) (os_cwd o) (os_rand o) [])) as ->.
  { unfold ReadFile, syscall. rewrite Hf. cbn [next_fault].
    assert (∀ p, resolve (mkOS (os_tree o) (os_cwd o) (os_rand o) []) true p = resolve o true p) as -> by done.
    rewrite Hr. cbn [node_at os_tree]. by rewrite Hd. }
  set (o1 := mkOS _ _ _ []). destruct (ReadFile "/sys/fs/selinux/enforce" o1) as [[t|e] o2]; [|by intros [= <- _]].
  destruct (ReadFile "/sys/fs/selinux/enforce" o2) as [[t'|e] o3]; by intros [= <- _].
Qed.

(** User namespaces are on only where they are requested and supported. *)
Lemma ApplyUserNamespace_spec st rq pm :
  un_Enabled (snd (ApplyUserNamespace st rq pm)) = (if rq then un_Supported st || (un_Enabled st && negb pm) else un_Enabled st) ∧
  (is_ok (fst (ApplyUserNamespace st rq pm)) = false ↔ rq = true ∧ un_Supported st = false ∧ pm = false).
Proof. unfold ApplyUserNamespace. destruct rq, pm, st as [[] [] m]; simpl; naive_solver. Qed.
