(* ===== verification/Sftp.v ===== *)
(** * The SFTP server ([internal/filesystem/sftp.go])

    The listener, the host key, and the server as a transition system: what clients do over
    SSH is a sequence of events, each with the server's reply.  The SSH protocol and the
    request server of [pkg/sftp] only carry the events.  A file that is put is one event, from
    its opening to its closing: between two events nobody holds an open file. *)

From S2P Require Import Prelude GoLib GoPath GoOS Config Store Filesystem Security.

(** ** Definitions *)

(** *** The host key *)

Section HostKey.
Context `{!Crypto} {Signer : Type}.
Context (ssh_ParsePrivateKey ssh_NewSignerFromKey : string → res Signer).

Definition loadOrCreateHostKey (path : string) : M OS Signer :=
  r ← try (ReadFile path);
  match r with
  | Ok data => lift_res (ssh_ParsePrivateKey data)
  | Err _ =>
      priv ← lift_res ed25519_GenerateKey;
      der ← lift_res (x509_MarshalPKCS8PrivateKey priv);
      let data := pem_EncodeToMemory "PRIVATE KEY" der in
      MkdirAll (Dir path) ;;
      WriteFile path data 384 ;;
      lift_res (ssh_NewSignerFromKey priv)
  end.

(** The server: its manager is the root of it, its listener the address it listens on. *)
Record SFTPServer := mkSFTPServer {
  ss_cfg : SFTPConfig; ss_manager : string; ss_key : Signer; ss_listener : option string }.

(** A missing manager is [None], a missing credential store [false]. *)
Definition NewSFTPServer (cfg : SFTPConfig) (manager : option string) (creds : bool) : M OS SFTPServer :=
  match manager, creds with
  | Some root, true =>
      key ← loadOrCreateHostKey (sc_HostKeyPath cfg);
      mret (mkSFTPServer cfg root key None)
  | _, _ => fail (Errorf "manager dan credential store wajib" [])
  end.

Definition Addr (s : SFTPServer) : option string := ss_listener s.

(** The accept loop: the connections it handed over, and its error when it has ended.
    [ctx_err] is [ctx.Err()] when an [Accept] has failed. *)
Fixpoint accept_loop (ctx_err : option error) (accepted : list (res nat)) : list nat * option error :=
  match accepted with
  | [] => ([], None)
  | Ok conn :: rest => let '(conns, e) := accept_loop ctx_err rest in (conn :: conns, e)
  | Err e :: _ => ([], Some (default e ctx_err))
  end.

(** [listen] is [net.Listen]: the address it got. *)
Definition ListenAndServe (listen : string → res string) (ctx_err : option error) (accepted : list (res nat))
    : M SFTPServer (list nat * option error) :=
  s ← gets (λ s, s);
  addr ← lift_res (listen (sc_BindAddr (ss_cfg s)));
  modify (λ s, mkSFTPServer (ss_cfg s) (ss_manager s) (ss_key s) (Some addr)) ;;
  mret (accept_loop ctx_err accepted).

(** [close] is the outcome of the listener's [Close]. *)
Definition Shutdown (close : res unit) : M SFTPServer unit :=
  s ← gets (λ s, s);
  match ss_listener s with Some _ => lift_res close | None => mret tt end.
End HostKey.

(** *** Connections *)

(** A connection: the server its credential is for, and its channels; a channel is [true]
    once the SFTP subsystem runs on it. *)
Record SshConn := mkSshConn { co_server : string; co_channels : gmap nat bool }.

(** What the server shares with the rest of the daemon, and its connections. *)
Record Sftp := mkSftp { sf_db : DB; sf_os : OS; sf_conns : gmap nat SshConn }.

(** The requests of the SFTP protocol, by the handler they reach. *)
Inductive SftpRequest :=
| FileGet (filepath : string) | FilePut (filepath : string) (writes : list (Z * string))
| FileCmd (method filepath target : string) | FileList (filepath : string).

Definition op_of (r : SftpRequest) : FsOp :=
  match r with
  | FileGet p => OpFileread p
  | FilePut p ws => OpPut p ws
  | FileCmd m p t => OpFilecmd m p t
  | FileList p => OpFilelist p
  end.

Inductive SftpEvent :=
| EvConnect (conn : nat) (user key : string)             (* a client that holds [key] *)
| EvChannel (conn chan : nat) (typ : string)
| EvRequest (conn chan : nat) (typ payload : string)
| EvFile (conn chan : nat) (request : SftpRequest)
| EvCloseChannel (conn chan : nat)
| EvClose (conn : nat)
| EvDaemon (db : DB).                                    (* the store, after other work *)

Inductive Reply :=
| Refused (e : error) | Welcome | Rejected | Accepted | ReplyRequest (ok : bool) | Answer (r : res unit) | Silent.

(** The request that starts the subsystem; its payload is a string with its length. *)
Definition is_sftp (typ payload : string) : bool :=
  (typ =s "subsystem") && (4 <=? String.length payload)%nat && (drop_bytes 4 payload =s "sftp").

Section Serve.
Context (parse_authorized_key : string → option string) (root : string).

Definition set_channels (c : nat) (co : SshConn) (f : gmap nat bool → gmap nat bool) (s : Sftp) : Sftp :=
  mkSftp (sf_db s) (sf_os s) (<[c := mkSshConn (co_server co) (f (co_channels co))]> (sf_conns s)).

(** [handle] from the handshake to the end of its channels; the numbers of connections and
    channels are unused ones. *)
Definition handle (e : SftpEvent) (s : Sftp) : Reply * Sftp :=
  match e with
  | EvConnect c user key =>
      match sf_conns s !! c with
      | Some _ => (Silent, s)
      | None =>
          let '(r, d) := PublicKeyCallback parse_authorized_key user key (sf_db s) in
          match r with
          | Err e => (Refused e, mkSftp d (sf_os s) (sf_conns s))
          | Ok id => (Welcome, mkSftp d (sf_os s) (<[c := mkSshConn id ∅]> (sf_conns s)))
          end
      end
  | EvChannel c ch typ =>
      match sf_conns s !! c with
      | Some co =>
          if negb (typ =s "session") then (Rejected, s)
          else if decide (is_Some (co_channels co !! ch)) then (Silent, s)
          else (Accepted, set_channels c co <[ch := false]> s)
      | None => (Silent, s)
      end
  | EvRequest c ch typ payload =>
      match sf_conns s !! c with
      | Some co =>
          match co_channels co !! ch with
          | Some false =>
              if is_sftp typ payload then (ReplyRequest true, set_channels c co <[ch := true]> s)
              else (ReplyRequest false, s)
          | _ => (Silent, s)
          end
      | None => (Silent, s)
      end
  | EvFile c ch request =>
      match sf_conns s !! c with
      | Some co =>
          match co_channels co !! ch with
          | Some true =>
              let '(r, o) := run_fs_op root (co_server co) (op_of request) (sf_os s) in
              (Answer r, mkSftp (sf_db s) o (sf_conns s))
          | _ => (Silent, s)
          end
      | None => (Silent, s)
      end
  | EvCloseChannel c ch =>
      match sf_conns s !! c with
      | Some co => (Silent, set_channels c co (delete ch) s)
      | None => (Silent, s)
      end
  | EvClose c => (Silent, mkSftp (sf_db s) (sf_os s) (delete c (sf_conns s)))
  | EvDaemon d => (Silent, mkSftp d (sf_os s) (sf_conns s))
  end.

Definition run_sftp (evs : list SftpEvent) (s : Sftp) : Sftp :=
  fold_left (λ s e, snd (handle e s)) evs s.

(** The replies, in order. *)
Fixpoint replies (evs : list SftpEvent) (s : Sftp) : list Reply :=
  match evs with
  | [] => []
  | e :: evs => fst (handle e s) :: replies evs (snd (handle e s))
  end.
End Serve.
