(* ===== verification/SftpSpec.v ===== *)
(** * What the SFTP server promises

    The files a session can reach, what a put leaves, and the host key. *)

From S2P Require Import Prelude GoLib GoPath GoOS GoOSFacts GoOSRun Store Migrations StoreFacts Filesystem FilesystemFacts FilesystemSpec Security Sftp.

(** ** Definitions *)

(** The store holds a credential that lets [user] with [key] into the server [id]. *)
Definition grants (parse : string → option string) (d : DB) (user key id : string) : Prop :=
  ∃ c, c ∈ db_sftp d ∧ sc_Username c = user ∧ sc_ServerID c = id ∧ parse (sc_PublicKey c) = Some key.

(** The pieces of a file, sent one after the other from [off]. *)
Fixpoint successive (off : nat) (chunks : list string) : list (Z * string) :=
  match chunks with
  | [] => []
  | c :: cs => (Z.of_nat off, c) :: successive (off + String.length c) cs
  end.

(** The premise of the file manager, for every server. *)
Definition all_inv (root : string) (o : OS) : Prop := ∀ id, validServerID id = true → fs_inv root id o.

(** ** Lemmas *)

Lemma PublicKeyCallback_spec parse user key d id d' :
  PublicKeyCallback parse user key d = (Ok id, d') → grants parse d user key id.
Proof.
  intros (c & d1 & Hc & H)%bind_inv.
  pose proof (query_state _ _ _ _ _ Hc) as Hd. apply query_Ok in Hc. unfold first_row in Hc.
  destruct (select_where _ _) as [|c' l] eqn:El; [done|]. injection Hc as ->.
  assert (c ∈ select_where (λ r, sc_Username r =s user) (db_sftp d1)) as Hin by (rewrite El; by left).
  rewrite Hd in Hin.
  apply elem_of_select_where in Hin as [Hu%String.eqb_eq Hin].
  destruct (parse (sc_PublicKey c)) as [allowed|] eqn:Ep; [|done].
  destruct (allowed =s key) eqn:Ek; [|done]. apply String.eqb_eq in Ek as ->.
  injection H as <- _. by exists c.
Qed.

(** A change within one server's directory keeps the premise of every other. *)
Lemma all_inv_frame root id o o' :
  all_inv root o → fs_inv root id o' → server_frame root id (os_tree o) (os_tree o') → all_inv root o'.
Proof.
  intros Ha [Ht Hl] Hf id' Hv. split; [done|]. destruct (decide (id' = id)) as [->|Hne]; [done|].
  destruct (Ha id' Hv) as [_ Hl']. intros q c tg Hb Hn.
  destruct (Hf (q ++ [c])) as [E|[B|(_ & _ & E)]]; [|clear Hn|congruence].
  - eapply Hl'; [exact Hb|]. by rewrite <- E.
  - assert (below (server_dir root id) (data_dir root id')) as [x Hx] by (unfold below in *; by etrans).
    unfold data_dir, server_dir in Hx. rewrite <- !app_assoc in Hx. apply app_inv_head in Hx.
    simpl in Hx. by injection Hx as ->.
Qed.

Section Sessions.
Context (parse : string → option string) (root : string) (Hroot : IsAbs root = true).
Context (s0 : Sftp).

Local Abbreviation after := (run_sftp parse root).

(** The server [id] was granted at some point of [evs]. *)
Definition granted (evs : list SftpEvent) (id : string) : Prop :=
∃ evs1 conn user key evs2, evs = evs1 ++ EvConnect conn user key :: evs2 ∧
  grants parse (sf_db (after evs1 s0)) user key id.

(** After [evs]: every connection was granted its server, and what has changed belongs to such
a server. *)
Record sessions_ok (evs : list SftpEvent) (s : Sftp) : Prop := {
so_inv : all_inv root (sf_os s);
so_conns : ∀ c co, sf_conns s !! c = Some co → granted evs (co_server co);
so_tree : ∀ k, os_tree (sf_os s) !! k = os_tree (sf_os s0) !! k ∨
  ∃ id, granted evs id ∧ validServerID id = true ∧ (below (server_dir root id) k ∨
    below k (server_dir root id) ∧ os_tree (sf_os s0) !! k = None ∧ os_tree (sf_os s) !! k = Some NDir) }.

Lemma granted_snoc evs e id : granted evs id → granted (evs ++ [e]) id.
Proof.
intros (e1 & c & u & k & e2 & -> & H). exists e1, c, u, k, (e2 ++ [e]). by rewrite <- app_assoc.
Qed.

(** A request on a file of a granted server. *)
Lemma file_ok evs s id op :
  sessions_ok evs s → granted evs id →
  sessions_ok evs (mkSftp (sf_db s) (snd (run_fs_op root id op (sf_os s))) (sf_conns s)).
Proof.
intros [Hi Hc Ht] Hg. destruct (validServerID id) eqn:Hv.
- pose proof (run_fs_op_frame root id op (sf_os s) Hroot (Hi _ Hv)) as [Hi' Hf].
  split; simpl; [by eapply all_inv_frame|done|]. intros k.
  destruct (Hf k) as [Ek|[B|(B & N & D)]]; [by rewrite Ek|by eauto 6|].
  destruct (Ht k) as [E0|(id' & Hid' & Hv' & [?|(? & ? & D')])]; [|by eauto 6|congruence].
  right. exists id. do 2 (split; [done|]). right. by rewrite <- E0.
- pose proof (invalid_op root id Hv op (sf_os s)) as Ho.
  unfold all_inv, fs_inv in *. split; unfold all_inv, fs_inv; simpl; by rewrite ?Ho.
Qed.

Lemma handle_ok evs e s :
s = after evs s0 → sessions_ok evs s → sessions_ok (evs ++ [e]) (snd (handle parse root e s)).
Proof.
intros -> [Hi Hc Ht]. assert (∀ id, granted evs id → granted (evs ++ [e]) id) as Hg by eauto using granted_snoc.
set (s := after evs s0) in *.
(* every event but a request on a file leaves the files, and connects only who is granted *)
assert (∀ s', os_tree (sf_os s') = os_tree (sf_os s) →
  (∀ c co, sf_conns s' !! c = Some co → granted (evs ++ [e]) (co_server co)) →
  sessions_ok (evs ++ [e]) s') as Hsame.
{ intros s' E Hc'. unfold all_inv, fs_inv in *. split; unfold all_inv, fs_inv; rewrite ?E; [done|done|].
  intros k. destruct (Ht k) as [?|(id & ? & ?)]; eauto. }
assert (sessions_ok (evs ++ [e]) s) as Hid by (apply Hsame; eauto).
pose proof (λ id op, file_ok (evs ++ [e]) s id op Hid) as Hfile.
assert (∀ c co f, sf_conns s !! c = Some co → sessions_ok (evs ++ [e]) (set_channels c co f s)) as Hset.
{ intros c co f Hco. apply Hsame; [done|]. intros c' co'. simpl. rewrite lookup_insert.
  case_decide as Hcc; [|by eauto]. intros [= <-]. simpl. eauto. }
destruct e as [c user key|c ch typ|c ch typ payload|c ch request|c ch|c|d]; simpl.
- destruct (sf_conns s !! c) eqn:E; [done|].
  destruct (PublicKeyCallback parse user key (sf_db s)) as [[id|err] d] eqn:Ep; [|apply Hsame; eauto].
  apply Hsame; [done|]. intros c' co. simpl. rewrite lookup_insert. case_decide as Hcc; [|by eauto].
  intros [= <-]. exists evs, c, user, key, []. split; [done|]. by eapply PublicKeyCallback_spec.
- repeat case_match; simpl; eauto.
- repeat case_match; simpl; eauto.
- destruct (sf_conns s !! c) as [co|] eqn:E; [|done].
  destruct (co_channels co !! ch) as [[]|]; [|done..].
  destruct (run_fs_op _ _ _ _) as [r o] eqn:Eo. simpl.
  specialize (Hfile (co_server co) (op_of request)). rewrite Eo in Hfile. eauto.
- repeat case_match; simpl; eauto.
- apply Hsame; [done|]. intros c' co. simpl. intros [_ H]%lookup_delete_Some. eauto.
- apply Hsame; eauto.
Qed.

Lemma run_ok evs : all_inv root (sf_os s0) → sf_conns s0 = ∅ → sessions_ok evs (after evs s0).
Proof.
intros Hi Hc. induction evs as [|e evs IH] using rev_ind.
- split; [done| |by left]. intros c co. simpl. by rewrite Hc.
- unfold run_sftp. rewrite fold_left_app. simpl. by apply handle_ok.
Qed.
End Sessions.

(** *** Writes at offsets *)

Lemma WriteAt_reach p data off o old m :
  os_faults o = [] → tree_ok (os_tree o) → direct p → comps p ≠ [] →
  os_tree o !! comps p = Some (NFile old m) →
  WriteAt p data (Z.of_nat off) o =
  (Ok tt, set_tree (<[comps p := NFile (write_bytes old off data) m]> (os_tree o)) o).
Proof.
  intros Hf Ht Hd Hne Hn. unfold WriteAt. rewrite syscall_no_fault by done.
  destruct (Z.ltb_spec (Z.of_nat off) 0); [lia|].
  rewrite resolve_entry; [|done|eapply reachable_existing; try done; by intros tg].
  assert (node_at (os_tree o) (comps p) = Some (NFile old m)) as -> by (by destruct (comps p)).
  by rewrite Nat2Z.id.
Qed.

(** Successive writes replace as many bytes of the file as they have. *)
Lemma successive_writes p old m chunks : ∀ head o,
  os_faults o = [] → tree_ok (os_tree o) → direct p → comps p ≠ [] →
  os_tree o !! comps p = Some (NFile (head +:+ drop_bytes (String.length head) old) m) →
  let new := head +:+ String.concat "" chunks in
  for_each (λ w : Z * string, ignore (WriteAt p w.2 w.1)) (successive (String.length head) chunks) o =
  (Ok tt, set_tree (<[comps p := NFile (new +:+ drop_bytes (String.length new) old) m]> (os_tree o)) o).
Proof.
  induction chunks as [|c chunks IH]; intros head o Hf Ht Hd Hne Hn.
  - simpl. rewrite string_app_nil_r. by rewrite insert_id, set_tree_id.
  - rewrite concat_cons. simpl. unfold mbind at 1, M_bind at 1, ignore at 1. simpl.
    rewrite (WriteAt_reach p c (String.length head) o _ m Hf Ht Hd Hne Hn). simpl.
    rewrite write_bytes_next, <- length_app_s, IH; try done.
    + simpl. by rewrite insert_insert_eq, <- (string_app_assoc head c).
    + simpl. apply tree_ok_insert; [done..| |left; by rewrite Hn].
      destruct (snoc_removelast (comps p) Hne) as (q & x & E & Eq). rewrite Eq. rewrite E in Hn. by eapply Ht.
    + simpl. by rewrite lookup_insert_eq.
Qed.

Lemma Filewrite_run root id p o1 abs o2 o old m :
  IsAbs root = true → validServerID id = true →
  ResolvePath root id (TrimPrefix p "/") o1 = (Ok abs, o2) → direct abs → comps abs ≠ [] →
  os_faults o = [] → tree_ok (os_tree o) → os_tree o !! comps abs = Some (NFile old m) →
  node_at (os_tree o) (comps (Dir abs)) = Some NDir → direct (Dir abs) →
  Filewrite root id p o = (Ok abs, o).
Proof.
  intros Hroot Hv HR Hd Hne Hf Ht Hn HD HdD.
  unfold Filewrite, mbind, M_bind. rewrite (ResolvePath_run root id Hroot Hv _ o1 abs o2 o (NFile old m)); try done.
  rewrite MkdirAll_existing by done. unfold OpenCreate. rewrite syscall_no_fault by done.
  rewrite resolve_entry; [|done|eapply reachable_existing; try done; by intros tg].
  assert (node_at (os_tree o) (comps abs) = Some (NFile old m)) as -> by (by destruct (comps abs)).
  by rewrite set_tree_id.
Qed.

(** *** The host key *)

Lemma ReadFile_file o p c o' :
  direct p → no_link (os_tree o) (comps p) → comps p ≠ [] → ReadFile p o = (Ok c, o') →
  file_at (os_tree o) p c.
Proof.
  intros Hd Hl Hne [(e & ? & _)|(a & t & H & [= <-] & ->)]%syscall_inv; [done|].
  destruct (resolve _ _ _) as [k|] eqn:E; [|done]. apply resolve_no_link in E as [-> _]; [|done..].
  simpl in H. split; [done|]. do 2 (split; [done|]).
  destruct (comps p) as [|x l]; [done|]. simpl in H.
  destruct (os_tree o !! (x :: l)) as [[]|]; try done. injection H as -> _. eauto.
Qed.

Section HostKey.
Context `{!Crypto} {Signer : Type}.
Context (parse_key new_signer : string → res Signer).

Local Abbreviation load := (loadOrCreateHostKey parse_key new_signer).

(** What a successful load leaves at the key's path: the text the signer is read from. *)
Definition key_file (t : tree) (path : string) (signer : Signer) : Prop :=
(∃ data, file_at t path data ∧ parse_key data = Ok signer) ∨
(∃ priv der, x509_MarshalPKCS8PrivateKey priv = Ok der ∧ new_signer priv = Ok signer ∧
  file_at t path (pem_EncodeToMemory "PRIVATE KEY" der)).

Lemma host_key_file cs o signer o' :
let path := render true cs in
Forall comp_ok cs → plain cs → cs ≠ [] → tree_ok (os_tree o) → no_link (os_tree o) cs →
load path o = (Ok signer, o') → tree_ok (os_tree o') ∧ key_file (os_tree o') path signer.
Proof.
intros path Hc Hp Hne Ht Hl. assert (comps path = cs) as Ec by (by apply comps_render).
assert (direct path) as Hd by (unfold direct; rewrite Ec; subst path; by rewrite IsAbs_render).
assert (comps (Dir path) = removelast cs ∧ direct (Dir path) ∧ no_link (os_tree o) (comps (Dir path))) as (ED & HD & HlD).
{ subst path. rewrite Dir_render by done. destruct (snoc_removelast cs Hne) as (q & x & E & Eq). rewrite Eq.
  rewrite E in Hc, Hp, Hl. apply Forall_app in Hc as [Hc _]. apply plain_app in Hp as [Hp _].
  unfold direct. rewrite IsAbs_render, comps_render by done. do 2 (split; [done|]).
  eapply no_link_prefix; [exact Hl|]. by exists [x]. }
unfold loadOrCreateHostKey. rewrite <- Ec in Hl. pose proof (reads_ReadFile path o) as Hr.
intros HL. apply bind_inv in HL as (r & o1 & H1 & HL).
unfold try in H1. rewrite (surjective_pairing (ReadFile path o)) in H1. injection H1 as <- <-.
destruct (fst (ReadFile path o)) as [data|e] eqn:Efst.
- unfold lift_res in HL. injection HL as Hs <-. rewrite Hr. split; [done|]. left. exists data. split; [|done].
  eapply ReadFile_file; [done|done|by rewrite Ec|]. rewrite (surjective_pairing (ReadFile path o)), Efst. done.
- apply bind_inv in HL as (priv & o2 & [= Hg <-] & HL). apply bind_inv in HL as (der & o3 & [= Hm <-] & HL).
  apply bind_inv in HL as ([] & o4 & H4 & HL). apply bind_inv in HL as ([] & o5 & H5 & [= Hs <-]).
  apply MkdirAll_adds in H4 as [Ha Ht4]; [|done|by rewrite Hr].
  assert (no_link (os_tree o4) (comps path)) as Hl4.
  { eapply no_link_no_new; [by eapply adds_dirs_no_new_links|]. by rewrite Hr. }
  assert (puts_file o4 o5 path) as Hw by (by eapply WriteFile_effect).
  apply WriteFile_Ok in H5 as [m H5]; [|done..]. split.
  + eapply puts_file_ok; [exact Hw|]. apply Ht4. by rewrite Hr.
  + right. exists priv, der. do 2 (split; [done|]). split; [done|]. split.
    * eapply no_link_no_new; [by eapply puts_file_links|done].
    * split; [by rewrite Ec|]. exists m. by rewrite H5, lookup_insert_eq.
Qed.

(** The server keeps its identity: after a load that succeeded, every later one gives the same
signer and writes nothing.  The law is the one of the PEM and PKCS #8 encodings. *)
Theorem host_key_stable cs o signer o' :
let path := render true cs in
(∀ priv der, x509_MarshalPKCS8PrivateKey priv = Ok der →
  parse_key (pem_EncodeToMemory "PRIVATE KEY" der) = new_signer priv) →
Forall comp_ok cs → plain cs → cs ≠ [] → tree_ok (os_tree o) → no_link (os_tree o) cs →
load path o = (Ok signer, o') →
∀ o2, os_tree o2 = os_tree o' → os_faults o2 = [] → load path o2 = (Ok signer, o2).
Proof.
intros path Hlaw Hc Hp Hne Ht Hl HL o2 E2 Hf2.
apply host_key_file in HL as [Ht' Hk]; [|done..].
assert (∃ data, file_at (os_tree o2) path data ∧ parse_key data = Ok signer) as (data & Hfile & Hparse).
{ rewrite E2. destruct Hk as [?|(priv & der & Hm & Hs & Hfile)]; [done|].
  eexists. split; [exact Hfile|]. by rewrite (Hlaw _ _ Hm). }
unfold loadOrCreateHostKey, try, mbind, M_bind. rewrite (ReadFile_at o2 path data); [|done|by rewrite E2|done].
unfold lift_res. by rewrite Hparse.
Qed.
End HostKey.

(** ** Properties *)

(** C11. Whatever clients do over SSH, whatever credentials the daemon stores meanwhile and whatever
    calls fail: every file that changes is of a server for which a client logged in with a key
    that the store, at that moment, held for this server; all else outside is missing parents
    of its directory that became directories. *)
Theorem sftp_confined parse root evs s k :
  IsAbs root = true → all_inv root (sf_os s) → sf_conns s = ∅ →
  os_tree (sf_os (run_sftp parse root evs s)) !! k ≠ os_tree (sf_os s) !! k →
  ∃ evs1 conn user key evs2 id,
    evs = evs1 ++ EvConnect conn user key :: evs2 ∧
    grants parse (sf_db (run_sftp parse root evs1 s)) user key id ∧ validServerID id = true ∧
    (below (server_dir root id) k ∨
     below k (server_dir root id) ∧ os_tree (sf_os s) !! k = None ∧
       os_tree (sf_os (run_sftp parse root evs s)) !! k = Some NDir).
Proof.
  intros Hroot Hi Hc Hk. destruct (run_ok parse root Hroot s evs Hi Hc) as [_ _ Ht].
  destruct (Ht k) as [?|(id & (e1 & c & u & key & e2 & He & Hg) & Hv & Hb)]; [done|].
  by exists e1, c, u, key, e2, id.
Qed.

(** C12. A file that is put over an existing one, in successive pieces, replaces as many bytes as it
    has and keeps the rest: the handler opens the file without truncating it. *)
Theorem sftp_put_spec root id p o abs o1 old m chunks :
  IsAbs root = true → fs_inv root id o → os_faults o = [] →
  ResolvePath root id (TrimPrefix p "/") o = (Ok abs, o1) →
  os_tree o !! comps abs = Some (NFile old m) →
  let new := String.concat "" chunks in
  sftp_put root id p (successive 0 chunks) o =
  (Ok tt, set_tree (<[comps abs := NFile (new +:+ drop_bytes (String.length new) old) m]> (os_tree o)) o).
Proof.
  intros Hroot Hi Hf HR Hn. pose proof Hi as [Ht _].
  destruct (validServerID id) eqn:Hv; [|unfold ResolvePath, serverRoot in HR; by rewrite Hv in HR].
  destruct (ResolvePath_spec root id Hroot Hv _ _ _ _ Hi HR) as [_ Hg]. destruct (Hg abs eq_refl) as [cs Hg'].
  destruct (good_direct root id _ _ _ Hg') as [Hd Hc].
  destruct (good_Dir root id _ _ _ Hg') as (HdD & HcD & _ & _).
  assert (comps abs ≠ []) as Hne by (rewrite Hc; apply data_not_nil).
  unfold sftp_put, mbind, M_bind. rewrite (Filewrite_run root id p o abs o1 o old m) by (try done;
    rewrite HcD, <- Hc; destruct (snoc_removelast (comps abs) Hne) as (q & x & E & ->); rewrite E in Hn; by eapply Ht).
  by apply (successive_writes abs old m chunks "" o).
Qed.

(** ** Witnesses *)

Definition alice_db : DB := set_sftp [mkSFTPCredential "c1" "a" "alice" "KEY-A" ""] fresh_db.
Definition demo_sftp : Sftp := mkSftp alice_db two_servers ∅.
Definition demo_evs : list SftpEvent := [
  EvConnect 1 "alice" "KEY-B"; EvConnect 1 "alice" "KEY-A"; EvChannel 1 0 "session";
  EvRequest 1 0 "subsystem" "0004sftp"; EvFile 1 0 (FilePut "/old" (successive 0 ["x"]));
  EvFile 1 0 (FileCmd "Remove" "/way/secret" "")].

Lemma two_servers_all : all_inv "/srv" two_servers.
Proof.
  intros id Hv. split; [apply two_servers_inv|]. intros q c tg [x Hx] Hn.
  assert (map_Forall (λ k n, IsSymlink n = true → (3 < length k)%nat) (os_tree two_servers)) as H.
  { apply (bool_decide_unpack _). vm_compute. reflexivity. }
  specialize (H _ _ Hn eq_refl). apply (f_equal length) in Hx. rewrite length_app in Hx. simpl in Hx. lia.
Qed.

Lemma sftp_confined_witness :
  ∃ evs1 conn user key evs2 id, demo_evs = evs1 ++ EvConnect conn user key :: evs2 ∧
    grants Some (sf_db (run_sftp Some "/srv" evs1 demo_sftp)) user key id ∧ id = "a".
Proof.
  destruct (sftp_confined Some "/srv" demo_evs demo_sftp ["srv"; "a"; "data"; "old"]) as
    (evs1 & conn & user & key & evs2 & id & He & Hg & _ & Hb).
  - reflexivity.
  - apply two_servers_all.
  - reflexivity.
  - vm_compute. discriminate.
  - exists evs1, conn, user, key, evs2, id. split; [exact He|]. split; [exact Hg|].
    destruct Hb as [[x Hx]|[[x Hx] _]]; simpl in Hx; [by injection Hx as ->|discriminate Hx].
Defined.

Example demo_replies : replies Some "/srv" demo_evs demo_sftp =
  [Refused (Errorf "public key tidak cocok" []); Welcome; Accepted; ReplyRequest true; Answer (Ok tt);
   Answer (Err (ESentinel fs_ErrPathOutsideRoot))].
Proof. vm_compute. reflexivity. Qed.

(** The new contents are [x], the old ones were [v1]. *)
Lemma sftp_put_spec_witness :
  os_tree (snd (sftp_put "/srv" "a" "/old" (successive 0 ["x"]) two_servers)) !! ["srv"; "a"; "data"; "old"] =
  Some (NFile "x1" 384).
Proof.
  rewrite (sftp_put_spec "/srv" "a" "/old" two_servers "/srv/a/data/old" two_servers "v1" 384 ["x"]).
  - vm_compute. reflexivity.
  - reflexivity.
  - exact two_servers_inv.
  - reflexivity.
  - vm_compute. reflexivity.
  - vm_compute. reflexivity.
Defined.
