(* ===== verification/Agent.v ===== *)
(** * The agent ([internal/agent])

    The connection to the Panel: dialling, heartbeats, commands, pairing, and the loop of
    the daemon.  The Panel is an interface over its state; the turns of a loop that waits
    on a clock or on the network are an argument, with what each turn sees. *)

From S2P Require Import Prelude GoLib GoPath GoOS Config Store Bus Runtime World Orchestrator Security.

(** ** Definitions *)

(** *** [client.go] *)

(** [time.Second << attempt] wraps around; [attempt] is not negative. *)
Definition ComputeBackoff (attempt : Z) : Z :=
  let d := wrap64 (Z.shiftl time_Second attempt) in
  if (d <=? 0) || (30 * time_Second <? d) then 30 * time_Second else d.

(** A look at the connection, and whether the context ends during the wait that follows. *)
Record conn_turn := mkConnTurn { ct_Ready : bool; ct_Done : bool }.

(** The delays, and what the function returns once it returns. *)
Fixpoint waitReady (attempt : Z) (turns : list conn_turn) : list Z * option (res unit) :=
  match turns with
  | [] => ([], None)
  | t :: turns =>
      if ct_Ready t then ([], Some (Ok tt))
      else
        let d := ComputeBackoff attempt in
        if ct_Done t then ([d], Some (Err (ESentinel context_Canceled)))
        else
          let '(ds, r) := waitReady (if attempt <? 10 then attempt + 1 else attempt) turns in
          (d :: ds, r)
  end.

Section Dial.
Context `{!Crypto}.

(** [grpc.NewClient] *)
Context (newClient : string → TLSConfig → res unit).

(** [None]: still waiting. *)
Definition dialWithConfig (target : string) (tlsCfg : TLSConfig) (turns : list conn_turn) : option (res unit) :=
  match newClient target tlsCfg with
  | Err e => Some (Err e)
  | Ok _ => snd (waitReady 0 turns)
  end.

Definition DialPanel (panelAddr certPath keyPath caPath : string) (turns : list conn_turn)
    : M OS (option (res unit)) :=
  r ← try (LoadClientTLS certPath keyPath caPath);
  match r with
  | Err e => mret (Some (Err e))
  | Ok tlsCfg => mret (dialWithConfig panelAddr tlsCfg turns)
  end.
End Dial.

(** *** The Panel's [NodeService] *)

Record PairingResponse := mkPairingResponse { pr_NodeId : string; pr_CertPem : string }.

Record NodeCommand := mkNodeCommand {
  cmd_Action : string; cmd_ServerId : string; cmd_Args : gmap string string }.

Class NodeService (P : Type) := {
  ns_Heartbeat : string → Z → M P unit;
  ns_Pair : string → string → string → M P PairingResponse }.

(** *** [heartbeat.go] *)

Definition DefaultHeartbeatInterval : Z := 15 * time_Second.

Section Heartbeat.
Context {P : Type} `{!NodeService P}.

(** [int64(now.Sub(since).Seconds())] *)
Definition uptime_seconds (since now : Z) : Z := Z.quot (now - since) time_Second.

(** A tick at [now]: the failures in a row, and the delay before the next tick is taken. *)
Definition heartbeat_turn (nodeID : string) (since now fails : Z) : M P (Z * option Z) :=
  r ← try (ns_Heartbeat nodeID (uptime_seconds since now));
  match r with
  | Err _ => mret (fails + 1, Some (ComputeBackoff (fails + 1)))
  | Ok _ => mret (0, None)
  end.

(** The ticks until the context ends, with the delays between them. *)
Fixpoint RunHeartbeat (nodeID : string) (since fails : Z) (ticks : list Z) : M P (list (option Z)) :=
  match ticks with
  | [] => mret []
  | now :: ticks =>
      fd ← heartbeat_turn nodeID since now fails;
      ds ← RunHeartbeat nodeID since (fst fd) ticks;
      mret (snd fd :: ds)
  end.
End Heartbeat.

(** *** [stream.go] *)

Section Stream.
Context {RT P C : Type} `{!Runtime RT}.
Local Abbreviation W := (World RT P C).
Context (json_Marshal : Env → res string) (json_Unmarshal : string → res Env).
Context (tunnels : option (TunnelManager W)) (ports : option (PortProvider (RT:=RT) (P:=P) (C:=C))).

(** [cmd.Args[k]] *)
Definition arg (cmd : NodeCommand) (k : string) : string := default "" (cmd_Args cmd !! k).

(** [uuid] is the [uuid.NewString()] of a creation. *)
Definition dispatch (uuid : string) (cmd : NodeCommand) : M W unit :=
  if cmd_Action cmd =s "create" then
    env ← (let raw := arg cmd "environment" in
           if raw =s "" then mret [] else lift_res (json_Unmarshal raw));
    CreateServer json_Marshal tunnels ports uuid (arg cmd "name") (arg cmd "egg_id") (arg cmd "startup_command") env;;
    mret tt
  else if cmd_Action cmd =s "start" then StartServer json_Unmarshal (cmd_ServerId cmd)
  else if cmd_Action cmd =s "stop" then StopServer (cmd_ServerId cmd)
  else if cmd_Action cmd =s "delete" then DeleteServer tunnels (cmd_ServerId cmd)
  else fail (Errorf "action tak dikenal: %s" [cmd_Action cmd]).

(** How the stream ends. *)
Inductive stream_end := StreamEOF | StreamCanceled | StreamError (e : error).

(** [opened] is the outcome of [StreamCommands]; [cmds] are the commands that arrive, each
    with the identifier a creation would draw. *)
Definition RunCommandStream (opened : res unit) (cmds : list (string * NodeCommand)) (last : stream_end) : M W unit :=
  wrap "buka stream" [] (lift_res opened);;
  for_each (λ uc, ignore (dispatch uc.1 uc.2)) cmds;;
  match last with
  | StreamEOF => mret tt
  | StreamCanceled => fail (ESentinel context_Canceled)
  | StreamError e => fail (Errorw "recv command" [] e)
  end.
End Stream.

(** *** [pairing.go] *)

Section Pairing.
Context {RT P C : Type} `{!NodeService P} `{!Crypto}.
Local Abbreviation W := (World RT P C).

(** [yaml.Marshal] of a configuration; [grpc.NewClient] without TLS. *)
Context (yaml_Marshal : Config → res string) (newPlainClient : string → res unit).

Definition writeConfig (cfg : Config) (configPath : string) : M OS unit :=
  data ← wrap "encode config" [] (lift_res (yaml_Marshal cfg));
  wrap "tulis config" [] (WriteFile configPath data 384).

Definition PairWithToken (token : string) (cfg : Config) (configPath : string) : M OS unit :=
  wrap "token pairing" [] (lift_res (ValidateFormat token));;
  wrap "buat data dir" [] (MkdirAll (nc_DataDir (cf_Node cfg)));;
  wrap "buat dir cert" [] (MkdirAll (Dir (nc_CertPath (cf_Node cfg))));;
  writeConfig cfg configPath.

(** Whether the node may pair. *)
Definition check_unpaired : M W unit :=
  r ← try (db GetNode);
  match r with
  | Ok _ => fail (Errorf "node sudah paired, tolak pairing ulang" [])
  | Err e => if errors_Is e sql_ErrNoRows then mret tt else fail (Errorw "cek status pairing" [] e)
  end.

(** [client] tells whether a client was given; [now] is [time.Now().UTC()]. *)
Definition PairWithPanel (panelAddr token nodeName : string) (cfg : Config) (configPath : string)
    (client : bool) (now : Time) : M W string :=
  wrap "token pairing" [] (lift_res (ValidateFormat token));;
  check_unpaired;;
  priv ← lift_res GenerateKey;
  csr ← lift_res (GenerateCSR priv nodeName);
  (if client then mret tt else wrap "dial panel" [] (lift_res (newPlainClient panelAddr)));;
  resp ← wrap "pair ke panel" [] (panel (ns_Pair token nodeName csr));
  wrap "buat dir cert" [] (os (MkdirAll (Dir (nc_KeyPath (cf_Node cfg)))));;
  os (SaveKey (nc_KeyPath (cf_Node cfg)) priv);;
  os (SaveCert (nc_CertPath (cf_Node cfg)) (pr_CertPem resp));;
  wrap "simpan node" [] (db (SaveNode (mkNode (pr_NodeId resp) nodeName panelAddr
    (nc_CertPath (cf_Node cfg)) (nc_KeyPath (cf_Node cfg)) now)));;
  os (writeConfig cfg configPath);;
  mret (pr_NodeId resp).
End Pairing.

(** *** [daemon.go] *)

(** [runOnce]: what came of the dial, and which of the context and the two loops ended. *)
Definition runOnce (dial : res unit) (ended : option (res unit)) : res unit :=
  match dial with
  | Err e => Err e
  | Ok _ => match ended with
            | None => Err (ESentinel context_Canceled)
            | Some r => r
            end
  end.

(** A turn of the loop of [Run]: what [runOnce] returned, whether the context had ended by
    then, and whether it ended during the wait. *)
Record run_turn := mkRunTurn { rt_Once : res unit; rt_Ended : bool; rt_EndedInWait : bool }.

Record RunState := mkRunState { rs_Attempt : Z; rs_Handoffs : nat; rs_HandoffDone : bool }.

(** [handoff.Do(args.TriggerHandoff)] *)
Definition triggerHandoff (s : RunState) : RunState :=
  if rs_HandoffDone s then s else mkRunState (rs_Attempt s) (S (rs_Handoffs s)) true.

(** The delays, and whether the loop has returned. *)
Fixpoint Run_loop (s : RunState) (turns : list run_turn) : list Z * bool * RunState :=
  match turns with
  | [] => ([], false, s)
  | t :: turns =>
      if negb (is_ok (rt_Once t)) && rt_Ended t then ([], true, triggerHandoff s)
      else
        let s := mkRunState (rs_Attempt s + 1) (rs_Handoffs s) (rs_HandoffDone s) in
        if rt_Ended t || rt_EndedInWait t then ([], true, triggerHandoff s)
        else
          let '(ds, r, s') := Run_loop s turns in
          (ComputeBackoff (rs_Attempt s) :: ds, r, s')
  end.

(** [Run]: [listen] is the outcome of [net.Listen]. *)
Definition Run (listen : res unit) (turns : list run_turn) : res (list Z * bool * RunState) :=
  match listen with
  | Err e => Err (Errorw "listen api lokal" [] e)
  | Ok _ => Ok (Run_loop (mkRunState 0 0 false) turns)
  end.
