(* ===== verification/AgentSpec.v ===== *)
(** * What the agent promises

    Back-off without overflow, commands that are exactly the lifecycle's requests, and what
    a pairing leaves behind when it succeeds and when it fails. *)

From S2P Require Import Prelude GoLib GoPath GoOS GoOSFacts Config Store StoreFacts Migrations Bus Runtime World Orchestrator Requests RequestsSpec OrchestratorSpec Security Agent.

(** ** Lemmas *)

(** *** Waiting *)

Lemma waitReady_delays attempt turns d : 0 ≤ attempt → d ∈ fst (waitReady attempt turns) → ∃ a, 0 ≤ a ∧ d = ComputeBackoff a.
Proof.
  induction turns as [|t turns IH] in attempt |- *; simpl; intros Ha; [by intros Hd%elem_of_nil|].
  destruct (ct_Ready t); [by intros Hd%elem_of_nil|].
  destruct (ct_Done t); simpl; [intros Hd%list_elem_of_singleton; eauto|].
  specialize (IH (if attempt <? 10 then attempt + 1 else attempt) ltac:(destruct (_ <? _); lia)).
  destruct (waitReady _ turns) as [ds r]. simpl in *. intros [->|Hd]%elem_of_cons; eauto.
Qed.

(** The connection is returned as soon as it is ready, if the context has not ended. *)
Lemma waitReady_live attempt turns1 t turns2 :
  ct_Ready t = true → (∀ x, x ∈ turns1 → ct_Ready x = false ∧ ct_Done x = false) →
  snd (waitReady attempt (turns1 ++ t :: turns2)) = Some (Ok tt) ∧
  length (fst (waitReady attempt (turns1 ++ t :: turns2))) = length turns1.
Proof.
  intros Ht. induction turns1 as [|x xs IH] in attempt |- *; intros Hx; simpl; [by rewrite Ht|].
  destruct (Hx x) as [-> ->]; [left|]. specialize (IH (if attempt <? 10 then attempt + 1 else attempt)).
  destruct (waitReady _ (xs ++ t :: turns2)) as [ds r]. simpl in *. destruct IH as [-> Hl]; [intros y Hy; apply Hx; by right|].
  by rewrite Hl.
Qed.

(** The loop of the daemon returns only when the context has ended; it has then handed over
    exactly once, and its delays grow whether the connections lasted or not. *)
Lemma Run_loop_spec s turns :
  rs_HandoffDone s = false →
  let '(ds, returned, s') := Run_loop s turns in
  ds = (λ i, ComputeBackoff (rs_Attempt s + 1 + Z.of_nat i)) <$> List.seq 0%nat (length ds) ∧
  rs_Handoffs s' = (rs_Handoffs s + (if returned then 1 else 0))%nat ∧
  (returned = true → ∃ t, t ∈ turns ∧ rt_Ended t || rt_EndedInWait t = true).
Proof.
  induction turns as [|t turns IH] in s |- *; intros Hs; simpl; [split; [done|split; [lia|done]]|].
  destruct (negb (is_ok (rt_Once t)) && rt_Ended t) eqn:E1; simpl.
  { unfold triggerHandoff. rewrite Hs. simpl. split; [done|]. split; [lia|]. intros _. exists t.
    split; [left|]. apply andb_true_iff in E1 as [_ ->]. done. }
  destruct (rt_Ended t || rt_EndedInWait t) eqn:E2; simpl.
  { unfold triggerHandoff. simpl. rewrite Hs. simpl. split; [done|]. split; [lia|]. intros _. exists t. split; [left|done]. }
  specialize (IH (mkRunState (rs_Attempt s + 1) (rs_Handoffs s) (rs_HandoffDone s)) Hs).
  destruct (Run_loop _ turns) as [[ds r] s']. simpl in *. destruct IH as (Hds & Hh & Hret).
  split; [|split; [done|intros Hr; destruct (Hret Hr) as (t' & ? & ?); exists t'; split; [by right|done]]].
  f_equal; [f_equal; lia|]. rewrite Hds at 1. rewrite <- fmap_S_seq, <- list_fmap_compose.
  apply list_fmap_ext. intros i x _. simpl. f_equal. lia.
Qed.

(** *** Commands *)

Section Commands.
Context {RT P C : Type} `{!Runtime RT}.
Local Abbreviation W := (World RT P C).
Context (json_Marshal : Env → res string) (json_Unmarshal : string → res Env).
Context (tunnels : option (TunnelManager W)) (ports : option (PortProvider (RT:=RT) (P:=P) (C:=C))).

(** The lifecycle request a command of the Panel asks for, if it is one. *)
Definition op_of (uuid : string) (cmd : NodeCommand) : option LifecycleOp :=
  if cmd_Action cmd =s "create" then
    let raw := arg cmd "environment" in
    match (if raw =s "" then Ok [] else json_Unmarshal raw) with
    | Ok env => Some (OpCreate uuid (arg cmd "name") (arg cmd "egg_id") (arg cmd "startup_command") env)
    | Err _ => None
    end
  else if cmd_Action cmd =s "start" then Some (OpStart (cmd_ServerId cmd))
  else if cmd_Action cmd =s "stop" then Some (OpStop (cmd_ServerId cmd))
  else if cmd_Action cmd =s "delete" then Some (OpDelete (cmd_ServerId cmd))
  else None.

Lemma dispatch_op uuid cmd (w : W) :
  snd (dispatch json_Marshal json_Unmarshal tunnels ports uuid cmd w) =
  match op_of uuid cmd with
  | Some op => snd (run_lifecycle json_Marshal json_Unmarshal tunnels ports op w)
  | None => w
  end.
Proof.
  unfold dispatch, op_of. destruct (cmd_Action cmd =s "create").
  - set (raw := arg cmd "environment"). unfold mbind at 1, M_bind at 1.
    destruct (raw =s ""); [done|]. unfold lift_res. by destruct (json_Unmarshal raw).
  - destruct (cmd_Action cmd =s "start"); [done|]. destruct (cmd_Action cmd =s "stop"); [done|].
    by destruct (cmd_Action cmd =s "delete").
Qed.

Lemma for_each_ignore {S A} (f : A → M S unit) xs (s : S) :
  for_each (λ x, ignore (f x)) xs s = (Ok tt, foldl (λ s x, snd (f x s)) s xs).
Proof.
  induction xs as [|x xs IH] in s |- *; simpl; [done|]. unfold mbind, M_bind. unfold ignore at 1.
  destruct (f x s) as [r s1]. simpl. apply IH.
Qed.
End Commands.

(** *** Pairing *)

Section Pairing.
Context {RT P C : Type} `{!NodeService P} `{!Crypto}.
Local Abbreviation W := (World RT P C).
Context (yaml_Marshal : Config → res string) (newPlainClient : string → res unit).

(** The files a pairing writes: three absolute paths without links, all different. *)
Definition pair_files (cfg : Config) (configPath : string) : list string :=
  [nc_KeyPath (cf_Node cfg); nc_CertPath (cf_Node cfg); configPath].
Definition paths_ok (cfg : Config) (configPath : string) (t : tree) : Prop :=
  direct (Dir (nc_KeyPath (cf_Node cfg))) ∧ no_link t (comps (Dir (nc_KeyPath (cf_Node cfg)))) ∧
  (∀ p, p ∈ pair_files cfg configPath → direct p ∧ no_link t (comps p)) ∧
  NoDup (comps <$> pair_files cfg configPath).

Definition has_file (t : tree) (p data : string) : Prop := ∃ m, t !! comps p = Some (NFile data m).

(** The driver's own errors are not [sql.ErrNoRows]. *)
Definition driver_faults (d : DB) : Prop :=
  ∀ e, Some e ∈ db_faults d → errors_Is e sql_ErrNoRows = false.

Lemma check_unpaired_spec (w : W) :
  driver_faults (w_db w) →
  wp check_unpaired (λ r w', w' = put_db (w_db w') w ∧ db_nodes (w_db w') = db_nodes (w_db w) ∧
    (is_ok r = true → db_nodes (w_db w) = [])) w.
Proof.
  intros Hdrv. unfold check_unpaired. rewrite wp_bind, wp_try. unfold db. rewrite wp_zoom. unfold wp at 1, GetNode, query.
  destruct (next_fault (db_faults (w_db w))) as [flt fs] eqn:Ef.
  assert (∀ r', is_ok r' = false → put_db (set_faults fs (w_db w)) w = put_db (w_db (put_db (set_faults fs (w_db w)) w)) w ∧
    db_nodes (w_db (put_db (set_faults fs (w_db w)) w)) = db_nodes (w_db w) ∧ (is_ok (A:=unit) r' = true → db_nodes (w_db w) = [])) as Hfail.
  { intros r' ->. done. }
  destruct flt as [e|]; simpl.
  - assert (errors_Is e sql_ErrNoRows = false) as ->; [|by apply Hfail].
    apply Hdrv. destruct (db_faults (w_db w)); simpl in Ef; [done|]. injection Ef as -> _. left.
  - destruct (has_table _ "nodes"); simpl; [|by apply Hfail].
    destruct (db_nodes (w_db w)) as [|n ns] eqn:En; [done|]. simpl. split; [done|]. by split.
Qed.

(** A paired node is refused, whatever the token, before anything is made or sent. *)
Lemma paired_refused panelAddr token nodeName cfg configPath client now (w : W) :
  driver_faults (w_db w) → db_nodes (w_db w) ≠ [] →
  wp (PairWithPanel yaml_Marshal newPlainClient panelAddr token nodeName cfg configPath client now)
    (λ r w', is_ok r = false ∧ w_os w' = w_os w ∧ w_panel w' = w_panel w ∧ db_nodes (w_db w') = db_nodes (w_db w)) w.
Proof.
  intros Hdrv Hn. unfold PairWithPanel. rewrite wp_bind, wp_wrap, wp_lift_res.
  destruct (ValidateFormat token) as [[]|e]; [|done]. rewrite wp_bind.
  eapply wp_mono; [by apply check_unpaired_spec|]. intros r w' (-> & Hd & Hok). destruct r as [[]|e]; [by destruct (Hn (Hok eq_refl))|].
  done.
Qed.

(** What one step of the writing of the files leaves. *)
Lemma WriteFile_ok_file (o o' : OS) p data mode u :
  direct p → no_link (os_tree o) (comps p) → WriteFile p data mode o = (Ok u, o') →
  has_file (os_tree o') p data ∧ (∀ q d, comps q ≠ comps p → has_file (os_tree o) q d → has_file (os_tree o') q d) ∧
  no_new_links (os_tree o) (os_tree o').
Proof.
  intros Hd Hl Hw. destruct u. apply WriteFile_Ok in Hw as [m E]; [|done..]. unfold has_file, no_new_links. rewrite E. split; [|split].
  - exists m. by rewrite lookup_insert_eq.
  - intros q d Hne [m' Hm]. exists m'. by rewrite lookup_insert_ne.
  - intros k tg. rewrite lookup_insert. case_decide; [done|]. auto.
Qed.

(** The record of a pairing. *)
Definition node_of (panelAddr nodeName : string) (cfg : Config) (now : Time) (id : string) : Node :=
  mkNode id nodeName panelAddr (nc_CertPath (cf_Node cfg)) (nc_KeyPath (cf_Node cfg)) now.

(** The steps that write the key and the certificate. *)
Lemma save_keypair_spec {A} cfg configPath priv cert (k : M W A) (w : W) (Q : res A → W → Prop) :
  paths_ok cfg configPath (os_tree (w_os w)) →
  (∀ e o, Q (Err e) (put_os o w)) →
  (∀ o key, MarshalKeyPEM priv = Ok key → has_file (os_tree o) (nc_KeyPath (cf_Node cfg)) key →
    has_file (os_tree o) (nc_CertPath (cf_Node cfg)) cert →
    direct configPath → no_link (os_tree o) (comps configPath) →
    comps (nc_KeyPath (cf_Node cfg)) ≠ comps configPath → comps (nc_CertPath (cf_Node cfg)) ≠ comps configPath →
    wp k Q (put_os o w)) →
  wp (wrap "buat dir cert" [] (os (MkdirAll (Dir (nc_KeyPath (cf_Node cfg)))));;
      os (SaveKey (nc_KeyPath (cf_Node cfg)) priv);;
      os (SaveCert (nc_CertPath (cf_Node cfg)) cert);; k) Q w.
Proof.
  intros (Hdd & Hld & Hp & Hnd) Herr Hok. rewrite wp_bind, wp_wrap. unfold os. rewrite wp_zoom. unfold wp at 1.
  destruct (MkdirAll _ (w_os w)) as [r1 o1] eqn:E1. apply MkdirAll_adds in E1 as [A1%adds_dirs_no_new_links _]; [|done..].
  destruct r1 as [u1|x1]; [|by apply Herr]. simpl.
  assert (∀ p, p ∈ pair_files cfg configPath → direct p ∧ no_link (os_tree o1) (comps p)) as Hp1.
  { intros p Hin. destruct (Hp p Hin). split; [done|]. by eapply no_link_no_new. }
  destruct (Hp1 (nc_KeyPath (cf_Node cfg))) as [K1 K2]; [set_solver +|].
  destruct (Hp1 (nc_CertPath (cf_Node cfg))) as [C1 C2]; [set_solver +|].
  destruct (Hp1 configPath) as [F1 F2]; [set_solver +|].
  assert (comps (nc_KeyPath (cf_Node cfg)) ≠ comps (nc_CertPath (cf_Node cfg)) ∧
    comps (nc_KeyPath (cf_Node cfg)) ≠ comps configPath ∧ comps (nc_CertPath (cf_Node cfg)) ≠ comps configPath) as (Hne & Hne1 & Hne2).
  { simpl in Hnd. apply NoDup_cons in Hnd as [Hnd [Hnd' _]%NoDup_cons].
    split; [|split]; intros Heq; [apply Hnd|apply Hnd|apply Hnd']; rewrite Heq; set_solver +. }
  rewrite wp_bind, wp_zoom. simpl. unfold SaveKey. rewrite wp_bind, wp_lift_res.
  destruct (MarshalKeyPEM priv) as [key|x2] eqn:Ek; [|by apply Herr].
  rewrite wp_wrap. unfold wp at 1. destruct (WriteFile _ key 384 o1) as [r2 o2] eqn:E2.
  destruct r2 as [u2|x2]; [|by apply Herr]. apply WriteFile_ok_file in E2 as (H2 & _ & N2); [|done..]. simpl.
  rewrite wp_bind, wp_zoom. simpl. unfold SaveCert. rewrite wp_wrap. unfold wp at 1. destruct (WriteFile _ cert 384 o2) as [r3 o3] eqn:E3.
  destruct r3 as [[]|x3]; [|by apply Herr]. apply WriteFile_ok_file in E3 as (H3 & H3' & N3); [|done|by eapply no_link_no_new].
  simpl. apply (Hok o3 key); auto. eapply no_link_no_new; [exact N3|]. by eapply no_link_no_new.
Qed.

(** What writing the configuration leaves of other files. *)
Lemma writeConfig_keeps cfg configPath (o o' : OS) r q d :
  direct configPath → no_link (os_tree o) (comps configPath) → comps q ≠ comps configPath →
  writeConfig yaml_Marshal cfg configPath o = (r, o') → has_file (os_tree o) q d → has_file (os_tree o') q d.
Proof.
  intros Hd Hl Hne. unfold writeConfig, wrap, lift_res, mbind, M_bind.
  destruct (yaml_Marshal cfg) as [conf|e]; [|by intros [= _ <-]].
  destruct (WriteFile configPath conf 384 o) as [[u|e] o1] eqn:E; intros [= _ <-] Hq.
  - apply WriteFile_ok_file in E as (_ & Hw & _); [by apply Hw|done..].
  - unfold WriteFile in E. apply syscall_inv in E as [(e' & _ & -> & _)|(a & t & _ & [=] & _)]. done.
Qed.

(** What a pairing ends with: with the node paired, the key and the certificate are in their files,
    the configuration was written last, and its outcome is that of the pairing. *)
Definition pairing_post panelAddr token nodeName cfg configPath now (w : W) (r : res string) (w' : W) : Prop :=
  let node := node_of panelAddr nodeName cfg now in
  let t' := os_tree (w_os w') in
  let paired id written := nr_node <$> db_nodes (w_db w') = [node id] ∧
    ∃ priv key csr resp o, GenerateKey = Ok priv ∧ MarshalKeyPEM priv = Ok key ∧ GenerateCSR priv nodeName = Ok csr ∧
      fst (ns_Pair token nodeName csr (w_panel w)) = Ok resp ∧ id = pr_NodeId resp ∧
      has_file t' (nc_KeyPath (cf_Node cfg)) key ∧ has_file t' (nc_CertPath (cf_Node cfg)) (pr_CertPem resp) ∧
      has_file (os_tree o) (nc_KeyPath (cf_Node cfg)) key ∧ has_file (os_tree o) (nc_CertPath (cf_Node cfg)) (pr_CertPem resp) ∧
      writeConfig yaml_Marshal cfg configPath o = (written, w_os w') in
  match r with
  | Ok id => db_nodes (w_db w) = [] ∧ ValidateFormat token = Ok tt ∧ paired id (Ok tt) ∧
      ∃ conf, yaml_Marshal cfg = Ok conf ∧ has_file t' configPath conf
  | Err e => db_nodes (w_db w') = db_nodes (w_db w) ∨ db_nodes (w_db w) = [] ∧ ∃ id, paired id (Err e)
  end.

Lemma pairing_spec panelAddr token nodeName cfg configPath client now (w : W) :
  driver_faults (w_db w) → paths_ok cfg configPath (os_tree (w_os w)) →
  wp (PairWithPanel yaml_Marshal newPlainClient panelAddr token nodeName cfg configPath client now)
    (pairing_post panelAddr token nodeName cfg configPath now w) w.
Proof.
  intros Hdrv Hpaths. set (Q := pairing_post panelAddr token nodeName cfg configPath now w).
  set (node := node_of panelAddr nodeName cfg now).
  assert (∀ e w', db_nodes (w_db w') = db_nodes (w_db w) → Q (Err e) w') as Hsame by by left.
  assert (∀ r w', pairing_post panelAddr token nodeName cfg configPath now w r w' → Q r w') as HQ by done. clearbody Q.
  unfold PairWithPanel. rewrite wp_bind, wp_wrap, wp_lift_res.
  destruct (ValidateFormat token) as [[]|e] eqn:Et; [|by apply Hsame]. rewrite wp_bind.
  eapply wp_mono; [by apply check_unpaired_spec|]. intros r w1 (E1 & Hd1 & Hok). destruct r as [[]|e]; [|by apply Hsame].
  specialize (Hok eq_refl). set (d1 := w_db w1) in *. clearbody d1. subst w1.
  rewrite wp_bind, wp_lift_res. destruct GenerateKey as [priv|e] eqn:Egen; [|by apply Hsame].
  rewrite wp_bind, wp_lift_res. destruct (GenerateCSR priv nodeName) as [csr|e] eqn:Ecsr; [|by apply Hsame].
  rewrite wp_bind. assert (∀ Q' : res unit → W → Prop, Q' (Ok tt) (put_db d1 w) → (∀ e, Q' (Err e) (put_db d1 w)) →
    wp (if client then mret tt else wrap "dial panel" [] (lift_res (newPlainClient panelAddr))) Q' (put_db d1 w)) as Hdial.
  { intros Q' H1 H2. destruct client; [done|]. rewrite wp_wrap, wp_lift_res. destruct (newPlainClient _) as [[]|]; [done|apply H2]. }
  apply Hdial; [|intros e; by apply Hsame]. clear Hdial. rewrite wp_bind, wp_wrap. unfold panel. rewrite wp_zoom. unfold wp at 1. simpl.
  destruct (ns_Pair token nodeName csr (w_panel w)) as [[resp|e] p'] eqn:Ep; [|by apply Hsame]. simpl.
  apply save_keypair_spec with (configPath := configPath); [done|intros e o; by apply Hsame|]. intros o key Ekey Hk Hc Hcd Hcl Hn1 Hn2.
  rewrite wp_bind, wp_wrap. unfold db. rewrite wp_zoom. unfold wp at 1. simpl.
  destruct (SaveNode _ d1) as [r2 d2] eqn:Es. destruct r2 as [[]|e]; [|apply Hsame; simpl; apply exec_Err in Es; by subst].
  assert (nr_node <$> db_nodes d2 = [node (pr_NodeId resp)]) as Hnode.
  { apply exec_Ok in Es as (fs & Es & _ & _). unfold node_exists in Es. simpl in Es. rewrite Hd1, Hok in Es. simpl in Es.
    injection Es as <-. simpl. by rewrite Hd1, Hok. }
  rewrite wp_bind. unfold os. rewrite wp_zoom. cbn [w_os put_os put_db]. unfold wp at 1.
  destruct (writeConfig yaml_Marshal cfg configPath o) as [r3 o3] eqn:E3. cbn [fst snd].
  assert (has_file (os_tree o3) (nc_KeyPath (cf_Node cfg)) key ∧
    has_file (os_tree o3) (nc_CertPath (cf_Node cfg)) (pr_CertPem resp)) as [Hk3 Hc3] by (split; by eapply writeConfig_keeps).
  assert (fst (ns_Pair token nodeName csr (w_panel w)) = Ok resp) as Ep' by by rewrite Ep.
  destruct r3 as [[]|e].
  2:{ apply HQ. right. split; [done|]. exists (pr_NodeId resp). split; [exact Hnode|]. exists priv, key, csr, resp, o. by split_and!. }
  rewrite wp_ret. apply HQ. split; [done|]. split; [done|]. split; [split; [exact Hnode|exists priv, key, csr, resp, o; by split_and!]|].
  unfold writeConfig in E3. apply bind_inv in E3 as (conf & o4 & H4 & H5). apply wrap_inv in H4, H5.
  injection H4 as Hy <-. apply WriteFile_ok_file in H5 as (H5 & _); [|done..]. by exists conf.
Qed.
End Pairing.

(** ** Properties *)

(** C30.  The back-off of the agent is [2^attempt] seconds, at most 30: the shift of the code
    wraps around after 34 attempts, but never to a delay between zero and the maximum. *)
Theorem ComputeBackoff_spec attempt :
  0 ≤ attempt → ComputeBackoff attempt = Z.min (2 ^ attempt * time_Second) (30 * time_Second).
Proof.
  intros Ha. unfold ComputeBackoff. rewrite Z.shiftl_mul_pow2 by done. rewrite (Z.mul_comm (2 ^ attempt)).
  assert (time_Second = 2 ^ 9 * 1953125) as Hsec by reflexivity.
  assert (0 < 2 ^ attempt) as Hpos by (by apply Z.pow_pos_nonneg).
  destruct (Z.le_gt_cases attempt 33) as [Hle|Hgt].
  - assert (time_Second * 2 ^ attempt < 2 ^ 63).
    { assert (2 ^ attempt ≤ 2 ^ 33) by (apply Z.pow_le_mono_r; lia). change (2 ^ 33) with 8589934592 in *.
      unfold time_Second. change (2 ^ 63) with 9223372036854775808. lia. }
    rewrite wrap64_id by (unfold in_int64, time_Second in *; lia). unfold time_Second in *.
    destruct (Z.leb_spec (1000000000 * 2 ^ attempt) 0), (Z.ltb_spec (30 * 1000000000) (1000000000 * 2 ^ attempt)); simpl; lia.
  - assert (2 ^ 34 ≤ 2 ^ attempt) as Hbig by (apply Z.pow_le_mono_r; lia). change (2 ^ 34) with 17179869184 in *.
    rewrite Z.min_r by (unfold time_Second; lia).
    assert (∃ q, wrap64 (time_Second * 2 ^ attempt) = 2 ^ 43 * q) as [q ->].
    { unfold wrap64. exists (1953125 * 2 ^ (attempt - 34) - 2 ^ 21 * ((time_Second * 2 ^ attempt + 2 ^ 63) / 2 ^ 64)).
      rewrite (Z.mod_eq _ (2 ^ 64)) by done. rewrite Hsec.
      replace (2 ^ attempt) with (2 ^ 34 * 2 ^ (attempt - 34)) by (rewrite <- Z.pow_add_r; [f_equal; lia|lia..]).
      change (2 ^ 64) with (2 ^ 43 * 2 ^ 21). change (2 ^ 43) with (2 ^ 9 * 2 ^ 34). ring. }
    change (2 ^ 43) with 8796093022208. unfold time_Second.
    destruct (Z.leb_spec (8796093022208 * q) 0), (Z.ltb_spec (30 * 1000000000) (8796093022208 * q)); simpl; lia.
Qed.

Lemma ComputeBackoff_spec_witness : ComputeBackoff 40 = 30 * time_Second.
Proof. rewrite (ComputeBackoff_spec 40 ltac:(discriminate)). reflexivity. Defined.

(** The commands of the Panel are the lifecycle's requests: whatever commands arrive and
    however the stream ends, the daemon ends in the state in which the lifecycle has served,
    one after the other and each once, exactly the requests that the commands spell; an unknown
    or malformed command changes nothing, and a failed one does not stop those after it. *)
Theorem command_stream_refines {RT P C : Type} `{!Runtime RT} json_Marshal json_Unmarshal
    (cmds : list (string * NodeCommand)) (last : stream_end) 
    (tunnels : option (TunnelManager (World RT P C))) ports (w : World RT P C) :
  snd (RunCommandStream json_Marshal json_Unmarshal tunnels ports (Ok tt) cmds last w) =
  snd (for_each (λ op, ignore (run_lifecycle json_Marshal json_Unmarshal tunnels ports op))
    (omap (λ uc, op_of json_Unmarshal uc.1 uc.2) cmds) w).
Proof.
  unfold RunCommandStream. unfold mbind at 1, M_bind at 1. simpl. unfold mbind, M_bind.
  rewrite !for_each_ignore. simpl.
  assert (∀ w : World RT P C, foldl (λ s uc, snd (dispatch json_Marshal json_Unmarshal tunnels ports uc.1 uc.2 s)) w cmds =
    foldl (λ s op, snd (run_lifecycle json_Marshal json_Unmarshal tunnels ports op s)) w (omap (λ uc, op_of json_Unmarshal uc.1 uc.2) cmds)) as Hfold.
  { clear w. induction cmds as [|[u c] cmds IH]; intros w; csimpl; [done|].
    rewrite IH, dispatch_op. simpl. by destruct (op_of json_Unmarshal u c). }
  rewrite Hfold. by destruct last.
Qed.

(** C29. A pairing is recorded once, and completely.  It succeeds only for a well-formed token on
    a node that is not paired; it then leaves one node record, with the identifier the Panel
    gave, and the key, the Panel's certificate and the configuration in their files.  A failed
    pairing leaves the node records as they were, with one exception: when the key and the
    certificate are in their files and the error is that of the writing of the configuration,
    the node is recorded; every later pairing is then refused without touching a file or the
    Panel. *)
Theorem pairing_outcome {RT P C : Type} `{!NodeService P} `{!Crypto} yaml_Marshal newPlainClient
    panelAddr token nodeName cfg configPath client now (w : World RT P C) r w' :
  driver_faults (w_db w) → paths_ok cfg configPath (os_tree (w_os w)) →
  PairWithPanel yaml_Marshal newPlainClient panelAddr token nodeName cfg configPath client now w = (r, w') →
  pairing_post yaml_Marshal panelAddr token nodeName cfg configPath now w r w' ∧
  ∀ token' nodeName' client' now' (w2 : World RT P C),
    db_nodes (w_db w2) = db_nodes (w_db w') → driver_faults (w_db w2) → db_nodes (w_db w') ≠ [] →
    let '(r3, w3) := PairWithPanel yaml_Marshal newPlainClient panelAddr token' nodeName' cfg configPath client' now' w2 in
    is_ok r3 = false ∧ w_os w3 = w_os w2 ∧ w_panel w3 = w_panel w2.
Proof.
  intros Hdrv Hpaths Hrun. split.
  - exact (wp_run _ _ _ _ _ (pairing_spec yaml_Marshal newPlainClient panelAddr token nodeName cfg configPath client now w Hdrv Hpaths) Hrun).
  - intros token' nodeName' client' now' w2 Hn Hd2 Hne. rewrite <- Hn in Hne.
    pose proof (paired_refused yaml_Marshal newPlainClient panelAddr token' nodeName' cfg configPath client' now' w2 Hd2 Hne) as W.
    unfold wp in W. destruct (PairWithPanel _ _ _ _ _ _ _ _ _ w2) as [r3 w3]. by destruct W as (? & ? & ? & _).
Qed.

(** ** Witnesses *)

#[local] Instance toy_crypto : Crypto := {
  ed25519_GenerateKey := Ok "priv"; x509_MarshalPKCS8PrivateKey k := Ok k;
  x509_CreateCertificateRequest cn k := Ok cn; x509_CreateCertificate t k := Ok (ct_CommonName t);
  pem_EncodeToMemory kind der := kind +:+ der; tls_X509KeyPair c k := Ok (c +:+ k); x509_AppendCertsFromPEM p := Some p }.

(** A Panel that counts the nodes it has paired. *)
#[local] Instance toy_panel : NodeService nat := {
  ns_Heartbeat _ _ := mret tt;
  ns_Pair token name csr := λ n, (Ok (mkPairingResponse "node-1" "CERT"), S n) }.

Definition pair_world (os_fs : list (option string)) : World fake nat unit :=
  mkWorld fresh_db NewEventBus
    (mkOS (list_to_map [(["etc"], NDir); (["etc"; "oikos"], NDir); (["etc"; "oikos"; "certs"], NDir)]) [] [] os_fs)
    NewFake 0%nat tt ∅ false ∅.

Definition good_token : string := Nat.iter 64 (String.append "a") "".

Local Abbreviation pair := (PairWithPanel (C:=unit) (RT:=fake) (λ _, Ok "yaml") (λ _, Ok tt) "panel" good_token "n" Default "/etc/oikos/config.yaml" true 7).

(** The fourth call of the system, the writing of the configuration, fails. *)
Lemma pairing_outcome_witness :
  let w := pair_world [None; None; None; Some "ENOSPC"] in
  let w' := snd (pair w) in
  is_ok (fst (pair w)) = false ∧ (nd_ID ∘ nr_node) <$> db_nodes (w_db w') = ["node-1"] ∧
  is_ok (fst (pair w')) = false ∧ w_panel (snd (pair w')) = 1%nat.
Proof.
  cbv zeta. set (w := pair_world [None; None; None; Some "ENOSPC"]).
  assert (driver_faults (w_db w)) as Hd by (intros e He; simpl in He; by apply elem_of_nil in He).
  assert (paths_ok Default "/etc/oikos/config.yaml" (os_tree (w_os w))) as Hp.
  { assert (∀ p, p ∈ (Dir "/etc/oikos/certs/node.key" :: pair_files Default "/etc/oikos/config.yaml") →
      direct p ∧ no_link (os_tree (w_os w)) (comps p)) as H.
    { apply Forall_forall. repeat apply Forall_cons_2; [..|apply Forall_nil_2].
      all: split; [split; [reflexivity|vm_compute; repeat constructor; discriminate]|].
      all: intros q c tg _; apply no_links_check; vm_compute; reflexivity. }
    split; [apply H; left|]. split; [apply H; left|]. split; [intros p Hin; apply H; by right|].
    vm_compute. repeat constructor; set_solver. }
  destruct (pair w) as [r w'] eqn:E.
  destruct (pairing_outcome (λ _, Ok "yaml") (λ _, Ok tt) "panel" good_token "n" Default "/etc/oikos/config.yaml" true 7 w r w' Hd Hp E) as [_ T].
  assert (is_ok r = false ∧ (nd_ID ∘ nr_node) <$> db_nodes (w_db w') = ["node-1"] ∧ w_panel w' = 1%nat ∧ db_faults (w_db w') = []) as (H1 & H2 & H3 & H4).
  { replace r with (fst (pair w)) by (by rewrite E). replace w' with (snd (pair w)) by (by rewrite E). vm_compute. auto. }
  cbn [fst snd]. split; [exact H1|]. split; [exact H2|].
  specialize (T good_token "n" true 7 w' eq_refl).
  destruct (pair w') as [r3 w3]. destruct T as (T1 & _ & T3).
  - intros e He. rewrite H4 in He. by apply elem_of_nil in He.
  - intros Hn. rewrite Hn in H2. discriminate H2.
  - split; [exact T1|]. cbn [snd]. rewrite T3. exact H3.
Defined.
