(* ===== verification/Observability.v ===== *)
(** * Health, logs and metrics ([internal/observability])

    Probes are computations over the state they look at; the Prometheus registry is the
    gauges registered with it; the HTTP server is its routing table. *)

From S2P Require Import Prelude GoLib Config Store Runtime.
From Stdlib Require Import QArith.
Open Scope Z_scope.

(** ** Definitions *)

(** *** [health.go] *)

Inductive HealthStatus := Healthy | Degraded | Unhealthy.

#[global] Instance HealthStatus_eq_dec : EqDecision HealthStatus.
Proof. solve_decision. Defined.

(** [Status] is ["healthy"] or ["unhealthy"]; the error is kept unrendered. *)
Record Check := mkCheck { ck_Name : string; ck_Status : string; ck_Error : option error }.
Record HealthReport := mkHealthReport { hr_Status : HealthStatus; hr_Checks : list Check; hr_Timestamp : Time }.

Definition Probe (S : Type) : Type := M S unit.

(** [h.probes] *)
Abbreviation HealthChecker S := (gmap string (Probe S)).

Section Health.
Context {S : Type}.

Definition HealthyProbe : Probe S := mret tt.

Definition probe_names (h : HealthChecker S) : list string := isort String.leb (map_to_list h).*1.

(** The loop over the names. *)
Fixpoint run_checks (h : HealthChecker S) (names : list string) : M S (list Check) :=
  match names with
  | [] => mret []
  | name :: names =>
      r ← try (match h !! name with Some probe => probe | None => mret tt end);
      let check := match r with
                   | Ok _ => mkCheck name "healthy" None
                   | Err e => mkCheck name "unhealthy" (Some e)
                   end in
      rest ← run_checks h names;
      mret (check :: rest)
  end.

Definition failed_check (c : Check) : bool := ck_Status c =s "unhealthy".
Definition failures (checks : list Check) : Z := Z.of_nat (length (filter (λ c, failed_check c = true) checks)).

Definition report_status (checks : list Check) : HealthStatus :=
  if 0 <? failures checks then
    if (failures checks =? 1) && (length checks =? 3)%nat &&
       existsb (λ c, (ck_Name c =s "panel") && failed_check c) checks
    then Degraded else Unhealthy
  else Healthy.

Definition HealthChecker_Check (h : HealthChecker S) (now : Time) : M S HealthReport :=
  checks ← run_checks h (probe_names h);
  mret (mkHealthReport (report_status checks) checks now).

(** [HealthHandler]: the status code, and the report as the body. *)
Definition HealthHandler (h : HealthChecker S) (now : Time) : M S (Z * HealthReport) :=
  report ← HealthChecker_Check h now;
  mret (if bool_decide (hr_Status report = Unhealthy) then 503 else 200, report).
End Health.

(** *** [http.go] *)

Inductive Target := MetricsTarget | HealthTarget | PluginsTarget.

(** [mux.Handle] panics, [None], for an empty pattern and one that is registered. *)
Definition mux_Handle (pattern : string) (t : Target) (mux : gmap string Target) : option (gmap string Target) :=
  if pattern =s "" then None
  else match mux !! pattern with Some _ => None | None => Some (<[pattern := t]> mux) end.

Definition NewHTTPServerWithPlugins (cfg : ObservabilityConfig) (plugins : bool) : option (gmap string Target) :=
  mux ← mux_Handle (oc_MetricsPath cfg) MetricsTarget ∅;
  mux ← mux_Handle (oc_HealthPath cfg) HealthTarget mux;
  if plugins then mux_Handle "/plugins/" PluginsTarget mux else Some mux.

Definition NewHTTPServer (cfg : ObservabilityConfig) : option (gmap string Target) := NewHTTPServerWithPlugins cfg false.

(** *** [logger.go] *)

Inductive Level := InfoLevel | WarnLevel | ErrorLevel.

(** A logger is the fields that it adds to every line. *)
Definition Logger : Type := list (string * string).
Record LogLine := mkLogLine { ll_Level : Level; ll_Message : string; ll_Fields : list (string * string) }.

Definition NewLogger (component : string) : Logger := [("component", component)].

Definition WithServer (l : Logger) (serverID : string) : Logger :=
  if serverID =s "" then l else l ++ [("server_id", serverID)].

Definition sensitive_words : list string := ["token"; "secret"; "password"; "private_key"; "credential"; "key"].

Definition isSecretKey (key : string) : bool :=
  existsb (λ w, (ToLower key =s w) || Contains (ToLower key) w) sensitive_words.

Definition redacted : string := "[REDACTED]".

(** Pairs of arguments; an odd last one is dropped. *)
Fixpoint write_fields (fields : list string) : list (string * string) :=
  match fields with
  | key :: value :: fields => (key, if isSecretKey key then redacted else value) :: write_fields fields
  | _ => []
  end.

Definition Logger_write (l : Logger) (level : Level) (message : string) (fields : list string) : LogLine :=
  mkLogLine level message (l ++ write_fields fields).
Definition Logger_Info (l : Logger) : string → list string → LogLine := Logger_write l InfoLevel.
Definition Logger_Warn (l : Logger) : string → list string → LogLine := Logger_write l WarnLevel.
Definition Logger_Error (l : Logger) : string → list string → LogLine := Logger_write l ErrorLevel.

Definition RedactSecret (value : string) : string := if value =s "" then value else redacted.

(** *** [metrics.go], [runtime_provider.go] *)

Record ServerMetric := mkServerMetric { sm_ID : string; sm_Status : string; sm_CPU : Q; sm_MemoryBytes : Z }.
Record TunnelMetric := mkTunnelMetric { tm_ServerID : string; tm_Status : string }.

(** [SnapshotProvider] *)
Class SnapshotProvider (S : Type) := { Snapshot : M S (list ServerMetric * list TunnelMetric) }.

(** [StaticSnapshotProvider] *)
Record StaticProvider := mkStaticProvider { sp_Servers : list ServerMetric; sp_Tunnels : list TunnelMetric }.
Definition static_snapshot : SnapshotProvider StaticProvider := {|
  Snapshot := gets (λ p, (sp_Servers p, sp_Tunnels p)) |}.
#[global] Existing Instance static_snapshot.

Section RuntimeProvider.
Context {RT : Type} `{!Runtime RT}.

(** The metric of a server; [None] is a provider without an engine. *)
Definition server_metric (s : Server) : M (DB * option RT) ServerMetric := λ w,
  match w.2 with
  | Some rt =>
      if negb (sv_ContainerID s =s "") then
        let '(r, rt) := rt_Stats (sv_ContainerID s) rt in
        (match r with
         | Err e => Err e
         | Ok stats => Ok (mkServerMetric (sv_ID s) (sv_Status s) (st_CPUPercent stats)
                             (wrap64 (wrap64 (st_MemoryUsedMB stats * 1024) * 1024)))
         end, (w.1, Some rt))
      else (Ok (mkServerMetric (sv_ID s) (sv_Status s) 0 0), w)
  | None => (Ok (mkServerMetric (sv_ID s) (sv_Status s) 0 0), w)
  end.

Fixpoint server_metrics (ss : list Server) : M (DB * option RT) (list ServerMetric) :=
  match ss with
  | [] => mret []
  | s :: ss => m ← server_metric s; rest ← server_metrics ss; mret (m :: rest)
  end.

Definition RuntimeSnapshot : M (DB * option RT) (list ServerMetric * list TunnelMetric) :=
  servers ← zoom fst (λ d w, (d, w.2)) ListServers;
  out ← server_metrics servers;
  rows ← zoom fst (λ d w, (d, w.2)) ListTunnelsForMetrics;
  mret (out, (λ r, mkTunnelMetric (mt_ServerID r) (mt_Status r)) <$> rows).

Definition runtime_snapshot : SnapshotProvider (DB * option RT) := {| Snapshot := RuntimeSnapshot |}.
#[global] Existing Instance runtime_snapshot.
End RuntimeProvider.

Record Metrics := mkMetrics {
  me_servers : list ServerMetric; me_tunnels : list TunnelMetric; me_lastErr : option error; me_started : Z }.

Definition NewMetrics (now : Z) : Metrics := mkMetrics [] [] None now.

Section Metrics.
Context {S : Type} `{!SnapshotProvider S}.

Definition Refresh : M (Metrics * S) unit := λ ms,
  let '(m, s) := ms in
  match Snapshot s with
  | (Err e, s) => (Err (Errorw "refresh metrics" [] e), (mkMetrics (me_servers m) (me_tunnels m) (Some e) (me_started m), s))
  | (Ok (servers, tunnels), s) => (Ok tt, (mkMetrics servers tunnels None (me_started m), s))
  end.
End Metrics.

(** The gauges a handler serves. *)
Record Gauges := mkGauges {
  ga_servers : gmap string Z;                       (* oikos_servers_total, by status *)
  ga_cpu : gmap string Q; ga_memory : gmap string Z; (* by server *)
  ga_tunnels : gset (string * string);              (* the label pairs set to 1 *)
  ga_started : Z }.                                 (* the uptime is taken when it is served *)

(** [SnapshotHandler] copies the snapshot when it is called. *)
Definition SnapshotHandler (m : Metrics) : Gauges :=
  mkGauges
    (foldl (λ g s, <[sm_Status s := default 0 (g !! sm_Status s) + 1]> g) ∅ (me_servers m))
    (foldl (λ g s, <[sm_ID s := sm_CPU s]> g) ∅ (me_servers m))
    (foldl (λ g s, <[sm_ID s := sm_MemoryBytes s]> g) ∅ (me_servers m))
    (list_to_set ((λ t, (tm_ServerID t, tm_Status t)) <$> me_tunnels m))
    (me_started m).
Definition Metrics_Handler : Metrics → Gauges := SnapshotHandler.

(** *** [scheduler.go] *)

Record Scheduler := mkScheduler {
  sc_Metrics : bool; sc_Health : bool; sc_MetricsInterval : Z; sc_HealthInterval : Z }.

(** The intervals [Run] ticks with. *)
Definition Scheduler_intervals (s : Scheduler) : Z * Z :=
  let interval d := if d <=? 0 then 15 * time_Second else d in
  (interval (sc_MetricsInterval s), interval (sc_HealthInterval s)).

Inductive Tick := MetricsTick | HealthTick.

Section Scheduler.
Context {S : Type} `{!SnapshotProvider S} (h : HealthChecker (Metrics * S)).

Definition scheduler_turn (s : Scheduler) (t : Tick) : M (Metrics * S) unit :=
  match t with
  | MetricsTick => if sc_Metrics s then ignore Refresh else mret tt
  | HealthTick => if sc_Health s then ignore (HealthChecker_Check h 0) else mret tt
  end.

(** The ticks until the context ends. *)
Definition Scheduler_Run (s : Scheduler) (ticks : list Tick) : M (Metrics * S) unit :=
  for_each (scheduler_turn s) ticks;;
  fail (ESentinel context_Canceled).
End Scheduler.
