(* ===== verification/ObservabilitySpec.v ===== *)
(** * What health reports, logs and metrics promise

    A report against the set of the probes that fail, redaction, and what a scrape can and
    cannot see. *)

From S2P Require Import Prelude GoLib Config Store Runtime Observability.
From Stdlib Require Import QArith.
Open Scope Z_scope.

(** ** Definitions *)

Section Health.
Context {S : Type}.

(** The names of the probes that fail in [s]. *)
Definition failing (h : HealthChecker S) (s : S) : gset string :=
  dom (filter (λ np : string * Probe S, is_ok (fst (np.2 s)) = false) h).

(** The reference: three probes of which only the Panel's fails are a degraded node. *)
Definition expected_status (h : HealthChecker S) (s : S) : HealthStatus :=
  if bool_decide (failing h s = ∅) then Healthy
  else if bool_decide (failing h s = {["panel"]} ∧ size h = 3%nat) then Degraded
  else Unhealthy.

(** Probes that only look. *)
Definition looks_only (h : HealthChecker S) (s : S) : Prop := ∀ name p, h !! name = Some p → snd (p s) = s.

(** ** Lemmas *)

Definition check_of (h : HealthChecker S) (s : S) (name : string) : Check :=
  match h !! name with
  | Some p => match fst (p s) with
              | Ok _ => mkCheck name "healthy" None
              | Err e => mkCheck name "unhealthy" (Some e)
              end
  | None => mkCheck name "healthy" None
  end.

Lemma run_checks_spec h s names : looks_only h s → run_checks h names s = (Ok (check_of h s <$> names), s).
Proof.
  intros Hl. induction names as [|n names IH]; [done|]. simpl. unfold mbind, M_bind, try. unfold check_of at 1.
  destruct (h !! n) as [p|] eqn:E.
  - specialize (Hl n p E). destruct (p s) as [r s1]. simpl in Hl |- *. subst s1. rewrite IH. by destruct r.
  - simpl. by rewrite IH.
Qed.

Lemma failed_check_of h s name : failed_check (check_of h s name) = true ↔ name ∈ failing h s.
Proof.
  unfold failing. rewrite elem_of_dom. unfold is_Some. setoid_rewrite map_lookup_filter_Some. unfold check_of, failed_check.
  destruct (h !! name) as [p|]; simpl.
  - destruct (fst (p s)) eqn:E; simpl; split.
    + done.
    + intros (x & [= <-] & Hx). rewrite E in Hx. done.
    + intros _. exists p. split; [done|]. by rewrite E.
    + done.
  - split; [done|]. by intros (x & ? & _).
Qed.

Lemma ck_Name_check_of h s name : ck_Name (check_of h s name) = name.
Proof. unfold check_of. destruct (h !! name) as [p|]; [|done]. by destruct (fst (p s)). Qed.

Lemma probe_names_perm (h : HealthChecker S) : probe_names h ≡ₚ (map_to_list h).*1.
Proof. apply isort_perm. Qed.

Lemma NoDup_probe_names (h : HealthChecker S) : NoDup (probe_names h).
Proof. rewrite probe_names_perm. apply NoDup_fst_map_to_list. Qed.

Lemma elem_of_probe_names (h : HealthChecker S) name : name ∈ probe_names h ↔ is_Some (h !! name).
Proof.
  rewrite probe_names_perm, list_elem_of_fmap. split.
  - intros ([n p] & -> & H%elem_of_map_to_list). eauto.
  - intros [p Hp]. exists (name, p). by rewrite elem_of_map_to_list.
Qed.

Lemma length_probe_names (h : HealthChecker S) : length (probe_names h) = size h.
Proof. rewrite probe_names_perm, length_fmap. apply length_map_to_list. Qed.

(** The failed checks are the failing probes, each once. *)
Lemma failures_size h s : failures (check_of h s <$> probe_names h) = Z.of_nat (size (failing h s)).
Proof.
  unfold failures. f_equal.
  assert (filter (λ c, failed_check c = true) (check_of h s <$> probe_names h) =
    check_of h s <$> filter (λ n, n ∈ failing h s) (probe_names h)) as ->.
  { induction (probe_names h) as [|n ns IH]; [done|]. rewrite fmap_cons, !filter_cons, IH.
    destruct (decide (n ∈ failing h s)) as [Hn|Hn].
    - rewrite decide_True; [done|]. by apply failed_check_of.
    - rewrite decide_False; [done|]. intros Hc. by apply Hn, (failed_check_of h s). }
  rewrite length_fmap, <- (size_list_to_set (C:=gset string)) by apply NoDup_filter, NoDup_probe_names. f_equal.
  apply set_eq. intros n. rewrite elem_of_list_to_set, list_elem_of_filter, elem_of_probe_names. split; [by intros [? _]|].
  intros Hn. split; [done|]. unfold failing in Hn. apply elem_of_dom in Hn as [p Hp]. apply map_lookup_filter_Some in Hp as [Hp _]. eauto.
Qed.

Lemma panel_failed h s :
  existsb (λ c, (ck_Name c =s "panel") && failed_check c) (check_of h s <$> probe_names h) = true ↔ "panel" ∈ failing h s.
Proof.
  rewrite existsb_exists. split.
  - intros (c & (n & -> & _)%list_elem_of_In%list_elem_of_fmap & [Hn%String.eqb_eq Hf]%andb_true_iff).
    rewrite ck_Name_check_of in Hn. subst n. by apply failed_check_of in Hf.
  - intros Hp. exists (check_of h s "panel"). split.
    + apply list_elem_of_In, list_elem_of_fmap_2, elem_of_probe_names. unfold failing in Hp. apply elem_of_dom in Hp as [p Hp].
      apply map_lookup_filter_Some in Hp as [Hp _]. eauto.
    + rewrite ck_Name_check_of. by apply failed_check_of in Hp as ->.
Qed.

Lemma report_status_spec h s : report_status (check_of h s <$> probe_names h) = expected_status h s.
Proof.
  unfold report_status, expected_status. rewrite failures_size, length_fmap, length_probe_names.
  case_bool_decide as He; [by rewrite He, size_empty|].
  assert (size (failing h s) ≠ 0%nat) as Hne by (by intros ?%size_empty_inv%leibniz_equiv).
  destruct (Z.ltb_spec 0 (Z.of_nat (size (failing h s)))); [|lia].
  assert (((Z.of_nat (size (failing h s)) =? 1) && (size h =? 3)%nat &&
    existsb (λ c, (ck_Name c =s "panel") && failed_check c) (check_of h s <$> probe_names h)) =
    bool_decide (failing h s = {["panel"]} ∧ size h = 3%nat)) as ->.
  { apply eq_true_iff_eq. rewrite bool_decide_eq_true, !andb_true_iff, panel_failed, Z.eqb_eq, Nat.eqb_eq. split.
    - intros [[Hs Hz] Hp]. split; [|done]. assert (size (failing h s) = 1%nat) as Hs1 by lia.
      apply size_1_elem_of in Hs1 as [x Hx%leibniz_equiv]. rewrite Hx in Hp |- *. by apply elem_of_singleton in Hp as ->.
    - intros [-> Hz]. rewrite size_singleton. split; [done|]. by apply elem_of_singleton. }
  by case_bool_decide.
Qed.
End Health.

(** *** Logs *)

(** What a line says under a key that names a secret is not the value that was passed. *)
Lemma write_fields_redacts fields k v : (k, v) ∈ write_fields fields → isSecretKey k = true → v = redacted.
Proof.
  assert (∀ n l, (length l < n)%nat → (k, v) ∈ write_fields l → isSecretKey k = true → v = redacted) as H; [|eauto].
  induction n as [|n IH]; intros l Hl; [lia|]. destruct l as [|a [|b l]]; [by intros Hin%elem_of_nil..|]. simpl in Hl.
  simpl. intros [[= -> ->]|Hin]%elem_of_cons Hk; [by rewrite Hk|]. apply (IH l); [lia|done|done].
Qed.

(** *** Metrics *)

(** A refresh that fails keeps the snapshot; one that succeeds installs what the provider gave. *)
Lemma Refresh_spec {S} `{!SnapshotProvider S} m (s : S) :
  let '(r, (m', s')) := Refresh (m, s) in
  s' = snd (Snapshot s) ∧ me_started m' = me_started m ∧
  match fst (Snapshot s) with
  | Ok (servers, tunnels) => r = Ok tt ∧ me_servers m' = servers ∧ me_tunnels m' = tunnels
  | Err e => is_ok r = false ∧ me_servers m' = me_servers m ∧ me_tunnels m' = me_tunnels m ∧ me_lastErr m' = Some e
  end.
Proof. unfold Refresh. by destruct (Snapshot s) as [[[servers tunnels]|e] s']. Qed.

(** A handler that is made before the first refresh serves an empty snapshot for ever. *)
Lemma early_handler_is_empty now : Metrics_Handler (NewMetrics now) = mkGauges ∅ ∅ ∅ ∅ now.
Proof. done. Qed.

(** The gauge of a status counts the servers of that status. *)
Lemma servers_total_counts m st :
  default 0 (ga_servers (SnapshotHandler m) !! st) =
  Z.of_nat (length (filter (λ s, sm_Status s = st) (me_servers m))).
Proof.
  simpl. assert (∀ l (g : gmap string Z), default 0 (foldl (λ g s, <[sm_Status s := default 0 (g !! sm_Status s) + 1]> g) g l !! st) =
    default 0 (g !! st) + Z.of_nat (length (filter (λ s, sm_Status s = st) l))) as H.
  { induction l as [|s l IH]; intros g; simpl; [lia|]. rewrite IH, filter_cons, lookup_insert.
    destruct (decide (sm_Status s = st)) as [->|Hne]; simpl; lia. }
  rewrite H, lookup_empty. simpl. lia.
Qed.

(** One container whose statistics cannot be read leaves the whole snapshot out. *)
Lemma one_bad_container_hides_all {RT} `{!Runtime RT} ss1 s ss2 (w : DB * option RT) :
  (∀ w : DB * option RT, is_ok (fst (server_metric s w)) = false) →
  is_ok (fst (server_metrics (ss1 ++ s :: ss2) w)) = false.
Proof.
  intros Hs. induction ss1 as [|x xs IH] in w |- *; simpl; unfold mbind, M_bind.
  - specialize (Hs w). by destruct (server_metric s w) as [[m|e] w1].
  - destruct (server_metric x w) as [[m|e] w1]; [|done]. specialize (IH w1).
    by destruct (server_metrics (xs ++ s :: ss2) w1) as [[l|e] w2].
Qed.

(** ** Properties *)

(** C31.  A health report says what the probes find: one check for each probe, in the order of
    the names; and the verdict depends only on the set of the probes that fail: none, and the
    node is healthy; the Panel's alone among three, and it is degraded; otherwise it is
    unhealthy, which alone the endpoint answers with status 503. *)
Theorem health_report_spec {S} (h : HealthChecker S) (now : Time) (s : S) :
  looks_only h s →
  ∃ report, HealthHandler h now s = (Ok (if bool_decide (expected_status h s = Unhealthy) then 503 else 200, report), s) ∧
    hr_Status report = expected_status h s ∧
    ck_Name <$> hr_Checks report = probe_names h ∧
    (∀ name, is_Some (h !! name) ↔ name ∈ probe_names h) ∧ NoDup (probe_names h) ∧
    ∀ c, c ∈ hr_Checks report → (failed_check c = true ↔ ck_Name c ∈ failing h s).
Proof.
  intros Hl. unfold HealthHandler, HealthChecker_Check, mbind, M_bind. rewrite run_checks_spec by done. simpl.
  rewrite report_status_spec. eexists. split; [done|]. simpl. split; [done|].
  split; [|split; [|split; [apply NoDup_probe_names|]]].
  - rewrite <- list_fmap_compose. rewrite <- (list_fmap_id (probe_names h)) at 2. apply list_fmap_ext.
    intros i n _. apply ck_Name_check_of.
  - intros name. by rewrite elem_of_probe_names.
  - intros c (n & -> & _)%list_elem_of_fmap. rewrite ck_Name_check_of. apply failed_check_of.
Qed.

Definition three_probes (panel : bool) : HealthChecker unit := list_to_map [
  ("sqlite", mret tt); ("docker", mret tt); ("panel", fail_if panel (EExt "unreachable"))].

Lemma health_report_spec_witness :
  expected_status (three_probes true) tt = Degraded ∧
  ∃ report, HealthHandler (three_probes true) 0 tt = (Ok (200, report), tt) ∧ hr_Status report = Degraded.
Proof.
  assert (expected_status (three_probes true) tt = Degraded) as He by (vm_compute; reflexivity). split; [exact He|].
  destruct (health_report_spec (three_probes true) 0 tt) as (report & H1 & H2 & _).
  - intros name p _. by destruct (snd (p tt)).
  - exists report. rewrite He in H1, H2. split; [exact H1|exact H2].
Defined.
