(* ===== verification/Api.v ===== *)
(** * The local API ([internal/api])

    The handlers of the gRPC services over the lifecycle, the file manager and the store.  The
    bytes on the wire are not modelled: a stream is the messages that were sent, and the
    outcome of each send; the messages a client sends come as a list with its end. *)

From S2P Require Import Prelude GoLib GoPath GoOS Config Store Bus Filesystem Runtime World Orchestrator Observability.
From Stdlib Require Import QArith.
Open Scope Z_scope.

(** ** Definitions *)

(** *** gRPC *)

Inductive codes := InvalidArgument | NotFound | PermissionDenied | ResourceExhausted | Internal.

#[global] Instance codes_eq_dec : EqDecision codes.
Proof. solve_decision. Defined.

(** An error of a handler: one made by [status.Error], or any other, which the client sees as
    [Unknown]. *)
Inductive rpc_error := status_Error (c : codes) (e : error) | Unknown (e : error).

(** A server-side stream: what was sent, and whether the next sends fail. *)
Record Stream (A : Type) := mkStream { st_Sent : list A; st_Faults : list (option string) }.
Arguments mkStream {A}.
Arguments st_Sent {A}.
Arguments st_Faults {A}.

Definition Send {A} (a : A) : M (Stream A) unit := λ s,
  let '(flt, fs) := next_fault (st_Faults s) in
  match flt with
  | Some e => (Err (EExt e), mkStream (st_Sent s) fs)
  | None => (Ok tt, mkStream (st_Sent s ++ [a]) fs)
  end.

(** A computation over one side of a pair of states. *)
Definition left_of {S T A} : M S A → M (S * T) A := zoom fst (λ s st, (s, st.2)).
Definition right_of {S T A} : M T A → M (S * T) A := zoom snd (λ t st, (st.1, t)).

(** [time.Time.Unix]: a [Time] is in seconds. *)
Definition Unix (t : Time) : Z := t.

(** *** [server.go] *)

Record ServerInfo := mkServerInfo {
  si_Id : string; si_Name : string; si_EggId : string; si_ContainerId : string;
  si_Status : string; si_StartupCommand : string }.

Definition toInfo (s : Server) : ServerInfo :=
  mkServerInfo (sv_ID s) (sv_Name s) (sv_EggID s) (sv_ContainerID s) (sv_Status s) (sv_StartupCommand s).

(** The services a server is made with. *)
Inductive Service := ServerService | ObservabilityServiceName | FilesystemServiceName.

Definition NewServer : list Service := [ServerService].
Definition NewServerWithObservability (obs : bool) : list Service :=
  NewServer ++ if obs then [ObservabilityServiceName] else [].
Definition NewServerWithServices (obs fs : bool) : list Service :=
  NewServerWithObservability obs ++ if fs then [FilesystemServiceName] else [].

Section Server.
Context {RT P C : Type} `{!Runtime RT}.
Local Abbreviation W := (World RT P C).
Context (json_Marshal : Env → res string) (json_Unmarshal : string → res Env).
Context (tunnels : option (TunnelManager W)) (ports : option (PortProvider (RT:=RT) (P:=P) (C:=C))).

Definition Server_Create (uuid name eggID startup : string) (env : Env) : M W string :=
  CreateServer json_Marshal tunnels ports uuid name eggID startup env.

(** The operations answer [Ok: true]. *)
Definition Server_Start (id : string) : M W bool := StartServer json_Unmarshal id;; mret true.
Definition Server_Stop (id : string) : M W bool := StopServer id;; mret true.
Definition Server_Delete (id : string) : M W bool := Orchestrator.DeleteServer tunnels id;; mret true.

Definition Server_Get (id : string) : M W ServerInfo :=
  srv ← getServer id;
  mret (toInfo srv).

Definition Server_List : M W (list ServerInfo) :=
  servers ← db ListServers;
  mret (toInfo <$> servers).
End Server.

(** *** [observability.go] *)

Record EventRecord := mkEventRecord {
  er_Id : string; er_Type : string; er_ServerId : string; er_Severity : string;
  er_Message : string; er_Metadata : string; er_CreatedAtUnix : Z }.

Definition event_record (e : StoreEvent) : EventRecord :=
  mkEventRecord (ev_ID e) (ev_Type e) (ev_ServerID e) (ev_Severity e) (ev_Message e) (ev_Metadata e)
    (Unix (ev_CreatedAt e)).

(** The answer is the report; its time in seconds. *)
Definition GetHealthStatus {S} (health : HealthChecker S) (now : Time) : M S (HealthStatus * list Check * Z) :=
  r ← HealthChecker_Check health now;
  mret (hr_Status r, hr_Checks r, Unix (hr_Timestamp r)).

(** The provider it makes has no engine. *)
Definition GetServerMetrics {RT} `{!Runtime RT} (serverID : string) : M DB (list ServerMetric) := λ d,
  let '(r, w) := RuntimeSnapshot (RT:=RT) (d, None) in
  (match r with
   | Ok (servers, _) => Ok (filter (λ m, (serverID =s "") || (serverID =s sm_ID m) = true) servers)
   | Err e => Err e
   end, w.1).

Definition StreamEvents (serverID typ : string) (limit : Z) : M (DB * Stream EventRecord) unit :=
  events ← left_of (ListEvents (mkEventFilter serverID typ zeroTime zeroTime limit));
  for_each (λ e, right_of (Send (event_record e))) events.

(** *** [filesystem.go] *)

Record FilesystemService := mkFilesystemService { fsv_root : string; fsv_maxUpload : Z; fsv_chunkSize : Z }.

Definition NewFilesystemService (root : string) (maxUpload chunkSize : Z) : FilesystemService :=
  mkFilesystemService root maxUpload (if chunkSize <=? 0 then 1024 * 1024 else chunkSize).

Definition mapFilesystemError (e : error) : rpc_error :=
  if errors_Is e fs_ErrPathOutsideRoot || errors_Is e fs_ErrPermission then status_Error PermissionDenied e
  else if errors_Is e fs_ErrNotFound || errors_Is e fs_ErrServerNotFound then status_Error NotFound e
  else if errors_Is e fs_ErrQuotaExceeded then status_Error ResourceExhausted e
  else status_Error Internal e.

(** What a handler answers. *)
Definition rpc (A : Type) : Type := A + rpc_error.
Definition map_error {A} (r : res A) : rpc A :=
  match r with Ok a => inl a | Err e => inr (mapFilesystemError e) end.
Definition handler {A} (m : M OS A) : OS → rpc A * OS := λ o, let '(r, o') := m o in (map_error r, o').

Section Filesystem.
Context (s : FilesystemService).
Local Abbreviation root := (fsv_root s).

Definition Files_List (serverID p : string) : OS → rpc (list FileInfo) * OS := handler (List root serverID p).
Definition Files_Delete (serverID p : string) : OS → rpc unit * OS := handler (Filesystem.Delete root serverID p false).
Definition Files_Rename (serverID p q : string) : OS → rpc unit * OS := handler (Rename_ root serverID p q).
Definition Files_Copy (serverID p q : string) : OS → rpc unit * OS := handler (Copy root serverID p q).
Definition Files_CreateDir (serverID p : string) : OS → rpc unit * OS := handler (CreateDir root serverID p).

(** **** Uploads

    The handler and the goroutine that runs [Write] share a pipe without a buffer.  The
    goroutine takes what the handler writes in reads of at most 32 KiB; a write of the
    handler returns when all of it has been read, and never if nobody reads. *)

Definition copy_buffer : nat := Z.to_nat 32768.

(** The goroutine: [Write] has returned, or it waits to read more for its temporary file,
    which holds [acc]. *)
Inductive Writer := WEnded (r : res unit) | WReading (abs name acc : string).

Definition start_writer (serverID p : string) : M OS Writer :=
  r ← try (write_prepare root serverID p);
  mret (match r with Ok (abs, name) => WReading abs name "" | Err e => WEnded (Err e) end).

(** The goroutine reads the pieces; [None]: one of them is never read. *)
Fixpoint feed (w : Writer) (ps : list string) : M OS (option Writer) :=
  match ps with
  | [] => mret (Some w)
  | p :: ps =>
      match w with
      | WEnded _ => mret None
      | WReading abs name acc =>
          r ← try (copy_pieces name acc [p]);
          match r with
          | Ok _ => feed (WReading abs name (acc +:+ p)) ps
          | Err e => ignore (Remove name);; feed (WEnded (Err e)) ps
          end
      end
  end.

(** [writer.Write(data)]: data that is empty is handed over as well. *)
Definition pipe_Write (w : Writer) (data : string) : M OS (option Writer) :=
  feed w (if data =s "" then [""] else split_every copy_buffer data).

(** The pipe is closed, so that a read ends with [fin]; what [Write] returns. *)
Definition close_pipe (w : Writer) (fin : res unit) : M OS (res unit) :=
  match w with
  | WEnded r => mret r
  | WReading abs name acc =>
      try (defer ((lift_res fin;; seal_temp name);; Rename name abs) (Remove name))
  end.

Record UploadChunk := mkUploadChunk {
  uc_ServerId : string; uc_Path : string; uc_Data : string; uc_Last : bool }.

(** [Answered size], or an error, or no return at all. *)
Inductive upload_outcome := Answered (size : Z) | Refused (e : rpc_error) | Blocks.

(** After the loop; [answer] is the outcome of [SendAndClose]. *)
Definition upload_finish (answer : res unit) (w : option Writer) (total : Z) : M OS upload_outcome :=
  match w with
  | None => mret (Refused (status_Error InvalidArgument (Errorf "upload kosong" [])))
  | Some w =>
      r ← close_pipe w (Ok tt);
      mret (match r with
            | Err e => Refused (mapFilesystemError e)
            | Ok _ => match answer with Ok _ => Answered total | Err e => Refused (Unknown e) end
            end)
  end.

(** The first chunk names the file and starts the goroutine. *)
Definition upload_start (w : option Writer) (c : UploadChunk) : M OS (option Writer) :=
  match w with
  | Some w => mret (Some w)
  | None => if (uc_ServerId c =s "") || (uc_Path c =s "") then mret None
            else w ← start_writer (uc_ServerId c) (uc_Path c); mret (Some w)
  end.

(** The loop: [w] is [None] before the first chunk ([first]); [fin] is how the client's stream
    ends, [None] for [io.EOF]. *)
Fixpoint upload_loop (answer : res unit) (fin : option error) (w : option Writer) (total : Z)
    (recv : list UploadChunk) : M OS upload_outcome :=
  match recv with
  | [] => match fin with
          | None => upload_finish answer w total
          | Some e => mret (Refused (Unknown e))
          end
  | c :: recv =>
      w ← upload_start w c;
      match w with
      | None => mret (Refused (status_Error InvalidArgument (Errorf "server_id dan path wajib" [])))
      | Some w =>
          let total := total + Z.of_nat (String.length (uc_Data c)) in
          if (0 <? fsv_maxUpload s) && (fsv_maxUpload s <? total) then
            ignore (close_pipe w (Err (EExt "io: read/write on closed pipe")));;
            mret (Refused (mapFilesystemError (ESentinel fs_ErrQuotaExceeded)))
          else
            w' ← pipe_Write w (uc_Data c);
            match w' with
            | None => mret Blocks
            | Some w =>
                if uc_Last c then upload_finish answer (Some w) total
                else upload_loop answer fin (Some w) total recv
            end
      end
  end.

Definition Upload (answer : res unit) (fin : option error) (recv : list UploadChunk) : M OS upload_outcome :=
  upload_loop answer fin None 0 recv.

(** **** Downloads *)

Inductive DownloadChunk := DataChunk (data : string) | LastChunk.

(** [r.Read(buf)] of the opened file until it is at its end. *)
Definition file_reads (n : fnode) : res (list string) :=
  match n with NFile c _ => Ok (split_every (Z.to_nat (fsv_chunkSize s)) c) | _ => Err EISDIR end.

(** An error that is not one of the manager goes to the client as it is. *)
Definition Download (serverID p : string) (st : OS * Stream DownloadChunk) :
    rpc unit * (OS * Stream DownloadChunk) :=
  match Read root serverID p st.1 with
  | (Err e, o) => (inr (mapFilesystemError e), (o, st.2))
  | (Ok n, o) =>
      match (ps ← lift_res (file_reads n);
             for_each (λ d, Send (DataChunk d)) ps;;
             Send LastChunk) st.2 with
      | (Ok _, out) => (inl tt, (o, out))
      | (Err e, out) => (inr (Unknown e), (o, out))
      end
  end.
End Filesystem.
