(* ===== verification/ApiSpec.v ===== *)
(** * What uploads and downloads do

    An upload is a [Write] of what the client sent, or leaves every file as it was; what was
    uploaded is what a download sends. *)

From S2P Require Import Prelude GoLib GoPath GoOS GoOSFacts GoOSRun Config Store Filesystem FilesystemFacts FilesystemSpec Runtime Observability Api.
From Stdlib Require Import QArith.
Open Scope Z_scope.

(** ** Definitions *)

(** The data of the chunks up to the one marked as the last. *)
Fixpoint upload_data (recv : list UploadChunk) : string :=
  match recv with
  | [] => ""
  | c :: recv => uc_Data c +:+ if uc_Last c then "" else upload_data recv
  end.

(** ** Lemmas *)

Lemma copy_pieces_app name ps qs : ∀ acc o,
  copy_pieces name acc (ps ++ qs) o =
  (copy_pieces name acc ps;; copy_pieces name (acc +:+ String.concat "" ps) qs) o.
Proof.
  induction ps as [|p ps IH]; intros acc o.
  - simpl. by rewrite string_app_nil_r.
  - rewrite <- app_comm_cons, concat_cons. simpl. unfold mbind, M_bind.
    destruct ((if p =s "" then mret tt else temp_Write name (acc +:+ p)) o) as [[[]|e] o1]; [|done].
    rewrite IH. unfold mbind, M_bind. by rewrite string_app_assoc.
Qed.

Lemma concat_app ps qs : String.concat "" (ps ++ qs) = String.concat "" ps +:+ String.concat "" qs.
Proof.
  induction ps as [|p ps IH]; [done|]. by rewrite <- app_comm_cons, !concat_cons, IH, string_app_assoc.
Qed.

Section Upload.
Context (s : FilesystemService) (sid p : string) (o : OS).
Local Abbreviation root := (fsv_root s).

(** [Write] with the pieces [ps] has got to [w], and the system to [o1]. *)
Definition writer_at (w : Writer) (o1 : OS) (ps : list string) : Prop :=
  match w with
  | WEnded r => ∃ e, r = Err e ∧ Write root sid p (mkReader ps (Ok tt)) o = (Err e, o1)
  | WReading abs name acc => acc = String.concat "" ps ∧
      ∃ o0, write_prepare root sid p o = (Ok (abs, name), o0) ∧ copy_pieces name "" ps o0 = (Ok tt, o1)
  end.

Lemma start_writer_at w o1 : start_writer s sid p o = (Ok w, o1) → writer_at w o1 [].
Proof.
  unfold start_writer, try, mbind, M_bind. destruct (write_prepare root sid p o) as [[[abs name]|e] o2] eqn:E;
    intros [= <- <-]; simpl.
  - split; [done|]. by exists o2.
  - exists e. split; [done|]. unfold Write, mbind, M_bind. by rewrite E.
Qed.

(** Closing the pipe makes the rest of the [Write]. *)
Lemma close_pipe_at w o1 ps fin r o2 : writer_at w o1 ps → close_pipe w fin o1 = (r, o2) →
  ∃ r', r = Ok r' ∧ ∃ fin', Write root sid p (mkReader ps fin') o = (r', o2) ∧ (is_ok r' = true → fin' = Ok tt ∧ fin = Ok tt).
Proof.
  destruct w as [r0|abs name acc]; simpl.
  - intros (e & -> & H) [= <- <-]. eexists. split; [done|]. by exists (Ok tt).
  - intros (-> & o0 & E0 & E1). unfold try. set (m := defer _ _). destruct (m o1) as [r' o3] eqn:E2.
    intros [= <- <-]. exists r'. split; [done|]. exists fin. split.
    2:{ intros Hr. destruct fin as [[]|e]; [done|]. exfalso. unfold m, defer, try, ignore, mbind, M_bind in E2.
        simpl in E2. destruct (Remove name o1) as [r4 o4]. unfold lift_res in E2. by injection E2 as <- _. }
    unfold Write, mbind, M_bind. rewrite E0. simpl. rewrite <- E2. unfold m, defer, try, fill_temp, io_Copy, mbind, M_bind.
    simpl. rewrite E1. unfold lift_res. by destruct fin.
Qed.

(** A copy that fails ends the [Write]. *)
Lemma copy_fails_at abs name ps q o1 e o2 r o3 :
  writer_at (WReading abs name (String.concat "" ps)) o1 ps →
  copy_pieces name (String.concat "" ps) [q] o1 = (Err e, o2) → ignore (Remove name) o2 = (r, o3) →
  r = Ok tt ∧ writer_at (WEnded (Err e)) o3 (ps ++ [q]).
Proof.
  intros (_ & o0 & E0 & E1) E2 E3. split; [unfold ignore in E3; destruct (Remove name o2); congruence|].
  exists e. split; [done|]. unfold Write, mbind, M_bind. rewrite E0. unfold defer, try, fill_temp, io_Copy, mbind, M_bind.
  cbn -[copy_pieces]. rewrite copy_pieces_app. unfold mbind, M_bind. rewrite E1.
  change ("" +:+ String.concat "" ps) with (String.concat "" ps). rewrite E2.
  unfold ignore in *. destruct (Remove name o2) as [r4 o4]. by injection E3 as <- <-.
Qed.

Lemma feed_at qs : ∀ w o1 ps r o2, writer_at w o1 ps → feed w qs o1 = (r, o2) →
  match r with
  | Ok (Some w') => writer_at w' o2 (ps ++ qs)
  | Ok None => ∃ e ps', Write root sid p (mkReader ps' (Ok tt)) o = (Err e, o2)
  | Err _ => False
  end.
Proof.
  induction qs as [|q qs IH]; intros w o1 ps r o2 Hw.
  { simpl. intros [= <- <-]. by rewrite app_nil_r. }
  rewrite cons_middle, app_assoc. destruct w as [r0|abs name acc].
  { intros [= <- <-]. destruct Hw as (e & -> & H). eauto. }
  pose proof Hw as (-> & o0 & E0 & E1). cbn [feed]. unfold try, mbind, M_bind.
  destruct (copy_pieces name (String.concat "" ps) [q] o1) as [[[]|e] o3] eqn:E2.
  - apply IH. split; [by rewrite concat_app|]. exists o0. split; [done|].
    rewrite copy_pieces_app. unfold mbind, M_bind. by rewrite E1.
  - destruct (ignore (Remove name) o3) as [r4 o4] eqn:E4.
    destruct (copy_fails_at _ _ _ _ _ _ _ _ _ Hw E2 E4) as [-> H]. by apply IH.
Qed.

Lemma pipe_Write_at w o1 ps data r o2 : writer_at w o1 ps → pipe_Write w data o1 = (r, o2) →
  match r with
  | Ok (Some w') => ∃ qs, writer_at w' o2 (ps ++ qs) ∧ String.concat "" qs = data
  | Ok None => ∃ e ps', Write root sid p (mkReader ps' (Ok tt)) o = (Err e, o2)
  | Err _ => False
  end.
Proof.
  unfold pipe_Write. intros Hw H. apply (feed_at _ _ _ _ _ _ Hw) in H. destruct r as [[w'|]|]; [|done..].
  eexists. split; [exact H|]. destruct (String.eqb_spec data "") as [->|Hne]; [done|].
  apply concat_split_every. unfold copy_buffer. lia.
Qed.

(** How an upload of [data] can end. *)
Definition upload_ends (answer : res unit) (fin : option error) (data : string) (out : upload_outcome) (o' : OS) : Prop :=
  match out with
  | Answered n => n = Z.of_nat (String.length data) ∧ (fsv_maxUpload s ≤ 0 ∨ n ≤ fsv_maxUpload s) ∧
      ∃ ps, Write root sid p (mkReader ps (Ok tt)) o = (Ok tt, o') ∧ String.concat "" ps = data
  | Blocks => ∃ content e, Write root sid p content o = (Err e, o')
  | Refused _ =>
      (∃ content e, Write root sid p content o = (Err e, o')) ∨
      (∃ ps, is_ok answer = false ∧ Write root sid p (mkReader ps (Ok tt)) o = (Ok tt, o') ∧ String.concat "" ps = data) ∨
      (∃ e w ps, fin = Some e ∧ writer_at w o' ps)
  end.

Lemma upload_finish_at answer fin w o1 ps total r o2 :
  writer_at w o1 ps → total = Z.of_nat (String.length (String.concat "" ps)) →
  (fsv_maxUpload s ≤ 0 ∨ total ≤ fsv_maxUpload s) →
  upload_finish answer (Some w) total o1 = (r, o2) →
  ∃ out, r = Ok out ∧ upload_ends answer fin (String.concat "" ps) out o2.
Proof.
  intros Hw Ht Hq. unfold upload_finish, mbind, M_bind. destruct (close_pipe w (Ok tt) o1) as [r1 o3] eqn:E.
  destruct (close_pipe_at _ _ _ _ _ _ Hw E) as (r' & -> & fin' & HW & Hf). intros [= <- <-].
  eexists. split; [done|]. destruct r' as [[]|e]; simpl; [|by eauto].
  destruct (Hf eq_refl) as [-> _]. destruct answer as [[]|e]; simpl; [|by eauto 10]. eauto.
Qed.

Lemma upload_loop_at answer fin recv : ∀ w o1 ps total r o2,
  writer_at w o1 ps → total = Z.of_nat (String.length (String.concat "" ps)) →
  (fsv_maxUpload s ≤ 0 ∨ total ≤ fsv_maxUpload s) →
  upload_loop s answer fin (Some w) total recv o1 = (r, o2) →
  ∃ out, r = Ok out ∧ upload_ends answer fin (String.concat "" ps +:+ upload_data recv) out o2.
Proof.
  induction recv as [|c recv IH]; intros w o1 ps total r o2 Hw Ht Hq.
  { cbn [upload_loop upload_data]. destruct fin as [e|].
    - intros [= <- <-]. eexists. split; [done|]. simpl. right. right. eauto.
    - rewrite string_app_nil_r. by apply upload_finish_at. }
  cbn [upload_loop upload_start upload_data]. unfold mbind at 1, M_bind at 1, mret at 1, M_ret at 1. cbv beta iota zeta.
  set (total' := total + _). case_match eqn:Hmax.
  - unfold mbind, M_bind, ignore. destruct (close_pipe w (Err (EExt "io: read/write on closed pipe")) o1) as [r1 o3] eqn:E.
    destruct (close_pipe_at _ _ _ _ _ _ Hw E) as (r' & -> & fin' & HW & Hf).
    cbv beta iota zeta. intros [= <- <-]. eexists. split; [done|]. left. destruct r' as [[]|e]; [|eauto]. by destruct (Hf eq_refl).
  - unfold mbind, M_bind. destruct (pipe_Write w (uc_Data c) o1) as [r1 o3] eqn:E.
    pose proof (pipe_Write_at _ _ _ _ _ _ Hw E) as HP. destruct r1 as [[w'|]|e]; [| |done].
    2:{ intros [= <- <-]. destruct HP as (e & ps' & HP). eexists. split; [done|]. simpl. eauto. }
    destruct HP as (qs & Hw' & Hqs).
    assert (total' = Z.of_nat (String.length (String.concat "" (ps ++ qs)))) as Ht'.
    { unfold total'. rewrite concat_app, length_app_s, Ht, Hqs. lia. }
    assert (fsv_maxUpload s ≤ 0 ∨ total' ≤ fsv_maxUpload s) as Hq'.
    { apply andb_false_iff in Hmax as [?%Z.ltb_ge|?%Z.ltb_ge]; auto. }
    rewrite <- string_app_assoc, <- Hqs, <- concat_app. destruct (uc_Last c).
    + rewrite string_app_nil_r. by apply upload_finish_at.
    + by apply IH.
Qed.
End Upload.

(** *** Files *)

Definition uploaded (root sid p data : string) (o o' : OS) : Prop :=
  (os_tree o' !! target root sid p = Some (NFile data 384) ∨
   ∃ c, last (target root sid p) = Some c ∧ HasPrefix c ".upload-" = true) ∧
  ∀ k c m, k ≠ target root sid p →
    os_tree o !! k = Some (NFile c m) → os_tree o' !! k = Some (NFile c m).

Lemma uploaded_Write root sid p ps data o o' :
  IsAbs root = true → fs_inv root sid o →
  Write root sid p (mkReader ps (Ok tt)) o = (Ok tt, o') → String.concat "" ps = data →
  uploaded root sid p data o o'.
Proof. intros Hroot Hi H <-. by destruct (Write_post _ _ _ _ _ _ _ Hroot Hi H) as (_ & ?). Qed.

Lemma failed_Write_kept root sid p content e o o' :
  IsAbs root = true → fs_inv root sid o → Write root sid p content o = (Err e, o') →
  files_kept (os_tree o) (os_tree o').
Proof. intros Hroot Hi H. exact (Write_post _ _ _ _ _ _ _ Hroot Hi H). Qed.

Lemma writer_kept s sid p o w o' ps :
  IsAbs (fsv_root s) = true → fs_inv (fsv_root s) sid o → writer_at s sid p o w o' ps →
  files_kept (os_tree o) (os_tree o').
Proof.
  intros Hroot Hi. destruct w as [r|abs name acc]; simpl.
  - intros (e & _ & H). by eapply failed_Write_kept.
  - intros (_ & o0 & E0 & E1). destruct (validServerID sid) eqn:Hid.
    + apply write_prepare_spec in E0 as [K P]; [|done..].
      destruct (P abs name eq_refl) as (cs & m & _ & _ & _ & (Hd & Hl & _) & He & Hnew).
      apply copy_pieces_effect with (m := m) in E1 as (C & _ & _); [|done..].
      intros k c n Hk. destruct (C k) as [->| ->]; [by apply K|]. destruct (Hnew _ c n Hk). apply below_refl.
    + pose proof (invalid_prepare (fsv_root s) sid Hid p o) as [H _]. by rewrite E0 in H.
Qed.

Lemma Upload_ends s answer fin c recv o r o' :
  Upload s answer fin (c :: recv) o = (r, o') →
  ∃ out, r = Ok out ∧
    if (uc_ServerId c =s "") || (uc_Path c =s "") then
      out = Refused (status_Error InvalidArgument (Errorf "server_id dan path wajib" [])) ∧ o' = o
    else upload_ends s (uc_ServerId c) (uc_Path c) o answer fin (upload_data (c :: recv)) out o'.
Proof.
  unfold Upload. cbn [upload_loop upload_start]. destruct (_ || _) eqn:Hargs.
  { intros [= <- <-]. eauto. }
  intros H. destruct (start_writer s (uc_ServerId c) (uc_Path c) o) as [[w|e] o1] eqn:E.
  - apply (upload_loop_at s (uc_ServerId c) (uc_Path c) o answer fin (c :: recv) w o1 [] 0);
      [by apply start_writer_at|done|lia|].
    rewrite <- H. cbn [upload_loop upload_start]. unfold mbind, M_bind. by rewrite E.
  - unfold start_writer, try, mbind, M_bind in E. by destruct (write_prepare _ _ _ o).
Qed.

Lemma Write_resolved root sid p content o o' :
  Write root sid p content o = (Ok tt, o') →
  ∃ abs o1 o2, ResolvePath root sid p o1 = (Ok abs, o2) ∧ comps abs = target root sid p.
Proof.
  intros (an & o1 & H & _)%bind_inv. unfold write_prepare in H.
  apply bind_inv in H as ([] & o2 & _ & H). apply bind_inv in H as (base & o3 & _ & H).
  apply bind_inv in H as (abs & o4 & H & _). exists abs, o3, o4. split; [done|]. by eapply ResolvePath_target.
Qed.

Lemma Write_valid root sid p content o o' :
  Write root sid p content o = (Ok tt, o') → validServerID sid = true.
Proof.
  intros (an & o1 & H & _)%bind_inv. destruct (validServerID sid) eqn:Hid; [done|].
  pose proof (invalid_prepare root sid Hid p o) as [Hr _]. by rewrite H in Hr.
Qed.

Lemma send_all {A B} (f : A → B) l (out : Stream B) : st_Faults out = [] →
  for_each (λ x, Send (f x)) l out = (Ok tt, mkStream (st_Sent out ++ (f <$> l)) []).
Proof.
  destruct out as [sent fs]. simpl. intros ->. revert sent.
  induction l as [|x l IH]; intros sent; simpl.
  - by rewrite app_nil_r.
  - unfold mbind, M_bind. simpl. rewrite IH. by rewrite <- app_assoc.
Qed.

(** *** Metrics *)

(** The service asks a provider without an engine: no server has any usage, whatever runs. *)
Lemma GetServerMetrics_no_usage {RT} `{!Runtime.Runtime RT} id d ms d' :
  GetServerMetrics (RT:=RT) id d = (Ok ms, d') → Forall (λ m, sm_CPU m = 0%Q ∧ sm_MemoryBytes m = 0) ms.
Proof.
  unfold GetServerMetrics. destruct (RuntimeSnapshot (RT:=RT) (d, None)) as [[[servers tunnels]|e] w] eqn:E; [|done].
  intros [= <- _]. apply bind_inv in E as (ss & w1 & E1 & E). apply bind_inv in E as (ms & w2 & E2 & E).
  assert (w1.2 = None) as Hw1.
  { unfold zoom in E1. simpl in E1. destruct (ListServers d). by injection E1 as _ <-. }
  assert (Forall (λ m, sm_CPU m = 0%Q ∧ sm_MemoryBytes m = 0) ms) as Hms.
  { clear E E1. revert w1 w2 ms Hw1 E2. induction ss as [|x ss IH]; intros w1 w2 ms Hw1; simpl.
    - intros [= <- _]. constructor.
    - intros (m & w3 & E3 & E)%bind_inv. apply bind_inv in E as (l & w4 & E4 & [= <- _]).
      unfold server_metric in E3. rewrite Hw1 in E3. injection E3 as <- <-. constructor; [done|]. by eapply IH. }
  apply bind_inv in E as (tt' & w3 & _ & [= <- _ _]).
  rewrite Forall_forall in Hms |- *. intros m [_ Hm]%list_elem_of_filter. by apply Hms.
Qed.

(** ** Properties *)

(** C9.  An upload is all or nothing.  When it is answered, the file has exactly the data of the
    chunks, the answer is their number of bytes and within the limit, and every other file is
    as before.  When it is refused, or does not return because nobody reads the pipe any more,
    every file is as it was: the client's disconnection, the limit and a failed write leave at
    most a temporary file.  The one exception is an answer that cannot be sent. *)
Theorem upload_all_or_nothing s answer fin c recv o r o' :
  IsAbs (fsv_root s) = true → fs_inv (fsv_root s) (uc_ServerId c) o →
  Upload s answer fin (c :: recv) o = (r, o') →
  let data := upload_data (c :: recv) in
  ∃ out, r = Ok out ∧
    match out with
    | Answered n => uploaded (fsv_root s) (uc_ServerId c) (uc_Path c) data o o' ∧
        n = Z.of_nat (String.length data) ∧ (fsv_maxUpload s ≤ 0 ∨ n ≤ fsv_maxUpload s)
    | Refused _ => files_kept (os_tree o) (os_tree o') ∨
        is_ok answer = false ∧ uploaded (fsv_root s) (uc_ServerId c) (uc_Path c) data o o'
    | Blocks => files_kept (os_tree o) (os_tree o') ∧
        ∃ content, is_ok (fst (Write (fsv_root s) (uc_ServerId c) (uc_Path c) content o)) = false
    end.
Proof.
  intros Hroot Hi H. destruct (Upload_ends _ _ _ _ _ _ _ _ H) as (out & -> & E). exists out. split; [done|].
  destruct (_ || _); [destruct E as [-> ->]; by left; intros ?|]. destruct out as [n|e|]; simpl in E.
  - destruct E as (-> & Hq & ps & HW & Hps). split; [by eapply uploaded_Write|done].
  - destruct E as [(content & e' & HW)|[(ps & Ha & HW & Hps)|(e' & w & ps & _ & Hw)]].
    + left. by eapply failed_Write_kept.
    + right. split; [done|]. by eapply uploaded_Write.
    + left. by eapply writer_kept.
  - destruct E as (content & e' & HW). split; [by eapply failed_Write_kept|]. exists content. by rewrite HW.
Qed.

(** C10.  What was uploaded is what a download sends: after an answered upload, a download of the
    same path from the files it left sends the uploaded data, in order, in chunks that are not
    empty and no longer than the chunk size, and then one chunk that is marked as the last. *)
Theorem upload_download_roundtrip root max chunk answer fin c recv o n o' :
  let s := NewFilesystemService root max chunk in
  IsAbs root = true → fs_inv root (uc_ServerId c) o →
  Upload s answer fin (c :: recv) o = (Ok (Answered n), o') →
  (∀ x, last (target root (uc_ServerId c) (uc_Path c)) = Some x → HasPrefix x ".upload-" = false) →
  ∀ o2 out, os_tree o2 = os_tree o' → os_faults o2 = [] → st_Faults out = [] →
  ∃ ps, Download s (uc_ServerId c) (uc_Path c) (o2, out) =
          (inl tt, (o2, mkStream (st_Sent out ++ (DataChunk <$> ps) ++ [LastChunk]) [])) ∧
    String.concat "" ps = upload_data (c :: recv) ∧
    ∀ d, d ∈ ps → 0 < Z.of_nat (String.length d) ≤ fsv_chunkSize s.
Proof.
  intros s Hroot Hi H Hname o2 out Ht2 Hf2 Hfo. destruct (Upload_ends _ _ _ _ _ _ _ _ H) as (out0 & [= <-] & E).
  destruct (_ || _); [by destruct E|]. destruct E as (_ & _ & ps & HW & Hps).
  assert (0 < fsv_chunkSize s) as Hchunk.
  { simpl. destruct (Z.leb_spec chunk 0); lia. }
  pose proof (uploaded_Write _ _ _ _ _ _ _ Hroot Hi HW Hps) as [[Hfile|(x & Hx & Hp)] _]; [|by rewrite Hname in Hp].
  pose proof (run_fs_op_frame root (uc_ServerId c) (OpWrite (uc_Path c) (mkReader ps (Ok tt))) o Hroot Hi) as [[Hok _] _].
  simpl in Hok. change (fsv_root s) with root in HW. rewrite HW in Hok. simpl in Hok.
  destruct (Write_resolved _ _ _ _ _ _ HW) as (abs & o3 & o4 & HR & Habs). rewrite <- Habs, <- Ht2 in Hfile.
  rewrite <- Ht2 in Hok.
  pose proof (Read_run root (uc_ServerId c) Hroot (Write_valid _ _ _ _ _ _ HW) _ _ _ _ _ _ HR Hf2 Hok Hfile eq_refl) as HRead.
  exists (split_every (Z.to_nat (fsv_chunkSize s)) (upload_data (c :: recv))). split; [|split].
  - unfold Download. change (fsv_root s) with root. simpl fst. rewrite HRead. simpl snd. unfold file_reads, lift_res, mbind, M_bind.
    rewrite send_all by done. unfold Send. simpl. by rewrite app_assoc.
  - apply concat_split_every. lia.
  - intros d Hd%elem_of_split_every; lia.
Qed.

(** ** Witnesses *)

Definition hello : list UploadChunk := [mkUploadChunk "a" "new/x" "hel" false; mkUploadChunk "" "" "lo" true].
Definition small : FilesystemService := NewFilesystemService "/srv" 5 2.

Lemma upload_all_or_nothing_witness :
  ∃ out, fst (Upload small (Ok tt) None hello two_servers) = Ok out ∧
    match out with Answered n => n = 5 | _ => False end.
Proof.
  destruct (upload_all_or_nothing small (Ok tt) None (mkUploadChunk "a" "new/x" "hel" false)
    [mkUploadChunk "" "" "lo" true] two_servers (Ok (Answered 5)) (snd (Upload small (Ok tt) None hello two_servers))
    eq_refl two_servers_inv) as (out & Hout & Hpost).
  - vm_compute. reflexivity.
  - exists (Answered 5). split; [vm_compute; reflexivity|reflexivity].
Defined.

Lemma upload_download_roundtrip_witness :
  ∃ ps, snd (snd (Download small "a" "new/x" (snd (Upload small (Ok tt) None hello two_servers), mkStream [] []))) =
    mkStream ((DataChunk <$> ps) ++ [LastChunk]) [] ∧ String.concat "" ps = "hello".
Proof.
  destruct (upload_download_roundtrip "/srv" 5 2 (Ok tt) None (mkUploadChunk "a" "new/x" "hel" false)
    [mkUploadChunk "" "" "lo" true] two_servers 5 (snd (Upload small (Ok tt) None hello two_servers))
    eq_refl two_servers_inv) with (o2 := snd (Upload small (Ok tt) None hello two_servers)) (out := mkStream (A:=DownloadChunk) [] [])
    as (ps & HD & Hps & _).
  - vm_compute. reflexivity.
  - intros x. vm_compute. intros [= <-]. reflexivity.
  - reflexivity.
  - vm_compute. reflexivity.
  - reflexivity.
  - exists ps. split; [|exact Hps].
    exact (f_equal (λ x, snd (snd x)) HD).
Defined.

(** An upload that [Write] refuses at once is never answered: its first chunk is not read. *)
Example refused_upload_blocks :
  fst (Upload small (Ok tt) None [mkUploadChunk "a" "../x" "hel" true] two_servers) = Ok Blocks.
Proof. vm_compute. reflexivity. Qed.

(** A client that disconnects leaves a temporary file behind. *)
Example disconnect_leaves_temp :
  os_tree (snd (Upload small (Ok tt) (Some (EExt "reset")) [mkUploadChunk "a" "x" "hel" false] two_servers))
    !! ["srv"; "a"; "data"; ".upload-7"] = Some (NFile "hel" 384).
Proof. vm_compute. reflexivity. Qed.
