(* ===== verification/Command.v ===== *)
(** * The command line ([cmd/oikos]: [main.go], [update.go])

    A command is a function of its arguments over the state of the node; the lines it prints
    are its value.  The flags are parsed as the standard library's [flag] package does. *)

From S2P Require Import Prelude GoLib GoPath GoOS GoEncoding Config Store Migrations Bus Runtime World Orchestrator Update Security Agent.
From Stdlib Require Import Ascii.
Open Scope Z_scope.

(** ** Definitions *)

(** *** The [flag] package *)

(** The flags of a set: each name, and whether it is boolean; the values that were given. *)
Definition FlagSet : Type := list (string * bool).
Abbreviation Values := (gmap string string).

Definition lookup_flag (fs : FlagSet) (name : string) : option bool :=
  snd <$> head (filter (λ f, f.1 = name) fs).

(** [strconv.ParseBool] *)
Definition ParseBool (s : string) : res bool :=
  if existsb (String.eqb s) ["1"; "t"; "T"; "TRUE"; "true"; "True"] then Ok true
  else if existsb (String.eqb s) ["0"; "f"; "F"; "FALSE"; "false"; "False"] then Ok false
  else Err (EExt "parse error").

(** The name in an argument, or [None] at the first that is no flag. *)
Definition flag_name (arg : string) : option string :=
  match arg with
  | String "-" (String "-" "") => None
  | String "-" (String "-" name) => Some name
  | String "-" (String c name) => Some (String c name)
  | _ => None
  end.

(** [fs.Parse(args)] *)
Fixpoint Parse (fs : FlagSet) (args : list string) (vs : Values) : res Values :=
  match args with
  | [] => Ok vs
  | arg :: args' =>
      match flag_name arg with
      | None => Ok vs
      | Some text =>
          if (text =s "") || HasPrefix text "-" || HasPrefix text "=" then Err (Errorf "bad flag syntax: %s" [arg])
          else
            let '(name, given) := match Cut "=" text with
                                  | Some (n, v) => (n, Some v)
                                  | None => (text, None)
                                  end in
            match lookup_flag fs name, given with
            | None, _ => Err (Errorf "flag provided but not defined: -%s" [name])
            | Some true, None => Parse fs args' (<[name := "true"]> vs)
            | Some true, Some v =>
                match ParseBool v with
                | Ok b => Parse fs args' (<[name := if b : bool then "true" else "false"]> vs)
                | Err e => Err (Errorf "invalid boolean value %q for -%s: %v" [v; name])
                end
            | Some false, Some v => Parse fs args' (<[name := v]> vs)
            | Some false, None =>
                match args' with
                | v :: args'' => Parse fs args'' (<[name := v]> vs)
                | [] => Err (Errorf "flag needs an argument: -%s" [name])
                end
            end
      end
  end.

(** The value of a flag, or its default. *)
Definition flag (vs : Values) (name dflt : string) : string := default dflt (vs !! name).
Definition flag_set (vs : Values) (name : string) : bool := flag vs name "false" =s "true".

Definition text_flags (names : list string) : FlagSet := (λ n, (n, false)) <$> names.

(** *** [update.go]: signatures and the verifier *)

Definition decodeSignature (value : string) : string :=
  match b64_DecodeString value with
  | Ok decoded => decoded
  | Err _ => match hex_DecodeString value with Ok decoded => decoded | Err _ => value end
  end.

(** [ed25519.PublicKeySize] *)
Definition PublicKeySize : nat := 32.

Section Verify.
(** [ed25519.Verify(key, message, signature)] *)
Context (ed25519_Verify : string → string → string → bool).

(** [environmentReleaseVerifier] with the value of [OIKOS_UPDATE_PUBLIC_KEY]. *)
Definition env_Verify (public_key : string) : ReleaseVerifier := λ release body,
  let key := decodeSignature public_key in
  if negb (String.length key =? PublicKeySize)%nat then
    Err (Errorf "OIKOS_UPDATE_PUBLIC_KEY must be a base64 or hex Ed25519 public key" [])
  else if negb (ed25519_Verify key body (re_Signature release)) then
    Err (Errorf "invalid Ed25519 release signature" [])
  else Ok tt.
End Verify.

Definition copyFile (source destination : string) : M OS unit :=
  data ← ReadFile source;
  WriteFile destination data 384.

(** The backup before an update, in a directory named after the time [stamp]. *)
Definition update_backup (versionsDir stamp configPath dbPath manifestPath : string) : M OS unit :=
  let backupDir := Join [versionsDir; "backups"; stamp] in
  MkdirAll backupDir;;
  copyFile configPath (Join [backupDir; "config.yaml"]);;
  copyFile dbPath (Join [backupDir; "oikos.db"]);;
  if negb (manifestPath =s "") then copyFile manifestPath (Join [backupDir; Base manifestPath]) else mret tt.

Section Command.
Context {RT P C : Type} `{!Runtime RT} `{!NodeService P} `{!Crypto}.
Local Abbreviation W := (World RT P C).

(** Decoders, the migration files with the order of the map of columns, and [grpc.NewClient]. *)
Context (yaml_Unmarshal : string → Config → res Config) (yaml_Marshal : Config → res string).
Context (json_Marshal : Env → res string) (json_Unmarshal : string → res Env).
Context (slots_Marshal : slotState → string) (slots_Unmarshal : string → res slotState).
Context (migration : string → res sql_script) (columns : list string).
Context (newPlainClient : string → res unit).

(** The engines: [runtime.NewFake], [docker.New] and [docker.Ping]. *)
Context (newFake : RT) (docker_New : string → res RT) (docker_Ping : string → res unit).

(** Release downloads, SHA-256, Ed25519, the environment, and [updateCommandRunner]. *)
Context (http_Get : string → res HttpResponse) (sha256 : string → string).
Context (ed25519_Verify : string → string → string → bool) (getenv : string → string).
Context (updateCommandRunner : string → list string → M OS unit).

(** What a process draws or reads of its surroundings: a fresh UUID, the host name, the clock. *)
Record Surroundings := mkSurroundings { su_UUID : string; su_Hostname : string; su_Stamp : string; su_Now : Time }.
Context (su : Surroundings).

Definition LoadConfig (path : string) : M W Config := os (Config.Load yaml_Unmarshal path).

(** [store.Open] of the database in the data directory. *)
Definition open_store : M W unit := db Open.

(** *** [update.go] *)

Definition defaultHealthRunner (candidate configPath : string) : M OS unit :=
  updateCommandRunner candidate ["--health-check-only"; "--config"; configPath].

Definition runHealthCheck (configPath : string) : M W unit :=
  cfg ← LoadConfig configPath;
  wrap "config data directory" [] (os (MkdirAll (nc_DataDir (cf_Node cfg))));;
  wrap "sqlite" [] open_store;;
  wrap "sqlite migration" [] (db (Migrate migration columns));;
  if rn_Engine (cf_Runtime cfg) =s "fake" then mret tt
  else wrap "docker" [] (lift_res (docker_Ping (rn_DockerSocket (cf_Runtime cfg)))).

Definition update_flags : FlagSet :=
  text_flags ["version"; "url"; "sha256"; "signature"; "versions-dir"; "config"] ++ [("health-check-only", true)].

(** The manager of an update, and its [Apply]. *)
Definition apply_update (cfg : Config) (configPath versionsDir : string) (release : Release) : M OS unit :=
  let dbPath := Join [nc_DataDir (cf_Node cfg); "oikos.db"] in
  let backup := update_backup versionsDir (su_Stamp su) configPath dbPath (pl_ManifestPath (cf_Plugins cfg)) in
  Apply slots_Marshal slots_Unmarshal (mkSlotConfig versionsDir (Some backup) None) http_Get sha256
    (Some (env_Verify ed25519_Verify (getenv "OIKOS_UPDATE_PUBLIC_KEY")))
    (Some (λ candidate, defaultHealthRunner candidate configPath)) release.

Definition runUpdate (args : list string) : M W unit :=
  vs ← lift_res (Parse update_flags args ∅);
  let configPath := flag vs "config" "config.yaml" in
  if flag_set vs "health-check-only" then runHealthCheck configPath
  else
    let f name := flag vs name "" in
    fail_if ((f "version" =s "") || (f "url" =s "") || (f "sha256" =s "") || (f "signature" =s "") || (f "versions-dir" =s ""))
      (Errorf "version, url, sha256, signature, dan versions-dir wajib diisi" []);;
    let sig := decodeSignature (f "signature") in
    cfg ← LoadConfig configPath;
    os (apply_update cfg configPath (f "versions-dir") (mkRelease (f "version") (f "url") (f "sha256") sig "" "")).

(** *** [main.go] *)

(** A lifecycle without tunnels, with its own bus, on the node's database. *)
Definition new_lifecycle (rt : RT) (w : W) : W :=
  put_rt rt (put_bus NewEventBus (put_manual ∅ w)).

Definition openLifecycleWith (engine flagConfig : string) : M W unit :=
  cfg ← LoadConfig flagConfig;
  os (MkdirAll (nc_DataDir (cf_Node cfg)));;
  open_store;;
  db (Migrate migration columns);;
  rt ← (if engine =s "fake" then mret newFake else lift_res (docker_New (rn_DockerSocket (cf_Runtime cfg))));
  modify (new_lifecycle rt).

Definition global_flags : FlagSet := text_flags ["config"; "runtime"].
Definition openLifecycle (vs : Values) : M W unit :=
  openLifecycleWith (flag vs "runtime" "docker") (flag vs "config" "config.yaml").

(** The environment of [--env K=V,K=V]: a later value of a key replaces the earlier one. *)
Fixpoint put_env (k v : string) (env : Env) : Env :=
  match env with
  | [] => [(k, v)]
  | (k', v') :: env => if k =s k' then (k, v) :: env else (k', v') :: put_env k v env
  end.
Fixpoint parse_env (kvs : list string) (env : Env) : res Env :=
  match kvs with
  | [] => Ok env
  | kv :: kvs => match Cut "=" kv with
                 | Some (k, v) => parse_env kvs (put_env k v env)
                 | None => Err (Errorf "env %q harus format K=V" [kv])
                 end
  end.
Definition env_flag (s : string) : res Env := if s =s "" then Ok [] else parse_env (Split "," s) [].

Definition server_create (args : list string) : M W (list string) :=
  vs ← lift_res (Parse (global_flags ++ text_flags ["name"; "egg"; "startup"; "env"]) args ∅);
  let f name := flag vs name "" in
  fail_if ((f "name" =s "") || (f "egg" =s "") || (f "startup" =s "")) (Errorf "name, egg, dan startup wajib diisi" []);;
  env ← lift_res (env_flag (f "env"));
  openLifecycle vs;;
  id ← CreateServer json_Marshal None None (su_UUID su) (f "name") (f "egg") (f "startup") env;
  mret [id].

Definition server_action (action : string) (args : list string) : M W (list string) :=
  vs ← lift_res (Parse (global_flags ++ text_flags ["id"]) args ∅);
  let id := flag vs "id" "" in
  fail_if (id =s "") (Errorf "id wajib diisi" []);;
  openLifecycle vs;;
  (if action =s "start" then StartServer json_Unmarshal id
   else if action =s "stop" then StopServer id
   else if action =s "delete" then Orchestrator.DeleteServer None id
   else mret tt);;
  mret [].

Definition runServer (args : list string) : M W (list string) :=
  match args with
  | [] => fail (Errorf "gunakan: server create|start|stop|delete" [])
  | cmd :: args =>
      if cmd =s "create" then server_create args
      else if (cmd =s "start") || (cmd =s "stop") || (cmd =s "delete") then server_action cmd args
      else fail (Errorf "unknown server subcommand: %s" [cmd])
  end.

(** [cfg] after the flags of [install]. *)
Definition install_config (f : string → string) : Config :=
  let d := Config.Default in
  let or (v dflt : string) := if v =s "" then dflt else v in
  mkConfig
    (mkNodeConfig (or (f "data-dir") (nc_DataDir (cf_Node d))) (nc_CertPath (cf_Node d)) (nc_KeyPath (cf_Node d)))
    (mkPanelConfig (or (f "panel") (pa_Address (cf_Panel d))) (or (f "ca-path") (pa_CAPath (cf_Panel d))))
    (cf_Runtime d) (cf_API d) (cf_Log d) (cf_Observability d) (cf_Filesystem d) (cf_SFTP d) (cf_Plugins d).

Definition node_name (name hostname : string) : string :=
  if name =s "" then (if hostname =s "" then "oikos-node" else hostname) else name.

Definition runInstall (args : list string) : M W (list string) :=
  vs ← lift_res (Parse (text_flags ["config"; "panel"; "token"; "name"; "ca-path"; "data-dir"]) args ∅);
  let f name := flag vs name "" in
  let configPath := flag vs "config" "/etc/oikos/config.yaml" in
  let cfg := install_config f in
  if negb (f "panel" =s "") then
    os (MkdirAll (nc_DataDir (cf_Node cfg)));;
    open_store;;
    db (Migrate migration columns);;
    id ← PairWithPanel yaml_Marshal newPlainClient (pa_Address (cf_Panel cfg)) (f "token")
           (node_name (f "name") (su_Hostname su)) cfg configPath false (su_Now su);
    mret ["pairing ok, node id " +:+ id]
  else
    os (PairWithToken yaml_Marshal (f "token") cfg configPath);;
    mret ["pairing ok, config ditulis ke " +:+ configPath].

(** The other subcommands. *)
Context (runDaemon runDoctor runDiagnose : list string → M W (list string)).

Definition run (args : list string) : M W (list string) :=
  match args with
  | [] => fail (Errorf "no command (gunakan: server, install, daemon, diagnose)" [])
  | cmd :: args =>
      if cmd =s "server" then runServer args
      else if cmd =s "install" then runInstall args
      else if cmd =s "daemon" then runDaemon args
      else if cmd =s "doctor" then runDoctor args
      else if cmd =s "diagnose" then runDiagnose args
      else if cmd =s "update" then runUpdate args;; mret []
      else fail (Errorf "unknown command: %s" [cmd])
  end.

(** [main]: the exit status, and what is printed; an error goes to the standard error. *)
Definition main (args : list string) : W → Z * (list string + error) * W := λ w,
  match run args w with
  | (Ok lines, w) => (0, inl lines, w)
  | (Err e, w) => (1, inr e, w)
  end.
End Command.
