(* ===== verification/CommandSpec.v ===== *)
(** * What the command line does

    Flags are read back as they were written; the forms of the update key that are accepted;
    an update never gets past its own health check. *)

From S2P Require Import Prelude GoLib GoPath GoOS GoEncoding Config Store Migrations Bus Runtime World Orchestrator Update Security Agent Command.
From Stdlib Require Import Ascii.
Open Scope Z_scope.

(** ** Definitions *)

(** A flag's name as a caller may write it. *)
Definition plain_flag (fs : FlagSet) (n : string) : Prop :=
  lookup_flag fs n = Some false ∧ n ≠ "" ∧ HasPrefix n "-" = false ∧ bytes_all (λ c, bool_decide (c ≠ "="%char)) n = true.

(** [--name value], [--name=value], [-name value] or [-name=value]. *)
Definition render_flag (f : (bool * bool) * (string * string)) : list string :=
  let '((double, joined), (n, v)) := f in
  let dashes := if double : bool then "--" else "-" in
  if joined : bool then [dashes +:+ n +:+ "=" +:+ v] else [dashes +:+ n; v].

(** [K=V]. *)
Definition render_env (kv : string * string) : string := kv.1 +:+ "=" +:+ kv.2.
Definition env_ok (kv : string * string) : Prop :=
  bytes_all (λ c, bool_decide (c ≠ "="%char)) kv.1 = true ∧
  bytes_all (λ c, bool_decide (c ≠ ","%char)) (kv.1 +:+ kv.2) = true.

(** ** Lemmas *)

Lemma Cut_found sep a b : bytes_all (λ c, bool_decide (c ≠ sep)) a = true → Cut sep (a +:+ String sep b) = Some (a, b).
Proof.
  induction a as [|c a IH]; simpl; intros H.
  - by rewrite bool_decide_true.
  - apply andb_true_iff in H as [Hc H]. apply bool_decide_eq_true in Hc.
    rewrite bool_decide_false by done. by rewrite IH.
Qed.

Lemma Cut_none sep a : bytes_all (λ c, bool_decide (c ≠ sep)) a = true → Cut sep a = None.
Proof.
  induction a as [|c a IH]; simpl; [done|]. intros [Hc H]%andb_true_iff. apply bool_decide_eq_true in Hc.
  rewrite bool_decide_false by done. by rewrite IH.
Qed.

Lemma flag_name_dashes (double : bool) n : n ≠ "" → HasPrefix n "-" = false →
  flag_name ((if double then "--" else "-") +:+ n) = Some n.
Proof.
  intros Hne Hd. destruct double; [by destruct n|]. destruct n as [|c n]; [done|].
  simpl. destruct (decide (c = "-"%char)) as [->|Hc].
  - exfalso. unfold HasPrefix in Hd. simpl in Hd. by destruct n.
  - destruct c as [[] [] [] [] [] [] [] []]; try reflexivity. done.
Qed.

Lemma not_eq_first n : n ≠ "" → bytes_all (λ c, bool_decide (c ≠ "="%char)) n = true → HasPrefix n "=" = false.
Proof.
  destruct n as [|c n]; [done|]. intros _ [Hc _]%andb_true_iff. apply bool_decide_eq_true in Hc.
  apply not_true_is_false. intros [t Ht]%HasPrefix_iff. simpl in Ht. congruence.
Qed.

Lemma Parse_flag fs f args vs : plain_flag fs f.2.1 →
  Parse fs (render_flag f ++ args) vs = Parse fs args (<[f.2.1 := f.2.2]> vs).
Proof.
  destruct f as [[double joined] [n v]]. cbn [fst snd]. intros (Hl & Hne & Hd & He).
  assert ((n =s "") = false) as E0 by (by apply String.eqb_neq).
  destruct joined; cbn [render_flag app Parse].
  - pose proof (not_eq_first n Hne He) as H. destruct n as [|c n]; [done|].
    assert (∀ p t, HasPrefix (String c n +:+ t) (String p "") = HasPrefix (String c n) (String p "")) as Hp.
    { intros p t. assert (∀ s, String.prefix "" s = true) as E by (by intros []).
      unfold HasPrefix. simpl. destruct (ascii_dec p c); [by rewrite !E|done]. }
    rewrite (flag_name_dashes double (String c n +:+ "=" +:+ v)) by (rewrite ?Hp; done).
    assert (((String c n +:+ "=" +:+ v) =s "") || HasPrefix (String c n +:+ "=" +:+ v) "-" ||
      HasPrefix (String c n +:+ "=" +:+ v) "=" = false) as -> by by rewrite !Hp, Hd, H.
    change ("=" +:+ v) with (String "=" v). rewrite Cut_found by done. by rewrite Hl.
  - rewrite (flag_name_dashes double n) by done. rewrite E0, Hd, (not_eq_first n Hne He). simpl.
    rewrite Cut_none by done. by rewrite Hl.
Qed.

(** *** The environment *)

Lemma Split_joined sep ws : ws ≠ [] → Forall (λ w, bytes_all (λ c, bool_decide (c ≠ sep)) w = true) ws →
  Split sep (String.concat (String sep "") ws) = ws.
Proof.
  assert (∀ w rest, bytes_all (λ c, bool_decide (c ≠ sep)) w = true →
    Split sep (w +:+ String sep rest) = w :: Split sep rest) as Hstep.
  { induction w as [|c w IH]; intros rest; simpl; [by rewrite bool_decide_true|].
    intros [Hc H]%andb_true_iff. apply bool_decide_eq_true in Hc. rewrite bool_decide_false by done. by rewrite IH. }
  assert (∀ w, bytes_all (λ c, bool_decide (c ≠ sep)) w = true → Split sep w = [w]) as Hlast.
  { induction w as [|c w IH]; simpl; [done|]. intros [Hc H]%andb_true_iff. apply bool_decide_eq_true in Hc.
    rewrite bool_decide_false by done. by rewrite IH. }
  induction ws as [|w ws IH]; [done|]. intros _ [Hw Hws]%Forall_cons. destruct ws as [|w' ws].
  - by apply Hlast.
  - change (String.concat (String sep "") (w :: w' :: ws)) with (w +:+ String sep (String.concat (String sep "") (w' :: ws))).
    rewrite Hstep by done. by rewrite IH.
Qed.

Lemma parse_env_spec kvs : Forall env_ok kvs → ∀ env,
  parse_env (render_env <$> kvs) env = Ok (foldl (λ env kv, put_env kv.1 kv.2 env) env kvs).
Proof.
  induction kvs as [|[k v] kvs IH]; [done|]. intros [[Hk _] H]%Forall_cons env. simpl.
  unfold render_env at 1. simpl in Hk |- *. change ("=" +:+ v) with (String "=" v).
  rewrite Cut_found by done. by apply IH.
Qed.

Lemma lookup_put_env k v env k' :
  list_to_map (M:=gmap string string) (put_env k v env) !! k' =
  (<[k := v]> (list_to_map env : gmap string string)) !! k'.
Proof.
  induction env as [|[a b] env IH]; simpl; [done|]. destruct (String.eqb_spec k a) as [<-|Hne]; simpl.
  - by rewrite insert_insert_eq.
  - destruct (decide (k' = a)) as [->|Ha].
    + rewrite lookup_insert_eq, lookup_insert_ne by done. by rewrite lookup_insert_eq.
    + rewrite lookup_insert_ne, IH by done. destruct (decide (k' = k)) as [->|Hk].
      * by rewrite !lookup_insert_eq.
      * by rewrite !lookup_insert_ne.
Qed.

Lemma concat_sep_ne sep w ws : w ≠ "" → String.concat sep (w :: ws) ≠ "".
Proof. destruct w as [|c w]; [done|]. intros _. by destruct ws. Qed.

Lemma env_flag_spec kvs : Forall env_ok kvs →
  env_flag (String.concat "," (render_env <$> kvs)) = Ok (foldl (λ env kv, put_env kv.1 kv.2 env) [] kvs).
Proof.
  intros Hok. destruct (decide (kvs = [])) as [->|Hne]; [done|].
  unfold env_flag. destruct (String.eqb_spec (String.concat "," (render_env <$> kvs)) "") as [He|_].
  - exfalso. destruct kvs as [|[k v] kvs]; [done|]. revert He. rewrite fmap_cons. apply concat_sep_ne.
    unfold render_env. simpl. by destruct k.
  - rewrite Split_joined; [by apply parse_env_spec|by destruct kvs|].
    apply Forall_fmap. eapply Forall_impl; [exact Hok|]. intros [k v] [Hk Hkv]. simpl in *.
    unfold render_env. cbn [fst snd]. rewrite bytes_all_app in Hkv. rewrite !bytes_all_app. exact Hkv.
Qed.

Lemma Parse_flags fs fl : Forall (λ f, plain_flag fs f.2.1) fl → ∀ vs,
  Parse fs (concat (render_flag <$> fl)) vs = Ok (foldl (λ vs f, <[f.2.1 := f.2.2]> vs) vs fl).
Proof.
  induction fl as [|f fl IH]; [done|]. intros [Hf Hfl]%Forall_cons vs. rewrite fmap_cons. simpl.
  rewrite Parse_flag by done. by apply IH.
Qed.

(** *** Keys *)

Lemma decode_b64 s : decodeSignature (b64_EncodeToString s) = s.
Proof. unfold decodeSignature. by rewrite b64_roundtrip. Qed.

Lemma decode_hex_length n s : String.length s = (2 * n)%nat → String.length (decodeSignature (hex_EncodeToString s)) = (3 * n)%nat.
Proof.
  intros Hs. destruct (hex_text_b64 n (hex_EncodeToString s)) as (r & Hr & Hl).
  - apply hex_is_hex.
  - rewrite length_hex. lia.
  - unfold decodeSignature. by rewrite Hr.
Qed.

(** *** Updates *)

Lemma Apply_needs_health sm su c get sha ver (health : string → M OS unit) rel o :
  (∀ p o', is_ok (fst (health p o')) = false) →
  is_ok (fst (Apply sm su c get sha ver (Some health) rel o)) = false.
Proof.
  intros Hh. destruct (Apply sm su c get sha ver (Some health) rel o) as [[[]|e] o'] eqn:E; [exfalso|done].
  unfold Apply in E. apply bind_inv in E as ([] & o1 & _ & E). apply bind_inv in E as (body & o2 & _ & E).
  apply bind_inv in E as ([] & o3 & _ & E). apply bind_inv in E as (state & o4 & _ & E).
  apply bind_inv in E as ([] & o5 & _ & E). apply bind_inv in E as ([] & o6 & _ & E).
  apply bind_inv in E as ([] & o7 & _ & E). apply bind_inv in E as (tmp & o8 & _ & E).
  unfold defer in E. apply bind_inv in E as (r & o9 & E9 & E). apply bind_inv in E as ([] & o10 & _ & E).
  unfold lift_res in E. injection E as -> _. unfold try in E9. set (m := mbind _ _) in E9.
  destruct (m o8) as [r9 o9'] eqn:Em. injection E9 as -> <-. unfold m in Em.
  apply bind_inv in Em as ([] & o11 & _ & Em). apply bind_inv in Em as ([] & o12 & Ec & _).
  unfold commit_candidate in Ec. apply bind_inv in Ec as (r & o13 & E13 & Ec). destruct r as [u|e].
  - unfold try in E13. set (m' := mbind _ _) in E13. destruct (m' o11) as [r13 o13'] eqn:Em'.
    injection E13 as -> <-. unfold m' in Em'. apply bind_inv in Em' as ([] & o14 & E14 & _).
    unfold run_health, wrap in E14. pose proof (Hh (Join [so_Root c; re_Version rel]) o11) as Hf.
    by destruct (health _ o11) as [[[]|e] o15].
  - by apply bind_inv in Ec as ([] & o14 & _ & Ec).
Qed.

(** ** Properties *)

(** The two documented spellings of the update key do not both work.  A key of 32 bytes in
    base64 is accepted and checks the signature; the same key in hexadecimal is refused whatever
    the release, because its 64 digits are valid base64 for 48 bytes. *)
Theorem update_key_forms (ed25519_Verify : string → string → string → bool) key release body :
  String.length key = PublicKeySize →
  (is_ok (env_Verify ed25519_Verify (b64_EncodeToString key) release body) = true ↔
   ed25519_Verify key body (re_Signature release) = true) ∧
  is_ok (env_Verify ed25519_Verify (hex_EncodeToString key) release body) = false.
Proof.
  intros Hk. unfold env_Verify. rewrite decode_b64, Hk. split.
  - rewrite Nat.eqb_refl. simpl. by destruct (ed25519_Verify key body (re_Signature release)).
  - by rewrite (decode_hex_length 16 key Hk).
Qed.

Section Programs.
Context {RT P C : Type} `{!Runtime RT} `{!NodeService P} `{!Crypto}.
Context (yaml_Unmarshal : string → Config → res Config) (yaml_Marshal : Config → res string).
Context (json_Marshal : Env → res string) (json_Unmarshal : string → res Env).
Context (slots_Marshal : slotState → string) (slots_Unmarshal : string → res slotState).
Context (migration : string → res sql_script) (columns : list string) (newPlainClient : string → res unit).
Context (newFake : RT) (docker_New : string → res RT) (docker_Ping : string → res unit).
Context (http_Get : string → res HttpResponse) (sha256 : string → string).
Context (ed25519_Verify : string → string → string → bool) (getenv : string → string).
Context (runner : string → list string → M OS unit) (su : Surroundings).
Context (runDaemon runDoctor runDiagnose : list string → M (World RT P C) (list string)).

Local Abbreviation program := (run (RT:=RT) (P:=P) (C:=C) yaml_Unmarshal yaml_Marshal json_Marshal json_Unmarshal
  slots_Marshal slots_Unmarshal migration columns newPlainClient newFake docker_New docker_Ping http_Get sha256
  ed25519_Verify getenv runner su runDaemon runDoctor runDiagnose).

(** C32.  An update to a build of this program never succeeds.  When the commands the runner starts
    do no better than this program does with the same arguments, every update fails: the health
    check runs the candidate as [--health-check-only --config c], and the program takes its first
    argument for the name of a command. *)
Theorem update_never_succeeds args vs (w : World RT P C) :
  (∀ name args' o, (∀ w', is_ok (fst (program args' w')) = false) → is_ok (fst (runner name args' o)) = false) →
  Parse update_flags args ∅ = Ok vs → flag_set vs "health-check-only" = false →
  is_ok (fst (program ("update" :: args) w)) = false.
Proof.
  intros Hrun Hp Hh. change (program ("update" :: args) w) with
    ((runUpdate yaml_Unmarshal slots_Marshal slots_Unmarshal migration columns docker_Ping http_Get sha256
       ed25519_Verify getenv runner su args;; mret ([] : list string)) w).
  match goal with |- is_ok (fst ?x) = _ => destruct x as [[out|e] w'] eqn:E end; [exfalso|done].
  apply bind_inv in E as ([] & w1 & E & _). unfold runUpdate in E. rewrite Hp in E. apply bind_inv in E as (vs' & w2 & [= <- <-] & E). rewrite Hh in E.
  apply bind_inv in E as ([] & w3 & _ & E). apply bind_inv in E as (cfg & w4 & _ & E).
  unfold os, zoom, apply_update in E.
  match type of E with context [Apply ?sm ?um ?c ?g ?s ?v (Some ?h) ?rel ?o] =>
    pose proof (Apply_needs_health sm um c g s v h rel o) as H'; destruct (Apply sm um c g s v (Some h) rel o) as [[u|e] o']
  end; [|done].
  enough (true = false) by done. apply H'. intros p o1. unfold defaultHealthRunner.
  apply Hrun. intros w5. reflexivity.
Qed.

(** C33. [server create] is the lifecycle's [CreateServer]: whether its flags have one dash or two, and
    their values after [=] or as the next argument, in whatever order they come, the last value
    of each counts; the environment is the map of its [K=V] pairs with the last value of a key,
    and empty without [--env]; the request is made without tunnels, on the store that the
    configuration names. *)
Theorem server_create_spec fl kvs (w : World RT P C) :
  let create_flags := global_flags ++ text_flags ["name"; "egg"; "startup"; "env"] in
  let vs : Values := foldl (λ vs f, <[f.2.1 := f.2.2]> vs) ∅ fl in
  let f name := flag vs name "" in
  Forall (λ f, plain_flag create_flags f.2.1) fl →
  f "env" = String.concat "," (render_env <$> kvs) → Forall env_ok kvs →
  f "name" ≠ "" → f "egg" ≠ "" → f "startup" ≠ "" →
  ∃ env, list_to_map env = (foldl (λ m kv, <[kv.1 := kv.2]> m) ∅ kvs : gmap string string) ∧
    runServer yaml_Unmarshal json_Marshal json_Unmarshal migration columns newFake docker_New su
      ("create" :: concat (render_flag <$> fl)) w =
    (openLifecycle yaml_Unmarshal migration columns newFake docker_New vs;;
     id ← CreateServer json_Marshal None None (su_UUID su) (f "name") (f "egg") (f "startup") env;
     mret [id]) w.
Proof.
  intros create_flags vs f Hfl Henv Hok Hn He Hs.
  exists (foldl (λ env kv, put_env kv.1 kv.2 env) [] kvs). split.
  - assert (∀ env (m : gmap string string), list_to_map env = m →
      list_to_map (foldl (λ env kv, put_env kv.1 kv.2 env) env kvs) = foldl (λ m kv, <[kv.1 := kv.2]> m) m kvs) as Hm; [|by apply Hm].
    clear. induction kvs as [|[k v] kvs IH]; intros env m Hm; simpl; [done|]. apply IH.
    apply map_eq. intros k'. by rewrite lookup_put_env, Hm.
  - cbn [runServer String.eqb Ascii.eqb Bool.eqb]. unfold server_create.
    rewrite (Parse_flags create_flags fl Hfl). fold vs. unfold mbind at 1, M_bind at 1.
    change (lift_res (Ok vs) w) with (Ok vs, w). cbv beta iota zeta.
    change (flag vs "name" "") with (f "name"). change (flag vs "egg" "") with (f "egg").
    change (flag vs "startup" "") with (f "startup"). change (flag vs "env" "") with (f "env").
    rewrite (proj2 (String.eqb_neq _ _) Hn), (proj2 (String.eqb_neq _ _) He), (proj2 (String.eqb_neq _ _) Hs).
    rewrite Henv, env_flag_spec by done. done.
Qed.
End Programs.

(** ** Witnesses *)

Definition sample_key : string := Nat.iter 32 (String.append "k") "".

Lemma update_key_forms_witness :
  is_ok (env_Verify (λ _ _ sig, sig =s "good") (b64_EncodeToString sample_key) (mkRelease "v" "u" "h" "good" "" "") "body") = true ∧
  is_ok (env_Verify (λ _ _ sig, sig =s "good") (hex_EncodeToString sample_key) (mkRelease "v" "u" "h" "good" "" "") "body") = false.
Proof.
  destruct (update_key_forms (λ _ _ sig, sig =s "good") sample_key (mkRelease "v" "u" "h" "good" "" "") "body") as [H1 H2].
  - vm_compute. reflexivity.
  - split; [apply H1; reflexivity|exact H2].
Defined.

#[local] Instance cli_crypto : Crypto := {
  ed25519_GenerateKey := Ok "priv"; x509_MarshalPKCS8PrivateKey k := Ok k;
  x509_CreateCertificateRequest cn k := Ok cn; x509_CreateCertificate t k := Ok (ct_CommonName t);
  pem_EncodeToMemory kind der := kind +:+ der; tls_X509KeyPair c k := Ok (c +:+ k); x509_AppendCertsFromPEM p := Some p }.

#[local] Instance cli_panel : NodeService unit := {
  ns_Heartbeat _ _ := mret tt; ns_Pair token name csr := mret (mkPairingResponse "node-1" "CERT") }.

Definition cli_world : World fake unit unit :=
  mkWorld empty_db NewEventBus (mkOS (list_to_map [(["var"], NDir); (["var"; "lib"], NDir)]) [] [1; 2] []) NewFake tt tt ∅ false ∅.
Definition here : Surroundings := mkSurroundings "uuid-1" "host" "20260101T000000.000000000Z" 7.

(** A runner whose commands fail, but for [doctor]. *)
Definition cli_runner (name : string) (args : list string) : M OS unit :=
  if bool_decide (args = ["doctor"]) then mret tt else fail (EExt "exit status 1").

Lemma update_never_succeeds_witness :
  is_ok (fst (run (λ _ c, Ok c) (λ _, Ok "") (λ _, Ok "{}") (λ _, Ok []) (λ _, "") (λ _, Err (EExt "")) repo_files []
    (λ _, Ok tt) NewFake (λ _, Ok NewFake) (λ _, Ok tt) (λ _, Ok (mkResponse 200 "OK" (Ok "binary"))) (λ _, "")
    (λ _ _ _, true) (λ _, "") cli_runner here (λ _, mret []) (λ _, mret []) (λ _, mret [])
    ["update"; "--version"; "v2"; "--url=u"] cli_world)) = false.
Proof.
  apply (update_never_succeeds (λ _ c, Ok c) (λ _, Ok "") (λ _, Ok "{}") (λ _, Ok []) (λ _, "") (λ _, Err (EExt "")) repo_files []
    (λ _, Ok tt) NewFake (λ _, Ok NewFake) (λ _, Ok tt) (λ _, Ok (mkResponse 200 "OK" (Ok "binary"))) (λ _, "")
    (λ _ _ _, true) (λ _, "") cli_runner here (λ _, mret []) (λ _, mret []) (λ _, mret [])
    ["--version"; "v2"; "--url=u"] (<["url" := "u"]> (<["version" := "v2"]> ∅))).
  - intros name args' o Hw. unfold cli_runner. case_bool_decide as Ha; [|reflexivity].
    specialize (Hw cli_world). subst args'. discriminate Hw.
  - vm_compute. reflexivity.
  - vm_compute. reflexivity.
Defined.

Lemma server_create_spec_witness :
  (∃ w', runServer (λ _ c, Ok c) (λ _, Ok "{}") (λ _, Ok []) repo_files ["config_path"; "sha256"; "allowed_routes"] NewFake (λ _, Ok NewFake) here
    ["create"; "--egg=minecraft"; "-name"; "survival"; "--runtime"; "fake"; "-startup=run"; "--env=A=1,B=x=y,A=2"] cli_world =
    (Ok ["uuid-1"], w')) ∧
  (∃ w', runServer (λ _ c, Ok c) (λ _, Ok "{}") (λ _, Ok []) repo_files ["config_path"; "sha256"; "allowed_routes"] NewFake (λ _, Ok NewFake) here
    ["create"; "--egg=minecraft"; "-name"; "survival"; "--runtime"; "fake"; "-startup=run"] cli_world = (Ok ["uuid-1"], w')).
Proof.
  assert (∀ fl kvs, Forall (λ f, plain_flag (global_flags ++ text_flags ["name"; "egg"; "startup"; "env"]) f.2.1) fl → _) as T
    by exact (λ fl kvs, server_create_spec (RT:=fake) (P:=unit) (C:=unit) (λ _ c, Ok c) (λ _, Ok "{}") (λ _, Ok []) repo_files
      ["config_path"; "sha256"; "allowed_routes"] NewFake (λ _, Ok NewFake) here fl kvs cli_world).
  set (fl := [((true, true), ("egg", "minecraft")); ((false, false), ("name", "survival")); ((true, false), ("runtime", "fake"));
    ((false, true), ("startup", "run"))]).
  split.
  - destruct (T (fl ++ [((true, true), ("env", "A=1,B=x=y,A=2"))]) [("A", "1"); ("B", "x=y"); ("A", "2")]) as (env & Henv & H).
    + repeat (apply Forall_cons_2; [split; [vm_compute; reflexivity|split; [discriminate|split; vm_compute; reflexivity]]|]).
      apply Forall_nil_2.
    + vm_compute. reflexivity.
    + repeat (apply Forall_cons_2; [split; vm_compute; reflexivity|]). apply Forall_nil_2.
    + vm_compute. discriminate.
    + vm_compute. discriminate.
    + vm_compute. discriminate.
    + eexists. etransitivity; [exact H|]. vm_compute. reflexivity.
  - destruct (T fl []) as (env & Henv & H).
    + repeat (apply Forall_cons_2; [split; [vm_compute; reflexivity|split; [discriminate|split; vm_compute; reflexivity]]|]).
      apply Forall_nil_2.
    + vm_compute. reflexivity.
    + apply Forall_nil_2.
    + vm_compute. discriminate.
    + vm_compute. discriminate.
    + vm_compute. discriminate.
    + eexists. etransitivity; [exact H|]. vm_compute. reflexivity.
Defined.
