(* ===== verification/Doctor.v ===== *)
(** * Diagnosis ([cmd/oikos]: [doctor.go], [diagnose.go])

    A report is its lines, in order; the text of an error is kept apart, unrendered.  The
    permission bits of a directory, the Docker daemon and the certificate parser are
    parameters. *)

From S2P Require Import Prelude GoLib GoPath GoOS Config Store Migrations Bus Runtime Resource World Security Agent Plugin PluginHost PluginRegistry Command.
Open Scope Z_scope.

(** ** Definitions *)

Inductive doctorResult := doctorOK | doctorWarn | doctorFail.

#[global] Instance doctorResult_eq_dec : EqDecision doctorResult.
Proof. solve_decision. Defined.

Definition message : Type := string * option error.
Definition text (s : string) : message := (s, None).
Definition err_text (prefix : string) (e : error) : message := (prefix, Some e).

Record doctorCheck (S : Type) := mkCheck {
  dc_Name : string; dc_Required : bool; dc_Run : M S (doctorResult * message) }.
Arguments mkCheck {S}.
Arguments dc_Name {S}.
Arguments dc_Required {S}.
Arguments dc_Run {S}.

Record doctorLine := mkLine { dl_Name : string; dl_Required : bool; dl_Result : doctorResult; dl_Message : message }.

(** [r, err := m(); if err != nil { return doctorFail, prefix + err.Error() }] *)
Definition or_fail {S A} (prefix : string) (m : M S A) (k : A → M S (doctorResult * message)) : M S (doctorResult * message) :=
  r ← try m;
  match r with Ok a => k a | Err e => mret (doctorFail, err_text prefix e) end.

(** The loop over the checks: the lines, and the failures that count. *)
Fixpoint run_checks {S} (checks : list (doctorCheck S)) : M S (list doctorLine) :=
  match checks with
  | [] => mret []
  | c :: checks =>
      rm ← dc_Run c;
      rest ← run_checks checks;
      mret (mkLine (dc_Name c) (dc_Required c) rm.1 rm.2 :: rest)
  end.
Definition counts (l : doctorLine) : bool := bool_decide (dl_Result l = doctorFail) && dl_Required l.
Definition required_failures (lines : list doctorLine) : Z := Z.of_nat (length (filter (λ l, counts l = true) lines)).

(** *** Directories *)

Definition checkExistingDir (p : string) : M OS (doctorResult * message) :=
  if p =s "" then mret (doctorFail, text "path kosong")
  else
    info ← try (Stat p);
    mret (match info with
          | Err e => if IsNotExist e then (doctorWarn, text ("belum dibuat: " +:+ p)) else (doctorFail, err_text "" e)
          | Ok n => if negb (IsDir n) then (doctorFail, text "bukan direktori") else (doctorOK, text "tersedia")
          end).

Section Perm.
(** [info.Mode().Perm()] of a directory *)
Context (dir_perm : string → Z).

Definition checkReadableWritableDir (p : string) : M OS (doctorResult * message) :=
  if p =s "" then mret (doctorFail, text "path kosong")
  else
    info ← try (Stat p);
    mret (match info with
          | Err e => (doctorFail, err_text "" e)
          | Ok n =>
              if negb (IsDir n) then (doctorFail, text "bukan direktori")
              else
                let perm := dir_perm p in
                if Z.land perm 256 =? 0 then (doctorFail, text "tidak readable menurut permission bits")
                else if Z.land perm 128 =? 0 then (doctorWarn, text "readable tetapi permission bits tidak writable")
                else (doctorOK, text "readable dan writable menurut permission bits")
          end).
End Perm.

(** [db.Ping()] *)
Definition Ping : M DB unit := query [] (λ _, Ok tt).

Section Doctor.
Context {RT P C : Type} {H E Hd : Type} `{!Runtime RT} `{!Crypto} `{!HostLifecycle H E Hd}.
Local Abbreviation W := (World RT P C).

Context (yaml_Unmarshal : string → Config → res Config) (dir_perm : string → Z).
Context (migration : string → res sql_script) (columns : list string).
(** A client of the Docker daemon, for a host or for the environment's, and a ping through it. *)
Context (docker_client : option string → res unit) (docker_client_Ping : option string → res unit).
Context (newClient : string → TLSConfig → res unit) (turns : list conn_turn).
Context (json_list : string → res (list string)) (new_host : Manifest → res H) (plugin_env : E).

(** The state of a run: the node, and whether [db] is not nil. *)
Local Abbreviation S := (W * bool)%type.
Definition node {A} (m : M W A) : M S A := zoom fst (λ w s, (w, s.2)) m.
Definition set_db (b : bool) : M S unit := modify (λ s, (s.1, b)).

Definition check_sqlite : M S (doctorResult * message) :=
  or_fail "" (node (db Open)) (λ _,
    set_db true;;
    r ← try (node (db Ping));
    match r with
    | Err e => set_db false;; mret (doctorFail, err_text "" e)
    | Ok _ =>
        or_fail "plugin schema: " (node (db (MigratePlugins migration columns))) (λ _,
          mret (doctorOK, text "read/write connection ok"))
    end).

Definition ping_host (host : option string) : res unit :=
  match docker_client host with Err e => Err e | Ok _ => docker_client_Ping host end.

Definition check_docker (cfg : Config) : M S (doctorResult * message) :=
  if rn_Engine (cf_Runtime cfg) =s "fake" then mret (doctorWarn, text "not required: engine fake")
  else
    let host := rn_DockerSocket (cf_Runtime cfg) in
    or_fail "" (lift_res (ping_host (if host =s "" then None else Some host))) (λ _,
      mret (doctorOK, text "daemon reachable")).

Definition check_cgroups : M S (doctorResult * message) :=
  v ← node (os DetectCgroupVersion);
  mret (if v =s "v2" then (doctorOK, text "available")
        else (doctorWarn, text "v2 unavailable; resource limits may be degraded")).

Definition check_lsm : M S (doctorResult * message) :=
  s ← node (os DetectLSM);
  mret (if lsm_AppArmor s || lsm_SELinux s then (doctorOK, text ("mode=" +:+ lsm_Mode s))
        else (doctorWarn, text "AppArmor/SELinux tidak tersedia; fallback aktif")).

Definition check_userns : M S (doctorResult * message) :=
  mret (match ApplyUserNamespace (DetectUserNamespace false) false false with
        | (Ok _, status) => (doctorWarn, text ("not enabled by default; mode=" +:+ un_Mode status))
        | (Err e, _) => (doctorWarn, err_text "" e)
        end).

(** The dial has five seconds, that is the given turns of the connection. *)
Definition check_panel (cfg : Config) : M S (doctorResult * message) :=
  s ← gets snd;
  if negb s then mret (doctorWarn, text "skipped: SQLite unavailable")
  else
    r ← try (node (db GetNode));
    match r with
    | Err e => mret (if errors_Is e sql_ErrNoRows then (doctorWarn, text "skipped: node belum paired")
                     else (doctorFail, err_text "" e))
    | Ok n =>
        or_fail "cert: " (node (os (Stat (nd_CertPath n)))) (λ _,
        or_fail "key: " (node (os (Stat (nd_KeyPath n)))) (λ _,
        or_fail "" (node (os (LoadClientTLS (nd_CertPath n) (nd_KeyPath n) (pa_CAPath (cf_Panel cfg))))) (λ _,
        c ← node (os (DialPanel newClient (pa_Address (cf_Panel cfg)) (nd_CertPath n) (nd_KeyPath n)
                        (pa_CAPath (cf_Panel cfg)) turns));
        mret (match default (Err (EExt "context deadline exceeded")) c with
              | Err e => (doctorFail, err_text "mTLS/gRPC: " e)
              | Ok _ => (doctorOK, text "mTLS/gRPC reachable")
              end))))
    end.

(** A registry of its own, over the node's database. *)
Definition on_registry {A} (r : Registry H E Hd) (m : M (Registry H E Hd) A) : M W (res A * Registry H E Hd) := λ w,
  let '(x, r') := m (rput_db (Some (w_db w)) r) in
  (Ok (x, r'), put_db (default (w_db w) (rg_db r')) w).

Definition first_error (health : list (string * res unit)) : option (string * error) :=
  head (omap (λ ie, match ie.2 with Err e => Some (ie.1, e) | Ok _ => None end) health).

Definition check_plugins : M S (doctorResult * message) :=
  s ← gets snd;
  if negb s then mret (doctorWarn, text "skipped: SQLite unavailable")
  else
    lr ← node (on_registry (NewRegistry None (Some NewEventBus) plugin_env) (LoadEnabled json_list new_host));
    match lr.1 with
    | Err e => mret (doctorFail, err_text "load: " e)
    | Ok _ =>
        let health := fst (HealthCheckAll lr.2) in
        mret (match first_error health with
              | Some (id, e) => (doctorFail, err_text (id +:+ ": ") e)
              | None => if (length health =? 0)%nat then (doctorWarn, text "no enabled plugins")
                        else (doctorOK, text (FormatInt (Z.of_nat (length health)) +:+ " enabled plugin(s) healthy"))
              end)
    end.

Definition check_frpc (cfg : Config) : M S (doctorResult * message) :=
  if rn_FRPBinary (cf_Runtime cfg) =s "" then mret (doctorWarn, text "skipped: frp binary tidak dikonfigurasi")
  else
    r ← try (node (os (Stat (rn_FRPBinary (cf_Runtime cfg)))));
    mret (match r with
          | Err e => (doctorWarn, err_text "process tidak aktif atau binary tidak tersedia: " e)
          | Ok _ => (doctorWarn, text "binary tersedia; process status dikelola daemon")
          end).

Definition doctor_checks (cfg : Config) : list (doctorCheck S) := [
  mkCheck "config" true (mret (doctorOK, text ("engine=" +:+ rn_Engine (cf_Runtime cfg) +:+ " panel=" +:+ pa_Address (cf_Panel cfg))));
  mkCheck "node.data_dir" true (node (os (checkReadableWritableDir dir_perm (nc_DataDir (cf_Node cfg)))));
  mkCheck "filesystem.server_root" true (node (os (checkExistingDir (fc_ServerRoot (cf_Filesystem cfg)))));
  mkCheck "filesystem.backup_root" true (node (os (checkExistingDir (fc_BackupRoot (cf_Filesystem cfg)))));
  mkCheck "sqlite" true check_sqlite;
  mkCheck "docker.socket" (negb (rn_Engine (cf_Runtime cfg) =s "fake")) (check_docker cfg);
  mkCheck "cgroups.v2" false check_cgroups;
  mkCheck "lsm" false check_lsm;
  mkCheck "user_namespace" false check_userns;
  mkCheck "panel.mtls" false (check_panel cfg);
  mkCheck "plugins" false check_plugins;
  mkCheck "tunnel.frpc" false (check_frpc cfg)].

Definition doctor_verdict (lines : list doctorLine) : res unit :=
  if 0 <? required_failures lines
  then Err (Errorf "doctor menemukan %d required failure" [FormatInt (required_failures lines)])
  else Ok tt.

Definition run_doctor (cfg : Config) : M W (list doctorLine * res unit) := λ w,
  match run_checks (doctor_checks cfg) (w, false) with
  | (Ok lines, s) => (Ok (lines, doctor_verdict lines), s.1)
  | (Err e, s) => (Err e, s.1)
  end.

(** [runDoctor]: the lines it prints, and what it returns. *)
Definition runDoctor (args : list string) : M W (list doctorLine * res unit) :=
  vs ← try (lift_res (Parse (text_flags ["config"]) args ∅));
  match vs with
  | Err e => mret ([], Err e)
  | Ok vs =>
      cfg ← try (os (Config.Load yaml_Unmarshal (flag vs "config" "config.yaml")));
      match cfg with
      | Err e => mret ([mkLine "config" true doctorFail (err_text "" e)], Err e)
      | Ok cfg => run_doctor cfg
      end
  end.

(** *** [diagnose.go] *)

Inductive diagnosis := DiagOK | DiagInfo | DiagFail.
Definition diagLine : Type := diagnosis * string * message.
Definition diag_failed (lines : list diagLine) : bool := existsb (λ l, match l.1.1 with DiagFail => true | _ => false end) lines.

(** The leaf of a key pair: the end of its validity. *)
Context (x509_NotAfter : string → res Time) (now : Time).

(** [ok(name, ...)] for a value, [fail(name, err.Error())] for an error. *)
Definition diag {A} (name : string) (okline : A → list diagLine) (m : M W A) : M W (list diagLine * option A) :=
  r ← try m;
  mret (match r with
        | Ok a => (okline a, Some a)
        | Err e => ([(DiagFail, name, err_text "" e)], None)
        end).

(** The certificate of a paired node. *)
Definition diagnose_cert (n : Node) : M W (list diagLine) :=
  r ← try (cert ← os (ReadFile (nd_CertPath n));
           keyPEM ← os (ReadFile (nd_KeyPath n));
           pair ← lift_res (tls_X509KeyPair cert keyPEM);
           notAfter ← lift_res (x509_NotAfter pair);
           mret notAfter);
  mret [match r with
        | Err e => (DiagFail, "cert", err_text "" e)
        | Ok t => if t <? now then (DiagFail, "cert", text "kedaluwarsa") else (DiagOK, "cert", text "valid")
        end].

Definition diagnose_pairing (have_db : bool) : M W (list diagLine) :=
  if negb have_db then mret [(DiagInfo, "pairing", text "dilewati (sqlite gagal)"); (DiagInfo, "cert", text "dilewati (sqlite gagal)")]
  else
    r ← try (db GetNode);
    match r with
    | Err e => mret (if errors_Is e sql_ErrNoRows
                     then [(DiagInfo, "pairing", text "belum pairing"); (DiagInfo, "cert", text "dilewati (belum pairing)")]
                     else [(DiagFail, "pairing", err_text "" e)])
    | Ok n =>
        ls ← diagnose_cert n;
        mret ((DiagOK, "pairing", text ("node " +:+ nd_ID n)) :: ls)
    end.

Definition diagnose_sqlite : M W (list diagLine * bool) :=
  o ← diag "sqlite-open" (λ _, []) (db Open);
  match o.2 with
  | None => mret (o.1, false)
  | Some _ => m ← diag "sqlite-migrate" (λ _, [(DiagOK, "sqlite", text "open+migrate ok")]) (db (Migrate migration columns));
              mret (m.1, true)
  end.

(** Only the environment's host is tried, whatever the configuration names. *)
Definition diagnose_docker (cfg : Config) : list diagLine :=
  if negb (rn_Engine (cf_Runtime cfg) =s "docker") then [(DiagInfo, "docker", text "dilewati (engine fake)")]
  else match docker_client None with
       | Err e => [(DiagFail, "docker-client", err_text "" e)]
       | Ok _ => match docker_client_Ping None with
                 | Err e => [(DiagFail, "docker-ping", err_text "" e)]
                 | Ok _ => [(DiagOK, "docker", text "daemon reachable")]
                 end
       end.

Definition runDiagnose (args : list string) : M W (list diagLine * res unit) :=
  vs ← try (lift_res (Parse (text_flags ["config"]) args ∅));
  match vs with
  | Err e => mret ([], Err e)
  | Ok vs =>
      let gagal := Err (Errorf "diagnose gagal" []) in
      cfg ← try (os (Config.Load yaml_Unmarshal (flag vs "config" "config.yaml")));
      match cfg with
      | Err e => mret ([(DiagFail, "config", err_text "" e)], gagal)
      | Ok cfg =>
          dir ← diag "data-dir" (λ _, [(DiagOK, "data-dir", text (nc_DataDir (cf_Node cfg)))]) (os (MkdirAll (nc_DataDir (cf_Node cfg))));
          sq ← diagnose_sqlite;
          v ← os DetectCgroupVersion;
          pairing ← diagnose_pairing sq.2;
          let lines := (DiagOK, "config", text ("panel=" +:+ pa_Address (cf_Panel cfg) +:+ " engine=" +:+ rn_Engine (cf_Runtime cfg)))
            :: dir.1 ++ sq.1 ++ diagnose_docker cfg ++ [(DiagInfo, "cgroup", text ("versi " +:+ v))] ++ pairing in
          mret (lines, if diag_failed lines then gagal else Ok tt)
      end
  end.
End Doctor.
