(* ===== verification/Daemon.v ===== *)
(** * The daemon ([cmd/oikos/daemon.go])

    How the parts are put together: what is loaded, opened, started and served, in order, and
    what is undone when a step fails.  The goroutines it leaves running are the models of the
    other files: the event recorder ([Bus]), the scheduler ([Observability]), the command
    stream and the heartbeat ([Agent]), the tunnel supervision ([Tunnel]). *)

From S2P Require Import Prelude GoLib GoPath GoOS Config Store Migrations Bus Runtime World Tunnel Orchestrator Security Agent Plugin PluginHost PluginRegistry Observability Api Command Doctor.
Open Scope Z_scope.

(** ** Definitions *)

Section Daemon.
Context {RT P C : Type} {H E Hd : Type} `{!Runtime RT} `{!Crypto} `{!HostLifecycle H E Hd} `{!ProcessController C}.
Local Abbreviation W := (World RT P C).
Local Abbreviation R := (Registry H E Hd).

Context (yaml_Unmarshal : string → Config → res Config) (egg_Unmarshal : string → res Config.Egg).
Context (migration : string → res sql_script).
Context (newFake : RT) (docker_New : string → res RT).
Context (docker_client : option string → res unit) (docker_client_Ping : option string → res unit).
Context (newClient : string → TLSConfig → res unit) (getenv : string → string) (new_process : C → C).
(** [new_host] is [NewHost] with the options of a socket directory. *)
Context (json_list : string → res (list string)) (new_host : string → Manifest → res H) (plugin_env : E).

(** What a start leaves in memory: the tunnels' configuration, the directory of the eggs, the
    file service, the plugins, the probes, the routes, the page that [/metrics] serves and the
    metrics the scheduler refreshes. *)
Record Daemon := mkDaemon {
  dn_Config : Config; dn_Node : Node; dn_Tunnels : FRPConfig; dn_EggRoot : string;
  dn_Files : FilesystemService; dn_Plugins : R; dn_Health : HealthChecker W;
  dn_Mux : gmap string Target; dn_MetricsPage : Gauges; dn_Metrics : Metrics }.

Definition docker_probe (cfg : Config) : Probe W :=
  if rn_Engine (cf_Runtime cfg) =s "fake" then mret tt
  else lift_res (docker_client None);; lift_res (docker_client_Ping None).

Definition daemon_probes (cfg : Config) : HealthChecker W := list_to_map [
  ("sqlite", db Ping); ("docker", docker_probe cfg); ("panel", HealthyProbe)].

Definition frp_runtime (c : RuntimeConfig) : FRPRuntimeConfig :=
  mkFRPRuntime (rn_FRPBinary c) (rn_FRPConfig c) (rn_FRPServerAddr c) (rn_FRPServerPort c)
    (rn_FRPToken c) (rn_FRPRemotePortMin c) (rn_FRPRemotePortMax c).

(** The registry works on the node's database and bus. *)
Definition on_plugins {A} (r : R) (m : M R A) : M W (res A * R) := λ w,
  let '(x, r') := m (rput_bus (w_bus w) (rg_cancels r) (rg_bridges r) (rput_db (Some (w_db w)) r)) in
  (Ok (x, r'), put_db (default (w_db w) (rg_db r')) (put_bus (rg_bus r') w)).

Definition stop_plugins (r : R) : M W R :=
  xr ← on_plugins r StopAll;
  mret xr.2.

(** [LoadEnabled], then [StartAll]. *)
Definition start_plugins (root : string) : M W R :=
  lr ← on_plugins (NewRegistry None None plugin_env) (LoadEnabled json_list (new_host root));
  lift_res lr.1;;
  sr ← on_plugins lr.2 StartAll;
  lift_res sr.1;;
  mret sr.2.

(** [metrics.Refresh(ctx)], its error dropped. *)
Definition refresh (m : Metrics) : M W Metrics := λ w,
  let '(_, (m', (d, ort))) := Refresh (m, (w_db w, Some (w_rt w))) in
  (Ok m', put_db d (put_rt (default (w_rt w) ort) w)).

Definition paired_node : M W Node :=
  r ← try (db GetNode);
  match r with
  | Ok n => mret n
  | Err e => fail (if errors_Is e sql_ErrNoRows then Errorf "belum pairing, jalankan oikos install dulu" [] else e)
  end.

(** The dial ends at the latest when the process is told to stop. *)
Definition dial (cfg : Config) (n : Node) (turns : list conn_turn) : M W unit :=
  c ← os (DialPanel newClient (pa_Address (cf_Panel cfg)) (nd_CertPath n) (nd_KeyPath n) (pa_CAPath (cf_Panel cfg)) turns);
  lift_res (default (Err (ESentinel context_Canceled)) c).

(** The start, up to [agent.Run]; [mux.Handle] panics for a path that is empty or used twice. *)
Definition daemon_start (configPath : string) (turns : list conn_turn) (now : Z) : M W Daemon :=
  cfg ← os (Config.Load yaml_Unmarshal configPath);
  db Open;;
  db (MigrateNetworking migration);;
  n ← paired_node;
  dial cfg n turns;;
  engine ← (if rn_Engine (cf_Runtime cfg) =s "fake" then mret newFake
            else lift_res (docker_New (rn_DockerSocket (cf_Runtime cfg))));
  modify (λ w, put_rt engine (put_bus NewEventBus (put_manual ∅ w)));;
  frp ← os (NewFromConfig true (frp_runtime (cf_Runtime cfg)));
  NewFrpManager new_process;;
  let eggs := if getenv "OIKOS_EGGS_DIR" =s "" then "eggs" else getenv "OIKOS_EGGS_DIR" in
  let files := NewFilesystemService (fc_ServerRoot (cf_Filesystem cfg)) (fc_MaxUploadBytes (cf_Filesystem cfg))
                 (fc_UploadChunkBytes (cf_Filesystem cfg)) in
  plugins ← start_plugins (Join [nc_DataDir (cf_Node cfg); "plugins"]);
  let metrics := NewMetrics now in
  match NewHTTPServerWithPlugins (cf_Observability cfg) true with
  | None => stop_plugins plugins;; fail (EExt "panic: http: invalid pattern")
  | Some mux =>
      let page := Metrics_Handler metrics in
      metrics ← refresh metrics;
      mret (mkDaemon cfg n frp eggs files plugins (daemon_probes cfg) mux page metrics)
  end.

(** The ports of an egg, for the lifecycle of the daemon. *)
Definition daemon_ports (d : Daemon) : PortProvider (RT:=RT) (P:=P) (C:=C) :=
  λ eggID, os (Ports egg_Unmarshal (dn_EggRoot d) eggID).

(** What [GET /healthz] answers. *)
Definition serve_health (d : Daemon) (now : Time) : M W (Z * HealthReport) := HealthHandler (dn_Health d) now.

Inductive daemon_end := Running | Ended (e : error).

(** [runDaemon]: [agent.Run] returns only with an error, that of the context or of the port; it
    closes the tunnel manager when it has served, then the plugins are stopped. *)
Definition runDaemon (args : list string) (turns : list conn_turn) (now : Z) (listen : res unit)
    (runs : list run_turn) : M W daemon_end :=
  vs ← lift_res (Parse (text_flags ["config"]) args ∅);
  d ← daemon_start (flag vs "config" "/etc/oikos/config.yaml") turns now;
  match Run listen runs with
  | Ok (_, false, _) => mret Running
  | Ok (_, true, _) => ignore Close;; stop_plugins (dn_Plugins d);; mret (Ended (ESentinel context_Canceled))
  | Err e => stop_plugins (dn_Plugins d);; mret (Ended e)
  end.
End Daemon.
