(* ===== verification/DoctorSpec.v ===== *)
(** * What the reports say

    The verdict of [doctor] and of [diagnose], and what [doctor] can say of plugins. *)

From S2P Require Import Prelude GoLib GoPath GoOS Config Store Migrations Bus Runtime Resource World Security Agent Plugin PluginHost PluginRegistry Observability Command Doctor.
Open Scope Z_scope.

(** ** Lemmas *)

(** *** Computations that return a value *)

Definition total {S A} (m : M S A) : Prop := ∀ s, ∃ a s', m s = (Ok a, s').

Lemma total_ret {S A} (a : A) : total (S:=S) (mret a).
Proof. intros s. by eexists _, _. Qed.
Lemma total_try {S A} (m : M S A) : total (try m).
Proof. intros s. unfold try. destruct (m s). by eexists _, _. Qed.
Lemma total_gets {S A} (f : S → A) : total (gets f).
Proof. intros s. by eexists _, _. Qed.
Lemma total_modify {S} (f : S → S) : total (modify f).
Proof. intros s. by eexists _, _. Qed.
Lemma total_bind {S A B} (m : M S A) (k : A → M S B) : total m → (∀ a, total (k a)) → total (m ≫= k).
Proof. intros Hm Hk s. unfold mbind, M_bind. destruct (Hm s) as (a & s' & ->). apply Hk. Qed.
Lemma total_zoom {S T A} (get : S → T) put (m : M T A) : total m → total (zoom get put m).
Proof. intros Hm s. unfold zoom. destruct (Hm (get s)) as (a & t & ->). by eexists _, _. Qed.
Lemma total_or_fail {S A} p (m : M S A) k : (∀ a, total (k a)) → total (or_fail p m k).
Proof. intros Hk. apply total_bind; [apply total_try|]. intros [a|e]; [apply Hk|apply total_ret]. Qed.

Create HintDb total.
#[export] Hint Resolve total_ret total_try total_gets total_modify total_zoom total_or_fail : total.

Ltac solve_total := repeat first [apply total_bind; [|intros ?] | progress (intros; auto with total nocore) | case_match].

Section Doctor.
Context {RT P C : Type} {H E Hd : Type} `{!Runtime RT} `{!Crypto} `{!HostLifecycle H E Hd}.
Context (yaml_Unmarshal : string → Config → res Config) (dir_perm : string → Z).
Context (migration : string → res sql_script) (columns : list string).
Context (docker_client docker_client_Ping : option string → res unit).
Context (newClient : string → TLSConfig → res unit) (turns : list conn_turn).
Context (json_list : string → res (list string)) (new_host : Manifest → res H) (plugin_env : E).

Local Abbreviation S := (World RT P C * bool)%type.
Local Abbreviation checks := (doctor_checks (RT:=RT) (P:=P) (C:=C) dir_perm migration columns docker_client docker_client_Ping
  newClient turns json_list new_host plugin_env).

Lemma total_existing p : total (checkExistingDir p).
Proof. unfold checkExistingDir. solve_total. Qed.

Lemma total_perm p : total (checkReadableWritableDir dir_perm p).
Proof. unfold checkReadableWritableDir. solve_total. Qed.

Lemma total_node {A} (m : M (World RT P C) A) : total m → total (node m).
Proof. apply total_zoom. Qed.
Lemma total_os {A} (m : M OS A) : total m → total (os m : M (World RT P C) A).
Proof. apply total_zoom. Qed.

Lemma total_on_registry {A} r (m : M (Registry H E Hd) A) : total (on_registry (RT:=RT) (P:=P) (C:=C) r m).
Proof. intros w. unfold on_registry. destruct (m _). by eexists _, _. Qed.

Lemma total_checks cfg : Forall (λ c, total (dc_Run c)) (checks cfg).
Proof.
  repeat apply Forall_cons_2; try apply Forall_nil_2; simpl.
  - apply total_ret.
  - apply total_node, total_os, total_perm.
  - apply total_node, total_os, total_existing.
  - apply total_node, total_os, total_existing.
  - unfold check_sqlite, set_db. solve_total.
  - unfold check_docker. solve_total.
  - unfold check_cgroups. solve_total. apply total_node, total_os. unfold DetectCgroupVersion. solve_total.
  - unfold check_lsm. solve_total. apply total_node, total_os. unfold DetectLSM, DetectLSMFromFiles. solve_total.
  - unfold check_userns. solve_total.
  - unfold check_panel. solve_total. apply total_node, total_os. unfold DialPanel. solve_total.
  - unfold check_plugins. solve_total. apply total_node, total_on_registry.
  - unfold check_frpc. solve_total.
Qed.

Lemma run_checks_lines {S'} (cs : list (doctorCheck S')) s : Forall (λ c, total (dc_Run c)) cs →
  ∃ lines s', Doctor.run_checks cs s = (Ok lines, s') ∧
    (λ l, (dl_Name l, dl_Required l)) <$> lines = (λ c, (dc_Name c, dc_Required c)) <$> cs.
Proof.
  intros Hcs. revert s. induction Hcs as [|c cs Hc Hcs IH]; intros s; simpl; [by eexists _, _|].
  unfold mbind, M_bind. destruct (Hc s) as (rm & s1 & ->). destruct (IH s1) as (lines & s2 & -> & Hl).
  eexists _, _. split; [done|]. rewrite !fmap_cons. simpl. by rewrite Hl.
Qed.

Lemma verdict_spec lines : doctor_verdict lines = Ok tt ↔ ∀ l, l ∈ lines → dl_Required l = true → dl_Result l ≠ doctorFail.
Proof.
  unfold doctor_verdict, required_failures. split.
  - destruct (Z.ltb_spec 0 (Z.of_nat (length (filter (λ l, counts l = true) lines)))) as [?|Hz]; [done|].
    intros _ l Hl Hr Hf. assert (l ∈ filter (λ l, counts l = true) lines) as Hin.
    { apply list_elem_of_filter. split; [|done]. unfold counts. by rewrite Hf, Hr. }
    destruct (filter _ lines); [by apply elem_of_nil in Hin|simpl in Hz; lia].
  - intros Hl. assert (filter (λ l, counts l = true) lines = []) as ->; [|done].
    destruct (filter (λ l, counts l = true) lines) as [|l ls] eqn:EF; [done|].
    assert (l ∈ filter (λ l, counts l = true) lines) as Hin by (rewrite EF; left).
    apply list_elem_of_filter in Hin as [[Hf%bool_decide_eq_true Hr]%andb_true_iff Hin]. by destruct (Hl l Hin Hr).
Qed.
End Doctor.

(** *** Plugins that were never started *)

Section Plugins.
Context {RT P C Pl Hd : Type} `{!Runtime RT} `{!PluginService Pl} (sha256 : string → string) (polls : nat).
Context (json_list : string → res (list string)) (options : HostOptions Hd) (plugin_env : HostEnv Pl).
#[local] Instance host_adapter : HostLifecycle (Host Hd) (HostEnv Pl) Hd := concreteHostAdapter sha256 polls.

Lemma NewHost_not_running m h : NewHost m options = Ok h → ho_client h = None.
Proof. unfold NewHost. destruct (ValidateManifest m); [|done]. case_match; [done|]. by intros [= <-]. Qed.

Lemma load_not_running ps loaded : load_plugins json_list (λ m, NewHost m options) ps = Ok loaded →
  Forall (λ x, ho_client x.2.1 = None) loaded.
Proof.
  revert loaded. induction ps as [|p ps IH]; intros loaded; simpl; [by intros [= <-]|].
  case_match; [by apply IH|]. do 2 (case_match; [|done]). case_match eqn:En; [|done].
  destruct (load_plugins _ _ ps) as [l|]; [|done]. intros [= <-]. constructor; [by eapply NewHost_not_running|by apply IH].
Qed.

Local Abbreviation R := (Registry (Host Hd) (HostEnv Pl) Hd).

(** No host of the registry has a process. *)
Definition all_stopped (r : R) : Prop := ∀ id h, rg_hosts r !! id = Some h → ho_client h = None.

Lemma HealthCheck_stopped (h : Host Hd) (e : HostEnv Pl) : ho_client h = None →
  PluginHost.HealthCheck (h, e) = (Err (Errorf "plugin is not running" []), (h, e)).
Proof. intros Hc. unfold PluginHost.HealthCheck, gets, mbind, M_bind. simpl. by rewrite Hc. Qed.

Lemma health_step id (r : R) h : rg_hosts r !! id = Some h → all_stopped r →
  ∃ r', on_host_id id tt hl_HealthCheck r = (Err (Errorf "plugin is not running" []), r') ∧ rg_hosts r' = rg_hosts r.
Proof.
  intros Hh Hs. unfold on_host_id, run_host. rewrite Hh. simpl. rewrite HealthCheck_stopped by by eapply Hs.
  eexists. split; [done|]. simpl. by rewrite insert_id.
Qed.

Lemma health_all_fail ids : ∀ (acc : list (string * res unit)) (r : R),
  all_stopped r → Forall (λ id, is_Some (rg_hosts r !! id)) ids → Forall (λ x, is_ok x.2 = false) acc →
  Forall (λ x, is_ok x.2 = false) (fst (foldl (λ acc id,
    let '(l, r) := (acc : list (string * res unit) * R) in
    let '(x, r) := on_host_id id tt hl_HealthCheck r in (l ++ [(id, x)], r)) (acc, r) ids)) ∧
  length (fst (foldl (λ acc id,
    let '(l, r) := (acc : list (string * res unit) * R) in
    let '(x, r) := on_host_id id tt hl_HealthCheck r in (l ++ [(id, x)], r)) (acc, r) ids)) = (length acc + length ids)%nat.
Proof.
  induction ids as [|id ids IH]; intros acc r Hs Hids Hacc; cbn [foldl]; [split; [done|simpl; lia]|].
  apply Forall_cons in Hids as [[h Hh] Hids]. destruct (health_step id r h Hh Hs) as (r' & -> & Hr').
  destruct (IH (acc ++ [(id, Err (Errorf "plugin is not running" []))]) r') as [H1 H2].
  - intros id' h' Hh'. rewrite Hr' in Hh'. by eapply Hs.
  - eapply Forall_impl; [exact Hids|]. intros id' Hid'. by rewrite Hr'.
  - apply Forall_app. split; [done|]. by constructor.
  - split; [exact H1|]. rewrite H2, length_app. simpl. lia.
Qed.

Lemma lookup_new_hosts (loaded : list (string * (Host Hd * Manifest))) id h :
  (list_to_map ((λ x, (x.1, x.2.1)) <$> loaded) : gmap string (Host Hd)) !! id = Some h →
  ∃ x, x ∈ loaded ∧ x.1 = id ∧ x.2.1 = h.
Proof. intros (x & [= -> ->] & Hx)%elem_of_list_to_map_2%list_elem_of_fmap. eauto. Qed.

Lemma install_stopped loaded (r : R) :
  Forall (λ x, ho_client x.2.1 = None) loaded → rg_hosts r = ∅ → all_stopped (snd (install_loaded loaded r)).
Proof.
  intros Hl Hr. unfold install_loaded. rewrite Hr, (right_id_L ∅ (∪)).
  set (new := list_to_map ((λ x, (x.1, x.2.1)) <$> loaded) : gmap string (Host Hd)).
  assert (filter (λ ih, ih.1 ∉ loaded.*1) new = ∅) as ->.
  { apply map_empty. intros id. apply map_lookup_filter_None. right. intros h Hh Hn. apply Hn.
    apply lookup_new_hosts in Hh as (x & Hx & <- & _). simpl. apply list_elem_of_fmap. eauto. }
  rewrite map_to_list_empty. simpl. intros id h. simpl. intros [Hh _]%map_lookup_filter_Some.
  apply lookup_new_hosts in Hh as (x & Hx & _ & <-). rewrite Forall_forall in Hl. by apply Hl.
Qed.

Lemma LoadEnabled_stopped (r r1 : R) :
  rg_hosts r = ∅ → LoadEnabled json_list (λ m, NewHost m options) r = (Ok tt, r1) → all_stopped r1.
Proof.
  intros Hr. unfold LoadEnabled. destruct (rg_db r) as [d|]; [|done]. destruct (ListPlugins d) as [[ps|e] d']; [|done].
  destruct (load_plugins json_list (λ m, NewHost m options) ps) as [loaded|e] eqn:El; [|done].
  intros HL. pose proof (install_stopped loaded (rput_db (Some d') r) (load_not_running _ _ El) Hr) as Hst.
  by rewrite HL in Hst.
Qed.

(** [doctor] does not start the plugins it asks: it never finds one healthy, and reports a
    failure as soon as one is enabled. *)
Lemma doctor_plugins_never_ok (s : World RT P C * bool) r msg s' :
  check_plugins json_list (λ m, NewHost m options) plugin_env s = (Ok (r, msg), s') → r ≠ doctorOK.
Proof.
  unfold check_plugins, gets, mbind, M_bind. cbv beta iota zeta. destruct s as [w b]. cbn [snd fst].
  destruct b; [|by intros [= <- _ _]]. simpl.
  destruct (node _ _) as [[[lr r1]|e] s1] eqn:EL; [|done]. simpl. destruct lr as [[]|e]; [|by intros [= <- _ _]].
  assert (all_stopped r1) as Hs1.
  { unfold node, zoom, on_registry in EL. cbn [fst snd] in EL.
    match type of EL with context [LoadEnabled _ _ ?r0] => destruct (LoadEnabled json_list (λ m, NewHost m options) r0) as [x r2] eqn:HL end.
    injection EL as -> -> _. eapply LoadEnabled_stopped; [|exact HL]. done. }
  unfold HealthCheckAll.
  match goal with |- context [foldl _ ([], r1) ?ids] => pose proof (health_all_fail ids [] r1 Hs1) as Hall end.
  destruct Hall as [Hf Hlen].
  { apply Forall_forall. intros id [_ Hid]%list_elem_of_filter. apply list_elem_of_fmap in Hid as ([id' h] & -> & Hh%elem_of_map_to_list). by eexists. }
  { by constructor. }
  destruct (fst (foldl _ ([], r1) _)) as [|[id x] l]; [by intros [= <- _ _]|].
  apply Forall_cons in Hf as [Hx _]. destruct x as [|e]; [done|]. simpl. by intros [= <- _ _].
Qed.
End Plugins.

(** ** Properties *)

Section Verdict.
Context {RT P C : Type} {H E Hd : Type} `{!Runtime RT} `{!Crypto} `{!HostLifecycle H E Hd}.
Context (dir_perm : string → Z) (migration : string → res sql_script) (columns : list string).
Context (docker_client docker_client_Ping : option string → res unit).
Context (newClient : string → TLSConfig → res unit) (turns : list conn_turn).
Context (json_list : string → res (list string)) (new_host : Manifest → res H) (plugin_env : E).

(** The report of [doctor] is complete and its verdict is that of its required checks.  Whatever
    fails, every check runs, in order, and prints its line; the command succeeds exactly when no
    required check fails, and these are the configuration, the three directories, SQLite, and
    Docker unless the engine is the in-memory one: warnings, the Panel, the plugins and the
    tunnel never make it fail. *)
Theorem doctor_verdict_spec cfg (w : World RT P C) :
  ∃ lines verdict w', run_doctor dir_perm migration columns docker_client docker_client_Ping newClient turns
      json_list new_host plugin_env cfg w = (Ok (lines, verdict), w') ∧
    dl_Name <$> lines = ["config"; "node.data_dir"; "filesystem.server_root"; "filesystem.backup_root"; "sqlite";
      "docker.socket"; "cgroups.v2"; "lsm"; "user_namespace"; "panel.mtls"; "plugins"; "tunnel.frpc"] ∧
    (verdict = Ok tt ↔ ∀ l, l ∈ lines → dl_Required l = true → dl_Result l ≠ doctorFail) ∧
    ∀ l, l ∈ lines → dl_Required l = bool_decide (dl_Name l ∈ ["config"; "node.data_dir"; "filesystem.server_root";
        "filesystem.backup_root"; "sqlite"]) || (dl_Name l =s "docker.socket") && negb (rn_Engine (cf_Runtime cfg) =s "fake").
Proof.
  destruct (run_checks_lines (doctor_checks dir_perm migration columns docker_client docker_client_Ping newClient turns
    json_list new_host plugin_env cfg) (w, false) (total_checks _ _ _ _ _ _ _ _ _ _ cfg)) as (lines & s' & Hrun & Hl).
  exists lines, (doctor_verdict lines), s'.1. unfold run_doctor. rewrite Hrun. split; [done|]. split; [|split].
  - apply (f_equal (fmap fst)) in Hl. rewrite <- list_fmap_compose in Hl. exact Hl.
  - apply verdict_spec.
  - intros l Hin. apply (list_elem_of_fmap_2 (λ l, (dl_Name l, dl_Required l))) in Hin. rewrite Hl in Hin. simpl in Hin.
    repeat (apply elem_of_cons in Hin as [Hin|Hin]; [injection Hin as -> ->; by vm_compute|]). by apply elem_of_nil in Hin.
Qed.
End Verdict.
