(* ===== verification/DaemonSpec.v ===== *)
(** * What a started daemon does

    What it answers on its health and metrics endpoints, and what it knows of the tunnels of the
    time before its start. *)

From S2P Require Import Prelude GoLib GoPath GoOS GoOSFacts AtomicFile Config Store Migrations StoreFacts StoreSpec Bus Runtime Resource World Tunnel TunnelFacts TunnelSpec Orchestrator Security Agent Plugin PluginHost PluginRegistry Observability Command Doctor Daemon.
Open Scope Z_scope.

(** ** Properties *)

(** *** Its endpoints *)

Section Endpoints.
Context {RT P C : Type} {H E Hd : Type} `{!Runtime RT} `{!Crypto} `{!HostLifecycle H E Hd} `{!ProcessController C}.
Local Abbreviation W := (World RT P C).
Context (yaml_Unmarshal : string → Config → res Config) (migration : string → res sql_script).
Context (newFake : RT) (docker_New : string → res RT).
Context (docker_client docker_client_Ping : option string → res unit).
Context (newClient : string → TLSConfig → res unit) (getenv : string → string) (new_process : C → C).
Context (json_list : string → res (list string)) (new_host : string → Manifest → res H) (plugin_env : E).

Lemma probe_names_daemon cfg : probe_names (daemon_probes (RT:=RT) (P:=P) (C:=C) docker_client docker_client_Ping cfg) =
  ["docker"; "panel"; "sqlite"].
Proof. reflexivity. Qed.

Lemma docker_probe_looks cfg (w : W) : snd (docker_probe docker_client docker_client_Ping cfg w) = w.
Proof.
  unfold docker_probe. case_match; [done|]. unfold mbind, M_bind, lift_res.
  by destruct (docker_client None).
Qed.

(** C34.  What a started daemon tells its monitoring.  Its metrics page has no server, no tunnel and no
    usage, whatever runs and however often the metrics are refreshed: the page is made before the
    first refresh.  Its health is never degraded: it is answered with 200 when Docker and
    SQLite answer and with 503 otherwise; the Panel is not asked. *)
Theorem daemon_endpoints configPath turns now (w w1 : W) d :
  daemon_start yaml_Unmarshal migration newFake docker_New docker_client docker_client_Ping newClient getenv
    new_process json_list new_host plugin_env configPath turns now w = (Ok d, w1) →
  dn_MetricsPage d = mkGauges ∅ ∅ ∅ ∅ now ∧
  ∀ t w2, let ok := is_ok (fst (docker_probe docker_client docker_client_Ping (dn_Config d) w2)) &&
                    is_ok (fst (Ping (w_db w2))) in
    ∃ report w3, serve_health d t w2 = (Ok (if ok then 200 else 503, report), w3) ∧
      hr_Status report = (if ok then Healthy else Unhealthy).
Proof.
  intros Hd0. assert (dn_MetricsPage d = mkGauges ∅ ∅ ∅ ∅ now ∧
    dn_Health d = daemon_probes docker_client docker_client_Ping (dn_Config d)) as [Hp Hh].
  { unfold daemon_start in Hd0. repeat (apply bind_inv in Hd0 as (? & ? & _ & Hd0)).
    destruct (NewHTTPServerWithPlugins _ true); [|by apply bind_inv in Hd0 as (? & ? & _ & Hd0)].
    apply bind_inv in Hd0 as (m & ? & _ & Hd0). by injection Hd0 as <- _. }
  split; [exact Hp|]. intros t w2. unfold serve_health, HealthHandler, HealthChecker_Check. rewrite Hh, probe_names_daemon.
  cbn [Observability.run_checks].
  change (daemon_probes docker_client docker_client_Ping (dn_Config d) !! "docker")
    with (Some (docker_probe (RT:=RT) (P:=P) (C:=C) docker_client docker_client_Ping (dn_Config d))).
  change (daemon_probes docker_client docker_client_Ping (dn_Config d) !! "panel") with (Some (HealthyProbe (S:=W))).
  change (daemon_probes docker_client docker_client_Ping (dn_Config d) !! "sqlite") with (Some (db Ping : Probe W)).
  unfold mbind, M_bind, try, HealthyProbe, db, zoom.
  pose proof (docker_probe_looks (dn_Config d) w2) as Hl.
  destruct (docker_probe docker_client docker_client_Ping (dn_Config d) w2) as [[[]|e1] w2'];
    simpl in Hl |- *; subst w2'; destruct (Ping (w_db w2)) as [[[]|e2] d'];
    (eexists _, _; split; [reflexivity|reflexivity]).
Qed.
End Endpoints.

(** *** The tunnels of an earlier run *)

Section Tunnels.
Context {RT P : Type} {H E Hd : Type} `{!Runtime RT} `{!Crypto} `{!HostLifecycle H E Hd} `{!PanelAllocator P}.
Local Abbreviation W := (World RT P osProcessController).
Context (yaml_Unmarshal : string → Config → res Config) (migration : string → res sql_script).
Context (newFake : RT) (docker_New : string → res RT).
Context (docker_client docker_client_Ping : option string → res unit).
Context (newClient : string → TLSConfig → res unit) (getenv : string → string).
Context (json_list : string → res (list string)) (new_host : string → Manifest → res H) (plugin_env : E).
Context (toml_Marshal : frpFile → res string).

(** What the tunnel manager has in memory. *)
Definition manager (w : W) : gmap string PortMapping * osProcessController := (w_maps w, w_proc w).

(** What happens to the manager in a part of the start. *)
Local Abbreviation at_manager mgr := (λ w : W, manager w = mgr).

Lemma keeps_db mgr {A} (m : M DB A) : keeps (at_manager mgr) (db m).
Proof. by apply keeps_zoom. Qed.
Lemma keeps_os mgr {A} (m : M OS A) : keeps (at_manager mgr) (os m).
Proof. by apply keeps_zoom. Qed.

Lemma keeps_on_plugins mgr {A} (r : Registry H E Hd) (m : M (Registry H E Hd) A) :
  keeps (at_manager mgr) (on_plugins r m).
Proof. intros w Hw. unfold on_plugins. by destruct (m _). Qed.

Lemma keeps_refresh mgr m : keeps (at_manager mgr) (refresh m).
Proof. intros w Hw. unfold refresh. by destruct (Refresh _) as [? [? [??]]]. Qed.

#[local] Hint Resolve keeps_db keeps_os keeps_on_plugins keeps_refresh : keeps.

Lemma daemon_start_manager configPath turns now (w w1 : W) d :
  daemon_start yaml_Unmarshal migration newFake docker_New docker_client docker_client_Ping newClient getenv
    NewOSProcessController json_list new_host plugin_env configPath turns now w = (Ok d, w1) →
  manager w1 = (∅, NewOSProcessController (w_proc w)).
Proof.
  unfold daemon_start. intros Hd0.
  assert (∀ {A} (m : M W A) mgr (s s' : W) r, keeps (at_manager mgr) m → manager s = mgr → m s = (r, s') → manager s' = mgr) as step.
  { intros A m mgr s s' r Hk Hs Hm. specialize (Hk s Hs). by rewrite Hm in Hk. }
  apply bind_inv in Hd0 as (cfg & w2 & H2 & Hd0). apply bind_inv in Hd0 as (? & w3 & H3 & Hd0).
  apply bind_inv in Hd0 as (? & w4 & H4 & Hd0). apply bind_inv in Hd0 as (n & w5 & H5 & Hd0).
  apply bind_inv in Hd0 as (? & w6 & H6 & Hd0). apply bind_inv in Hd0 as (e & w7 & H7 & Hd0).
  apply bind_inv in Hd0 as (? & w8 & H8 & Hd0). apply bind_inv in Hd0 as (frp & w9 & H9 & Hd0).
  apply bind_inv in Hd0 as (? & w10 & [= _ <-] & Hd0).
  assert (w_proc w9 = w_proc w) as Hp.
  { assert (manager w9 = manager w) as E0; [|by injection E0].
    eapply step in H2; [|apply keeps_os|reflexivity]. eapply step in H3; [|apply keeps_db|exact H2].
    eapply step in H4; [|apply keeps_db|exact H3].
    eapply step in H5; [|unfold paired_node; solve_keeps|exact H4].
    eapply step in H6; [|unfold dial; solve_keeps|exact H5].
    eapply step in H7; [|case_match; solve_keeps|exact H6].
    injection H8 as _ <-. eapply step in H9; [exact H9|apply keeps_os|exact H7]. }
  eapply step in Hd0; [exact Hd0| |unfold manager; simpl; by rewrite Hp].
  apply keeps_bind; [unfold start_plugins; solve_keeps|]. intros ps.
  destruct (NewHTTPServerWithPlugins _ true); [solve_keeps|]. unfold stop_plugins. solve_keeps.
Qed.

(** C17.  A daemon that is started again does not serve the tunnels of its earlier run.  It holds no
    mapping and no frpc, and its supervision ends at its first turn.  A port that the store
    already knows is answered with its recorded tunnel, and nothing is started for it.  The first
    port that is new gets a configuration of its own: whatever the store holds, the file that
    frpc then reads lists this port alone. *)
Theorem daemon_forgets_tunnels configPath turns now (w w1 : W) d :
  daemon_start yaml_Unmarshal migration newFake docker_New docker_client docker_client_Ping newClient getenv
    NewOSProcessController json_list new_host plugin_env configPath turns now w = (Ok d, w1) →
  let cfg := dn_Tunnels d in
  (∀ n, watch_turn toml_Marshal cfg n w1 = (Ok None, w1)) ∧
  ∀ m,
    (∀ t db', GetTunnelByMapping (pm_ServerID m) (pm_LocalPort m) (pm_Protocol m) (w_db w1) = (Ok t, db') →
       0 < tn_RemotePort t →
       RegisterPort toml_Marshal cfg m w1 = (Ok (mkAssignment (tn_ID t) (tn_RemotePort t) (tn_Status t)), put_db db' w1)) ∧
    (∀ a w2, sound_path (os_tree (w_os w1)) (fc_ConfigPath cfg) → config_name_ok (fc_ConfigPath cfg) →
       db_faults (w_db w1) = [] → RegisterPort toml_Marshal cfg m w1 = (Ok a, w2) → w2 ≠ w1 →
       ∃ data mode, GenerateConfig toml_Marshal cfg [assigned m a] = Ok data ∧
         os_tree (w_os w2) !! comps (fc_ConfigPath cfg) = Some (NFile data mode)).
Proof.
  intros HD cfg. apply daemon_start_manager in HD. injection HD as Hm Hp. split; [|intros m; split].
  - intros n. unfold watch_turn, proc, zoom, mbind, M_bind. simpl. rewrite Hp. simpl. rewrite <- Hp. by destruct w1.
  - intros t db' Hg Ht. unfold RegisterPort, try, db, zoom, mbind, M_bind. rewrite Hg.
    destruct (Z.ltb_spec 0 (tn_RemotePort t)); [done|lia].
  - intros a w2 Hs Hn Hf HR Hne. apply RegisterPort_synced in HR as [[(data & mode & Hg & Ho) Hm2]|HR]; [|by apply answered_same in HR|done..].
    exists data, mode. split; [|done]. rewrite Hm2, Hm, insert_empty, map_to_list_singleton in Hg. exact Hg.
Qed.
End Tunnels.

(** ** Witnesses *)

#[local] Existing Instance counting_panel.

#[local] Instance doctor_crypto : Crypto := {
  ed25519_GenerateKey := Ok "priv"; x509_MarshalPKCS8PrivateKey k := Ok k;
  x509_CreateCertificateRequest cn k := Ok cn; x509_CreateCertificate t k := Ok (ct_CommonName t);
  pem_EncodeToMemory kind der := kind +:+ der; tls_X509KeyPair c k := Ok (c +:+ k); x509_AppendCertsFromPEM p := Some p }.

#[local] Instance no_plugins : HostLifecycle unit unit unit := {|
  hl_Start := mret tt; hl_Stop := mret tt; hl_HandleEvent _ := mret tt; hl_HealthCheck := mret tt;
  hl_Status _ := mkHostStatus false false None; hl_RouteHandler := None |}.

(** A paired node with its certificate and a frpc binary. *)
Definition paired_db : DB := snd (SaveNode (mkNode "node-1" "n" "panel" "/etc/oikos/certs/node.crt" "/etc/oikos/certs/node.key" 7) fresh_db).
Definition paired_os : OS := mkOS (list_to_map [
  (["etc"], NDir); (["etc"; "oikos"], NDir); (["etc"; "oikos"; "config.yaml"], NFile "" 420); (["etc"; "oikos"; "certs"], NDir);
  (["etc"; "oikos"; "certs"; "node.crt"], NFile "CERT" 384); (["etc"; "oikos"; "certs"; "node.key"], NFile "KEY" 384);
  (["etc"; "oikos"; "certs"; "ca.crt"], NFile "CA" 420);
  (["usr"], NDir); (["usr"; "local"], NDir); (["usr"; "local"; "bin"], NDir); (["usr"; "local"; "bin"; "frpc"], NFile "elf" 493)]) [] [1; 2; 3] [].
Definition daemon_world : World fake Z osProcessController :=
  mkWorld paired_db NewEventBus paired_os NewFake 20000 (mkProc None ∅ 0 []) ∅ false ∅.

Definition sample_start : M (World fake Z osProcessController) (Daemon (H:=unit) (E:=unit) (Hd:=unit)) :=
  daemon_start (λ _ c, Ok c) repo_files NewFake (λ _, Ok NewFake) (λ _, Ok tt) (λ _, Err (EExt "refused")) (λ _ _, Ok tt) (λ _, "")
    NewOSProcessController (λ _, Ok []) (λ _ _, Ok tt) tt "/etc/oikos/config.yaml" [mkConnTurn true false] 5.

(** Docker does not answer: the daemon that started says so. *)
Lemma daemon_endpoints_witness :
  match fst (sample_start daemon_world) with
  | Ok d => dn_MetricsPage d = mkGauges ∅ ∅ ∅ ∅ 5 ∧
            ∃ report w3, serve_health d 9 daemon_world = (Ok (503, report), w3) ∧ hr_Status report = Unhealthy
  | Err _ => False
  end.
Proof.
  destruct (sample_start daemon_world) as [r w1] eqn:E. destruct r as [d|e].
  - destruct (daemon_endpoints (λ _ c, Ok c) repo_files NewFake (λ _, Ok NewFake) (λ _, Ok tt) (λ _, Err (EExt "refused"))
      (λ _ _, Ok tt) (λ _, "") NewOSProcessController (λ _, Ok []) (λ _ _, Ok tt) tt "/etc/oikos/config.yaml" [mkConnTurn true false] 5 daemon_world w1 d E) as [H1 H2].
    cbn [fst]. split; [exact H1|]. destruct (H2 9 daemon_world) as (report & w3 & H3 & H4).
    exists report, w3.
    assert (rn_Engine (cf_Runtime (dn_Config d)) = "docker") as Hd.
    { assert (match fst (sample_start daemon_world) with Ok d => rn_Engine (cf_Runtime (dn_Config d)) =s "docker" | Err _ => false end = true)
        as Ht by (vm_compute; reflexivity). rewrite E in Ht. cbn [fst] in Ht. by apply String.eqb_eq in Ht. }
    unfold docker_probe in H3, H4. rewrite Hd in H3, H4. split; [exact H3|exact H4].
  - assert (is_ok (fst (sample_start daemon_world)) = true) as Ht by (vm_compute; reflexivity).
    rewrite E in Ht. discriminate Ht.
Defined.

(** A node with a recorded tunnel, whose frpc has ended with the last daemon. *)
Definition tunnel_db : DB :=
  snd ((EnsureEgg (Store.mkEgg "mc" "mc" "" "");; Store.CreateServer (mkServer "s1" "S" "mc" "" "stopped" "java" "{}" 0 zeroTime);;
        SaveTunnel (mkTunnel "told" "s1" 25565 20001 "tcp" "connected" zeroTime)) paired_db).
Definition tunnel_world : World fake Z osProcessController :=
  mkWorld tunnel_db NewEventBus paired_os NewFake 30001 (mkProc None ∅ 7 []) ∅ false ∅.

(** A configuration with a relay. *)
Definition relay_config (c : Config) : Config :=
  mkConfig (cf_Node c) (cf_Panel c)
    (mkRuntimeConfig "fake" "" "/usr/local/bin/frpc" "/var/lib/oikos/frpc.toml" "relay" 7000 "tok" 30000 40000)
    (cf_API c) (cf_Log c) (cf_Observability c) (cf_Filesystem c) (cf_SFTP c) (cf_Plugins c).

Definition relay_start : M (World fake Z osProcessController) (Daemon (H:=unit) (E:=unit) (Hd:=unit)) :=
  daemon_start (λ _ c, Ok (relay_config c)) repo_files NewFake (λ _, Ok NewFake) (λ _, Ok tt) (λ _, Ok tt) (λ _ _, Ok tt) (λ _, "")
    NewOSProcessController (λ _, Ok []) (λ _ _, Ok tt) tt "/etc/oikos/config.yaml" [mkConnTurn true false] 5.

Definition restarted_world : World fake Z osProcessController := Eval vm_compute in snd (relay_start tunnel_world).
Definition restarted_frp : FRPConfig :=
  Eval vm_compute in match fst (relay_start tunnel_world) with Ok d => dn_Tunnels d | Err _ => sample_cfg end.

(** The recorded port of the server is answered; the new one is alone in the file. *)
Lemma daemon_forgets_tunnels_witness :
  RegisterPort toml_names restarted_frp game restarted_world = (Ok (mkAssignment "told" 20001 "connected"), restarted_world) ∧
  ∃ data mode, data = "oikos-s1-tudp25565" ∧
    os_tree (w_os (snd (RegisterPort toml_names restarted_frp query_port restarted_world))) !! comps "/var/lib/oikos/frpc.toml" =
    Some (NFile data mode).
Proof.
  destruct (relay_start tunnel_world) as [r w1] eqn:E.
  assert (w1 = restarted_world) as -> by (change restarted_world with (snd (relay_start tunnel_world)); by rewrite E).
  destruct r as [d|e].
  2:{ apply (f_equal (λ x, is_ok (fst x))) in E. vm_compute in E. discriminate E. }
  destruct (daemon_forgets_tunnels (λ _ c, Ok (relay_config c)) repo_files NewFake (λ _, Ok NewFake) (λ _, Ok tt) (λ _, Ok tt)
    (λ _ _, Ok tt) (λ _, "") (λ _, Ok []) (λ _ _, Ok tt) tt toml_names "/etc/oikos/config.yaml" [mkConnTurn true false] 5
    tunnel_world restarted_world d E) as [_ H].
  assert (dn_Tunnels d = restarted_frp) as Hf.
  { change restarted_frp with (match fst (relay_start tunnel_world) with Ok d => dn_Tunnels d | Err _ => sample_cfg end).
    by rewrite E. }
  rewrite Hf in H. split.
  - destruct (H game) as [H1 _]. rewrite (H1 (mkTunnel "told" "s1" 25565 20001 "tcp" "connected" zeroTime) (w_db restarted_world)).
    + reflexivity.
    + vm_compute. reflexivity.
    + reflexivity.
  - destruct (H query_port) as [_ H2].
    destruct (H2 (mkAssignment "tudp25565" 30002 "pending") (snd (RegisterPort toml_names restarted_frp query_port restarted_world)))
      as (data & mode & Hg & Ho).
    + apply (sound_render _ _ ["var"; "lib"; "oikos"] "frpc.toml"); [vm_compute; reflexivity|reflexivity
        |vm_compute; repeat constructor; done|vm_compute; repeat constructor; done|vm_compute; reflexivity].
    + intros c. vm_compute. by intros [= <-].
    + vm_compute. reflexivity.
    + vm_compute. reflexivity.
    + intros He. apply (f_equal (λ w, size (w_maps w))) in He. vm_compute in He. discriminate He.
    + exists data, mode. split; [|exact Ho]. vm_compute in Hg. by injection Hg as <-.
Defined.
